(* ===== verification/_CoqProject ===== *)
-Q . S2P
Prelude.v
GoStrings.v
GoSort.v
GoValue.v
Protocol.v
GoPath.v
GoFS.v
Utf8.v
JsonText.v
JsonLine.v
JsonPrefix.v
Json.v
JsonValid.v
State.v
StateRefine.v
Guard.v
GoTime.v
Rfc3339.v
StateText.v
Storage.v
SchemaText.v
StorageDB.v
Schema.v
Config.v
Registry.v
Wire.v
Relay.v
Route.v
Prompt.v
Verify.v
Adapter.v
Host.v
Hook.v
Skills.v
Mcp.v
Daemon.v
Servers.v
Pi.v
PiDriver.v
Orchestrator.v
Checks.v
Observer.v
Flags.v
Report.v
Remote.v
Run.v
Cli.v
DemoWorld.v
Observe.v
RunTrace.v
RunOutcome.v
RunLedger.v
HandleSpec.v
CliSpec.v
Client.v
Process.v
