(* ===== verification/Prelude.v ===== *)
(** * Oh-My-Gunnsama: a verified model of the harness core

    Oh-My-Gunnsama puts one process between a coding host (Claude, Codex,
    OpenCode, the [omg] command) and its work: the host sends a request for every
    hook event, and gets back a prompt to inject, a verdict on a tool call, or
    the outcome of a whole run that a worker executes. The development models the
    Go code under [src/] that decides these answers, and the state it leaves
    behind. This file is the root; it also holds what all files share: the error
    and result types, notations, tactics, and generic lemmas.

    ** Parts and files

    Go's standard library, as far as the program uses it, is written out:
    - [GoStrings], [GoSort], [GoPath]: strings as bytes, UTF-8, quoting, stable
      sorting, [path/filepath] (with [Match]); [Utf8]: decoding what was encoded;
    - [GoValue], [GoTime]: [any], times and durations, contexts as chains of
      derivations, [RFC3339Nano];
    - [GoFS]: files and directories; each mutating call is a list of primitive
      steps, so that a crash can fall between two of them;
    - [JsonText], [Json]: [encoding/json]: the text it writes and reads (strings,
      numbers, nesting, the first value of a stream), and between trees and Go
      values ([any], integers, maps, structs by their tags); [JsonValid]: what was
      read once is kept by every further round trip; [JsonLine]: what is written
      is one line; [JsonPrefix]: what is read of a text that was cut off;
    - [Rfc3339]: reading the times that [GoTime] writes.

    The program's components, bottom up (package under [src/internal/]):
    - [Protocol] ([protocol]): requests, responses, validation; [Wire] is their
      JSON text;
    - [State] ([state]): the lifecycle of a session, its record files, the
      atomic write, the sweep of stale heartbeats; [StateText] is the bytes of a
      record file; [StateRefine] is what the store promises without files: a
      table of records that it refines;
    - [Guard] ([guard]): the rules in front of tool calls, suppressions;
    - [Storage], [StorageDB] ([storage]): events, the recorder, the in-memory
      sink, and the SQLite store as transactions over its tables; [SchemaText] is
      the text of the schema and the constraints read off it, [Schema] opening and
      migrating a database;
    - [Config] ([config]), [Registry] ([registry]), [Route] ([route]), [Prompt]
      ([prompt]): from layered YAML to agents, from a prompt to an agent, from
      sections to a system prompt under a token budget;
    - [Verify] ([verify]): checks and their evidence;
    - [Adapter] ([adapter], [src/adapters/claude], [src/adapters/codex]): the
      worker interface, its mock, host events from JSON and messages to JSON;
    - [Host], [Orchestrator], [Checks], [Run] ([orchestrator]): the handlers of
      [orchestrator.go], the checks of [verification.go], the run pipeline of
      [phases.go] and [run.go], and [Handle], which dispatches;
    - [Hook] ([hook], [agents]): hook chains, the agents defined in code;
    - [Skills] ([skills]): skill files and the registry of the scopes;
    - [Mcp] ([mcp]): the table of server processes and the client router;
    - [Daemon] ([daemon]): timeouts, one connection, lock and socket files;
      [Servers] has the calls of [Start] and [Close] one by one, for any number
      of servers on the same files;
    - [Pi] ([src/adapters/pi]): event parser, output scanner with its bounded
      channel, result of the process, discovery of the binary; [PiDriver] is
      the life of a driver: process, pipes and goroutines as a step relation;
    - [Cli] ([src/cmd/omg]): the commands; [CliSpec] has their theorems;
      [Client] joins the socket client, the daemon and the commands; [Relay] is
      the request that a hook command passes on, and [Process] a hook command
      from the bytes of its standard input to those of its standard output;
    - [Observer], [Report], [Flags], [Remote] ([src/remote]): the project
      scanner, the texts of a report (JSON, and the page as its template and
      [html/template] make it), the [flag] package with the options of [observe],
      and writing and serving the report in the command [remote observe].

    [Handle] calls everything else: [handleSubmit] runs [Config.Load],
    [Registry.Build], [Route.Route] and [Prompt.BuildPrompt]; [handleToolBefore]
    runs [Guard.Evaluate]; [handleStateTransition] runs [State.Transition];
    [handleRun] drives a [Worker], [Verify.RunPlan] and [State.Transition]; all
    of them record events through a [Sink], of which [StorageDB.RecordEvent] and
    [Storage.memory_RecordEvent] are implementations.
    [DemoWorld] is a concrete world to run them in; [Observe] is the interface
    between the handlers and a watched sink; [RunTrace], [RunOutcome] and
    [HandleSpec] hold the theorems about the orchestrator, [RunLedger] joins a run
    to the SQLite store: the tables after its events.

    ** Modelling

    A Go string is a [string] of bytes; [int], [time.Time] and [time.Duration]
    are [Z] (times in nanoseconds; the arithmetic the program does on them stays
    in range or has its wrap-around written out, as [GoValue.Sub] does); a nil
    slice differs from an empty one where the code tells them apart ([slice]);
    a map is a [gmap], and where Go's random iteration order could matter the
    order is an argument and a theorem says that it does not matter.
    Errors are values of [result] with the identity that the code tests and
    their text. Effects thread a world [W] of which the code's environment is an
    interface: [Clock], [Entropy], [Exec] (running a command), [Files]
    (configuration files), [StateFiles], [Cancellation], and the records [Sink]
    and [Worker]. The YAML library and the two large Unicode tables are the
    classes [YAML] and [UnicodeTables]; nothing is assumed of them. Faults are
    inputs: [State.WriteEnv] and [StorageDB.TxEnv] list the calls that fail.

    The one unbounded loop, over the worker's channel, has fuel:
    [RunOutcome.handleRun_returns] gives a bound under which the run returns the
    same answer with any fuel. The section-dropping loop of [Prompt] has the
    number of sections as fuel, which [selectSections_spec] shows to be enough.
    The fuel inside the [Go] files is the length of the string at hand; for JSON,
    [JsonText.unquote_fuel] and [JsonText.parse_items_fuel] show that more makes no
    difference. The nesting of JSON is bounded as in Go (10000).

    ** Theorems

    - Sessions: the lifecycle graph holds along every sequence of calls, one after
      the other and on sessions with plain ids, and whichever writes fail; terminal
      lifecycles are then final, an interrupted write is old or new, a transition
      does exactly what it promises, the stale sweep; the store refines a table of
      records ([StateRefine.Store_refines]); and what does not hold: overlapping
      transitions, session ids that are paths.
    - Runs: a committed run reaches its terminal events, a run that bails out
      closes what it opened, what makes a run succeed, that it returns, and, for a
      request without ids of its own and a store without driver faults, that the
      tables of the store then agree with the response.
    - Texts: a request, a response and a state file decode to what was sent or
      kept; no text of a repository becomes markup of the report page.
    - Requests: every response is well formed; the tool gate follows the guard
      whatever the sink does; stops and errors follow the lifecycle graph;
      hook events alone never start a session; submitted prompts.
    - The guard: first of the strictest verdicts, fail closed, suppressions.
    - The ledger: atomic, schema-preserving, accepts every acceptable event and
      refuses types and lifecycles it does not know, run statuses; and two kinds of
      event that can never be recorded. What the code computes for a column is
      allowed by the schema's text, and a migration that fails is completed by the
      next one.
    - Configuration to prompt: last layer wins, order independence, unknown
      keys, what a registry holds and when it fails, best routes, budgets.
    - Verification: every check is run, and passes exactly on the exit of its
      command; shell quoting of checks.
    - Adapters: translation of host events.
    - The command line and the daemon: argument parsing, what each command writes
      and exits with, timeouts and their overflow; at most one server is up in every interleaving, and
      [Start] is an execution of the interleaved calls; a hook command from end
      to end, which answers whatever bytes it is given with one line of JSON, and
      what [on-submit] answers for every outcome of the dial; and
      what does not work: runs through a daemon, a lock that outlives
      a killed server, a gate that is never given a rule.
    - The pi worker: what [Wait] returns is final and complete in every
      interleaving of the goroutines.
    - Around the core: hook chains, skill precedence, the process table, which uses
      a live process again, and the router.
    - The observer: where a report may go, the only files that a run writes, which
      are outside the project as far as the code can tell, and what its exit code
      means.

    ** Not modelled

    The YAML syntax; of JSON the text of a [float64] and the texts of the decoder's
    errors, of times what [time.Parse] takes beyond RFC 3339 (parameters, or the
    outcome as input), and the zone that a time was written in;
    SQLite itself, beyond tables, constraints and faults: what CHECK, UNIQUE and the
    foreign keys refuse is refused by the model of the database, not by the code,
    and the theorems on the ledger say which statements the code gives it;
    a read of a file that fails for another reason than its absence, its being a
    directory or its contents ([GoFS]); the pieces in which a template is written to
    its open file (a write that fails may leave any part of it);
    mutexes (each operation of a locked object is one step; the one place where
    a lock does not cover a whole operation, [State.Transition], is a step
    relation of its own); goroutines, sockets and processes beyond what [Daemon],
    [Servers], [Pi] and [PiDriver] say of them (the handling of a
    connection is one step of the accept loop); the file serving of [net/http]
    and how a browser lays out a page. In [Remote] a request
    and a turn of the ticker are atomic; [Remote.refreshes_interleave] shows
    what their interleaving can leave. *)

From stdpp Require Export base gmap strings list fin_maps pretty.
From Stdlib Require Export Ascii ZArith Lia.

(** ** Notations *)

Declare Scope go_scope.
Delimit Scope go_scope with go.
Notation "a =s b" := (String.eqb a b) (at level 70, no associativity) : go_scope.
Notation "a <>s b" := (negb (String.eqb a b)) (at level 70, no associativity) : go_scope.
Open Scope go_scope.

(** ** Errors

    A Go [error] value: its sentinel identity, where the code tests one with
    [errors.Is]/[errors.As]/[os.IsNotExist], and the text of [Error()]. *)

Inductive err_kind :=
| KGeneric
| KNotExist
| KExist
| KSkipLine
| KCancelled.

Record error := mkError { err_kind_of : err_kind; Error : string }.

#[export] Instance err_kind_eq_dec : EqDecision err_kind.
Proof. solve_decision. Defined.
#[export] Instance error_eq_dec : EqDecision error.
Proof. solve_decision. Defined.

Definition errorf (msg : string) : error := mkError KGeneric msg.
Definition is_not_exist (e : error) : bool := bool_decide (err_kind_of e = KNotExist).

(** A call that returns a value or a non-nil error. *)
Inductive result (A : Type) :=
| Ok (a : A)
| Err (e : error).
Arguments Ok {A} a.
Arguments Err {A} e.

#[export] Instance result_ret : MRet result := @Ok.
#[export] Instance result_bind : MBind result := fun A B f r =>
  match r with Ok a => f a | Err e => Err e end.

Definition is_ok {A} (r : result A) : bool :=
  match r with Ok _ => true | Err _ => false end.

(** ** Slices whose nil-ness the code observes: [None] is the nil slice. *)

Abbreviation slice A := (option (list A)).

Definition elems {A} (s : slice A) : list A := default [] s.
(** [append(s, l...)]: appending nothing to a nil slice leaves it nil. *)
Definition slice_append {A} (s : slice A) (l : list A) : slice A :=
  match s, l with
  | None, [] => None
  | _, _ => Some (elems s ++ l)
  end.

(** ** Tactics *)

Ltac str_simpl :=
  repeat match goal with
  | H : String.eqb _ _ = true |- _ => apply String.eqb_eq in H
  | H : String.eqb _ _ = false |- _ => apply String.eqb_neq in H
  | H : andb _ _ = true |- _ => apply andb_prop in H; destruct H
  | H : orb _ _ = false |- _ => apply orb_false_elim in H; destruct H
  | H : negb _ = true |- _ => apply negb_true_iff in H
  | H : negb _ = false |- _ => apply negb_false_iff in H
  | |- context [String.eqb ?a ?a] => rewrite (String.eqb_refl a)
  | H : context [String.eqb ?a ?a] |- _ => rewrite (String.eqb_refl a) in H
  end.

(** Splits the scrutinee of the outermost [if]/[match] of the goal. *)
Ltac go_case :=
  match goal with
  | |- context [if ?b then _ else _] => destruct b eqn:?
  | |- context [match ?x with _ => _ end] => destruct x eqn:?
  end.
Ltac go_case_in H :=
  match type of H with
  | context [if ?b then _ else _] => destruct b eqn:?
  | context [match ?x with _ => _ end] => destruct x eqn:?
  end.
Ltac go_cases := repeat go_case; str_simpl; simplify_eq/=.

(** Membership in a literal list, as a goal and as a hypothesis. *)
Ltac in_list := solve [repeat constructor].
Ltac in_list_inv :=
  repeat match goal with
  | H : _ ∈ _ :: _ |- _ => apply elem_of_cons in H as [->|H]
  | H : _ ∈ [] |- _ => inversion H
  end.

(** The same, keeping the equations. *)
Ltac in_list_cases H :=
  lazymatch type of H with
  | _ ∈ _ :: _ => apply elem_of_cons in H; destruct H as [H|H]; [|in_list_cases H]
  | _ ∈ [] => inversion H
  end.

Create HintDb omg.
Create Rewrite HintDb omg_rw.

(** ** Generic lemmas *)

Lemma bind_ok {A B} (r : result A) (f : A -> result B) b :
  (r ≫= f) = Ok b <-> exists a, r = Ok a /\ f a = Ok b.
Proof. destruct r; simpl; naive_solver. Qed.

Lemma bind_err {A B} (r : result A) (f : A -> result B) e :
  (r ≫= f) = Err e <-> r = Err e \/ exists a, r = Ok a /\ f a = Err e.
Proof. destruct r; simpl; naive_solver. Qed.

Lemma eqb_true (a b : string) : (a =s b) = true <-> a = b.
Proof. apply String.eqb_eq. Qed.

Lemma eqb_false (a b : string) : (a =s b) = false <-> a <> b.
Proof. apply String.eqb_neq. Qed.

Lemma elems_slice_append {A} (s : slice A) l : elems (slice_append s l) = elems s ++ l.
Proof. destruct s, l; simpl; rewrite ?app_nil_r; done. Qed.

#[export] Hint Rewrite @elems_slice_append : omg_rw.

(** [first_non_empty] is the helper both the orchestrator and the storage
    package declare; the two copies have the same body. *)
Fixpoint first_non_empty (values : list string) : string :=
  match values with
  | [] => ""
  | value :: rest => if value <>s "" then value else first_non_empty rest
  end.

Lemma first_non_empty_empty values :
  first_non_empty values = "" <-> Forall (fun v => v = "") values.
Proof.
  induction values as [|v vs IH]; simpl; [by split|].
  destruct (v =s "") eqn:E; simpl; str_simpl; subst.
  - rewrite IH. split; [by constructor | by inversion 1].
  - split; [done | by inversion 1].
Qed.

Lemma first_non_empty_head v vs : v <> "" -> first_non_empty (v :: vs) = v.
Proof. intros H. simpl. apply eqb_false in H. by rewrite H. Qed.

Lemma first_non_empty_skip vs : first_non_empty ("" :: vs) = first_non_empty vs.
Proof. done. Qed.

Lemma first_non_empty_in values :
  first_non_empty values <> "" -> first_non_empty values ∈ values.
Proof.
  induction values as [|v vs IH]; simpl; [done|].
  destruct (v =s "") eqn:E; simpl; intros H; [right; auto | left].
Qed.

Lemma existsb_elem {A} (f : A -> bool) l :
  existsb f l = true <-> exists x, x ∈ l /\ f x = true.
Proof. rewrite existsb_exists. by setoid_rewrite <- list_elem_of_In. Qed.

Lemma existsb_eqb_elem x l : existsb (String.eqb x) l = true <-> x ∈ l.
Proof.
  rewrite existsb_exists. split.
  - intros (y & Hy & E). str_simpl. subst. by apply list_elem_of_In.
  - intros H. exists x. rewrite String.eqb_refl. split; [by apply list_elem_of_In | done].
Qed.

(** A chain of guards passes when every guard does. *)
Lemma guard_none {A} (b : bool) (e : A) rest :
  (if b then Some e else rest) = None <-> b = false /\ rest = None.
Proof. destruct b; naive_solver. Qed.

Lemma guard_some {A} (P : A -> Prop) (b : bool) (e : A) rest :
  P e -> (forall x, rest = Some x -> P x) ->
  forall x, (if b then Some e else rest) = Some x -> P x.
Proof. destruct b; naive_solver. Qed.

Lemma empty_or (s : string) (b : bool) :
  (s <>s "") && negb b = false <-> s = "" \/ b = true.
Proof.
  rewrite andb_false_iff, !negb_false_iff, eqb_true. done.
Qed.
