(* ===== verification/GoStrings.v ===== *)
(** * Go strings

    The part of Go's [strings], [unicode/utf8] and [strconv] packages that the
    program calls. A Go string is a sequence of bytes: a Rocq [string]. UTF-8
    decoding, the white-space predicate, prefixes, splits and quoting are
    written out. Only the two big Unicode tables (case mapping and printability
    of runes above 0x7F) are a parameter, [UnicodeTables]: no theorem assumes
    anything of them. *)

From S2P Require Import Prelude.

(** ** Bytes and substrings *)

Fixpoint str_drop (n : nat) (s : string) : string :=
  match n, s with
  | O, _ => s
  | S n', String _ s' => str_drop n' s'
  | S _, EmptyString => ""
  end.

Fixpoint str_take (n : nat) (s : string) : string :=
  match n, s with
  | O, _ => ""
  | S n', String c s' => String c (str_take n' s')
  | S _, EmptyString => ""
  end.

Fixpoint str_rev_onto (s acc : string) : string :=
  match s with
  | EmptyString => acc
  | String c s' => str_rev_onto s' (String c acc)
  end.
Definition str_rev (s : string) : string := str_rev_onto s "".

(** [strings.HasPrefix], [strings.HasSuffix], [strings.TrimSuffix] *)
Definition HasPrefix (s p : string) : bool := String.prefix p s.
Definition HasSuffix (s suf : string) : bool :=
  (String.length suf <=? String.length s)%nat &&
  (str_drop (String.length s - String.length suf) s =s suf).
Definition TrimSuffix (s suf : string) : string :=
  if HasSuffix s suf then str_take (String.length s - String.length suf) s else s.

(** [strings.Contains] *)
Fixpoint Contains (s sub : string) : bool :=
  HasPrefix s sub ||
  match s with
  | EmptyString => false
  | String _ s' => Contains s' sub
  end.

(** [strings.Join] *)
Fixpoint Join (l : list string) (sep : string) : string :=
  match l with
  | [] => ""
  | [x] => x
  | x :: rest => x +:+ sep +:+ Join rest sep
  end.

(** [strings.Cut] at the first occurrence of a one-byte separator *)
Fixpoint cut_byte (c : ascii) (s : string) : option (string * string) :=
  match s with
  | EmptyString => None
  | String b s' =>
      if Ascii.eqb b c then Some ("", s')
      else match cut_byte c s' with
           | Some (x, y) => Some (String b x, y)
           | None => None
           end
  end.

(** [strings.SplitN(s, sep, n)] for a one-byte separator and [n > 0] *)
Fixpoint SplitN (s : string) (c : ascii) (n : nat) : list string :=
  match n with
  | O => []
  | S O => [s]
  | S n' => match cut_byte c s with
            | None => [s]
            | Some (x, y) => x :: SplitN y c n'
            end
  end.

(** [strings.Split(s, sep)] for a one-byte separator *)
Fixpoint split_onto (s : string) (c : ascii) (cur : string) : list string :=
  match s with
  | EmptyString => [str_rev cur]
  | String b s' => if Ascii.eqb b c then str_rev cur :: split_onto s' c ""
                   else split_onto s' c (String b cur)
  end.
Definition Split (s : string) (c : ascii) : list string := split_onto s c "".

(** [s[:n]] *)
Definition slice_to (s : string) (n : nat) : string := str_take n s.

(** ** UTF-8 *)

Definition byte_n (c : ascii) : N := N_of_ascii c.
Definition RuneError : N := 65533.
Definition is_ascii (s : string) : bool :=
  forallb (fun c => N.ltb (byte_n c) 128) (String.list_ascii_of_string s).

Definition in_range (lo hi : N) (c : ascii) : bool := (N.leb lo (byte_n c) && N.leb (byte_n c) hi)%N.
Definition cont (c : ascii) : N := N.land (byte_n c) 63.

(** [utf8.DecodeRuneInString]: the first rune and its width in bytes. *)
Definition decode_rune (s : string) : N * nat :=
  match s with
  | EmptyString => (RuneError, 0%nat)
  | String b0 s1 =>
      let x := byte_n b0 in
      if N.ltb x 128 then (x, 1%nat)
      else if in_range 194 223 b0 then
        match s1 with
        | String b1 _ =>
            if in_range 128 191 b1 then (N.lor (N.shiftl (N.land x 31) 6) (cont b1), 2%nat)
            else (RuneError, 1%nat)
        | _ => (RuneError, 1%nat)
        end
      else if in_range 224 239 b0 then
        let lo := if N.eqb x 224 then 160%N else 128%N in
        let hi := if N.eqb x 237 then 159%N else 191%N in
        match s1 with
        | String b1 (String b2 _) =>
            if in_range lo hi b1 && in_range 128 191 b2
            then (N.lor (N.shiftl (N.land x 15) 12) (N.lor (N.shiftl (cont b1) 6) (cont b2)), 3%nat)
            else (RuneError, 1%nat)
        | _ => (RuneError, 1%nat)
        end
      else if in_range 240 244 b0 then
        let lo := if N.eqb x 240 then 144%N else 128%N in
        let hi := if N.eqb x 244 then 143%N else 191%N in
        match s1 with
        | String b1 (String b2 (String b3 _)) =>
            if in_range lo hi b1 && in_range 128 191 b2 && in_range 128 191 b3
            then (N.lor (N.shiftl (N.land x 7) 18)
                    (N.lor (N.shiftl (cont b1) 12) (N.lor (N.shiftl (cont b2) 6) (cont b3))), 4%nat)
            else (RuneError, 1%nat)
        | _ => (RuneError, 1%nat)
        end
      else (RuneError, 1%nat)
  end.

Definition byte_of (n : N) : ascii := ascii_of_N n.
Definition tail_byte (r : N) (sh : N) : ascii := byte_of (N.lor 128 (N.land (N.shiftr r sh) 63)).

(** [utf8.AppendRune]: surrogates and out-of-range runes become [RuneError]. *)
Definition encode_rune (r0 : N) : string :=
  let r := if (N.leb 55296 r0 && N.leb r0 57343) || N.ltb 1114111 r0 then RuneError else r0 in
  if N.ltb r 128 then String (byte_of r) ""
  else if N.ltb r 2048 then
    String (byte_of (N.lor 192 (N.shiftr r 6))) (String (tail_byte r 0) "")
  else if N.ltb r 65536 then
    String (byte_of (N.lor 224 (N.shiftr r 12)))
      (String (tail_byte r 6) (String (tail_byte r 0) ""))
  else String (byte_of (N.lor 240 (N.shiftr r 18)))
      (String (tail_byte r 12) (String (tail_byte r 6) (String (tail_byte r 0) ""))).

(** Ranging over a string: its runes, with the bytes each was read from. The
    fuel is the length in bytes: every rune consumes at least one. *)
Fixpoint runes_fuel (fuel : nat) (s : string) : list (N * string) :=
  match fuel with
  | O => []
  | S f =>
      match s with
      | EmptyString => []
      | _ => let '(r, w) := decode_rune s in
             (r, str_take w s) :: runes_fuel f (str_drop w s)
      end
  end.
Definition runes (s : string) : list (N * string) := runes_fuel (String.length s) s.

(** [unicode.IsSpace], by the UTF-8 encodings of the runes it accepts. *)
Definition space_encodings : list string :=
  map encode_rune
    [9; 10; 11; 12; 13; 32; 133; 160; 5760; 8192; 8193; 8194; 8195; 8196; 8197; 8198;
     8199; 8200; 8201; 8202; 8232; 8233; 8239; 8287; 12288]%N.

(** The length of the white-space rune the string starts (ends) with, or 0.
    UTF-8 is self-synchronising: a space's first byte only occurs at a rune
    boundary, so testing the encodings is the same as decoding runes. *)
Definition leading_space (s : string) : nat :=
  match find (fun e => HasPrefix s e) space_encodings with
  | Some e => String.length e
  | None => 0
  end.
Definition trailing_space (s : string) : nat :=
  match find (fun e => HasSuffix s e) space_encodings with
  | Some e => String.length e
  | None => 0
  end.

Fixpoint trim_left_fuel (fuel : nat) (s : string) : string :=
  match fuel, leading_space s with
  | S f, S n => trim_left_fuel f (str_drop (S n) s)
  | _, _ => s
  end.
Definition TrimLeftSpace (s : string) : string := trim_left_fuel (String.length s) s.
Fixpoint trim_right_fuel (fuel : nat) (s : string) : string :=
  match fuel, trailing_space s with
  | S f, S n => trim_right_fuel f (str_take (String.length s - S n) s)
  | _, _ => s
  end.
Definition TrimRightSpace (s : string) : string := trim_right_fuel (String.length s) s.

(** [strings.TrimSpace] *)
Definition TrimSpace (s : string) : string := TrimRightSpace (TrimLeftSpace s).

(** [strings.Fields]: the maximal runs of non-space bytes. *)
Fixpoint fields_fuel (fuel : nat) (s cur : string) : list string :=
  let flush := if cur =s "" then [] else [str_rev cur] in
  match fuel with
  | O => flush
  | S f =>
      match s with
      | EmptyString => flush
      | String c s' =>
          match leading_space s with
          | O => fields_fuel f s' (String c cur)
          | S n => flush ++ fields_fuel f (str_drop (S n) s) ""
          end
      end
  end.
Definition Fields (s : string) : list string := fields_fuel (String.length s) s "".

(** [strings.FieldsFunc] for a predicate that only accepts ASCII runes *)
Fixpoint fields_func_onto (p : ascii -> bool) (s cur : string) : list string :=
  let flush := if cur =s "" then [] else [str_rev cur] in
  match s with
  | EmptyString => flush
  | String c s' => if p c then flush ++ fields_func_onto p s' ""
                   else fields_func_onto p s' (String c cur)
  end.
Definition FieldsFunc (s : string) (p : ascii -> bool) : list string := fields_func_onto p s "".

(** [strings.Trim(s, cutset)] for a one-byte cutset *)
Fixpoint trim_left_byte (c : ascii) (s : string) : string :=
  match s with
  | String b s' => if Ascii.eqb b c then trim_left_byte c s' else s
  | EmptyString => ""
  end.
Definition Trim (s : string) (c : ascii) : string :=
  str_rev (trim_left_byte c (str_rev (trim_left_byte c s))).

(** ** Case *)

(** The parts of package [unicode] that are tables over all of Unicode. *)
Class UnicodeTables := {
  unicode_ToLower : N -> N;   (* unicode.ToLower, used above 0x7F only *)
  unicode_IsPrint : N -> bool (* unicode.IsPrint, used above 0x7F only *)
}.

(** Tables to run the definitions with: no case mapping above ASCII, every
    rune printable. *)
Definition plain_tables : UnicodeTables :=
  {| unicode_ToLower := fun r => r; unicode_IsPrint := fun _ => true |}.

Definition ascii_lower (c : ascii) : ascii :=
  if in_range 65 90 c then byte_of (byte_n c + 32) else c.
Definition ascii_upper (c : ascii) : ascii :=
  if in_range 97 122 c then byte_of (byte_n c - 32) else c.
Fixpoint str_map (f : ascii -> ascii) (s : string) : string :=
  match s with
  | EmptyString => ""
  | String c s' => String (f c) (str_map f s')
  end.

(** [strings.ToLower]: byte by byte on an ASCII string, otherwise
    [strings.Map(unicode.ToLower, s)], which re-encodes every rune. *)
Definition ToLower `{UnicodeTables} (s : string) : string :=
  if is_ascii s then str_map ascii_lower s
  else foldr (fun rb acc =>
         encode_rune (if N.ltb rb.1 128 then byte_n (ascii_lower (byte_of rb.1))
                      else if N.eqb rb.1 RuneError then RuneError
                      else unicode_ToLower rb.1) +:+ acc) "" (runes s).

(** [strings.EqualFold(s, t)] for an ASCII [t]: besides the other case of a
    letter, U+017F folds to [s] and U+212A to [k]. *)
Definition long_s : string := encode_rune 383.
Definition kelvin : string := encode_rune 8490.
Fixpoint EqualFold (s t : string) : bool :=
  match t with
  | EmptyString => s =s ""
  | String c t' =>
      match s with
      | EmptyString => false
      | String b s' =>
          (Ascii.eqb (ascii_lower b) (ascii_lower c) && EqualFold s' t')
          || (Ascii.eqb (ascii_lower c) "s" && HasPrefix s long_s &&
              EqualFold (str_drop 2 s) t')
          || (Ascii.eqb (ascii_lower c) "k" && HasPrefix s kelvin &&
              EqualFold (str_drop 3 s) t')
      end
  end.

(** ** Formatting *)

Definition hex_digit (n : N) : ascii :=
  if N.ltb n 10 then byte_of (48 + n) else byte_of (87 + n).
Definition hex_byte (c : ascii) : string :=
  String (hex_digit (N.shiftr (byte_n c) 4)) (String (hex_digit (N.land (byte_n c) 15)) "").
(** [hex.EncodeToString] *)
Fixpoint EncodeToString (s : string) : string :=
  match s with
  | EmptyString => ""
  | String c s' => hex_byte c +:+ EncodeToString s'
  end.
(** the last [k] hexadecimal digits of [n] *)
Fixpoint hex_digits (k : nat) (n : N) : string :=
  match k with
  | O => ""
  | S k' => String (hex_digit (N.land (N.shiftr n (4 * N.of_nat k')) 15)) (hex_digits k' n)
  end.
(** ["%x"] of an unsigned integer: no leading zeros *)
Fixpoint strip_zeros (s : string) : string :=
  match s with
  | String c (String _ _ as s') => if Ascii.eqb c "0" then strip_zeros s' else s
  | _ => s
  end.
Definition format_hex (n : N) : string := strip_zeros (hex_digits 16 n).

(** ["%d"] *)
Definition Itoa (n : Z) : string := pretty n.

(** [strconv.Quote], what ["%q"] prints of a string *)
Definition quote_rune `{UnicodeTables} (rb : N * string) : string :=
  let '(r, bytes) := rb in
  if N.eqb r RuneError && (String.length bytes =? 1)%nat then
    match bytes with String c _ => "\x" +:+ hex_byte c | _ => "" end
  else if N.eqb r 34 || N.eqb r 92 then String "\" (String (byte_of r) "")
  else if (if N.ltb r 128 then N.leb 32 r && N.ltb r 127 else unicode_IsPrint r) then bytes
  else if N.eqb r 7 then "\a" else if N.eqb r 8 then "\b" else if N.eqb r 12 then "\f"
  else if N.eqb r 10 then "\n" else if N.eqb r 13 then "\r" else if N.eqb r 9 then "\t"
  else if N.eqb r 11 then "\v"
  else if N.ltb r 128 then "\x" +:+ hex_digits 2 r
  else if N.ltb r 65536 then "\u" +:+ hex_digits 4 r
  else "\U" +:+ hex_digits 8 r.
Definition Quote `{UnicodeTables} (s : string) : string :=
  String (byte_of 34) (foldr (fun rb acc => quote_rune rb +:+ acc) (String (byte_of 34) "") (runes s)).

(** ** Lemmas *)

#[local] Arguments String.append !s1 s2 : simpl nomatch.

Lemma str_app_nil_r s : s +:+ "" = s.
Proof. induction s as [|c s IH]; simpl; [done | by rewrite IH]. Qed.

Lemma str_app_assoc a b c : (a +:+ b) +:+ c = a +:+ (b +:+ c).
Proof. induction a as [|x a IH]; simpl; [done | by rewrite IH]. Qed.

Lemma str_app_cons x a b : String x a +:+ b = String x (a +:+ b).
Proof. done. Qed.

Lemma str_app_inj_l a b c : a +:+ b = a +:+ c -> b = c.
Proof. induction a as [|x a IH]; simpl; [done|]. intros [= H]. auto. Qed.

Lemma str_app_nil a b : a +:+ b = "" <-> a = "" /\ b = "".
Proof. destruct a; simpl; naive_solver. Qed.

Lemma str_length_app a b : String.length (a +:+ b) = (String.length a + String.length b)%nat.
Proof. induction a as [|x a IH]; simpl; [done | by rewrite IH]. Qed.

Lemma str_take_app a b : str_take (String.length a) (a +:+ b) = a.
Proof. induction a as [|x a IH]; simpl; [by destruct b | by rewrite IH]. Qed.

Lemma str_drop_app a b : str_drop (String.length a) (a +:+ b) = b.
Proof. induction a as [|x a IH]; simpl; [by destruct b | done]. Qed.

Lemma str_take_length n s : String.length (str_take n s) = Nat.min n (String.length s).
Proof. revert s. induction n as [|n IH]; intros [|c s]; simpl; auto. Qed.

Lemma str_drop_length n s : String.length (str_drop n s) = (String.length s - n)%nat.
Proof. revert s. induction n as [|n IH]; intros [|c s]; simpl; auto. Qed.

Lemma str_take_drop n s : str_take n s +:+ str_drop n s = s.
Proof. revert s. induction n as [|n IH]; intros [|c s]; simpl; [done..|]. by rewrite IH. Qed.

Lemma str_rev_onto_app s acc1 acc2 : str_rev_onto s (acc1 +:+ acc2) = str_rev_onto s acc1 +:+ acc2.
Proof.
  revert acc1. induction s as [|c s IH]; intros acc1; simpl; [done|].
  change (String c (acc1 +:+ acc2)) with (String c acc1 +:+ acc2). apply IH.
Qed.

Lemma str_rev_cons c s : str_rev (String c s) = str_rev s +:+ String c "".
Proof. unfold str_rev; simpl. by rewrite <- (str_rev_onto_app s "" (String c "")). Qed.

Lemma str_rev_app a b : str_rev (a +:+ b) = str_rev b +:+ str_rev a.
Proof.
  induction a as [|c a IH]; [symmetry; apply str_app_nil_r|].
  rewrite str_app_cons. by rewrite !str_rev_cons, IH, str_app_assoc.
Qed.

Lemma str_rev_involutive s : str_rev (str_rev s) = s.
Proof. induction s as [|c s IH]; [done|]. by rewrite str_rev_cons, str_rev_app, IH. Qed.

Lemma HasPrefix_spec s p : HasPrefix s p = true <-> exists r, s = p +:+ r.
Proof.
  unfold HasPrefix. revert s. induction p as [|c p IH]; intros s; simpl.
  - split; [by exists s|]. by destruct s.
  - destruct s as [|d s]; simpl; [split; [done | by intros [r Hr]]|].
    destruct (ascii_dec c d) as [->|Hne].
    + rewrite IH. split; intros [r Hr]; exists r; [by rewrite Hr | by injection Hr].
    + split; [done|]. intros [r Hr]. injection Hr. congruence.
Qed.

Lemma HasPrefix_app p r : HasPrefix (p +:+ r) p = true.
Proof. apply HasPrefix_spec. by exists r. Qed.

Lemma HasPrefix_nil s : HasPrefix s "" = true.
Proof. by destruct s. Qed.

Lemma HasSuffix_spec s p : HasSuffix s p = true <-> exists r, s = r +:+ p.
Proof.
  unfold HasSuffix. rewrite andb_true_iff, Nat.leb_le, eqb_true. split.
  - intros [_ H]. exists (str_take (String.length s - String.length p) s).
    rewrite <- H at 2. by rewrite str_take_drop.
  - intros [r ->]. rewrite str_length_app. split; [lia|].
    replace (_ - _)%nat with (String.length r) by lia. apply str_drop_app.
Qed.

Lemma Contains_spec s sub : Contains s sub = true <-> exists a b, s = a +:+ sub +:+ b.
Proof.
  induction s as [|c s IH]; cbn [Contains]; rewrite orb_true_iff, HasPrefix_spec.
  - split; [intros [[r ->]|?]; [by exists "", r | done]|].
    intros (a & b & H). left. symmetry in H.
    apply str_app_nil in H as [-> H]. exists b. by rewrite H.
  - rewrite IH. split.
    + intros [[r ->]|(a & b & ->)]; [by exists "", r | by exists (String c a), b].
    + intros (a & b & H). destruct a as [|x a]; simpl in H; [left; by exists b|].
      right. injection H as -> ->. by exists a, b.
Qed.

Lemma Contains_app_cons c s sub : Contains s sub = true -> Contains (String c s) sub = true.
Proof. simpl. intros ->. apply orb_true_r. Qed.

(** *** Separators *)

Lemma prefix_single c b s : HasPrefix (String b s) (String c "") = Ascii.eqb b c.
Proof.
  unfold HasPrefix. simpl. destruct (ascii_dec c b) as [->|Hne].
  - rewrite Ascii.eqb_refl. by destruct s.
  - symmetry. apply Ascii.eqb_neq. congruence.
Qed.

Lemma Contains_byte_cons c b s :
  Contains (String b s) (String c "") = Ascii.eqb b c || Contains s (String c "").
Proof. cbn [Contains]. by rewrite prefix_single. Qed.

Lemma cut_byte_app c a r :
  Contains a (String c "") = false -> cut_byte c (a +:+ String c r) = Some (a, r).
Proof.
  induction a as [|b a IH]; intros H; simpl.
  - by rewrite Ascii.eqb_refl.
  - rewrite Contains_byte_cons in H. apply orb_false_iff in H as [-> H].
    by rewrite IH.
Qed.

Lemma cut_byte_spec c s a r :
  cut_byte c s = Some (a, r) -> s = a +:+ String c r /\ Contains a (String c "") = false.
Proof.
  revert a. induction s as [|b s IH]; intros a; simpl; [done|].
  destruct (Ascii.eqb b c) eqn:E.
  - intros [= <- <-]. apply Ascii.eqb_eq in E as ->. done.
  - destruct (cut_byte c s) as [[x y]|]; [|done]. intros [= <- <-].
    destruct (IH x eq_refl) as [-> Hx]. split; [done|].
    rewrite Contains_byte_cons, E. done.
Qed.

Lemma cut_byte_None c s : cut_byte c s = None <-> Contains s (String c "") = false.
Proof.
  induction s as [|b s IH]; [done|]. rewrite Contains_byte_cons. simpl.
  destruct (Ascii.eqb b c); [done|]. simpl. rewrite <- IH.
  by destruct (cut_byte c s) as [[??]|].
Qed.

Lemma split_onto_none c s cur :
  Contains s (String c "") = false -> split_onto s c cur = [str_rev cur +:+ s].
Proof.
  revert cur. induction s as [|b s IH]; intros cur H; simpl; [by rewrite str_app_nil_r|].
  rewrite Contains_byte_cons in H. apply orb_false_iff in H as [-> H].
  rewrite IH by done. by rewrite str_rev_cons, str_app_assoc.
Qed.

Lemma Split_none c s : Contains s (String c "") = false -> Split s c = [s].
Proof. intros. unfold Split. by rewrite split_onto_none. Qed.

Lemma split_onto_app c s t cur :
  split_onto (s +:+ String c t) c cur = split_onto s c cur ++ Split t c.
Proof.
  revert cur. induction s as [|b s IH]; intros cur; simpl.
  - by rewrite Ascii.eqb_refl.
  - destruct (Ascii.eqb b c); [|apply IH]. simpl. by rewrite IH.
Qed.

Lemma Split_app c s t : Split (s +:+ String c t) c = Split s c ++ Split t c.
Proof. apply split_onto_app. Qed.

Lemma Split_no_sep c s x : x ∈ Split s c -> Contains x (String c "") = false.
Proof.
  unfold Split. enough (H : forall cur, Contains cur (String c "") = false ->
    x ∈ split_onto s c (str_rev cur) -> Contains x (String c "") = false)
    by (intros Hx; by apply (H "")).
  assert (Hsnoc : forall u b, Ascii.eqb b c = false -> Contains u (String c "") = false ->
    Contains (u +:+ String b "") (String c "") = false).
  { intros u b Hb. induction u as [|d u IH]; intros Hu.
    - change ("" +:+ String b "") with (String b ""). by rewrite Contains_byte_cons, Hb.
    - rewrite str_app_cons, Contains_byte_cons. rewrite Contains_byte_cons in Hu. apply orb_false_iff in Hu as [-> Hu].
      simpl. auto. }
  induction s as [|b s IH]; intros cur Hc; simpl.
  - rewrite str_rev_involutive, list_elem_of_singleton. by intros ->.
  - destruct (Ascii.eqb b c) eqn:E.
    + rewrite elem_of_cons, str_rev_involutive. intros [->|H]; [done|].
      by apply (IH "").
    + intros H. apply (IH (cur +:+ String b "")); [by apply Hsnoc|].
      by rewrite str_rev_app.
Qed.

Lemma Join_cons x l sep : l <> [] -> Join (x :: l) sep = x +:+ sep +:+ Join l sep.
Proof. by destruct l. Qed.

Lemma Join_app l1 l2 sep :
  l1 <> [] -> l2 <> [] -> Join (l1 ++ l2) sep = Join l1 sep +:+ sep +:+ Join l2 sep.
Proof.
  intros H1 H2. induction l1 as [|x l1 IH]; [done|].
  destruct l1 as [|y l1].
  - change ([x] ++ l2) with (x :: l2). by rewrite Join_cons.
  - rewrite <- app_comm_cons, (Join_cons x (y :: l1)), Join_cons by done. rewrite IH by done.
    by rewrite !str_app_assoc.
Qed.

Lemma Split_Join c l :
  l <> [] -> Forall (fun x => Contains x (String c "") = false) l ->
  Split (Join l (String c "")) c = l.
Proof.
  intros Hne. induction 1 as [|x l Hx Hl IH]; [done|].
  destruct l as [|y l]; [by apply Split_none|].
  rewrite Join_cons by done.
  change (String c "" +:+ ?r) with (String c r). rewrite Split_app, Split_none by done.
  by rewrite IH.
Qed.
