(* ===== verification/GoSort.v ===== *)
(** * Go sorting

    [sort.SliceStable], [sort.Strings] and the byte order on strings. A stable
    sort is determined by its contract: the output is a permutation, it is
    ordered, and elements that compare equal keep their order.
    [stable_sort_unique] proves that the contract has one solution, so the
    insertion sort below computes what Go's implementation does. *)

From S2P Require Import Prelude.
From Stdlib Require Export Sorting.Permutation Sorting.Sorted.

Section sorting.
Context {A : Type} (less : A -> A -> bool).

(** [x] goes before the elements that are not less than it: among equals, the
    one met first in the input stays first. *)
Fixpoint insert_sorted (x : A) (l : list A) : list A :=
  match l with
  | [] => [x]
  | y :: l' => if less y x then y :: insert_sorted x l' else x :: l
  end.

(** [sort.SliceStable(l, less)] *)
Fixpoint stable_sort (l : list A) : list A :=
  match l with
  | [] => []
  | x :: l' => insert_sorted x (stable_sort l')
  end.

Definition incomparable (x y : A) : bool := negb (less x y) && negb (less y x).
End sorting.

(** What [less] must be for the result to be determined. *)
Class StrictWeak {A} (less : A -> A -> bool) : Prop := {
  less_irrefl x : less x x = false;
  less_trans x y z : less x y = true -> less y z = true -> less x z = true;
  less_weak x y z : less x y = false -> less y z = false -> less x z = false
}.

(** [less1] first, [less2] among its equals *)
Definition then_less {A} (less1 less2 : A -> A -> bool) (x y : A) : bool :=
  if less1 x y then true else if less1 y x then false else less2 x y.

(** Comparison of a key in [Z] *)
Definition key_less {A} (key : A -> Z) (x y : A) : bool := (key x <? key y)%Z.

(** The byte order on strings: Go's [<] *)
Definition str_less (s t : string) : bool :=
  match String.compare s t with Lt => true | _ => false end.
Definition key_str_less {A} (key : A -> string) (x y : A) : bool := str_less (key x) (key y).

(** [sort.Strings] *)
Definition sort_Strings (l : list string) : list string := stable_sort str_less l.

(** The keys of a Go map in sorted order: what collecting them from a [range]
    loop and sorting gives, whatever order the loop met them in. *)
Definition sorted_keys {A} (m : gmap string A) : list string :=
  sort_Strings (map fst (map_to_list m)).

(** ** Laws *)

Section laws.
Context {A : Type} (less : A -> A -> bool) `{!StrictWeak less}.

Abbreviation le := (fun x y => less y x = false).

Lemma less_asym x y : less x y = true -> less y x = false.
Proof.
  intros H. destruct (less y x) eqn:E; [|done].
  pose proof (less_trans _ _ _ H E). by rewrite less_irrefl in *.
Qed.

Lemma insert_sorted_perm x l : insert_sorted less x l ≡ₚ x :: l.
Proof.
  induction l as [|y l IH]; simpl; [done|].
  destruct (less y x); [|done]. rewrite IH. by constructor.
Qed.

Lemma stable_sort_perm l : stable_sort less l ≡ₚ l.
Proof. induction l as [|x l IH]; simpl; [done|]. by rewrite insert_sorted_perm, IH. Qed.

Lemma stable_sort_elem x l : x ∈ stable_sort less l <-> x ∈ l.
Proof. by rewrite (stable_sort_perm l). Qed.

Lemma stable_sort_length l : length (stable_sort less l) = length l.
Proof. apply Permutation_length, stable_sort_perm. Qed.

Lemma insert_sorted_sorted x l :
  StronglySorted le l -> StronglySorted le (insert_sorted less x l).
Proof.
  induction 1 as [|y l Hs IH Hall]; simpl; [repeat constructor|].
  destruct (less y x) eqn:E; constructor; auto.
  - apply Forall_forall. intros z Hz. rewrite (insert_sorted_perm x l) in Hz.
    apply elem_of_cons in Hz as [->|Hz]; [by apply less_asym|].
    rewrite Forall_forall in Hall. auto.
  - by constructor.
  - constructor; [done|]. eapply Forall_impl; [exact Hall|]. intros z Hz.
    simpl in Hz. by eapply less_weak.
Qed.

Lemma stable_sort_sorted l : StronglySorted le (stable_sort less l).
Proof. induction l; simpl; [constructor | by apply insert_sorted_sorted]. Qed.

Lemma incomparable_trans x y z :
  incomparable less x y = true -> incomparable less y z = true -> incomparable less x z = true.
Proof.
  unfold incomparable. rewrite !andb_true_iff, !negb_true_iff.
  intros [??] [??]. split; eapply less_weak; eauto.
Qed.

Lemma incomparable_sym x y : incomparable less x y = incomparable less y x.
Proof. unfold incomparable. by rewrite andb_comm. Qed.

Lemma incomparable_refl x : incomparable less x x = true.
Proof. unfold incomparable. by rewrite (less_irrefl (less:=less)). Qed.

(** Inserting an element keeps every class of equal elements in order. *)
Lemma insert_sorted_stable a x l :
  filter (incomparable less a) (insert_sorted less x l) =
  filter (incomparable less a) (x :: l).
Proof.
  induction l as [|y l IH]; simpl; [done|].
  destruct (less y x) eqn:E; [|done].
  rewrite filter_cons, IH, !filter_cons.
  repeat case_decide; try done.
  exfalso. assert (incomparable less y x = true) as Hyx.
  { eapply incomparable_trans; [rewrite incomparable_sym|]; by apply Is_true_true. }
  unfold incomparable in Hyx. by rewrite E in Hyx.
Qed.

Lemma stable_sort_stable a l :
  filter (incomparable less a) (stable_sort less l) = filter (incomparable less a) l.
Proof.
  induction l as [|x l IH]; simpl; [done|].
  rewrite insert_sorted_stable, !filter_cons, IH. done.
Qed.

Lemma sorted_head_filter x l :
  StronglySorted le (x :: l) ->
  forall y, y ∈ x :: l -> less y x = true -> False.
Proof.
  intros Hs y Hy Hl. inversion Hs as [|? ? _ Hall]; subst.
  apply elem_of_cons in Hy as [->|Hy]; [by rewrite less_irrefl in Hl|].
  rewrite Forall_forall in Hall. rewrite (Hall _ Hy) in Hl. done.
Qed.

(** Two ordered lists whose classes of equals agree are the same list. *)
Lemma sorted_stable_unique l1 l2 :
  StronglySorted le l1 -> StronglySorted le l2 ->
  (forall a, filter (incomparable less a) l1 = filter (incomparable less a) l2) ->
  l1 = l2.
Proof.
  assert (Hmem : forall (l l' : list A) y,
    (forall a, filter (incomparable less a) l = filter (incomparable less a) l') ->
    y ∈ l -> y ∈ l').
  { intros l l' y H Hy. apply (list_elem_of_filter (incomparable less y)).
    rewrite <- H. apply list_elem_of_filter. split; [|done].
    by rewrite incomparable_refl. }
  revert l2. induction l1 as [|x l1 IH]; intros l2 H1 H2 Hf.
  - destruct l2 as [|y l2]; [done|].
    assert (y ∈ @nil A) as Hn by (eapply Hmem; [symmetry; apply Hf|left]). inversion Hn.
  - destruct l2 as [|y l2].
    { assert (x ∈ @nil A) as Hn by (eapply Hmem; [apply Hf|left]). inversion Hn. }
    assert (incomparable less x y = true) as Hxy.
    { unfold incomparable. apply andb_true_iff. split; apply negb_true_iff, not_true_iff_false; intros E.
      - eapply (sorted_head_filter y l2 H2); [|exact E]. eapply Hmem; [apply Hf | left].
      - eapply (sorted_head_filter x l1 H1); [|exact E].
        eapply Hmem; [symmetry; apply Hf | left]. }
    assert (x = y) as ->.
    { specialize (Hf x). rewrite !filter_cons, incomparable_refl, Hxy in Hf.
      simpl in Hf. by simplify_eq. }
    f_equal. inversion H1; inversion H2; subst. apply IH; [done..|].
    intros a. specialize (Hf a). rewrite !filter_cons in Hf.
    case_decide; by simplify_eq.
Qed.

(** The contract of a stable sort has exactly one solution. *)
Lemma stable_sort_unique l l' :
  StronglySorted le l' ->
  (forall a, filter (incomparable less a) l' = filter (incomparable less a) l) ->
  l' = stable_sort less l.
Proof.
  intros Hs Hf. apply sorted_stable_unique; [done | apply stable_sort_sorted|].
  intros a. by rewrite Hf, stable_sort_stable.
Qed.

Lemma stable_sort_head x l rest :
  stable_sort less l = x :: rest -> forall y, y ∈ l -> less y x = false.
Proof.
  intros E y Hy. apply stable_sort_elem in Hy. rewrite E in Hy.
  destruct (less y x) eqn:El; [|done]. exfalso.
  eapply sorted_head_filter; [rewrite <- E; apply stable_sort_sorted | exact Hy | done].
Qed.

Lemma stable_sort_id l : StronglySorted le l -> stable_sort less l = l.
Proof. intros. symmetry. by apply stable_sort_unique. Qed.

(** Without ties, the order of the input is irrelevant. *)
Lemma stable_sort_perm_inv l1 l2 :
  (forall x y, x ∈ l1 -> y ∈ l1 -> incomparable less x y = true -> x = y) ->
  l1 ≡ₚ l2 -> stable_sort less l1 = stable_sort less l2.
Proof.
  intros Htie Hp. apply stable_sort_unique; [apply stable_sort_sorted|].
  intros a. rewrite stable_sort_stable.
  assert (Hpf : filter (incomparable less a) l1 ≡ₚ filter (incomparable less a) l2) by (by rewrite Hp).
  assert (Hc : exists n b, filter (incomparable less a) l1 = replicate n b).
  { assert (Hall : forall x y, x ∈ filter (incomparable less a) l1 ->
      y ∈ filter (incomparable less a) l1 -> x = y).
    { intros x y [Hx Hx']%list_elem_of_filter [Hy Hy']%list_elem_of_filter.
      apply Htie; [done..|]. eapply incomparable_trans; [rewrite incomparable_sym|];
      by apply Is_true_true. }
    destruct (filter _ l1) as [|b f] eqn:E; [by exists 0, a|].
    exists (S (length f)), b. simpl. f_equal.
    symmetry. apply replicate_as_elem_of. split; [done|]. intros y Hy.
    apply Hall; [by right | left]. }
  destruct Hc as (n & b & Hc). rewrite Hc in Hpf |- *.
  by apply replicate_Permutation in Hpf.
Qed.
End laws.

(** ** Instances *)

#[export] Instance key_less_weak {A} (key : A -> Z) : StrictWeak (key_less key).
Proof. unfold key_less. split; intros *; rewrite ?Z.ltb_irrefl, ?Z.ltb_lt, ?Z.ltb_ge; lia. Qed.

Lemma compare_Ascii_trans a b c r :
  Ascii.compare a b = r -> Ascii.compare b c = r -> Ascii.compare a c = r.
Proof.
  unfold Ascii.compare. destruct r; intros.
  - apply N.compare_eq_iff in H, H0. apply N.compare_eq_iff. congruence.
  - apply N.compare_lt_iff in H, H0. apply N.compare_lt_iff. by etransitivity.
  - apply N.compare_gt_iff in H, H0. apply N.compare_gt_iff. by etransitivity.
Qed.

Lemma str_compare_refl s : String.compare s s = Eq.
Proof.
  induction s as [|c s IH]; [done|]. simpl.
  assert (Ascii.compare c c = Eq) as -> by apply N.compare_refl. done.
Qed.

Lemma str_compare_lt_trans s t u :
  String.compare s t = Lt -> String.compare t u = Lt -> String.compare s u = Lt.
Proof.
  revert t u. induction s as [|a s IH]; intros [|b t] [|c u]; simpl; try done.
  destruct (Ascii.compare a b) eqn:E1, (Ascii.compare b c) eqn:E2; try done; intros.
  - rewrite (compare_Ascii_trans a b c Eq) by done. eauto.
  - assert (a = b) as -> by by apply Ascii.compare_eq_iff. by rewrite E2.
  - assert (b = c) as <- by by apply Ascii.compare_eq_iff. by rewrite E1.
  - by rewrite (compare_Ascii_trans a b c Lt).
Qed.

#[export] Instance str_less_weak : StrictWeak str_less.
Proof.
  unfold str_less. split.
  - intros x. by rewrite str_compare_refl.
  - intros x y z. destruct (String.compare x y) eqn:E1; try done.
    destruct (String.compare y z) eqn:E2; try done. intros _ _.
    by rewrite (str_compare_lt_trans x y z).
  - intros x y z Hxy Hyz. destruct (String.compare x z) eqn:E; try done. exfalso.
    destruct (String.compare x y) eqn:E1; [| done|].
    + apply String.compare_eq_iff in E1 as ->. by rewrite E in Hyz.
    + rewrite String.compare_antisym in E1.
      assert (String.compare y x = Lt) as Hyx by (destruct (String.compare y x); done).
      by rewrite (str_compare_lt_trans y x z) in Hyz.
Qed.

#[export] Instance key_str_less_weak {A} (key : A -> string) : StrictWeak (key_str_less key).
Proof.
  unfold key_str_less. split; intros *;
    [apply less_irrefl | apply less_trans | apply less_weak].
Qed.

#[export] Instance then_less_weak {A} (less1 less2 : A -> A -> bool) :
  StrictWeak less1 -> StrictWeak less2 -> StrictWeak (then_less less1 less2).
Proof.
  intros H1 H2. unfold then_less. split.
  - intros x. by rewrite (less_irrefl (less:=less1)), (less_irrefl (less:=less2)).
  - intros x y z.
    pose proof (less_weak (less:=less1)) as W1. pose proof (less_trans (less:=less2)) as T2.
    pose proof (less_trans (less:=less1) x y z) as T1.
    pose proof (W1 x z y) as W2. pose proof (W1 y x z) as W3. pose proof (W1 z y x) as W4.
    pose proof (W1 z x y) as W5. pose proof (W1 y z x) as W6. specialize (T2 x y z).
    destruct (less1 x y), (less1 y x), (less1 y z), (less1 z y), (less1 x z), (less1 z x);
      naive_solver.
  - intros x y z.
    pose proof (less_weak (less:=less1)) as W1. pose proof (less_weak (less:=less2) x y z) as T2.
    pose proof (less_trans (less:=less1)) as T1.
    pose proof (W1 x y z) as W2. pose proof (W1 y z x) as W3. pose proof (W1 z x y) as W4.
    pose proof (W1 z y x) as W5. pose proof (W1 y x z) as W6. pose proof (W1 x z y) as W7.
    destruct (less1 x y), (less1 y x), (less1 y z), (less1 z y), (less1 x z), (less1 z x);
      naive_solver.
Qed.

(** Strings have no ties. *)
Lemma str_less_total x y : incomparable str_less x y = true -> x = y.
Proof.
  unfold incomparable, str_less. rewrite (String.compare_antisym y x).
  destruct (String.compare x y) eqn:E; try done.
  intros _. by apply String.compare_eq_iff.
Qed.

(** [sorted_keys] does not depend on the order the map was ranged over. *)
Lemma sorted_keys_range {A} (m : gmap string A) (names : list string) :
  names ≡ₚ map fst (map_to_list m) -> sort_Strings names = sorted_keys m.
Proof.
  intros Hp. apply (stable_sort_perm_inv str_less); [|done].
  intros ????; apply str_less_total.
Qed.

Lemma sorted_keys_elem {A} (m : gmap string A) k : k ∈ sorted_keys m <-> is_Some (m !! k).
Proof.
  unfold sorted_keys, sort_Strings. rewrite (stable_sort_elem str_less).
  rewrite list_elem_of_fmap. split.
  - intros ([k' v] & -> & H%elem_of_map_to_list). eauto.
  - intros [v H]. exists (k, v). by rewrite elem_of_map_to_list.
Qed.

Lemma sorted_keys_nodup {A} (m : gmap string A) : NoDup (sorted_keys m).
Proof.
  unfold sorted_keys, sort_Strings. rewrite (stable_sort_perm str_less).
  apply NoDup_fst_map_to_list.
Qed.
