(* ===== verification/GoValue.v ===== *)
(** * Dynamic Go values and time

    [any], as the JSON decoder and the callers fill it, and [time.Time]. *)

From S2P Require Import Prelude.

(** The dynamic types that reach the program inside a [map[string]any]: what
    [encoding/json] produces, and the [[]string] that [cmd/omg] stores itself.
    A [float64] is kept as its 64-bit pattern: the program never computes with
    one. *)
Inductive value :=
| VNil
| VBool (b : bool)
| VFloat64 (bits : Z)
| VString (s : string)
| VStrings (l : list string)
| VSlice (l : list value)
| VMap (m : gmap string value).

Abbreviation object := (gmap string value).

(** [v, _ := values[key].(string)] on a possibly nil map: a nil map reads as
    an empty one. *)
Definition as_string (v : option value) : option string :=
  match v with Some (VString s) => Some s | _ => None end.
Definition as_map (v : option value) : option object :=
  match v with Some (VMap m) => Some m | _ => None end.

(** ** [time.Time]

    Nanoseconds since the zero time (1 January of year 1, UTC). *)
Abbreviation time := Z.
Abbreviation duration := Z.

Definition time_zero : time := 0.
Definition IsZero (t : time) : bool := (t =? 0)%Z.

Definition min_int64 : Z := - 2 ^ 63.
Definition max_int64 : Z := 2 ^ 63 - 1.
(** Two's complement wrap-around of 64-bit arithmetic *)
Definition wrap64 (z : Z) : Z := (z + 2 ^ 63) mod 2 ^ 64 - 2 ^ 63.

(** [t.Sub(u)] saturates at the ends of [time.Duration]. *)
Definition Sub (t u : time) : duration := Z.max min_int64 (Z.min max_int64 (t - u)).

Definition Nanosecond : duration := 1.
Definition Millisecond : duration := 1000000.
Definition Second : duration := 1000 * Millisecond.
Definition Minute : duration := 60 * Second.

(** [time.Time.MarshalJSON] refuses years outside 0 to 9999. *)
Definition day : duration := (86400 * Second)%Z.
Definition time_encodable (t : time) : bool := (- 366 * day <=? t)%Z && (t <? 3652059 * day)%Z.
Definition year_error : error :=
  errorf "json: error calling MarshalJSON for type time.Time: Time.MarshalJSON: year outside of range [0,9999]".

Lemma wrap64_range z : (min_int64 <= wrap64 z <= max_int64)%Z.
Proof.
  unfold wrap64, min_int64, max_int64.
  pose proof (Z.mod_pos_bound (z + 2 ^ 63) (2 ^ 64)). lia.
Qed.

Lemma wrap64_id z : (min_int64 <= z <= max_int64)%Z -> wrap64 z = z.
Proof.
  unfold wrap64, min_int64, max_int64. intros H. rewrite Z.mod_small; lia.
Qed.

Lemma Sub_range t u : (min_int64 <= Sub t u <= max_int64)%Z.
Proof. unfold Sub, min_int64, max_int64. lia. Qed.
