(* ===== verification/Protocol.v ===== *)
(** * internal/protocol: the host-neutral v1 wire envelope

    The request and response records, request validation and the two response
    constructors of [src/internal/protocol/protocol.go]. [ReadRequest] takes the
    decoder's outcome; [Wire] has the text. *)

From S2P Require Import Prelude GoStrings GoValue.

Definition Version : Z := 1.

Definition ProviderCodex := "codex".
Definition ProviderClaude := "claude".
Definition ProviderOpenCode := "opencode".
Definition ProviderDirect := "direct".

Definition EventOnSubmit := "on-submit".
Definition EventOnToolBefore := "on-tool-before".
Definition EventOnToolAfter := "on-tool-after".
Definition EventOnError := "on-error".
Definition EventOnCompact := "on-compact".
Definition EventOnStop := "on-stop".
Definition EventOnRun := "on-run".

Definition ActionNone := "none".
Definition ActionInjectPrompt := "inject_prompt".
Definition ActionBlock := "block".
Definition ActionReplace := "replace".
Definition ActionWarn := "warn".

Definition ErrorTimeout := "timeout".
Definition ErrorInvalidConfig := "invalid_config".
Definition ErrorSocketUnavailable := "socket_unavailable".
Definition ErrorPolicyBlocked := "policy_blocked".
Definition ErrorFilesystem := "filesystem_error".
Definition ErrorUnknown := "unknown".

(** A nil map reads as an empty one, so the two maps are plain [object]s. *)
Record Request := mkRequest {
  req_Version : Z;
  req_RequestID : string;
  req_Provider : string;
  req_Event : string;
  req_Project : string;
  req_CWD : string;
  req_SessionID : string;
  req_TimeoutMS : Z;
  req_Capabilities : object;
  req_Payload : object
}.

Record ResponseError := mkResponseError {
  re_Class : string;
  re_Message : string;
  re_Retryable : bool
}.

Record Response := mkResponse {
  resp_OK : bool;
  resp_RequestID : string;
  resp_Action : string;
  resp_Output : string;
  resp_Warnings : slice string;
  resp_Error : option ResponseError
}.

Record ProtocolError := mkProtocolError {
  pe_Class : string;
  pe_Message : string;
  pe_Retryable : bool
}.

(** [(e *ProtocolError).Error()], nil receiver included *)
Definition ProtocolError_Error (e : option ProtocolError) : string :=
  match e with None => "" | Some e => pe_Message e end.

Definition requestIDOf (req : option Request) : string :=
  match req with None => "" | Some r => req_RequestID r end.

Definition normalizeWarnings (warnings : slice string) : slice string :=
  match warnings with None => Some [] | Some w => Some w end.

Definition OKResponse (req : option Request) (action output : string) (warnings : slice string)
    : Response :=
  mkResponse true (requestIDOf req) action output (normalizeWarnings warnings) None.

Definition NewProtocolError (class message : string) (retryable : bool) : ProtocolError :=
  mkProtocolError (if class =s "" then ErrorUnknown else class)
    (if message =s "" then "unknown protocol error" else message) retryable.

Definition ErrorResponse (req : option Request) (action : string) (err : option ProtocolError)
    (warnings : slice string) : Response :=
  let action := if action =s "" then ActionWarn else action in
  let err := match err with
             | Some e => e
             | None => NewProtocolError ErrorUnknown "unknown protocol error" false
             end in
  mkResponse false (requestIDOf req) action "" (normalizeWarnings warnings)
    (Some (mkResponseError (pe_Class err) (pe_Message err) (pe_Retryable err))).

Definition validProvider (provider : string) : bool :=
  existsb (String.eqb provider) [ProviderCodex; ProviderClaude; ProviderOpenCode; ProviderDirect].

Definition validEvent (event : string) : bool :=
  existsb (String.eqb event)
    [EventOnSubmit; EventOnToolBefore; EventOnToolAfter; EventOnError; EventOnCompact;
     EventOnStop; EventOnRun].

(** [filepath.IsAbs] on Unix *)
Definition IsAbs (path : string) : bool := HasPrefix path "/".

Definition ValidateRequest (req : option Request) : option ProtocolError :=
  match req with
  | None => Some (NewProtocolError ErrorInvalidConfig "request is required" false)
  | Some r =>
      if negb (req_Version r =? Version)%Z then
        Some (NewProtocolError ErrorInvalidConfig "version must be 1" false)
      else if req_RequestID r =s "" then
        Some (NewProtocolError ErrorInvalidConfig "request_id is required" false)
      else if negb (validProvider (req_Provider r)) then
        Some (NewProtocolError ErrorInvalidConfig
                "provider must be codex, claude, opencode, or direct" false)
      else if negb (validEvent (req_Event r)) then
        Some (NewProtocolError ErrorInvalidConfig "event is not supported by protocol v1" false)
      else if (req_Project r <>s "") && negb (IsAbs (req_Project r)) then
        Some (NewProtocolError ErrorInvalidConfig
                "project must be an absolute path when provided" false)
      else if (req_CWD r <>s "") && negb (IsAbs (req_CWD r)) then
        Some (NewProtocolError ErrorInvalidConfig
                "cwd must be an absolute path when provided" false)
      else None
  end.

(** [decoded] is what [json.Decoder.Decode] made of the stream: the filled
    request, or its error. The request is returned beside a validation error,
    so that the response can carry its id. *)
Definition ReadRequest (decoded : result Request) : option Request * option ProtocolError :=
  match decoded with
  | Err e => (None, Some (NewProtocolError ErrorInvalidConfig
                            ("decode request: " +:+ Error e) false))
  | Ok req => (Some req, ValidateRequest (Some req))
  end.

(** What [WriteResponse] hands to the encoder: nil warnings become [[]]. *)
Definition WriteResponse (resp : Response) : Response :=
  mkResponse (resp_OK resp) (resp_RequestID resp) (resp_Action resp) (resp_Output resp)
    (match resp_Warnings resp with None => Some [] | w => w end) (resp_Error resp).

(** ** The envelope's promises *)

(** A request the protocol accepts. *)
Definition valid_request (r : Request) : Prop :=
  req_Version r = 1%Z /\ req_RequestID r <> "" /\
  req_Provider r ∈ ["codex"; "claude"; "opencode"; "direct"] /\
  req_Event r ∈ ["on-submit"; "on-tool-before"; "on-tool-after"; "on-error"; "on-compact";
                 "on-stop"; "on-run"] /\
  (req_Project r = "" \/ IsAbs (req_Project r) = true) /\
  (req_CWD r = "" \/ IsAbs (req_CWD r) = true).

(** A response the hosts can rely on: warnings are never null, an error is
    present exactly when [ok] is false, and then it has a class and a text. *)
Definition well_formed_response (resp : Response) : Prop :=
  resp_Warnings resp <> None /\
  resp_Action resp <> "" /\
  match resp_Error resp with
  | None => resp_OK resp = true
  | Some e => resp_OK resp = false /\ re_Class e <> "" /\ re_Message e <> ""
  end.

Lemma NewProtocolError_nonempty class message retryable :
  pe_Class (NewProtocolError class message retryable) <> "" /\
  pe_Message (NewProtocolError class message retryable) <> "".
Proof. unfold NewProtocolError; simpl. split; go_cases; done. Qed.

Lemma OKResponse_well_formed req action output warnings :
  action <> "" -> well_formed_response (OKResponse req action output warnings).
Proof. intros. unfold well_formed_response; simpl. by destruct warnings. Qed.

Lemma ErrorResponse_well_formed req action err warnings :
  match err with Some e => pe_Class e <> "" /\ pe_Message e <> "" | None => True end ->
  well_formed_response (ErrorResponse req action err warnings).
Proof.
  intros He. unfold well_formed_response, ErrorResponse; simpl.
  split; [by destruct warnings|]. split; [destruct (action =s "") eqn:?; by str_simpl|].
  destruct err; naive_solver.
Qed.

Lemma ErrorResponse_new_well_formed req action class message retryable warnings :
  well_formed_response
    (ErrorResponse req action (Some (NewProtocolError class message retryable)) warnings).
Proof. apply ErrorResponse_well_formed, NewProtocolError_nonempty. Qed.

#[export] Hint Resolve OKResponse_well_formed ErrorResponse_new_well_formed : omg.

Lemma request_valid r : ValidateRequest (Some r) = None <-> valid_request r.
Proof.
  unfold valid_request. rewrite <- !existsb_eqb_elem.
  change (existsb (String.eqb (req_Provider r)) _) with (validProvider (req_Provider r)).
  change (existsb (String.eqb (req_Event r)) _) with (validEvent (req_Event r)).
  unfold ValidateRequest. rewrite !guard_none, !empty_or, !negb_false_iff, eqb_false, Z.eqb_eq.
  naive_solver.
Qed.

Lemma ValidateRequest_error r e : ValidateRequest (Some r) = Some e ->
  pe_Class e = ErrorInvalidConfig /\ pe_Message e <> "" /\ pe_Retryable e = false.
Proof. revert e. unfold ValidateRequest. repeat (apply guard_some; [done|]). done. Qed.

(** [ValidateRequest] accepts exactly the requests of protocol v1, and every
    refusal is a non-retryable [invalid_config] error with a message. *)
Theorem ValidateRequest_spec r :
  (ValidateRequest (Some r) = None <-> valid_request r) /\
  (forall e, ValidateRequest (Some r) = Some e ->
     pe_Class e = ErrorInvalidConfig /\ pe_Message e <> "" /\ pe_Retryable e = false).
Proof.
  split; [apply request_valid|apply ValidateRequest_error].
Qed.
