(* ===== verification/GoPath.v ===== *)
(** * Go paths on Unix

    [path/filepath]: [Clean], [Join], [Dir], [Base], and [Match] with its
    helpers, as the standard library implements them. [Match] keeps the
    library's own search (the first match of a chunk after a star is kept), and
    its errors. *)

From S2P Require Import Prelude GoStrings.

Definition slash : ascii := "/".

(** ** Clean, Join *)

(** The stack of components is kept reversed. *)
Definition clean_step (rooted : bool) (stack : list string) (c : string) : list string :=
  if (c =s "") || (c =s ".") then stack
  else if c =s ".." then
    match stack with
    | top :: rest => if top =s ".." then c :: stack else rest
    | [] => if rooted then [] else [c]
    end
  else c :: stack.

Definition is_rooted (path : string) : bool := HasPrefix path "/".
Definition clean_stack (rooted : bool) (comps : list string) (stack : list string) : list string :=
  foldl (clean_step rooted) stack comps.

Definition render_path (rooted : bool) (comps : list string) : string :=
  if rooted then "/" +:+ Join comps "/"
  else match comps with [] => "." | _ => Join comps "/" end.

Definition Clean (path : string) : string :=
  render_path (is_rooted path) (rev (clean_stack (is_rooted path) (Split path slash) [])).

(** [filepath.Join]: empty leading elements are dropped, the rest is cleaned. *)
Fixpoint JoinPath (elem : list string) : string :=
  match elem with
  | [] => ""
  | e :: rest => if e =s "" then JoinPath rest else Clean (Join elem "/")
  end.

(** What precedes and follows the last slash *)
Fixpoint before_last_slash (s : string) : string :=
  match s with
  | EmptyString => ""
  | String c s' =>
      if Contains s' "/" then String c (before_last_slash s')
      else if Ascii.eqb c slash then "/" else ""
  end.
Definition Dir (path : string) : string := Clean (before_last_slash path).

(** ** Match *)

(** A malformed pattern is [ErrBadPattern]. *)
Definition ErrBadPattern : error := errorf "syntax error in pattern".

(** The literal part up to the next star outside a class, and the rest. *)
Fixpoint scan_literal (inrange : bool) (p : string) : string * string :=
  match p with
  | EmptyString => ("", "")
  | String c p' =>
      if Ascii.eqb c "\" then
        match p' with
        | EmptyString => (p, "")
        | String d p'' => let '(l, r) := scan_literal inrange p'' in (String c (String d l), r)
        end
      else if Ascii.eqb c "*" && negb inrange then ("", p)
      else
        let inrange' := if Ascii.eqb c "[" then true
                        else if Ascii.eqb c "]" then false else inrange in
        let '(l, r) := scan_literal inrange' p' in (String c l, r)
  end.
Fixpoint skip_stars (p : string) : bool * string :=
  match p with
  | String c p' => if Ascii.eqb c "*" then (true, (skip_stars p').2) else (false, p)
  | EmptyString => (false, "")
  end.
Definition scan_chunk (p : string) : bool * string * string :=
  let '(star, p') := skip_stars p in
  let '(chunk, rest) := scan_literal false p' in
  (star, chunk, rest).

(** One possibly escaped character of a class. *)
Definition get_esc (chunk : string) : option (N * string) :=
  match chunk with
  | EmptyString => None
  | String c chunk' =>
      if Ascii.eqb c "-" || Ascii.eqb c "]" then None
      else
        let body := if Ascii.eqb c "\" then chunk' else chunk in
        match body with
        | EmptyString => None
        | _ =>
            let '(r, n) := decode_rune body in
            let rest := str_drop n body in
            if (N.eqb r RuneError && (n =? 1)%nat) || (rest =s "") then None
            else Some (r, rest)
        end
  end.

(** The ranges of a class up to its closing bracket: whether [r] is in one,
    and the pattern after the bracket. *)
Fixpoint match_class (fuel : nat) (r : N) (nrange : nat) (found : bool) (chunk : string)
    : option (bool * string) :=
  match fuel with
  | O => None
  | S f =>
      match chunk, nrange with
      | String "]" chunk', S _ => Some (found, chunk')
      | _, _ =>
          match get_esc chunk with
          | None => None
          | Some (lo, c1) =>
              match (match c1 with
                     | String "-" c2 => get_esc c2
                     | _ => Some (lo, c1)
                     end) with
              | None => None
              | Some (hi, c3) =>
                  match_class f r (S nrange) (found || (N.leb lo r && N.leb r hi)) c3
              end
          end
      end
  end.

(** [matchChunk]: [None] is [ErrBadPattern], [Some None] no match, otherwise
    the rest of the name. [st = None] once the match has failed: the chunk is
    then only checked for syntax. *)
Fixpoint match_chunk (fuel : nat) (chunk : string) (st : option string) : option (option string) :=
  match fuel with
  | O => Some st
  | S f =>
      match chunk with
      | EmptyString => Some st
      | String c chunk' =>
          let st := match st with Some EmptyString => None | _ => st end in
          if Ascii.eqb c "[" then
            let '(r, st1) := match st with
                             | Some s => let '(r, n) := decode_rune s in (r, Some (str_drop n s))
                             | None => (0%N, None)
                             end in
            let '(negated, body) := match chunk' with
                                    | String "^" b => (true, b)
                                    | _ => (false, chunk')
                                    end in
            match match_class f r 0 false body with
            | None => None
            | Some (found, rest) =>
                match_chunk f rest (if Bool.eqb found negated then None else st1)
            end
          else if Ascii.eqb c "?" then
            match_chunk f chunk'
              (match st with
               | Some (String b _ as s) =>
                   if Ascii.eqb b slash then None else Some (str_drop (decode_rune s).2 s)
               | _ => None
               end)
          else
            let '(lit, rest, bad) :=
              if Ascii.eqb c "\" then
                match chunk' with
                | String d chunk'' => (d, chunk'', false)
                | EmptyString => (c, chunk', true)
                end
              else (c, chunk', false) in
            if (bad : bool) then None
            else match_chunk f rest
                   (match st with
                    | Some (String b s') => if Ascii.eqb lit b then Some s' else None
                    | _ => None
                    end)
      end
  end.
Definition matchChunk (chunk s : string) : option (option string) :=
  match_chunk (S (String.length chunk)) chunk (Some s).

(** Matching a chunk after a star: skip bytes up to the next separator. *)
Fixpoint star_match (chunk : string) (last : bool) (name : string) : option (option string) :=
  match name with
  | EmptyString => Some None
  | String c name' =>
      if Ascii.eqb c slash then Some None
      else match matchChunk chunk name' with
           | None => None
           | Some (Some t) => if last && (t <>s "") then star_match chunk last name'
                              else Some (Some t)
           | Some None => star_match chunk last name'
           end
  end.

(** Is the rest of the pattern well formed? *)
Fixpoint rest_valid (fuel : nat) (pattern : string) : bool :=
  match fuel, pattern with
  | S f, String _ _ =>
      let '(_, chunk, rest) := scan_chunk pattern in
      match matchChunk chunk "" with None => false | Some _ => rest_valid f rest end
  | _, _ => true
  end.

Fixpoint match_fuel (fuel : nat) (pattern name : string) : result bool :=
  match fuel with
  | O => Ok (name =s "")
  | S f =>
      match pattern with
      | EmptyString => Ok (name =s "")
      | _ =>
          let '(star, chunk, rest) := scan_chunk pattern in
          if star && (chunk =s "") then Ok (negb (Contains name "/"))
          else
            let no_match := if rest_valid f rest then Ok false else Err ErrBadPattern in
            let after_star :=
              if star : bool then
                match star_match chunk (rest =s "") name with
                | None => Err ErrBadPattern
                | Some (Some t) => match_fuel f rest t
                | Some None => no_match
                end
              else no_match in
            match matchChunk chunk name with
            | None => Err ErrBadPattern
            | Some (Some t) =>
                if (t =s "") || (rest <>s "") then match_fuel f rest t else after_star
            | Some None => after_star
            end
      end
  end.

(** [filepath.Match(pattern, name)] *)
Definition Match (pattern name : string) : result bool :=
  match_fuel (S (String.length pattern)) pattern name.

(** ** Lemmas *)

(** A path component that [Clean] keeps as it is. *)
Definition plain (c : string) : Prop :=
  c <> "" /\ c <> "." /\ c <> ".." /\ Contains c "/" = false.

(** What a cleaned path's components look like: no empty or [.] components, and
    [..] only in front of a relative path. *)
Definition clean_comp (c : string) : Prop :=
  c <> "" /\ c <> "." /\ Contains c "/" = false.

(** [stack] is reversed: its tail is nearer the root. *)
Fixpoint clean_stack_ok (rooted : bool) (stack : list string) : Prop :=
  match stack with
  | [] => True
  | c :: rest => clean_comp c /\ clean_stack_ok rooted rest /\
      (c = ".." -> rooted = false /\ Forall (fun d => d = "..") rest)
  end.

#[export] Instance plain_dec c : Decision (plain c).
Proof. unfold plain. solve_decision. Defined.

Lemma clean_step_ok rooted stack c :
  Contains c "/" = false -> clean_stack_ok rooted stack ->
  clean_stack_ok rooted (clean_step rooted stack c).
Proof.
  intros Hc Hs. unfold clean_step.
  destruct (c =s "") eqn:E0; [done|]. destruct (c =s ".") eqn:E1; [done|].
  simpl. destruct (c =s "..") eqn:E2; str_simpl; subst.
  - destruct stack as [|top rest]; [by destruct rooted|].
    destruct Hs as (Htop & Hrest & Hdots).
    destruct (top =s "..") eqn:E3; [|done]. str_simpl; subst.
    destruct (Hdots eq_refl) as [-> Hall]. split; [done|]. split; [done|].
    intros _. split; [done|]. by constructor.
  - split; [done|]. split; [done|]. congruence.
Qed.

Lemma clean_stack_inv rooted comps stack :
  Forall (fun c => Contains c "/" = false) comps -> clean_stack_ok rooted stack ->
  clean_stack_ok rooted (clean_stack rooted comps stack).
Proof.
  unfold clean_stack. intros H. revert stack.
  induction H as [|c comps Hc _ IH]; intros stack Hs; simpl; [done|].
  apply IH. by apply clean_step_ok.
Qed.

Lemma clean_stack_app rooted c1 c2 stack :
  clean_stack rooted (c1 ++ c2) stack = clean_stack rooted c2 (clean_stack rooted c1 stack).
Proof. unfold clean_stack. apply foldl_app. Qed.

Lemma clean_step_plain rooted stack c : plain c -> clean_step rooted stack c = c :: stack.
Proof.
  intros (H1 & H2 & H3 & _). unfold clean_step.
  apply eqb_false in H1, H2, H3. by rewrite H1, H2, H3.
Qed.

(** Cleaning pushes plain components, and rebuilds a clean stack as it is. *)
Lemma clean_stack_plain rooted comps stack :
  Forall plain comps -> clean_stack rooted comps stack = rev comps ++ stack.
Proof.
  intros H. revert stack. induction H as [|c comps Hc _ IH]; intros stack; [done|].
  simpl. rewrite clean_step_plain by done. rewrite <- app_assoc. apply IH.
Qed.

Lemma clean_stack_rebuild rooted stack :
  clean_stack_ok rooted stack -> clean_stack rooted (rev stack) [] = stack.
Proof.
  induction stack as [|c rest IH]; simpl; [done|].
  intros (Hc & Hrest & Hdots). rewrite clean_stack_app, IH by done.
  simpl. destruct Hc as (H1 & H2 & _). unfold clean_step.
  apply eqb_false in H1, H2. rewrite H1, H2. simpl.
  destruct (c =s "..") eqn:E; [|done]. str_simpl; subst.
  destruct (Hdots eq_refl) as [-> Hall]. destruct rest as [|d rest]; [done|].
  inversion Hall; subst. done.
Qed.

(** The components of a rendered path, as [Split] sees them. *)
Lemma Split_render rooted comps :
  comps <> [] -> Forall (fun c => Contains c "/" = false) comps ->
  Split (render_path rooted comps) slash = (if rooted then [""] else []) ++ comps.
Proof.
  intros Hne H. unfold render_path. destruct rooted.
  - change ("/" +:+ Join comps "/") with ("" +:+ String slash (Join comps "/")).
    rewrite Split_app, Split_Join by done. done.
  - destruct comps; [done|]. by rewrite Split_Join.
Qed.

Lemma Join_head c b comps :
  exists r, Join (String b c :: comps) "/" = String b r.
Proof.
  destruct comps as [|d comps]; [by exists c|]. by exists (c +:+ "/" +:+ Join (d :: comps) "/").
Qed.

Lemma render_nonempty rooted comps :
  comps <> [] -> Forall clean_comp comps -> render_path rooted comps <> "".
Proof.
  intros Hne H. unfold render_path. destruct rooted; [done|].
  destruct H as [|c comps (H1 & _) _]; [done|]. destruct c as [|b c]; [done|].
  destruct (Join_head c b comps) as [r ->]. done.
Qed.

Lemma is_rooted_render rooted comps :
  comps <> [] -> Forall clean_comp comps -> is_rooted (render_path rooted comps) = rooted.
Proof.
  intros Hne H. unfold render_path, is_rooted. destruct rooted; [apply (HasPrefix_app "/")|].
  destruct H as [|c comps (H1 & _ & H3) _]; [done|]. destruct c as [|b c]; [done|].
  destruct (Join_head c b comps) as [r ->]. rewrite prefix_single.
  rewrite Contains_byte_cons in H3. by apply orb_false_iff in H3 as [-> _].
Qed.

Lemma is_rooted_app a b : a <> "" -> is_rooted (a +:+ b) = is_rooted a.
Proof. intros H. destruct a as [|c a]; [done|]. unfold is_rooted. by rewrite str_app_cons, !prefix_single. Qed.

Lemma clean_stack_ok_comps rooted stack :
  clean_stack_ok rooted stack -> Forall clean_comp stack.
Proof.
  induction stack as [|c rest IH]; simpl; [by constructor|].
  intros (Hc & Hrest & _). constructor; auto.
Qed.

Lemma clean_comp_no_slash l :
  Forall clean_comp l -> Forall (fun c => Contains c "/" = false) l.
Proof. intros H. eapply Forall_impl; [exact H|]. unfold clean_comp; naive_solver. Qed.

Lemma plain_clean_comp l : Forall plain l -> Forall clean_comp l.
Proof. intros H. eapply Forall_impl; [exact H|]. unfold clean_comp, plain; naive_solver. Qed.

Lemma rev_nonempty {A} (l : list A) : l <> [] -> rev l <> [].
Proof. destruct l; [done|]. simpl. intros _. by destruct (rev l). Qed.

Lemma render_app rooted l1 l2 :
  l1 <> [] -> l2 <> [] ->
  render_path rooted (l1 ++ l2) = render_path rooted l1 +:+ "/" +:+ Join l2 "/".
Proof.
  intros H1 H2. unfold render_path. destruct rooted.
  - by rewrite Join_app.
  - destruct l1 as [|x l1]; [done|]. rewrite <- Join_app by done. done.
Qed.

(** Joining plain components to a clean path appends them. *)
Lemma JoinPath_clean rooted stack cs :
  clean_stack_ok rooted stack -> stack <> [] -> Forall plain cs -> cs <> [] ->
  JoinPath (render_path rooted (rev stack) :: cs) = render_path rooted (rev stack ++ cs).
Proof.
  intros Hs Hne Hcs Hcs0.
  pose proof (Forall_rev (clean_stack_ok_comps _ _ Hs)) as Hcl.
  pose proof (rev_nonempty _ Hne) as Hrev.
  pose proof (render_nonempty rooted _ Hrev Hcl) as HR.
  cbn [JoinPath]. rewrite (proj2 (eqb_false _ _) HR).
  rewrite Join_cons by done. unfold Clean.
  change ("/" +:+ Join cs "/") with (String slash (Join cs "/")).
  rewrite is_rooted_app, is_rooted_render, Split_app, Split_render, Split_Join by
    auto using clean_comp_no_slash, plain_clean_comp.
  rewrite <- app_assoc, clean_stack_app.
  replace (clean_stack rooted (if rooted then [""] else []) []) with (@nil string) by (by destruct rooted).
  rewrite clean_stack_app, clean_stack_rebuild, clean_stack_plain by done.
  by rewrite rev_app_distr, rev_involutive.
Qed.

Lemma Clean_stack path :
  exists stack, clean_stack_ok (is_rooted path) stack /\
    Clean path = render_path (is_rooted path) (rev stack).
Proof.
  exists (clean_stack (is_rooted path) (Split path slash) []). split; [|done].
  apply clean_stack_inv; [|done]. apply Forall_forall. intros c. apply Split_no_sep.
Qed.

(** Joining plain components [cs] to any directory gives a clean path that ends
    with them. *)
Lemma JoinPath_stack root cs :
  Forall plain cs -> cs <> [] ->
  exists rooted stack, clean_stack_ok rooted stack /\
    JoinPath (root :: cs) = render_path rooted (rev stack ++ cs).
Proof.
  intros Hcs Hne. cbn [JoinPath]. destruct (root =s "") eqn:E.
  - exists false, []. split; [done|]. destruct cs as [|c cs]; [done|].
    cbn [JoinPath]. pose proof (Forall_inv Hcs) as (Hc & _).
    rewrite (proj2 (eqb_false _ _) Hc). unfold Clean.
    rewrite Split_Join by auto using clean_comp_no_slash, plain_clean_comp.
    rewrite clean_stack_plain, app_nil_r, rev_involutive by done.
    pose proof (is_rooted_render false (c :: cs)) as Hr. unfold render_path in Hr.
    rewrite Hr by auto using plain_clean_comp. done.
  - rewrite Join_cons by done. unfold Clean. str_simpl.
    change ("/" +:+ Join cs "/") with (String slash (Join cs "/")).
    rewrite is_rooted_app, Split_app, Split_Join, clean_stack_app, clean_stack_plain by
      auto using clean_comp_no_slash, plain_clean_comp.
    eexists (is_rooted root), _. split; [|by rewrite rev_app_distr, rev_involutive].
    apply clean_stack_inv; [|done]. apply Forall_forall. intros c. apply Split_no_sep.
Qed.

Lemma JoinPath_stack_ok root cs :
  Forall plain cs -> cs <> [] ->
  exists rooted stack, clean_stack_ok rooted stack /\ stack <> [] /\
    JoinPath (root :: cs) = render_path rooted (rev stack).
Proof.
  intros Hcs Hne. destruct (JoinPath_stack root cs Hcs Hne) as (r & st & Hok & ->).
  exists r, (rev cs ++ st). rewrite rev_app_distr, rev_involutive. split; [|split; [|done]].
  - rewrite <- (clean_stack_plain r) by done. apply clean_stack_inv; [|done].
    by apply clean_comp_no_slash, plain_clean_comp.
  - intros E. apply app_eq_nil in E as [E _]. by apply rev_nonempty in Hne.
Qed.

(** A path that [Join] built ends in plain components: joining more of them
    appends them with their slashes. *)
Definition joined (p : string) : Prop :=
  exists rooted stack, clean_stack_ok rooted stack /\ stack <> [] /\
    p = render_path rooted (rev stack).

Lemma joined_intro root cs : Forall plain cs -> cs <> [] -> joined (JoinPath (root :: cs)).
Proof. intros. by apply JoinPath_stack_ok. Qed.

Lemma joined_join p cs :
  joined p -> Forall plain cs -> cs <> [] ->
  JoinPath (p :: cs) = p +:+ "/" +:+ Join cs "/" /\ joined (JoinPath (p :: cs)).
Proof.
  intros (r & st & Hok & Hne & ->) Hcs Hne'. split; [|by apply joined_intro].
  rewrite JoinPath_clean by done. by rewrite render_app by auto using rev_nonempty.
Qed.

Lemma before_last_slash_app a b :
  Contains b "/" = false -> before_last_slash (a +:+ "/" +:+ b) = a +:+ "/".
Proof.
  intros Hb. induction a as [|c a IH].
  - change ("" +:+ "/" +:+ b) with (String slash b). simpl. by rewrite Hb.
  - rewrite !(str_app_cons c a). cbn [before_last_slash]. rewrite IH.
    replace (Contains _ _) with true; [done|]. symmetry. apply Contains_spec.
    by exists a, b.
Qed.

Lemma joined_Dir p b :
  joined p -> Contains b "/" = false -> Dir (p +:+ "/" +:+ b) = p.
Proof.
  intros (r & st & Hok & Hne & ->) Hb. unfold Dir. rewrite before_last_slash_app by done.
  pose proof (Forall_rev (clean_stack_ok_comps _ _ Hok)) as Hcl.
  pose proof (rev_nonempty _ Hne) as Hrev.
  unfold Clean. change "/" with (String slash "").
  rewrite is_rooted_app, is_rooted_render, Split_app, Split_render by
    auto using render_nonempty, clean_comp_no_slash.
  rewrite <- app_assoc, clean_stack_app.
  replace (clean_stack r (if r then [""] else []) []) with (@nil string) by (by destruct r).
  rewrite clean_stack_app, clean_stack_rebuild by done. done.
Qed.

Lemma Split_Join_concat cs :
  cs <> [] -> Split (Join cs "/") slash = concat (map (fun c => Split c slash) cs).
Proof.
  intros Hne. induction cs as [|c cs IH]; [done|].
  destruct cs as [|d cs]; [simpl; by rewrite app_nil_r|].
  rewrite Join_cons by done. change ("/" +:+ ?r) with (String slash r).
  rewrite Split_app, IH by done. done.
Qed.

(** Joining any names to a clean path runs [Clean] over their components. *)
Lemma JoinPath_render r st cs :
  clean_stack_ok r st -> st <> [] -> cs <> [] ->
  JoinPath (render_path r (rev st) :: cs) =
    render_path r (rev (clean_stack r (concat (map (fun c => Split c slash) cs)) st)).
Proof.
  intros Hok Hne Hcs. pose proof (Forall_rev (clean_stack_ok_comps _ _ Hok)) as Hcl.
  pose proof (rev_nonempty _ Hne) as Hrev. pose proof (render_nonempty r _ Hrev Hcl) as HR.
  cbn [JoinPath]. rewrite (proj2 (eqb_false _ _) HR), Join_cons by done. unfold Clean.
  change ("/" +:+ ?x) with (String slash x).
  rewrite is_rooted_app, is_rooted_render, Split_app, Split_render, Split_Join_concat by
    auto using clean_comp_no_slash.
  rewrite <- app_assoc, clean_stack_app.
  replace (clean_stack r (if r then [""] else []) []) with (@nil string) by (by destruct r).
  by rewrite clean_stack_app, clean_stack_rebuild.
Qed.
