(* ===== verification/GoFS.v ===== *)
(** * File system

    The file-system calls of package [os] that the program makes, on a state of
    regular files and directories. Files hold values of a type [A], what the
    reader of the file decodes it to. Each mutating call is a list of primitive
    steps ([fs_op]): a crash can fall between any two of them.

    A path is read by name: it is there, it is something else (a directory read as
    a file, a file read as a directory) or it is not there. A file that is there and
    can not be read, for its permissions or for an error of the disk, is not told
    from one whose bytes make no sense to its reader: both are errors that are not
    [fs.ErrNotExist], the only distinction the program makes. Reads that fail once
    and succeed later are left out. *)

From S2P Require Import Prelude GoStrings GoPath GoSort.

Record FS (A : Type) := mkFS { fs_files : gmap string A; fs_dirs : gset string }.
Arguments mkFS {A} _ _.
Arguments fs_files {A} _.
Arguments fs_dirs {A} _.

Inductive fs_op (A : Type) :=
| OpMkdirAll (ds : list string)       (* the directories created *)
| OpWrite (path : string) (data : A)  (* create or truncate, then write *)
| OpRemove (path : string)
| OpRename (old new : string).
Arguments OpMkdirAll {A} ds.
Arguments OpWrite {A} path data.
Arguments OpRemove {A} path.
Arguments OpRename {A} old new.

Definition apply_op {A} (fs : FS A) (op : fs_op A) : FS A :=
  match op with
  | OpMkdirAll ds => mkFS (fs_files fs) (list_to_set ds ∪ fs_dirs fs)
  | OpWrite p d => mkFS (<[p := d]> (fs_files fs)) (fs_dirs fs)
  | OpRemove p => mkFS (delete p (fs_files fs)) (fs_dirs fs)
  | OpRename p q =>
      match fs_files fs !! p with
      | Some d => mkFS (<[q := d]> (delete p (fs_files fs))) (fs_dirs fs)
      | None => fs
      end
  end.
Definition apply_ops {A} (fs : FS A) (ops : list (fs_op A)) : FS A := foldl apply_op fs ops.

(** A directory and all its ancestors: the prefixes that end before a slash. *)
Definition ancestors (p : string) : list string :=
  omap (fun i => match String.get i p with
                 | None | Some "/"%char => Some (str_take i p)
                 | Some _ => None
                 end) (seq 1 (String.length p)).

Definition not_exist (op path : string) : error :=
  mkError KNotExist (op +:+ " " +:+ path +:+ ": no such file or directory").

(** [os.ReadFile] *)
Definition ReadFile {A} (fs : FS A) (path : string) : result A :=
  match fs_files fs !! path with
  | Some d => Ok d
  | None => if decide (path ∈ fs_dirs fs) then Err (errorf ("read " +:+ path +:+ ": is a directory"))
            else Err (not_exist "open" path)
  end.

(** [os.ReadDir]: the entries of a directory in name order, and whether each
    is a directory. An entry's name is never [.] or [..]. *)
Definition child_name (d p : string) : option string :=
  let pre := d +:+ "/" in
  if HasPrefix p pre then
    let n := str_drop (String.length pre) p in
    if decide (plain n) then Some n else None
  else None.
Definition dir_entries {A} (fs : FS A) (d : string) : list (string * bool) :=
  stable_sort (key_str_less fst)
    (map (fun n => (n, true)) (omap (child_name d) (elements (fs_dirs fs))) ++
     map (fun n => (n, false)) (omap (child_name d) (map fst (map_to_list (fs_files fs))))).
Definition ReadDir {A} (fs : FS A) (d : string) : result (list (string * bool)) :=
  if decide (d ∈ fs_dirs fs) then Ok (dir_entries fs d)
  else match fs_files fs !! d with
       | Some _ => Err (errorf ("open " +:+ d +:+ ": not a directory"))
       | None => Err (not_exist "open" d)
       end.

(** ** Lemmas *)

Lemma apply_ops_app {A} (fs : FS A) l1 l2 :
  apply_ops fs (l1 ++ l2) = apply_ops (apply_ops fs l1) l2.
Proof. apply foldl_app. Qed.

Lemma child_name_spec d p n :
  child_name d p = Some n <-> p = d +:+ "/" +:+ n /\ plain n.
Proof.
  unfold child_name. split.
  - destruct (HasPrefix p (d +:+ "/")) eqn:E; [|done].
    apply HasPrefix_spec in E as [r ->]. rewrite str_drop_app.
    case_decide; [|done]. intros [= <-]. by rewrite str_app_assoc.
  - intros (-> & Hn). rewrite <- str_app_assoc, HasPrefix_app, str_drop_app.
    by rewrite decide_True.
Qed.

Lemma dir_entries_dir {A} (fs : FS A) d n :
  (n, true) ∈ dir_entries fs d <-> d +:+ "/" +:+ n ∈ fs_dirs fs /\ plain n.
Proof.
  unfold dir_entries. rewrite (stable_sort_elem (key_str_less fst)), elem_of_app.
  rewrite !list_elem_of_fmap. split.
  - intros [(m & [= <-] & H)|(m & [= ] & _)].
    apply list_elem_of_omap in H as (p & Hp & Hn).
    apply child_name_spec in Hn as (-> & ?). by rewrite elem_of_elements in Hp.
  - intros (H & Hn). left. exists n. split; [done|].
    apply list_elem_of_omap. exists (d +:+ "/" +:+ n).
    by rewrite elem_of_elements, child_name_spec.
Qed.

Lemma ReadDir_plain {A} (fs : FS A) d entries n :
  ReadDir fs d = Ok entries -> (n, true) ∈ entries -> plain n.
Proof.
  unfold ReadDir. case_decide; [|by destruct (fs_files fs !! d)].
  intros [= <-] Hn. by apply dir_entries_dir in Hn as [_ ?].
Qed.

Lemma ancestors_prefix p d : d ∈ ancestors p -> exists r, p = d +:+ r.
Proof.
  unfold ancestors. intros (i & Hi & Hd)%list_elem_of_omap.
  exists (str_drop i p). repeat case_match; simplify_eq; by rewrite str_take_drop.
Qed.

(** A step that leaves a path, as a file and as a directory, alone. *)
Definition avoids {A} (q : string) (op : fs_op A) : Prop :=
  match op with
  | OpMkdirAll ds => q ∉ ds
  | OpWrite p _ | OpRemove p => p <> q
  | OpRename p p' => p <> q /\ p' <> q
  end.

Lemma apply_op_avoids {A} (fs : FS A) op q :
  avoids q op -> ReadFile (apply_op fs op) q = ReadFile fs q.
Proof.
  unfold ReadFile. destruct op as [ds|p d|p|p p']; simpl.
  - intros Hq. destruct (fs_files fs !! q); [done|].
    repeat case_decide; set_solver.
  - intros Hq. by rewrite lookup_insert_ne.
  - intros Hq. by rewrite lookup_delete_ne.
  - intros [Hp Hp']. destruct (fs_files fs !! p) eqn:E; simpl; [|done].
    by rewrite lookup_insert_ne, lookup_delete_ne.
Qed.

Lemma apply_ops_avoids {A} (fs : FS A) ops q :
  Forall (avoids q) ops -> ReadFile (apply_ops fs ops) q = ReadFile fs q.
Proof.
  intros H. revert fs. induction H as [|op ops Hop _ IH]; intros fs; [done|].
  simpl. rewrite IH. by apply apply_op_avoids.
Qed.

Lemma ReadFile_rename {A} (fs : FS A) p q d :
  fs_files fs !! p = Some d -> ReadFile (apply_op fs (OpRename p q)) q = Ok d.
Proof. intros H. unfold ReadFile. simpl. rewrite H. simpl. by rewrite lookup_insert_eq. Qed.
