(* ===== verification/Utf8.v ===== *)
(** * unicode/utf8: decoding what was encoded

    [GoStrings.decode_rune] undoes [GoStrings.encode_rune], whatever follows, for
    every rune that is not a surrogate; the others are encoded as U+FFFD. *)

From S2P Require Import Prelude GoStrings.

Definition scalar (r : N) : Prop := (r < 55296 \/ 57344 <= r < 1114112)%N.

(** The rune that [AppendRune] writes. *)
Definition sanitized (r : N) : N :=
  if (N.leb 55296 r && N.leb r 57343) || N.ltb 1114111 r then RuneError else r.

Lemma sanitized_scalar r : scalar (sanitized r).
Proof.
  unfold sanitized, scalar, RuneError. destruct (N.leb_spec 55296 r), (N.leb_spec r 57343), (N.ltb_spec 1114111 r);
    cbn [andb orb]; lia.
Qed.
Lemma sanitized_id r : scalar r -> sanitized r = r.
Proof.
  unfold sanitized, scalar. intros Hr.
  destruct (N.leb_spec 55296 r), (N.leb_spec r 57343), (N.ltb_spec 1114111 r); cbn [andb orb]; lia.
Qed.
Lemma encode_sanitized r : encode_rune (sanitized r) = encode_rune r.
Proof. unfold encode_rune. fold (sanitized (sanitized r)) (sanitized r). by rewrite (sanitized_id (sanitized r)) by apply sanitized_scalar. Qed.

(** ** Bits as arithmetic *)

Lemma lor_low a b k : (b < 2 ^ k)%N -> N.lor (a * 2 ^ k) b = (a * 2 ^ k + b)%N.
Proof.
  intros Hb. assert (N.land (a * 2 ^ k) b = 0)%N as Hl.
  { apply N.bits_inj_0. intros i. rewrite N.land_spec. destruct (N.lt_ge_cases i k) as [Hi|Hi].
    - by rewrite N.mul_pow2_bits_low.
    - replace (N.testbit b i) with false; [apply andb_false_r|]. symmetry.
      destruct (N.eq_0_gt_0_cases b) as [-> |H0]; [apply N.bits_0|].
      apply N.bits_above_log2. apply N.log2_lt_pow2 in Hb; [|done]. lia. }
  by rewrite N.add_nocarry_lxor, N.lxor_lor.
Qed.

Lemma byte_n_of n : (n < 256)%N -> byte_n (byte_of n) = n.
Proof. apply N_ascii_embedding. Qed.

Lemma tail_byte_n r sh : byte_n (tail_byte r sh) = (128 + (r / 2 ^ sh) mod 64)%N.
Proof.
  unfold tail_byte. rewrite (N.land_ones _ 6), N.shiftr_div_pow2. change (2 ^ 6)%N with 64%N.
  pose proof (N.mod_lt (r / 2 ^ sh) 64 ltac:(done)) as Hm.
  rewrite (lor_low 1 _ 7) by (change (2 ^ 7)%N with 128%N; lia). change (1 * 2 ^ 7)%N with 128%N.
  apply byte_n_of. lia.
Qed.
Lemma tail_byte_cont r sh : cont (tail_byte r sh) = ((r / 2 ^ sh) mod 64)%N.
Proof.
  unfold cont. rewrite tail_byte_n, (N.land_ones _ 6). change (2 ^ 6)%N with 64%N.
  pose proof (N.mod_lt (r / 2 ^ sh) 64 ltac:(done)). rewrite <- N.Div0.add_mod_idemp_l.
  change (128 mod 64)%N with 0%N. by rewrite N.add_0_l, N.mod_small.
Qed.

Lemma in_range_spec lo hi c : in_range lo hi c = true <-> (lo <= byte_n c <= hi)%N.
Proof. unfold in_range. rewrite andb_true_iff, !N.leb_le. done. Qed.

Lemma shiftl_lor a b k : (b < 2 ^ k)%N -> N.lor (N.shiftl a k) b = (a * 2 ^ k + b)%N.
Proof. rewrite N.shiftl_mul_pow2. apply lor_low. Qed.

(** The first byte of a sequence: its marker [m * 2 ^ k] and the high bits. *)
Lemma head_byte_n m k r sh :
  (r / 2 ^ sh < 2 ^ k)%N -> (m * 2 ^ k + 2 ^ k <= 256)%N ->
  byte_n (byte_of (N.lor (m * 2 ^ k) (N.shiftr r sh))) = (m * 2 ^ k + r / 2 ^ sh)%N.
Proof. intros H1 H2. rewrite N.shiftr_div_pow2, lor_low by done. apply byte_n_of. lia. Qed.

Lemma head_byte_low m k x : (x < 2 ^ k)%N -> N.land (m * 2 ^ k + x) (N.ones k) = x.
Proof.
  intros Hx. rewrite N.land_ones, N.add_comm, N.Div0.mod_add. by apply N.mod_small.
Qed.

(** ** The round trip *)

Lemma encode_cases r : scalar r ->
  (r < 128)%N /\ encode_rune r = String (byte_of r) "" \/
  (128 <= r < 2048)%N /\ encode_rune r =
    String (byte_of (N.lor (6 * 2 ^ 5) (N.shiftr r 6))) (String (tail_byte r 0) "") \/
  (2048 <= r < 65536)%N /\ encode_rune r =
    String (byte_of (N.lor (14 * 2 ^ 4) (N.shiftr r 12))) (String (tail_byte r 6) (String (tail_byte r 0) "")) \/
  (65536 <= r < 1114112)%N /\ encode_rune r =
    String (byte_of (N.lor (30 * 2 ^ 3) (N.shiftr r 18)))
      (String (tail_byte r 12) (String (tail_byte r 6) (String (tail_byte r 0) ""))).
Proof.
  intros Hr. unfold encode_rune. fold (sanitized r). rewrite sanitized_id by done. unfold scalar in Hr.
  destruct (N.ltb_spec r 128); [by left|]. destruct (N.ltb_spec r 2048); [by right; left|].
  destruct (N.ltb_spec r 65536); [by right; right; left|]. right. right. right. split; [lia|done].
Qed.

(** Divisions by powers of two as linear arithmetic. *)
Ltac powers :=
  change (2 ^ 18)%N with 262144%N in *; change (2 ^ 12)%N with 4096%N in *; change (2 ^ 6)%N with 64%N in *;
  change (2 ^ 5)%N with 32%N in *; change (2 ^ 4)%N with 16%N in *; change (2 ^ 3)%N with 8%N in *;
  change (2 ^ 0)%N with 1%N in *; rewrite ?N.div_1_r in *.
Ltac by_digits := powers; zify; Z.to_euclidean_division_equations; lia.

(** The first byte of a sequence, with what decoding makes of it. *)
Lemma head_byte m k sh r :
  (r / 2 ^ sh < 2 ^ k)%N -> (m * 2 ^ k + 2 ^ k <= 256)%N ->
  exists b, byte_of (N.lor (m * 2 ^ k) (N.shiftr r sh)) = b /\ byte_n b = (m * 2 ^ k + r / 2 ^ sh)%N /\
    N.land (byte_n b) (N.ones k) = (r / 2 ^ sh)%N.
Proof.
  intros H1 H2. eexists. split; [done|]. rewrite head_byte_n by done. split; [done|]. by apply head_byte_low.
Qed.
(** A following byte. *)
Lemma next_byte r sh :
  exists b, tail_byte r sh = b /\ byte_n b = (128 + (r / 2 ^ sh) mod 64)%N /\ cont b = ((r / 2 ^ sh) mod 64)%N.
Proof. eexists. split; [done|]. split; [apply tail_byte_n|apply tail_byte_cont]. Qed.

Ltac not_ascii := match goal with |- context [N.ltb ?x 128] =>
  replace (N.ltb x 128) with false by (symmetry; apply N.ltb_ge; lia) end.

(** Which range a byte is in, from its value. *)
Ltac in_ranges :=
  repeat match goal with
  | |- context [in_range ?lo ?hi ?c] =>
      first [ replace (in_range lo hi c) with true by (symmetry; apply in_range_spec; by_digits)
            | replace (in_range lo hi c) with false
                by (symmetry; apply not_true_is_false; rewrite in_range_spec; by_digits) ]
  end; cbn [andb].
Ltac rune_bytes :=
  in_ranges; repeat match goal with |- context [N.eqb ?x ?y] => destruct (N.eqb_spec x y) end; in_ranges.

Lemma decode_encode r t : scalar r -> decode_rune (encode_rune r +:+ t) = (r, String.length (encode_rune r)).
Proof.
  intros Hr. destruct (encode_cases r Hr) as [[Hb ->]|[[Hb ->]|[[Hb ->]|[Hb ->]]]]; unfold scalar in Hr;
    rewrite ?str_app_cons; unfold decode_rune; cbv zeta.
  - rewrite byte_n_of by lia. by apply N.ltb_lt in Hb as ->.
  - destruct (head_byte 6 5 6 r) as (b0 & -> & N0 & L0); [by_digits|done|].
    destruct (next_byte r 0) as (b1 & -> & N1 & C1). powers. not_ascii. rune_bytes.
    change 31%N with (N.ones 5). rewrite L0, C1, shiftl_lor by by_digits. cbn [String.length]. f_equal. by_digits.
  - destruct (head_byte 14 4 12 r) as (b0 & -> & N0 & L0); [by_digits|done|].
    destruct (next_byte r 6) as (b1 & -> & N1 & C1), (next_byte r 0) as (b2 & -> & N2 & C2). powers.
    not_ascii. rune_bytes;
    (change 15%N with (N.ones 4); rewrite L0, C1, C2, (shiftl_lor _ _ 6), (shiftl_lor _ _ 12) by by_digits; cbn [String.length]; f_equal; by_digits).
  - destruct (head_byte 30 3 18 r) as (b0 & -> & N0 & L0); [by_digits|done|].
    destruct (next_byte r 12) as (b1 & -> & N1 & C1), (next_byte r 6) as (b2 & -> & N2 & C2),
      (next_byte r 0) as (b3 & -> & N3 & C3). powers. not_ascii. rune_bytes;
    (change 7%N with (N.ones 3); rewrite L0, C1, C2, C3, (shiftl_lor _ _ 6), (shiftl_lor _ _ 12), (shiftl_lor _ _ 18) by by_digits; cbn [String.length]; f_equal; by_digits).
Qed.
