(* ===== verification/JsonText.v ===== *)
(** * encoding/json: text

    The JSON text of [encoding/json] as the program uses it: trees, the compact
    text that [json.Marshal] and [Encoder.Encode] write of one (with HTML
    escaping), and the first value that [Decoder.Decode] reads. What a tree means
    as a Go value is in [Json]. *)

From S2P Require Import Prelude GoStrings.

(** Object members keep the order and the duplicates of the text; a number keeps
    its literal. *)
Inductive json :=
| JNull
| JBool (b : bool)
| JNum (literal : string)
| JStr (s : string)
| JArr (l : list json)
| JObj (members : list (string * json)).

(** ** Writing *)

Definition dq : ascii := "034".
Definition bs : ascii := "092".

(** One ASCII character inside a string: [htmlSafeSet] goes through. *)
Definition json_escape (c : ascii) : string :=
  let n := byte_n c in
  let short (e : ascii) := String bs (String e "") in
  if Ascii.eqb c dq || Ascii.eqb c bs then short c
  else if N.eqb n 8 then short "b"%char
  else if N.eqb n 12 then short "f"%char
  else if N.eqb n 10 then short "n"%char
  else if N.eqb n 13 then short "r"%char
  else if N.eqb n 9 then short "t"%char
  else if N.ltb n 32 || Ascii.eqb c "<" || Ascii.eqb c ">" || Ascii.eqb c "&"
  then "\u00" +:+ hex_byte c
  else String c "".

(** One rune with the bytes it was read from: a byte that starts no rune is
    U+FFFD, and the line separators of JavaScript are escaped. *)
Definition json_rune (rb : N * string) : string :=
  match rb.2 with
  | String c EmptyString => if N.ltb (byte_n c) 128 then json_escape c else "\ufffd"
  | w => if N.eqb rb.1 8232 || N.eqb rb.1 8233
         then "\u202" +:+ String (hex_digit (N.land rb.1 15)) "" else w
  end.

Definition json_body (rbs : list (N * string)) (tail : string) : string :=
  foldr (fun rb acc => json_rune rb +:+ acc) tail rbs.
Definition json_quote (s : string) : string := String dq (json_body (runes s) (String dq "")).

(** The text of a tree: [gap n] is written between items that are nested [n] deep,
    and [colon] after a key. *)
Section print.
Context (gap : nat -> string) (colon : string).

Definition bracket (n : nat) (open close : string) (items : list string) : string :=
  match items with
  | [] => open +:+ close
  | _ => open +:+ gap (S n) +:+ Join items ("," +:+ gap (S n)) +:+ gap n +:+ close
  end.

Fixpoint print_at (n : nat) (j : json) : string :=
  match j with
  | JNull => "null"
  | JBool true => "true"
  | JBool false => "false"
  | JNum t => t
  | JStr s => json_quote s
  | JArr l => bracket n "[" "]" (map (print_at (S n)) l)
  | JObj ms => bracket n "{" "}" (map (fun '(k, v) => json_quote k +:+ colon +:+ print_at (S n) v) ms)
  end.
End print.

(** [json.Marshal] and [Encoder.Encode] write without white space. *)
Definition print : json -> string := print_at (fun _ => "") ":" 0.

(** [json.MarshalIndent] with two spaces a level *)
Definition indent (n : nat) : string := String "010" (Nat.iter n (fun s => "  " +:+ s) "").
Definition print_indent : json -> string := print_at indent ": " 0.

(** What a string is after the round trip: other bytes than valid UTF-8 become
    U+FFFD. *)
Definition json_string (s : string) : string :=
  foldr (fun rb acc => encode_rune rb.1 +:+ acc) "" (runes s).

(** ** Reading strings *)

Definition hex_value (c : ascii) : option N :=
  let n := byte_n c in
  if in_range 48 57 c then Some (n - 48)%N
  else if in_range 97 102 c then Some (n - 87)%N
  else if in_range 65 70 c then Some (n - 55)%N
  else None.

(** [getu4], after the [\u] *)
Definition hex4 (s : string) : option (N * string) :=
  match s with
  | String a (String b (String c (String d r))) =>
      a ← hex_value a; b ← hex_value b; c ← hex_value c; d ← hex_value d;
      Some (a * 4096 + b * 256 + c * 16 + d, r)%N
  | _ => None
  end.

Definition is_surrogate (r : N) : bool := (N.leb 55296 r && N.ltb r 57344)%N.

(** The second half of a surrogate pair, with [utf16.DecodeRune]. *)
Definition low_half (high : N) (s : string) : option (N * string) :=
  match s with
  | String b (String u r) =>
      if Ascii.eqb b bs && Ascii.eqb u "u" then
        '(low, r) ← hex4 r;
        if (N.ltb high 56320 && N.leb 56320 low && N.ltb low 57344)%N
        then Some ((high - 55296) * 1024 + (low - 56320) + 65536, r)%N else None
      else None
  | _ => None
  end.

Definition simple_escape (e : ascii) : option ascii :=
  if Ascii.eqb e dq || Ascii.eqb e bs || Ascii.eqb e "/" then Some e
  else if Ascii.eqb e "b" then Some (byte_of 8)
  else if Ascii.eqb e "f" then Some (byte_of 12)
  else if Ascii.eqb e "n" then Some (byte_of 10)
  else if Ascii.eqb e "r" then Some (byte_of 13)
  else if Ascii.eqb e "t" then Some (byte_of 9)
  else None.

Definition prepend (w : string) (r : option (string * string)) : option (string * string) :=
  '(x, rest) ← r; Some (w +:+ x, rest).

(** The string after its opening quote, and what follows the closing one:
    [scanner] and [unquoteBytes] in one pass. *)
Fixpoint unquote (n : nat) (s : string) : option (string * string) :=
  match n with
  | O => None
  | S n =>
      match s with
      | EmptyString => None
      | String c r =>
          if Ascii.eqb c dq then Some ("", r)
          else if Ascii.eqb c bs then
            match r with
            | EmptyString => None
            | String e r =>
                if Ascii.eqb e "u" then
                  '(rr, r) ← hex4 r;
                  if is_surrogate rr then
                    match low_half rr r with
                    | Some (dec, r) => prepend (encode_rune dec) (unquote n r)
                    | None => prepend (encode_rune RuneError) (unquote n r)
                    end
                  else prepend (encode_rune rr) (unquote n r)
                else e ← simple_escape e; prepend (String e "") (unquote n r)
            end
          else if N.ltb (byte_n c) 32 then None
          else if N.ltb (byte_n c) 128 then prepend (String c "") (unquote n r)
          else let '(rr, k) := decode_rune s in prepend (encode_rune rr) (unquote n (str_drop k s))
      end
  end.

(** ** Reading numbers *)

Definition is_digit (c : ascii) : bool := in_range 48 57 c.
Fixpoint span_digits (s : string) : string * string :=
  match s with
  | String c r => if is_digit c then let '(d, rest) := span_digits r in (String c d, rest) else ("", s)
  | EmptyString => ("", "")
  end.
Definition scan_digits (s : string) : option (string * string) :=
  match span_digits s with
  | (EmptyString, _) => None
  | x => Some x
  end.

Definition scan_sign (signs : ascii -> bool) (s : string) : string * string :=
  match s with
  | String c r => if signs c then (String c "", r) else ("", s)
  | EmptyString => ("", "")
  end.
Definition is_minus (c : ascii) : bool := Ascii.eqb c "-".
Definition is_sign (c : ascii) : bool := Ascii.eqb c "-" || Ascii.eqb c "+".

Definition scan_int (s : string) : option (string * string) :=
  match s with
  | String c r => if Ascii.eqb c "0" then Some ("0", r) else scan_digits s
  | EmptyString => None
  end.
Definition scan_frac (s : string) : option (string * string) :=
  match s with
  | String c r => if Ascii.eqb c "." then '(d, rest) ← scan_digits r; Some (String c d, rest)
                  else Some ("", s)
  | EmptyString => Some ("", "")
  end.
Definition scan_exp (s : string) : option (string * string) :=
  match s with
  | String c r =>
      if Ascii.eqb c "e" || Ascii.eqb c "E" then
        let '(sign, r) := scan_sign is_sign r in
        '(d, rest) ← scan_digits r; Some (String c (sign +:+ d), rest)
      else Some ("", s)
  | EmptyString => Some ("", "")
  end.

(** The longest number literal at the head of [s]. *)
Definition scan_number (s : string) : option (string * string) :=
  let '(sign, s) := scan_sign is_minus s in
  '(i, s) ← scan_int s; '(f, s) ← scan_frac s; '(e, s) ← scan_exp s;
  Some (sign +:+ i +:+ f +:+ e, s).

Definition is_number (t : string) : Prop := scan_number t = Some (t, "").

(** ** Reading values *)

Definition is_space (c : ascii) : bool :=
  Ascii.eqb c " " || Ascii.eqb c "009" || Ascii.eqb c "013" || Ascii.eqb c "010".
Fixpoint skip_ws (s : string) : string :=
  match s with
  | String c r => if is_space c then skip_ws r else s
  | EmptyString => ""
  end.

Definition expect (lit s : string) : option string :=
  if HasPrefix s lit then Some (str_drop (String.length lit) s) else None.

(** One item or more, up to [close]. *)
Fixpoint parse_items {A} (item : string -> option (A * string)) (close : ascii) (n : nat) (s : string)
    : option (list A * string) :=
  match n with
  | O => None
  | S n =>
      '(x, s) ← item s;
      match skip_ws s with
      | String c s =>
          if Ascii.eqb c "," then '(xs, s) ← parse_items item close n s; Some (x :: xs, s)
          else if Ascii.eqb c close then Some ([x], s)
          else None
      | EmptyString => None
      end
  end.

(** The items between an opening character, already read, and [close]. *)
Definition parse_list {A} (item : string -> option (A * string)) (close : ascii) (s : string)
    : option (list A * string) :=
  match skip_ws s with
  | String c r => if Ascii.eqb c close then Some ([], r)
                  else parse_items item close (String.length s) s
  | EmptyString => None
  end.

Definition parse_member {A} (item : string -> option (A * string)) (s : string)
    : option (string * A * string) :=
  match skip_ws s with
  | String c r =>
      if Ascii.eqb c dq then
        '(k, r) ← unquote (String.length r) r;
        match skip_ws r with
        | String c r => if Ascii.eqb c ":" then '(v, r) ← item r; Some (k, v, r) else None
        | EmptyString => None
        end
      else None
  | EmptyString => None
  end.

(** A value whose arrays and objects nest at most [d] deep, after white space. *)
Fixpoint parse_value (d : nat) (s : string) : option (json * string) :=
  match skip_ws s with
  | EmptyString => None
  | String c r =>
      if Ascii.eqb c dq then '(t, r) ← unquote (String.length r) r; Some (JStr t, r)
      else if Ascii.eqb c "{" then
        match d with
        | O => None
        | S d => '(ms, r) ← parse_list (parse_member (parse_value d)) "}" r; Some (JObj ms, r)
        end
      else if Ascii.eqb c "[" then
        match d with
        | O => None
        | S d => '(l, r) ← parse_list (parse_value d) "]" r; Some (JArr l, r)
        end
      else if Ascii.eqb c "t" then r ← expect "rue" r; Some (JBool true, r)
      else if Ascii.eqb c "f" then r ← expect "alse" r; Some (JBool false, r)
      else if Ascii.eqb c "n" then r ← expect "ull" r; Some (JNull, r)
      else '(t, r) ← scan_number (String c r); Some (JNum t, r)
  end.

(** [maxNestingDepth] *)
Definition max_depth : nat := 10000.
(** The value that a decoder reads from the head of its stream. *)
Definition parse (s : string) : option (json * string) := parse_value max_depth s.

(** ** Runes *)

(** Decoding looks at the bytes of the rune only, unless they are no rune. *)
Definition rune_ok (rb : N * string) : Prop :=
  (exists c, rb.2 = String c "" /\ (128 <= byte_n c)%N /\ rb.1 = RuneError) \/
  (rb.2 <> "" /\ forall t, decode_rune (rb.2 +:+ t) = (rb.1, String.length rb.2)).

Lemma decode_rune_ok s : s <> "" -> rune_ok ((decode_rune s).1, str_take (decode_rune s).2 s).
Proof.
  destruct s as [|b0 s]; [done|]. intros _. unfold decode_rune. cbv zeta.
  destruct (N.ltb (byte_n b0) 128) eqn:E0.
  { right. split; [done|]. intros t. cbn [fst snd str_take]. rewrite !str_app_cons. unfold decode_rune. cbv zeta. by rewrite E0. }
  assert (rune_ok (RuneError, String b0 "")) as Herr.
  { left. exists b0. apply N.ltb_ge in E0. by cbn. }
  destruct (in_range 194 223 b0) eqn:E1.
  { destruct s as [|b1 s]; [by apply Herr|]. destruct (in_range 128 191 b1) eqn:E2; [|exact Herr].
    right. split; [done|]. intros t. cbn [fst snd str_take]. rewrite !str_app_cons. unfold decode_rune. cbv zeta. by rewrite E0, E1, E2. }
  destruct (in_range 224 239 b0) eqn:E2.
  { destruct s as [|b1 [|b2 s]]; [exact Herr..|]. destruct (_ && _) eqn:E3; [|exact Herr].
    right. split; [done|]. intros t. cbn [fst snd str_take]. rewrite !str_app_cons. unfold decode_rune. cbv zeta. by rewrite E0, E1, E2, E3. }
  destruct (in_range 240 244 b0) eqn:E3; [|exact Herr].
  destruct s as [|b1 [|b2 [|b3 s]]]; [exact Herr..|]. destruct (_ && _) eqn:E4; [|exact Herr].
  right. split; [done|]. intros t. cbn [fst snd str_take]. rewrite !str_app_cons. unfold decode_rune. cbv zeta. by rewrite E0, E1, E2, E3, E4.
Qed.

Lemma runes_fuel_ok n s : Forall rune_ok (runes_fuel n s).
Proof.
  revert s. induction n as [|n IH]; intros s; cbn [runes_fuel]; [constructor|].
  destruct s as [|c s]; [constructor|]. pose proof (decode_rune_ok (String c s) ltac:(done)) as Ho.
  destruct (decode_rune _) as [r w]. constructor; [exact Ho|apply IH].
Qed.

Lemma runes_ok s : Forall rune_ok (runes s).
Proof. apply runes_fuel_ok. Qed.

(** ** Strings *)

Lemma hex_value_digit n : (n < 16)%N -> hex_value (hex_digit n) = Some n.
Proof.
  intros Hn. assert (n ∈ map N.of_nat (seq 0 16)) as Hin.
  { apply list_elem_of_fmap. exists (N.to_nat n). rewrite N2Nat.id. split; [done|]. apply elem_of_seq. lia. }
  revert n Hn Hin. assert (Forall (fun n => hex_value (hex_digit n) = Some n) (map N.of_nat (seq 0 16))) as Hall
    by (repeat constructor). intros n _ Hin. rewrite Forall_forall in Hall. by apply Hall.
Qed.

Lemma unquote_escape n c t :
  (byte_n c < 128)%N ->
  unquote (S n) (json_escape c +:+ t) = prepend (encode_rune (byte_n c)) (unquote n t).
Proof. by destruct c as [[] [] [] [] [] [] [] []]. Qed.

Lemma byte_n_high c : (128 <= byte_n c)%N ->
  Ascii.eqb c dq = false /\ Ascii.eqb c bs = false /\ (byte_n c <? 32)%N = false /\ (byte_n c <? 128)%N = false.
Proof. by destruct c as [[] [] [] [] [] [] [] []]. Qed.

(** A rune that the encoder writes is the rune that the decoder reads. *)
Lemma unquote_rune n rb t :
  rune_ok rb -> unquote (S n) (json_rune rb +:+ t) = prepend (encode_rune rb.1) (unquote n t).
Proof.
  destruct rb as [r w]. unfold json_rune, rune_ok. cbn [fst snd].
  intros [(c & -> & Hc & ->)|[Hw Hd]].
  { destruct (byte_n_high c Hc) as (_ & _ & _ & ->). done. }
  destruct w as [|c w]; [done|]. pose proof (Hd t) as Ht. pose proof (Hd "") as H0.
  rewrite str_app_cons in Ht, H0.
  destruct (N.ltb (byte_n c) 128) eqn:Ec.
  { unfold decode_rune in H0. cbv zeta in H0. rewrite Ec in H0. injection H0 as <- Hl.
    destruct w; [|done]. apply unquote_escape. by apply N.ltb_lt. }
  apply N.ltb_ge in Ec. destruct (byte_n_high c Ec) as (E1 & E2 & E3 & E4).
  destruct w as [|c1 w].
  { replace r with RuneError; [done|]. unfold decode_rune in H0. cbv zeta in H0.
    rewrite E4 in H0. change ("" +:+ "") with "" in H0. revert H0. repeat case_match; congruence. }
  destruct (N.eqb r 8232) eqn:R1; [by apply N.eqb_eq in R1 as ->|].
  destruct (N.eqb r 8233) eqn:R2; [by apply N.eqb_eq in R2 as ->|].
  cbn [orb]. rewrite str_app_cons. cbn [unquote]. rewrite E1, E2, E3, E4, Ht, <- str_app_cons.
  by rewrite str_drop_app.
Qed.

Lemma prepend_Some w x rest : prepend w (Some (x, rest)) = Some (w +:+ x, rest).
Proof. done. Qed.

Lemma unquote_body rbs n rest :
  Forall rune_ok rbs -> length rbs < n ->
  unquote n (json_body rbs (String dq rest)) =
    Some (foldr (fun rb acc => encode_rune rb.1 +:+ acc) "" rbs, rest).
Proof.
  intros Hok. revert n. induction Hok as [|rb rbs Hrb _ IH]; intros [|n] Hn; cbn in Hn; try lia; [done|].
  cbn [json_body foldr]. rewrite unquote_rune by done. fold (json_body rbs (String dq rest)).
  by rewrite IH by lia.
Qed.

Lemma json_rune_nonempty rb : rune_ok rb -> 1 <= String.length (json_rune rb).
Proof.
  assert (forall c, 1 <= String.length (json_escape c)) as He
    by (intros c; destruct c as [[] [] [] [] [] [] [] []]; apply Nat.leb_le; reflexivity).
  intros Hok. assert (rb.2 <> "") as Hw by (destruct Hok as [(c & -> & _)|[? _]]; done).
  destruct rb as [r [|c w]]; [done|]. unfold json_rune. cbn [fst snd].
  destruct w; [destruct (N.ltb _ _); [apply He|cbn; lia]|].
  destruct (_ || _); rewrite ?str_length_app; cbn; lia.
Qed.

Lemma json_body_length rbs tail :
  Forall rune_ok rbs -> length rbs + String.length tail <= String.length (json_body rbs tail).
Proof.
  induction 1 as [|rb rbs Hrb _ IH]; cbn; [lia|]. fold (json_body rbs tail).
  rewrite str_length_app. apply json_rune_nonempty in Hrb. lia.
Qed.

Lemma json_body_app rbs tail t : json_body rbs tail +:+ t = json_body rbs (tail +:+ t).
Proof. induction rbs as [|rb rbs IH]; [done|]. cbn. fold (json_body rbs tail). by rewrite str_app_assoc, IH. Qed.

(** A written string reads back as itself, invalid UTF-8 replaced. *)
Lemma json_quote_app s rest : json_quote s +:+ rest = String dq (json_body (runes s) (String dq rest)).
Proof. unfold json_quote. by rewrite str_app_cons, json_body_app. Qed.

Lemma unquote_quoted s rest :
  let body := json_body (runes s) (String dq rest) in
  unquote (String.length body) body = Some (json_string s, rest).
Proof.
  apply unquote_body; [apply runes_ok|].
  pose proof (json_body_length (runes s) (String dq rest) (runes_ok s)) as Hl. cbn in *. lia.
Qed.

(** ** Numbers *)

(** What may follow a number: nothing that continues it. *)
Definition delim (s : string) : Prop :=
  match s with
  | EmptyString => True
  | String c _ => is_digit c = false /\ c <> "."%char /\ c <> "e"%char /\ c <> "E"%char
  end.

Lemma span_digits_app s t :
  delim t -> span_digits (s +:+ t) = ((span_digits s).1, (span_digits s).2 +:+ t).
Proof.
  intros Ht. induction s as [|c s IH].
  - change ("" +:+ t) with t. cbn. destruct t as [|c t]; [done|]. destruct Ht as [Ht _]. cbn. by rewrite Ht.
  - rewrite str_app_cons. cbn [span_digits]. destruct (is_digit c) eqn:E; [|done].
    rewrite IH. by destruct (span_digits s).
Qed.

Lemma scan_digits_app s d r t :
  delim t -> scan_digits s = Some (d, r) -> scan_digits (s +:+ t) = Some (d, r +:+ t).
Proof.
  intros Ht. unfold scan_digits. rewrite (span_digits_app s t Ht).
  destruct (span_digits s) as [[|c d'] r']; cbn [fst snd]; [done|]. by intros [= <- <-].
Qed.

Lemma scan_int_app s d r t : delim t -> scan_int s = Some (d, r) -> scan_int (s +:+ t) = Some (d, r +:+ t).
Proof.
  intros Ht. destruct s as [|c s]; [done|]. rewrite str_app_cons. cbn [scan_int].
  destruct (Ascii.eqb c "0"); [by intros [= <- <-]|]. rewrite <- str_app_cons. by apply scan_digits_app.
Qed.

Lemma delim_head (f : string -> option (string * string)) t :
  delim t -> (f "" = Some ("", "")) ->
  (forall c r, c <> "."%char -> c <> "e"%char -> c <> "E"%char -> f (String c r) = Some ("", String c r)) ->
  f t = Some ("", t).
Proof. intros Ht He Hc. destruct t as [|c t]; [done|]. destruct Ht as (_ & ? & ? & ?). by apply Hc. Qed.

Lemma scan_frac_app s d r t :
  delim t -> scan_frac s = Some (d, r) -> scan_frac (s +:+ t) = Some (d, r +:+ t).
Proof.
  intros Ht. destruct s as [|c s].
  - intros [= <- <-]. apply (delim_head scan_frac); [done..|]. intros c r' H1 _ _. cbn.
    by rewrite (proj2 (Ascii.eqb_neq _ _) H1).
  - rewrite str_app_cons. cbn [scan_frac]. destruct (Ascii.eqb c "."); [|by intros [= <- <-]].
    destruct (scan_digits s) as [[d' r']|] eqn:E; [|done]. rewrite (scan_digits_app _ _ _ _ Ht E).
    by intros [= <- <-].
Qed.

Lemma scan_sign_app signs s t :
  s <> "" -> scan_sign signs (s +:+ t) = ((scan_sign signs s).1, (scan_sign signs s).2 +:+ t).
Proof. destruct s as [|c s]; [done|]. intros _. rewrite str_app_cons. cbn. by destruct (signs c). Qed.

Lemma scan_exp_app s d r t :
  delim t -> scan_exp s = Some (d, r) -> scan_exp (s +:+ t) = Some (d, r +:+ t).
Proof.
  intros Ht. destruct s as [|c s].
  - intros [= <- <-]. apply (delim_head scan_exp); [done..|]. intros c r' _ H1 H2. cbn.
    by rewrite (proj2 (Ascii.eqb_neq _ _) H1), (proj2 (Ascii.eqb_neq _ _) H2).
  - rewrite str_app_cons. cbn [scan_exp]. destruct (_ || _); [|by intros [= <- <-]].
    destruct s as [|c1 s]; [done|]. rewrite scan_sign_app by done.
    destruct (scan_sign is_sign (String c1 s)) as [sg r1]. cbn [fst snd].
    destruct (scan_digits r1) as [[d' r']|] eqn:E; [|done]. rewrite (scan_digits_app _ _ _ _ Ht E).
    by intros [= <- <-].
Qed.

(** A number literal ends where nothing continues it. *)
Lemma scan_number_app s n r t :
  delim t -> scan_number s = Some (n, r) -> scan_number (s +:+ t) = Some (n, r +:+ t).
Proof.
  intros Ht. unfold scan_number. destruct s as [|c s]; [done|]. rewrite scan_sign_app by done.
  destruct (scan_sign is_minus (String c s)) as [sg s1]. cbn [fst snd].
  intros ([i s2] & E1 & ([f s3] & E2 & ([e s4] & E3 & [= <- <-])%bind_Some)%bind_Some)%bind_Some.
  rewrite (scan_int_app _ _ _ _ Ht E1). cbn. rewrite (scan_frac_app _ _ _ _ Ht E2). cbn.
  rewrite (scan_exp_app _ _ _ _ Ht E3). done.
Qed.

Lemma is_number_head t : is_number t -> exists c r, t = String c r /\ (c = "-"%char \/ is_digit c = true).
Proof.
  unfold is_number, scan_number. destruct t as [|c t]; [done|]. cbn [scan_sign]. unfold is_minus.
  destruct (Ascii.eqb c "-") eqn:E.
  { apply Ascii.eqb_eq in E as ->. intros _. eauto. }
  intros ([i s2] & E1 & _)%bind_Some. exists c, t. split; [done|]. right. revert E1. cbn [scan_int].
  destruct (Ascii.eqb c "0") eqn:E0; [by apply Ascii.eqb_eq in E0 as ->|].
  unfold scan_digits. cbn [span_digits]. by destruct (is_digit c).
Qed.

(** ** Lists of items *)

(** White space. *)
Definition blank (g : string) : Prop := Forall (fun c => is_space c = true) (String.list_ascii_of_string g).

Lemma skip_ws_blank g t : blank g -> skip_ws (g +:+ t) = skip_ws t.
Proof.
  unfold blank. induction g as [|c g IH]; [done|]. cbn [String.list_ascii_of_string].
  intros [Hc Hg]%Forall_cons. rewrite str_app_cons. cbn [skip_ws]. by rewrite Hc, IH.
Qed.

Lemma skip_ws_id c r : is_space c = false -> skip_ws (String c r) = String c r.
Proof. intros Hc. cbn. by rewrite Hc. Qed.

(** A reader that skips white space first. *)
Definition skipping {B} (item : string -> option (B * string)) : Prop :=
  forall g t, blank g -> item (g +:+ t) = item t.

Section items.
Context {A B : Type} (item : string -> option (B * string)) (close : ascii) (p : A -> string) (g : A -> B).

Definition ends_item (t : string) : Prop :=
  delim t /\ exists c r, skip_ws t = String c r /\ (c = ","%char \/ c = close).
Definition begins (s : string) : Prop := exists c r, s = String c r /\ is_space c = false /\ c <> close.

(** [item] reads back what [p] writes of the elements of [l]. *)
Definition reads (l : list A) : Prop :=
  Forall (fun x => begins (p x) /\ forall t, ends_item t -> item (p x +:+ t) = Some (g x, t)) l.

Context (Hclose : close <> ","%char) (Hspace : is_space close = false) (Hdelim : forall r, delim (String close r)).
Context (Hskip : skipping item).
Context (gap gap' : string) (Hgap : blank gap) (Hgap' : blank gap').

Lemma blank_delim g0 t : blank g0 -> delim t -> delim (g0 +:+ t).
Proof.
  unfold blank. destruct g0 as [|c g0]; [done|]. cbn [String.list_ascii_of_string]. intros [Hc _]%Forall_cons _.
  rewrite str_app_cons. cbn. by destruct c as [[] [] [] [] [] [] [] []].
Qed.

Lemma ends_close rest : ends_item (gap' +:+ String close rest).
Proof.
  split; [by apply blank_delim|]. exists close, rest. rewrite skip_ws_blank, skip_ws_id by done. auto.
Qed.
Lemma ends_comma rest : ends_item (String "," rest).
Proof. split; [done|]. exists ","%char, rest. auto. Qed.

Lemma parse_items_join l rest n :
  reads l -> l <> [] -> length l <= n ->
  parse_items item close n (Join (map p l) ("," +:+ gap) +:+ gap' +:+ String close rest) = Some (map g l, rest).
Proof.
  intros Hl. revert n. induction Hl as [|x l [_ Hx] Hl IH]; intros n; [done|]. intros _ Hn.
  destruct n as [|n]; [cbn in Hn; lia|]. cbn [parse_items map].
  destruct l as [|y l].
  - cbn [map Join]. rewrite Hx by apply ends_close. cbn [mbind option_bind].
    rewrite skip_ws_blank, skip_ws_id by done.
    rewrite (proj2 (Ascii.eqb_neq _ _) Hclose), Ascii.eqb_refl. done.
  - rewrite Join_cons by done. rewrite !str_app_assoc. change ("," +:+ ?s) with (String "," s).
    rewrite Hx by apply ends_comma. cbn [mbind option_bind]. rewrite skip_ws_id by done.
    cbn [Ascii.eqb Bool.eqb]. assert (parse_items item close n (gap +:+ Join (map p (y :: l)) ("," +:+ gap)
      +:+ gap' +:+ String close rest) = Some (map g (y :: l), rest)) as ->; [|done].
    rewrite <- (IH n) by (done || cbn in *; lia). destruct n as [|n]; [done|]. cbn [parse_items].
    by rewrite Hskip.
Qed.

Lemma reads_length l : reads l -> length l <= String.length (Join (map p l) ("," +:+ gap)).
Proof.
  induction 1 as [|x l [(c & r & E & _) _] _ IH]; [done|].
  destruct l as [|y l]; [cbn; rewrite E; cbn; lia|].
  change (map p (x :: y :: l)) with (p x :: map p (y :: l)). rewrite Join_cons by done.
  rewrite !str_length_app, E. cbn [length String.length] in *; lia.
Qed.

(** What [bracket] writes after the opening character. *)
Lemma parse_list_join l rest :
  reads l -> l <> [] ->
  parse_list item close (gap +:+ Join (map p l) ("," +:+ gap) +:+ gap' +:+ String close rest) = Some (map g l, rest).
Proof.
  intros Hl Hne. unfold parse_list. pose proof (reads_length _ Hl) as Hlen.
  set (text := Join (map p l) ("," +:+ gap) +:+ gap' +:+ String close rest).
  assert (exists c r, text = String c r /\ is_space c = false /\ c <> close) as (c & r & E & Hc & Hne').
  { destruct l as [|x l]; [done|]. apply Forall_cons in Hl as [[(c & r & E & Hc & ?) _] _].
    exists c. unfold text. destruct l; cbn [map Join]; rewrite E, ?str_app_cons; eauto. }
  rewrite skip_ws_blank by done. rewrite E at 1. rewrite skip_ws_id by done.
  rewrite (proj2 (Ascii.eqb_neq _ _) Hne'). cbn match.
  assert (length l <= String.length (gap +:+ text)) as Hfuel
    by (unfold text; rewrite !str_length_app; lia).
  destruct (String.length (gap +:+ text)) as [|n] eqn:En.
  { destruct l; [done|cbn in Hfuel; lia]. }
  rewrite <- (parse_items_join l rest (S n)) by done. cbn [parse_items]. by rewrite Hskip.
Qed.
End items.

(** ** Trees *)

Section json_ind.
Context (P : json -> Prop) (Hnull : P JNull) (Hbool : forall b, P (JBool b)) (Hnum : forall t, P (JNum t)).
Context (Hstr : forall s, P (JStr s)) (Harr : forall l, Forall P l -> P (JArr l)).
Context (Hobj : forall ms, Forall (fun m => P m.2) ms -> P (JObj ms)).

Fixpoint json_tree_ind (j : json) : P j :=
  match j with
  | JNull => Hnull
  | JBool b => Hbool b
  | JNum t => Hnum t
  | JStr s => Hstr s
  | JArr l => Harr l ((fix go l := match l return Forall P l with
                                  | [] => Forall_nil_2 P
                                  | x :: l => Forall_cons_2 P x l (json_tree_ind x) (go l)
                                  end) l)
  | JObj ms => Hobj ms ((fix go ms := match ms return Forall (fun m => P m.2) ms with
                                     | [] => Forall_nil_2 _
                                     | (k, v) :: ms =>
                                         Forall_cons_2 (fun m => P m.2) (k, v) ms (json_tree_ind v) (go ms)
                                     end) ms)
  end.
End json_ind.

(** How deep arrays and objects nest. *)
Fixpoint depth (j : json) : nat :=
  match j with
  | JArr l => S (foldr (fun x acc => depth x `max` acc) 0 l)
  | JObj ms => S (foldr (fun '(_, x) acc => depth x `max` acc) 0 ms)
  | _ => 0
  end.

(** Every number of the tree is a literal. *)
Fixpoint literals (j : json) : Prop :=
  match j with
  | JNum t => is_number t
  | JArr l => foldr (fun x acc => literals x /\ acc) True l
  | JObj ms => foldr (fun '(_, x) acc => literals x /\ acc) True ms
  | _ => True
  end.

(** A tree after the round trip. *)
Fixpoint json_tree (j : json) : json :=
  match j with
  | JStr s => JStr (json_string s)
  | JArr l => JArr (map json_tree l)
  | JObj ms => JObj (map (fun '(k, x) => (json_string k, json_tree x)) ms)
  | _ => j
  end.

Lemma literals_arr l : literals (JArr l) <-> Forall literals l.
Proof. cbn. induction l as [|x l IH]; cbn; [done|]. by rewrite IH, Forall_cons. Qed.
Lemma literals_obj ms : literals (JObj ms) <-> Forall (fun m => literals m.2) ms.
Proof. cbn. induction ms as [|[k x] ms IH]; cbn; [done|]. by rewrite IH, Forall_cons. Qed.
Lemma depth_arr l d : depth (JArr l) <= S d <-> Forall (fun x => depth x <= d) l.
Proof. cbn. induction l as [|x l IH]; cbn; [split; [done|lia]|]. rewrite Forall_cons, <- IH. lia. Qed.
Lemma depth_obj ms d : depth (JObj ms) <= S d <-> Forall (fun m => depth m.2 <= d) ms.
Proof. cbn. induction ms as [|[k x] ms IH]; cbn; [split; [done|lia]|]. rewrite Forall_cons, <- IH. cbn. lia. Qed.

Lemma expect_app lit rest : expect lit (lit +:+ rest) = Some rest.
Proof. unfold expect. by rewrite HasPrefix_app, str_drop_app. Qed.

Lemma parse_value_skip d : skipping (parse_value d).
Proof. intros g t Hg. destruct d; cbn [parse_value]; by rewrite skip_ws_blank. Qed.
Lemma parse_member_skip {A} (item : string -> option (A * string)) : skipping (parse_member item).
Proof. intros g t Hg. unfold parse_member. by rewrite skip_ws_blank. Qed.

Section round_trip.
Context (gap : nat -> string) (sp : string) (Hgap : forall n, blank (gap n)) (Hsp : blank sp).
Abbreviation pr := (print_at gap (":" +:+ sp)).

Lemma print_begins n j : literals j -> begins "]" (pr n j).
Proof.
  unfold begins. destruct j as [|[]|t|s|l|ms]; cbn [print_at]; intros Hj;
    try (eexists _, _; split; [reflexivity|done]).
  - apply is_number_head in Hj as (c & r & -> & Hc). exists c, r. split; [done|].
    destruct Hc as [-> |Hc]; [done|]. by destruct c as [[] [] [] [] [] [] [] []].
  - destruct l; (eexists _, _; split; [reflexivity|done]).
  - destruct ms; (eexists _, _; split; [reflexivity|done]).
Qed.

(** A member of an object, read back. *)
Lemma parse_member_print (item : string -> option (json * string)) k v x t :
  skipping item -> item (v +:+ t) = Some (x, t) ->
  parse_member item ((json_quote k +:+ (":" +:+ sp) +:+ v) +:+ t) = Some (json_string k, x, t).
Proof.
  intros Hskip Hv. rewrite !str_app_assoc, json_quote_app. unfold parse_member.
  rewrite skip_ws_id by done. rewrite Ascii.eqb_refl.
  rewrite (unquote_quoted k). cbn [mbind option_bind]. rewrite str_app_cons, skip_ws_id by done.
  cbn [Ascii.eqb Bool.eqb]. change ("" +:+ ?s) with s. by rewrite Hskip, Hv.
Qed.

(** A list of items between brackets. *)
Lemma parse_bracket {A B} (item : string -> option (B * string)) close (p : A -> string) (g : A -> B) n l rest :
  close = "]"%char \/ close = "}"%char -> skipping item -> reads item close p g l ->
  parse_list item close (bracket gap n "" (String close "") (map p l) +:+ rest) = Some (map g l, rest).
Proof.
  intros Hc Hskip Hl.
  assert (close <> ","%char /\ is_space close = false /\ forall r, delim (String close r)) as (H1 & H2 & H3)
    by (destruct Hc as [-> | ->]; done).
  destruct l as [|x l].
  - cbn [map bracket]. change (("" +:+ String close "") +:+ rest) with (String close rest).
    unfold parse_list. rewrite skip_ws_id by done. by rewrite Ascii.eqb_refl.
  - unfold bracket. change (map p (x :: l)) with (p x :: map p l) at 1. cbn match.
    change ("" +:+ ?s) with s. rewrite !str_app_assoc. change (String close "" +:+ rest) with (String close rest).
    by apply (parse_list_join item close p g).
Qed.

Lemma bracket_open n (c : ascii) close items rest :
  bracket gap n (String c "") close items +:+ rest = String c (bracket gap n "" close items +:+ rest).
Proof. by destruct items. Qed.

(** A tree that was written is read back from the head of any text, strings and
    keys with invalid UTF-8 replaced, as long as no number literal could go on and
    the tree does not nest deeper than the decoder follows. *)
Lemma parse_value_print_at j : forall n d rest,
  literals j -> depth j <= d -> (match j with JNum _ => delim rest | _ => True end) ->
  parse_value d (pr n j +:+ rest) = Some (json_tree j, rest).
Proof.
  induction j as [|b|t|s|l IH|ms IH] using json_tree_ind; intros n d rest Hlit Hd Hrest.
  - change (pr n JNull +:+ rest) with (String "n" ("ull" +:+ rest)).
    destruct d; cbn [parse_value]; rewrite skip_ws_id by done; cbn [Ascii.eqb Bool.eqb dq];
      by rewrite (expect_app "ull").
  - destruct b; [change (pr n (JBool true) +:+ rest) with (String "t" ("rue" +:+ rest))
               |change (pr n (JBool false) +:+ rest) with (String "f" ("alse" +:+ rest))];
      (destruct d; cbn [parse_value]; rewrite skip_ws_id by done; cbn [Ascii.eqb Bool.eqb dq];
       by rewrite expect_app).
  - pose proof (is_number_head t Hlit) as (c & r & -> & Hc). cbn [print_at json_tree].
    pose proof (scan_number_app _ _ _ rest Hrest Hlit) as Hs. change ("" +:+ rest) with rest in Hs.
    rewrite str_app_cons in *.
    assert (is_space c = false /\ Ascii.eqb c dq = false /\ Ascii.eqb c "{" = false /\ Ascii.eqb c "[" = false
      /\ Ascii.eqb c "t" = false /\ Ascii.eqb c "f" = false /\ Ascii.eqb c "n" = false) as (E1&E2&E3&E4&E5&E6&E7)
      by (destruct Hc as [-> |Hc]; [done|]; by destruct c as [[] [] [] [] [] [] [] []]).
    destruct d; cbn [parse_value]; rewrite skip_ws_id by done; rewrite E2, E3, E4, E5, E6, E7, Hs; done.
  - cbn [print_at json_tree]. rewrite json_quote_app.
    destruct d; cbn [parse_value]; rewrite skip_ws_id by done; rewrite Ascii.eqb_refl, (unquote_quoted s); done.
  - destruct d as [|d]; [cbn in Hd; lia|]. apply literals_arr in Hlit. apply depth_arr in Hd.
    cbn [print_at json_tree]. rewrite bracket_open. cbn [parse_value].
    rewrite skip_ws_id by done. cbn [Ascii.eqb Bool.eqb dq].
    rewrite (parse_bracket (parse_value d) "]" (pr (S n)) json_tree n l rest);
      [done|by left|apply parse_value_skip|].
    apply Forall_forall. intros x Hx. rewrite Forall_forall in IH, Hlit, Hd.
    split; [apply print_begins; auto|]. intros t [Ht _]. apply IH; auto. by destruct x.
  - destruct d as [|d]; [cbn in Hd; lia|]. apply literals_obj in Hlit. apply depth_obj in Hd.
    cbn [print_at json_tree]. rewrite bracket_open. cbn [parse_value].
    rewrite skip_ws_id by done. cbn [Ascii.eqb Bool.eqb dq].
    rewrite (parse_bracket (parse_member (parse_value d)) "}"
      (fun '(k, v) => json_quote k +:+ (":" +:+ sp) +:+ pr (S n) v)
      (fun '(k, x) => (json_string k, json_tree x)) n ms rest);
      [done|by right|apply parse_member_skip|].
    apply Forall_forall. intros [k x] Hx. rewrite Forall_forall in IH, Hlit, Hd.
    split; [by eexists _, _|]. intros t [Ht _]. apply parse_member_print; [apply parse_value_skip|].
    apply (IH _ Hx (S n) d t (Hlit _ Hx) (Hd _ Hx)). cbn [snd]. by destruct x.
Qed.
End round_trip.

Lemma parse_value_print j d rest :
  literals j -> depth j <= d -> (match j with JNum _ => delim rest | _ => True end) ->
  parse_value d (print j +:+ rest) = Some (json_tree j, rest).
Proof. intros. apply (parse_value_print_at (fun _ => "") ""); try done; constructor. Qed.

Lemma parse_value_indent j d rest :
  literals j -> depth j <= d -> (match j with JNum _ => delim rest | _ => True end) ->
  parse_value d (print_indent j +:+ rest) = Some (json_tree j, rest).
Proof.
  intros. apply (parse_value_print_at indent " "); try done; [|by repeat constructor].
  intros n. unfold indent, blank. cbn [String.list_ascii_of_string]. constructor; [done|].
  induction n as [|n IH]; [constructor|]. cbn. by repeat (constructor; [done|]).
Qed.

(** ** The fuel is enough

    [unquote] and [parse_items] are given the length of their text as fuel; more
    makes no difference, since every step consumes a byte. *)

Lemma hex4_shorter s n r : hex4 s = Some (n, r) -> String.length r + 4 = String.length s.
Proof.
  destruct s as [|a [|b [|c [|d s]]]]; try done. cbn [hex4].
  intros (? & _ & (? & _ & (? & _ & (? & _ & [= <- <-])%bind_Some)%bind_Some)%bind_Some)%bind_Some.
  cbn. lia.
Qed.

Lemma low_half_shorter h s n r : low_half h s = Some (n, r) -> String.length r < String.length s.
Proof.
  destruct s as [|b [|u s]]; try done. cbn [low_half]. destruct (_ && _); [|done].
  intros ([low r'] & E & H)%bind_Some. apply hex4_shorter in E. destruct (_ && _); [|done].
  injection H as <- <-. cbn. lia.
Qed.

Lemma decode_rune_width c s : 1 <= (decode_rune (String c s)).2.
Proof. unfold decode_rune. repeat case_match; cbn; lia. Qed.

Lemma unquote_fuel n m s :
  String.length s <= n -> String.length s <= m -> unquote n s = unquote m s.
Proof.
  revert m s. induction n as [|n IH]; intros m [|c s] Hn Hm; cbn in Hn, Hm; try lia.
  1-2: by destruct m.
  destruct m as [|m]; [lia|]. cbn [unquote].
  destruct (Ascii.eqb c dq); [done|]. destruct (Ascii.eqb c bs).
  - destruct s as [|e s]; [done|]. cbn in Hn, Hm. destruct (Ascii.eqb e "u").
    + destruct (hex4 s) as [[rr r]|] eqn:E; [|done]. apply hex4_shorter in E. cbn [mbind option_bind].
      destruct (is_surrogate rr); [|by rewrite (IH m) by lia].
      destruct (low_half rr r) as [[dec r']|] eqn:E'; [|by rewrite (IH m) by lia].
      apply low_half_shorter in E'. by rewrite (IH m) by lia.
    + destruct (simple_escape e); [|done]. cbn [mbind option_bind]. by rewrite (IH m) by lia.
  - destruct (N.ltb _ 32); [done|]. destruct (N.ltb _ 128); [by rewrite (IH m) by lia|].
    pose proof (decode_rune_width c s) as Hw. destruct (decode_rune (String c s)) as [rr k]. cbn in Hw.
    rewrite (IH m); [done| |]; rewrite str_drop_length; cbn; lia.
Qed.

Definition shortens {A} (item : string -> option (A * string)) : Prop :=
  forall s x r, item s = Some (x, r) -> String.length r < String.length s.

Lemma skip_ws_le s : String.length (skip_ws s) <= String.length s.
Proof. induction s as [|c s IH]; [done|]. cbn. destruct (is_space c); cbn; lia. Qed.

Lemma parse_items_fuel {A} (item : string -> option (A * string)) close n m s :
  shortens item -> String.length s <= n -> String.length s <= m ->
  parse_items item close n s = parse_items item close m s.
Proof.
  intros Hitem. assert (item "" = None) as H0.
  { destruct (item "") as [[x r]|] eqn:E; [|done]. apply Hitem in E. cbn in E. lia. }
  revert m s. induction n as [|n IH]; intros m s Hn Hm.
  { destruct s; [|cbn in Hn; lia]. destruct m; [done|]. cbn. by rewrite H0. }
  destruct m as [|m]. { destruct s; [|cbn in Hm; lia]. cbn. by rewrite H0. }
  cbn [parse_items]. destruct (item s) as [[x r]|] eqn:E; [|done]. apply Hitem in E. cbn [mbind option_bind].
  pose proof (skip_ws_le r). destruct (skip_ws r) as [|c r'] eqn:Er; [done|]. cbn in *.
  destruct (Ascii.eqb c ","); [|done]. by rewrite (IH m) by lia.
Qed.

Lemma prepend_inv w o x r : prepend w o = Some (x, r) -> exists x', o = Some (x', r).
Proof. intros ([x' r'] & E & [= <- <-])%bind_Some. eauto. Qed.

Lemma unquote_shorter n : shortens (unquote n).
Proof.
  induction n as [|n IH]; intros [|c s] x r; try done. cbn [unquote String.length].
  destruct (Ascii.eqb c dq); [intros [= <- <-]; lia|]. destruct (Ascii.eqb c bs).
  - destruct s as [|e s]; [done|]. cbn [String.length]. destruct (Ascii.eqb e "u").
    + intros ([rr r1] & E & H)%bind_Some. apply hex4_shorter in E. revert H.
      destruct (is_surrogate rr); [|intros (x' & H%IH)%prepend_inv; lia].
      destruct (low_half rr r1) as [[dec r2]|] eqn:E'; [apply low_half_shorter in E'|];
        intros (x' & H%IH)%prepend_inv; lia.
    + intros (e' & _ & (x' & H%IH)%prepend_inv)%bind_Some. lia.
  - destruct (N.ltb _ 32); [done|]. destruct (N.ltb _ 128); [intros (x' & H%IH)%prepend_inv; lia|].
    pose proof (decode_rune_width c s) as Hw. destruct (decode_rune (String c s)) as [rr k]. cbn in Hw.
    intros (x' & H%IH)%prepend_inv. rewrite str_drop_length in H. cbn in H. lia.
Qed.

Lemma span_digits_length s : String.length (span_digits s).1 + String.length (span_digits s).2 = String.length s.
Proof.
  induction s as [|c s IH]; [done|]. cbn. destruct (is_digit c); [|done].
  destruct (span_digits s) as [d r]. cbn in *. lia.
Qed.
Lemma scan_digits_shorter : shortens scan_digits.
Proof.
  intros s d r. unfold scan_digits. pose proof (span_digits_length s) as Hl.
  destruct (span_digits s) as [[|c d'] r']; [done|]. intros [= <- <-]. cbn in Hl. lia.
Qed.

Lemma scan_sign_le signs s : String.length (scan_sign signs s).2 <= String.length s.
Proof. destruct s as [|c s]; [done|]. cbn. destruct (signs c); cbn; lia. Qed.

Lemma scan_number_shorter : shortens scan_number.
Proof.
  intros s t r. unfold scan_number. pose proof (scan_sign_le is_minus s) as H0.
  destruct (scan_sign is_minus s) as [sg s1]. cbn in H0.
  intros ([i s2] & E1 & ([f s3] & E2 & ([e s4] & E3 & [= <- <-])%bind_Some)%bind_Some)%bind_Some.
  assert (String.length s2 < String.length s1) as H1.
  { destruct s1 as [|c s1]; [done|]. cbn [scan_int] in E1. destruct (Ascii.eqb c "0").
    - injection E1 as <- <-. cbn. lia. - by apply scan_digits_shorter in E1. }
  assert (String.length s3 <= String.length s2) as H2.
  { destruct s2 as [|c s2]; cbn [scan_frac] in E2; [by injection E2 as <- <-|].
    destruct (Ascii.eqb c "."); [|by injection E2 as <- <-].
    apply bind_Some in E2 as ([d r] & E & [= <- <-]). apply scan_digits_shorter in E. cbn. lia. }
  assert (String.length s4 <= String.length s3) as H3.
  { destruct s3 as [|c s3]; cbn [scan_exp] in E3; [by injection E3 as <- <-|].
    destruct (_ || _); [|by injection E3 as <- <-].
    pose proof (scan_sign_le is_sign s3). destruct (scan_sign is_sign s3) as [sg2 r2].
    apply bind_Some in E3 as ([d r] & E & [= <- <-]). apply scan_digits_shorter in E. cbn in *. lia. }
  lia.
Qed.

Lemma parse_items_shorter {A} (item : string -> option (A * string)) close n :
  shortens item -> shortens (parse_items item close n).
Proof.
  intros Hitem. induction n as [|n IH]; intros s l r; [done|]. cbn [parse_items].
  intros ([x s1] & E & H)%bind_Some. apply Hitem in E. pose proof (skip_ws_le s1).
  destruct (skip_ws s1) as [|c s2]; [done|]. cbn in *. destruct (Ascii.eqb c ",").
  - apply bind_Some in H as ([xs s3] & H%IH & [= <- <-]). lia.
  - destruct (Ascii.eqb c close); [|done]. injection H as <- <-. lia.
Qed.

Lemma parse_list_shorter {A} (item : string -> option (A * string)) close :
  shortens item -> shortens (parse_list item close).
Proof.
  intros Hitem s l r. unfold parse_list. pose proof (skip_ws_le s).
  destruct (skip_ws s) as [|c s1]; [done|]. cbn in *. destruct (Ascii.eqb c close).
  - intros [= <- <-]. lia.
  - by apply parse_items_shorter.
Qed.

Lemma parse_member_shorter {A} (item : string -> option (A * string)) :
  shortens item -> shortens (parse_member item).
Proof.
  intros Hitem s x r. unfold parse_member. pose proof (skip_ws_le s).
  destruct (skip_ws s) as [|c s1]; [done|]. cbn in *. destruct (Ascii.eqb c dq); [|done].
  intros ([k s2] & E & H')%bind_Some. apply unquote_shorter in E. pose proof (skip_ws_le s2).
  destruct (skip_ws s2) as [|c2 s3]; [done|]. cbn in *. destruct (Ascii.eqb c2 ":"); [|done].
  apply bind_Some in H' as ([v s4] & H'%Hitem & [= <- <-]). lia.
Qed.

Lemma expect_le lit s r : expect lit s = Some r -> String.length r <= String.length s.
Proof. unfold expect. destruct (HasPrefix s lit); [|done]. intros [= <-]. rewrite str_drop_length. lia. Qed.

(** A value takes at least one byte. *)
Lemma parse_value_shorter d : shortens (parse_value d).
Proof.
  induction d as [|d IH]; intros s j r; cbn [parse_value]; pose proof (skip_ws_le s);
    destruct (skip_ws s) as [|c s1]; try done; cbn in *;
    (destruct (Ascii.eqb c dq); [intros ([t r1] & E%unquote_shorter & [= <- <-])%bind_Some; lia|]).
  - repeat (destruct (Ascii.eqb c _); [try done; intros (r1 & E%expect_le & [= <- <-])%bind_Some; lia|]).
    intros ([t r1] & E%scan_number_shorter & [= <- <-])%bind_Some. cbn in E. lia.
  - destruct (Ascii.eqb c "{").
    { intros ([ms r1] & E & [= <- <-])%bind_Some.
      apply parse_list_shorter in E; [lia|by apply parse_member_shorter]. }
    destruct (Ascii.eqb c "[").
    { intros ([l r1] & E & [= <- <-])%bind_Some. apply parse_list_shorter in E; [lia|done]. }
    repeat (destruct (Ascii.eqb c _); [intros (r1 & E%expect_le & [= <- <-])%bind_Some; lia|]).
    intros ([t r1] & E%scan_number_shorter & [= <- <-])%bind_Some. cbn in E. lia.
Qed.

(** ** ASCII *)

(** ASCII text stays as it is. *)
Lemma json_string_ascii s : is_ascii s = true -> json_string s = s.
Proof.
  unfold json_string, runes, is_ascii. induction s as [|c s IH]; [done|].
  cbn [String.list_ascii_of_string forallb String.length]. intros [Hc Hs]%andb_prop.
  cbn [runes_fuel]. unfold decode_rune. cbv zeta. rewrite Hc. cbn [foldr fst str_take str_drop].
  rewrite IH by done. by destruct c as [[] [] [] [] [] [] [] []].
Qed.

Lemma is_ascii_app s t : is_ascii (s +:+ t) = is_ascii s && is_ascii t.
Proof.
  unfold is_ascii. induction s as [|c s IH]; [done|]. rewrite str_app_cons.
  cbn [String.list_ascii_of_string forallb]. by rewrite IH, andb_assoc.
Qed.
