(* ===== verification/JsonLine.v ===== *)
(** * encoding/json: a text is a line

    What [json.Marshal] and [Encoder.Encode] write of a value holds no control
    character, so that a reader can take messages apart by lines. *)

From S2P Require Import Prelude GoStrings Utf8 JsonText.

Definition visible (c : ascii) : bool := N.leb 32 (byte_n c).
Definition one_line (s : string) : Prop := forallb visible (String.list_ascii_of_string s) = true.

Lemma one_line_app s t : one_line s -> one_line t -> one_line (s +:+ t).
Proof.
  unfold one_line. intros Hs Ht. induction s as [|c s IH]; [done|]. rewrite str_app_cons.
  cbn in *. apply andb_prop in Hs as [-> Hs]. by apply IH.
Qed.
Lemma one_line_cons c s : visible c = true -> one_line s -> one_line (String c s).
Proof. unfold one_line. cbn. by intros -> ->. Qed.

Create HintDb line discriminated.
#[export] Hint Resolve one_line_app one_line_cons : line.
#[export] Hint Extern 1 (one_line _) => (vm_compute; reflexivity) : line.
#[export] Hint Extern 1 (visible _ = true) => (vm_compute; reflexivity) : line.

Lemma one_line_join l sep : Forall one_line l -> one_line sep -> one_line (Join l sep).
Proof.
  intros Hl Hs. induction Hl as [|x l Hx Hl IH]; [done|]. destruct l as [|y l]; [done|].
  change (Join (x :: y :: l) sep) with (x +:+ sep +:+ Join (y :: l) sep). auto with line.
Qed.

(** ** Strings *)

(** A byte that [decode_rune] takes into a longer sequence. *)
Lemma range_visible lo hi c : in_range lo hi c = true -> (32 <= lo)%N -> visible c = true.
Proof. intros [H _]%in_range_spec Hlo. apply N.leb_le. lia. Qed.

(** All bytes of a rune that takes more than one are above ASCII. *)
Lemma decode_rune_high s : 2 <= (decode_rune s).2 -> one_line (str_take (decode_rune s).2 s).
Proof.
  assert (one_line "") as H0 by done. pose proof range_visible as Hv.
  destruct s as [|b0 s]; [cbn; lia|]. unfold decode_rune. cbv zeta.
  destruct (N.ltb _ 128); [cbn; lia|].
  destruct (in_range 194 223 b0) eqn:E1.
  { destruct s as [|b1 s]; [cbn; lia|]. destruct (in_range 128 191 b1) eqn:E2; [|cbn; lia]. intros _.
    cbn [fst snd str_take]. repeat apply one_line_cons; try done; by eapply Hv. }
  destruct (in_range 224 239 b0) eqn:E2.
  { destruct s as [|b1 [|b2 s]]; [cbn; lia..|]. destruct (_ && _) eqn:E3; [|cbn; lia]. intros _.
    apply andb_prop in E3 as [E3 E4].
    cbn [fst snd str_take]. repeat apply one_line_cons; try done; eapply Hv; try done. by case_match. }
  destruct (in_range 240 244 b0) eqn:E3; [|cbn; lia].
  destruct s as [|b1 [|b2 [|b3 s]]]; [cbn; lia..|]. destruct (_ && _) eqn:E4; [|cbn; lia]. intros _.
  apply andb_prop in E4 as [[E4 E5]%andb_prop E6].
  cbn [fst snd str_take]. repeat apply one_line_cons; try done; eapply Hv; try done. by case_match.
Qed.

Lemma json_escape_line c : one_line (json_escape c).
Proof. by destruct c as [[] [] [] [] [] [] [] []]. Qed.

(** A rune as it is read from a string. *)
Definition short_or_high (rb : N * string) : Prop := (exists c, rb.2 = String c "") \/ one_line rb.2.

Lemma runes_short_or_high s : Forall short_or_high (runes s).
Proof.
  unfold runes. generalize (String.length s) as n. intros n. revert s.
  induction n as [|n IH]; intros s; cbn [runes_fuel]; [constructor|]. destruct s as [|c s]; [constructor|].
  pose proof (decode_rune_high (String c s)) as Hh. pose proof (decode_rune_width c s) as Hw.
  destruct (decode_rune (String c s)) as [r w]. cbn [fst snd] in *. constructor; [|apply IH].
  destruct w as [|[|w]]; [lia|left; by exists c|right; apply Hh; lia].
Qed.

Lemma hex_digit_visible n : (n < 16)%N -> visible (hex_digit n) = true.
Proof.
  intros Hn. assert (n ∈ map N.of_nat (seq 0 16)) as Hin.
  { apply list_elem_of_fmap. exists (N.to_nat n). rewrite N2Nat.id. split; [done|]. apply elem_of_seq. lia. }
  cbn in Hin. repeat (apply elem_of_cons in Hin as [-> |Hin]; [done|]). by apply elem_of_nil in Hin.
Qed.

Lemma json_rune_line rb : short_or_high rb -> one_line (json_rune rb).
Proof.
  destruct rb as [r w]. unfold json_rune. cbn [fst snd].
  assert (forall w, one_line w -> one_line (if N.eqb r 8232 || N.eqb r 8233
    then "\u202" +:+ String (hex_digit (N.land r 15)) "" else w)) as Hr.
  { intros w' Hw. destruct (_ || _); [|done]. apply one_line_app; [done|]. apply one_line_cons; [|done].
    apply hex_digit_visible. change 15%N with (N.ones 4). rewrite N.land_ones. by apply N.mod_lt. }
  intros [[c E]|Hw]; cbn in *.
  - subst w. destruct (N.ltb _ 128); [apply json_escape_line|done].
  - destruct w as [|c [|d w]]; [by apply Hr| |by apply Hr]. destruct (N.ltb _ 128); [apply json_escape_line|done].
Qed.

Lemma json_quote_line s : one_line (json_quote s).
Proof.
  unfold json_quote. apply one_line_cons; [done|]. unfold json_body.
  induction (runes_short_or_high s) as [|rb l Hrb _ IH]; [done|]. cbn [foldr]. apply one_line_app; [|exact IH].
  by apply json_rune_line.
Qed.

(** ** Numbers *)

Lemma span_digits_line s : one_line (span_digits s).1.
Proof.
  induction s as [|c s IH]; [done|]. cbn. destruct (is_digit c) eqn:E; [|done].
  destruct (span_digits s) as [d r]. apply one_line_cons; [|exact IH]. by eapply range_visible.
Qed.
Lemma scan_digits_line s d r : scan_digits s = Some (d, r) -> one_line d.
Proof.
  unfold scan_digits. pose proof (span_digits_line s) as H. destruct (span_digits s) as [[|c d'] r']; [done|].
  by intros [= <- _].
Qed.
Lemma scan_sign_line signs s :
  (forall c, signs c = true -> visible c = true) -> one_line (scan_sign signs s).1.
Proof. intros Hs. destruct s as [|c s]; [done|]. cbn. destruct (signs c) eqn:E; [|done]. apply one_line_cons; auto. done. Qed.

Lemma scan_number_line s t r : scan_number s = Some (t, r) -> one_line t.
Proof.
  unfold scan_number. pose proof (scan_sign_line is_minus s) as H0.
  destruct (scan_sign is_minus s) as [sg s1]. cbn in H0.
  intros ([i s2] & E1 & ([f s3] & E2 & ([e s4] & E3 & [= <- _])%bind_Some)%bind_Some)%bind_Some.
  repeat apply one_line_app.
  - apply H0. intros c Hc%Ascii.eqb_eq. by subst.
  - destruct s1 as [|c s1]; [done|]. cbn [scan_int] in E1. destruct (Ascii.eqb c "0").
    + by injection E1 as <- _.
    + by eapply scan_digits_line.
  - destruct s2 as [|c s2]; cbn [scan_frac] in E2; [by injection E2 as <- _|].
    destruct (Ascii.eqb_spec c ".") as [->|_]; [|by injection E2 as <- _].
    apply bind_Some in E2 as ([d r1] & E & [= <- _]). apply one_line_cons; [done|]. by eapply scan_digits_line.
  - destruct s3 as [|c s3]; cbn [scan_exp] in E3; [by injection E3 as <- _|].
    destruct (Ascii.eqb c "e" || Ascii.eqb c "E") eqn:Ec; [|by injection E3 as <- _].
    pose proof (scan_sign_line is_sign s3) as Hs. destruct (scan_sign is_sign s3) as [sg2 r2].
    apply bind_Some in E3 as ([d r1] & E & [= <- _]). apply one_line_cons.
    { apply orb_prop in Ec as [->%Ascii.eqb_eq| ->%Ascii.eqb_eq]; done. }
    apply one_line_app; [|by eapply scan_digits_line]. apply Hs.
    intros c' [->%Ascii.eqb_eq| ->%Ascii.eqb_eq]%orb_prop; done.
Qed.

(** ** Trees *)

(** What is written without white space is one line. *)
Lemma print_line j : literals j -> one_line (print j).
Proof.
  unfold print. generalize 0 as n. induction j as [|[]|t|s|l IH|ms IH] using json_tree_ind; intros n Hj; try done.
  - cbn. by eapply scan_number_line.
  - apply json_quote_line.
  - apply literals_arr in Hj. cbn [print_at].
    assert (Forall one_line (map (print_at (fun _ => "") ":" (S n)) l)) as Hl.
    { apply Forall_map. apply (Forall_impl (fun x => literals x /\ forall n, literals x -> one_line (print_at (fun _ => "") ":" n x)));
        [by apply Forall_and|]. intros x [Hx Hp]. by apply Hp. }
    unfold bracket. destruct (map _ l) as [|x xs]; [done|]. repeat apply one_line_app; try done.
    by apply one_line_join.
  - apply literals_obj in Hj. cbn [print_at].
    assert (Forall one_line (map (fun '(k, v) => json_quote k +:+ ":" +:+ print_at (fun _ => "") ":" (S n) v) ms)) as Hl.
    { apply Forall_map. eapply Forall_impl; [apply Forall_and; split; [exact Hj|exact IH]|].
      intros [k v] [Hx Hp]. repeat apply one_line_app; [apply json_quote_line|done|by apply Hp]. }
    unfold bracket. destruct (map _ ms) as [|x xs]; [done|]. repeat apply one_line_app; try done.
    by apply one_line_join.
Qed.
