(* ===== verification/JsonPrefix.v ===== *)
(** * encoding/json: a text that is cut off

    What a decoder makes of the beginning of a text: if it finds a whole object (or
    array, string, literal) there, the rest of the text does not change what it
    found. So a peer that reads only a part of a request, because writing it has
    failed, decodes either nothing or the whole request. *)

From S2P Require Import Prelude GoStrings JsonText.

(** [item] takes the same value from a longer text, where [P] holds of the value
    and of what was left. *)
Definition reads_on {A} (P : A -> string -> Prop) (item : string -> option (A * string)) : Prop :=
  forall s x r t, item s = Some (x, r) -> P x r -> item (s +:+ t) = Some (x, r +:+ t).
Definition always {A} (x : A) (r : string) : Prop := True.
Definition left_over {A} (x : A) (r : string) : Prop := r <> "".

(** ** Strings *)

Lemma hex4_app s n r t : hex4 s = Some (n, r) -> hex4 (s +:+ t) = Some (n, r +:+ t).
Proof.
  destruct s as [|a [|b [|c [|d s]]]]; try done. rewrite !str_app_cons. cbn [hex4].
  intros (? & -> & (? & -> & (? & -> & (? & -> & [= <- <-])%bind_Some)%bind_Some)%bind_Some)%bind_Some. done.
Qed.

Lemma low_half_app h s n r t : low_half h s = Some (n, r) -> low_half h (s +:+ t) = Some (n, r +:+ t).
Proof.
  destruct s as [|b [|u s]]; try done. rewrite !str_app_cons. cbn [low_half]. destruct (_ && _); [|done].
  intros ([low r'] & E & H)%bind_Some. rewrite (hex4_app _ _ _ _ E). cbn [mbind option_bind]. revert H.
  destruct (_ && _); [|done]. by intros [= <- <-].
Qed.

(** A text of high bytes only has no closing quote. *)
Definition high (s : string) : Prop := Forall (fun c => (128 <= byte_n c)%N) (String.list_ascii_of_string s).

Lemma high_cons c s : (128 <= byte_n c)%N -> high s -> high (String c s).
Proof. by constructor. Qed.
Lemma high_nil : high "".
Proof. constructor. Qed.

Lemma high_drop k s : high s -> high (str_drop k s).
Proof.
  unfold high. revert s. induction k as [|k IH]; intros s Hs; [by destruct s|].
  destruct s as [|c s]; [done|]. cbn in *. inversion Hs; subst. by apply IH.
Qed.

Lemma high_char c : (128 <= byte_n c)%N -> Ascii.eqb c dq = false /\ Ascii.eqb c bs = false /\
  N.ltb (byte_n c) 32 = false /\ N.ltb (byte_n c) 128 = false.
Proof.
  intros Hc. rewrite !N.ltb_ge, !Ascii.eqb_neq. split_and!; try lia; intros ->; vm_compute in Hc; by apply Hc.
Qed.

Lemma unquote_high n s : high s -> unquote n s = None.
Proof.
  revert s. induction n as [|n IH]; intros [|c s] Hs; try done. cbn [unquote].
  inversion Hs as [|? ? Hc Hs']; subst. destruct (high_char c Hc) as (-> & -> & -> & ->).
  destruct (decode_rune (String c s)) as [rr k]. by rewrite IH by (by apply high_drop).
Qed.

Lemma in_range_high lo hi c : (128 <= lo)%N -> in_range lo hi c = true -> (128 <= byte_n c)%N.
Proof. unfold in_range. intros Hlo [H%N.leb_le _]%andb_prop. lia. Qed.

Lemma decode_rune_le s : (decode_rune s).2 <= String.length s.
Proof. destruct s as [|c s]; [done|]. unfold decode_rune. repeat case_match; cbn; lia. Qed.

Lemma str_drop_app_le k s t : k <= String.length s -> str_drop k (s +:+ t) = str_drop k s +:+ t.
Proof.
  revert s. induction k as [|k IH]; intros s Hk; [by destruct s|].
  destruct s as [|c s]; cbn in Hk; [lia|]. rewrite str_app_cons. apply IH. lia.
Qed.

(** A rune is the same in a longer text, unless the text breaks off inside it. *)
Lemma decode_rune_app c s t : (128 <= byte_n c)%N ->
  decode_rune (String c s +:+ t) = decode_rune (String c s) \/ high s.
Proof.
  intros Hc. rewrite str_app_cons. unfold decode_rune. cbv zeta.
  destruct (high_char c Hc) as (_ & _ & _ & ->).
  destruct (in_range 194 223 c); [destruct s as [|b1 s]; [right; apply high_nil|by left]|].
  destruct (in_range 224 239 c).
  { set (lo := if (byte_n c =? 224)%N then 160%N else 128%N).
    assert (128 <= lo)%N as Hlo by (unfold lo; destruct (_ =? _)%N; lia).
    destruct s as [|b1 [|b2 s]]; [right; apply high_nil| |by left]. rewrite !str_app_cons.
    destruct (in_range lo _ b1) eqn:E; [right; apply high_cons, high_nil; exact (in_range_high _ _ _ Hlo E)|].
    left. by destruct t. }
  destruct (in_range 240 244 c); [|by left].
  set (lo := if (byte_n c =? 240)%N then 144%N else 128%N).
  assert (128 <= lo)%N as Hlo by (unfold lo; destruct (_ =? _)%N; lia).
  destruct s as [|b1 [|b2 [|b3 s]]]; [right; apply high_nil| | |by left]; rewrite !str_app_cons;
    (destruct (in_range lo _ b1) eqn:E1; [|left; destruct t as [|? [|? ?]]; reflexivity]).
  - right. apply high_cons, high_nil. exact (in_range_high _ _ _ Hlo E1).
  - destruct (in_range 128 191 b2) eqn:E2; [|left; destruct t; reflexivity].
    right. apply high_cons; [exact (in_range_high _ _ _ Hlo E1)|].
    apply high_cons, high_nil. by apply (in_range_high 128 191).
Qed.

Lemma low_half_none n h r x rest t :
  unquote n r = Some (x, rest) -> low_half h r = None -> low_half h (r +:+ t) = None.
Proof.
  destruct n as [|n]; [done|]. destruct r as [|b [|u r]]; [done| |].
  - cbn [unquote]. destruct (Ascii.eqb b dq) eqn:E.
    { apply Ascii.eqb_eq in E as ->. intros _ _. destruct t as [|a t]; reflexivity. }
    destruct (Ascii.eqb b bs) eqn:E'; [done|]. intros _ _. change (low_half h (String b t) = None).
    cbn [low_half]. destruct t; [done|]. by rewrite E'.
  - rewrite !str_app_cons. cbn [low_half]. destruct (Ascii.eqb b bs) eqn:Eb; cbn [andb]; [|done].
    destruct (Ascii.eqb u "u") eqn:Eu; [|done]. apply Ascii.eqb_eq in Eb as ->, Eu as ->.
    cbn [unquote]. change (Ascii.eqb bs dq) with false. change (Ascii.eqb bs bs) with true.
    change (Ascii.eqb "u" "u") with true. cbn [mbind option_bind].
    intros ([rr r1] & E & _)%bind_Some. rewrite E, (hex4_app _ _ _ _ E). cbn [mbind option_bind]. by destruct (_ && _).
Qed.

Lemma prepend_app w o x r t o' :
  prepend w o = Some (x, r) -> (forall y, o = Some (y, r) -> o' = Some (y, r +:+ t)) -> prepend w o' = Some (x, r +:+ t).
Proof. intros ([y r'] & -> & [= <- <-])%bind_Some Ho. by rewrite (Ho y). Qed.

Lemma unquote_app n : reads_on always (unquote n).
Proof.
  intros s x r t E _. revert s x r E. induction n as [|n IH]; intros [|c s] x r; try done.
  rewrite str_app_cons. cbn [unquote]. destruct (Ascii.eqb c dq); [by intros [= <- <-]|].
  destruct (Ascii.eqb c bs).
  { destruct s as [|e s]; [done|]. rewrite str_app_cons. destruct (Ascii.eqb e "u").
    - intros ([rr r1] & E & H)%bind_Some. rewrite (hex4_app _ _ _ _ E). cbn [mbind option_bind]. revert H.
      destruct (is_surrogate rr); [|intros H; eapply prepend_app; eauto].
      destruct (low_half rr r1) as [[dec r2]|] eqn:El.
      + rewrite (low_half_app _ _ _ _ _ El). intros H. eapply prepend_app; eauto.
      + intros H. pose proof H as ([y r2] & Hu & _)%bind_Some. rewrite (low_half_none _ _ _ _ _ _ Hu El).
        eapply prepend_app; eauto.
    - intros (e' & -> & H)%bind_Some. cbn [mbind option_bind]. eapply prepend_app; eauto. }
  destruct (N.ltb (byte_n c) 32); [done|].
  destruct (N.ltb (byte_n c) 128) eqn:Ec; [intros H; eapply prepend_app; eauto|]. apply N.ltb_ge in Ec.
  rewrite <- (str_app_cons c s t). destruct (decode_rune_app c s t Ec) as [-> | Hh].
  - pose proof (decode_rune_le (String c s)) as Hk.
    destruct (decode_rune (String c s)) as [rr k] eqn:Ed. intros H. eapply prepend_app; [exact H|]. intros y Hy.
    apply IH in Hy. by rewrite (str_drop_app_le k _ t) by exact Hk.
  - destruct (decode_rune (String c s)) as [rr k] eqn:Ed. intros H. exfalso.
    apply bind_Some in H as ([y r'] & H & _). rewrite unquote_high in H; [done|]. apply high_drop.
    by apply high_cons.
Qed.

(** The fuel of a longer text is enough. *)
Lemma unquote_reads s x r t :
  unquote (String.length s) s = Some (x, r) -> unquote (String.length (s +:+ t)) (s +:+ t) = Some (x, r +:+ t).
Proof.
  intros E. apply (unquote_app _ _ _ _ t); [|done]. rewrite <- E. apply unquote_fuel; [|done].
  rewrite str_length_app. lia.
Qed.

(** ** Numbers *)

Lemma nonempty_app (r t : string) : r <> "" -> r +:+ t <> "".
Proof. by destruct r. Qed.

Lemma span_digits_more s t :
  (span_digits s).2 <> "" -> span_digits (s +:+ t) = ((span_digits s).1, (span_digits s).2 +:+ t).
Proof.
  induction s as [|c s IH]; [done|]. rewrite str_app_cons. cbn [span_digits].
  destruct (is_digit c); [|done]. destruct (span_digits s) as [d r]. cbn. intros Hr. by rewrite IH.
Qed.

Lemma scan_digits_more : reads_on left_over scan_digits.
Proof.
  intros s d r t. unfold scan_digits. pose proof (span_digits_more s t) as Hs.
  destruct (span_digits s) as [[|c d'] r']; [done|]. intros [= <- <-] Hr. by rewrite Hs.
Qed.

Lemma scan_int_more : reads_on left_over scan_int.
Proof.
  intros [|c s] d r t; [done|]. rewrite str_app_cons. cbn [scan_int].
  destruct (Ascii.eqb c "0"); [by intros [= <- <-]|]. rewrite <- str_app_cons. apply scan_digits_more.
Qed.

Lemma scan_frac_more : reads_on left_over scan_frac.
Proof.
  intros [|c s] d r t; [by intros [= _ <-]|]. rewrite str_app_cons. cbn [scan_frac].
  destruct (Ascii.eqb c "."); [|by intros [= <- <-]].
  intros ([d' r'] & E & [= <- <-])%bind_Some Hr. by rewrite (scan_digits_more _ _ _ t E Hr).
Qed.

Lemma scan_exp_more : reads_on left_over scan_exp.
Proof.
  intros [|c s] d r t; [by intros [= _ <-]|]. rewrite str_app_cons. cbn [scan_exp].
  destruct (_ || _); [|by intros [= <- <-]]. destruct s as [|c1 s]; [done|].
  rewrite scan_sign_app by done. destruct (scan_sign is_sign (String c1 s)) as [sg r1]. cbn [fst snd].
  intros ([d' r'] & E & [= <- <-])%bind_Some Hr. by rewrite (scan_digits_more _ _ _ t E Hr).
Qed.

(** What is left over at the end was left over at every stage. *)
Lemma stage_left (f : string -> option (string * string)) s d r :
  f "" = None \/ f "" = Some ("", "") -> f s = Some (d, r) -> r <> "" -> s <> "".
Proof. intros H0 E Hr ->. rewrite E in H0. destruct H0 as [H0|H0]; [done|]. by injection H0 as _ ->. Qed.

Lemma scan_number_more : reads_on left_over scan_number.
Proof.
  intros s n r t. unfold scan_number. destruct s as [|c s]; [done|]. rewrite scan_sign_app by done.
  destruct (scan_sign is_minus (String c s)) as [sg s1]. cbn [fst snd].
  intros ([i s2] & E1 & ([f s3] & E2 & ([e s4] & E3 & [= <- <-])%bind_Some)%bind_Some)%bind_Some Hr.
  assert (s3 <> "") as H3 by (eapply (stage_left scan_exp); [by right|exact E3|exact Hr]).
  assert (s2 <> "") as H2 by (eapply (stage_left scan_frac); [by right|exact E2|exact H3]).
  rewrite (scan_int_more _ _ _ t E1 H2). cbn. rewrite (scan_frac_more _ _ _ t E2 H3). cbn.
  by rewrite (scan_exp_more _ _ _ t E3 Hr).
Qed.

(** ** Values *)

Lemma skip_ws_more s c r t : skip_ws s = String c r -> skip_ws (s +:+ t) = String c (r +:+ t).
Proof.
  induction s as [|a s IH]; [done|]. rewrite str_app_cons. cbn [skip_ws].
  destruct (is_space a); [done|]. by intros [= <- <-].
Qed.

Lemma skip_ws_left s c r : skip_ws s = String c r -> s <> "".
Proof. by destruct s. Qed.

Section items.
Context {A : Type} (item : string -> option (A * string)).
Context (Hitem : reads_on left_over item) (Hshort : shortens item).

Lemma parse_items_more close n : reads_on always (parse_items item close n).
Proof.
  intros s l r t E _. revert s l r E. induction n as [|n IH]; intros s l r; [done|]. cbn [parse_items].
  intros ([x s1] & E & H)%bind_Some. destruct (skip_ws s1) as [|c s2] eqn:Es; [done|].
  rewrite (Hitem _ _ _ t E (skip_ws_left _ _ _ Es)). cbn [mbind option_bind].
  rewrite (skip_ws_more _ _ _ t Es). destruct (Ascii.eqb c ",").
  - apply bind_Some in H as ([xs s3] & H%IH & [= <- <-]). by rewrite H.
  - destruct (Ascii.eqb c close); [|done]. by injection H as <- <-.
Qed.

Lemma parse_list_more close : reads_on always (parse_list item close).
Proof.
  intros s l r t E _. revert E. unfold parse_list. destruct (skip_ws s) as [|c s1] eqn:Es; [done|].
  rewrite (skip_ws_more _ _ _ t Es). destruct (Ascii.eqb c close); [by intros [= <- <-]|].
  intros E. apply (parse_items_more close _ _ _ _ t); [|done]. rewrite <- E.
  apply parse_items_fuel; [done| |done]. rewrite str_length_app. lia.
Qed.

Lemma parse_member_more : reads_on left_over (parse_member item).
Proof.
  intros s x r t. unfold parse_member. destruct (skip_ws s) as [|c s1] eqn:Es; [done|].
  rewrite (skip_ws_more _ _ _ t Es). destruct (Ascii.eqb c dq); [|done].
  intros ([k s2] & E & H)%bind_Some Hr. rewrite (unquote_reads _ _ _ t E). cbn [mbind option_bind].
  destruct (skip_ws s2) as [|c2 s3] eqn:Es2; [done|]. rewrite (skip_ws_more _ _ _ t Es2).
  destruct (Ascii.eqb c2 ":"); [|done]. apply bind_Some in H as ([v s4] & H & [= <- <-]).
  by rewrite (Hitem _ _ _ t H Hr).
Qed.
End items.

Lemma expect_more lit s r t : expect lit s = Some r -> expect lit (s +:+ t) = Some (r +:+ t).
Proof.
  unfold expect. destruct (HasPrefix s lit) eqn:E; [|done]. intros [= <-].
  apply HasPrefix_spec in E as [x ->]. by rewrite str_app_assoc, HasPrefix_app, !str_drop_app.
Qed.

(** Only a number can go on. *)
Definition complete (j : json) (r : string) : Prop := match j with JNum _ => r <> "" | _ => True end.

Lemma parse_value_more d : reads_on complete (parse_value d).
Proof.
  assert (forall d, reads_on complete (parse_value d) -> reads_on left_over (parse_value d)) as Hleft.
  { intros d' Hd s j r t E Hr. apply Hd; [done|]. by destruct j. }
  induction d as [|d IH]; intros s j r t; cbn [parse_value];
    (destruct (skip_ws s) as [|c s1] eqn:Es; [done|]); rewrite (skip_ws_more _ _ _ t Es);
    (destruct (Ascii.eqb c dq); [intros ([x r1] & E & [= <- <-])%bind_Some _; by rewrite (unquote_reads _ _ _ t E)|]).
  - repeat (destruct (Ascii.eqb c _);
      [try done; intros (r1 & E & [= <- <-])%bind_Some _; by rewrite (expect_more _ _ _ t E)|]).
    intros ([x r1] & E & [= <- <-])%bind_Some Hr. rewrite <- str_app_cons.
    by rewrite (scan_number_more _ _ _ t E Hr).
  - destruct (Ascii.eqb c "{").
    { intros ([ms r1] & E & [= <- <-])%bind_Some _.
      rewrite (parse_list_more _ (parse_member_more _ (Hleft _ IH)) (parse_member_shorter _ (parse_value_shorter d))
        _ _ _ _ t E I). done. }
    destruct (Ascii.eqb c "[").
    { intros ([l r1] & E & [= <- <-])%bind_Some _.
      rewrite (parse_list_more _ (Hleft _ IH) (parse_value_shorter d) _ _ _ _ t E I). done. }
    repeat (destruct (Ascii.eqb c _);
      [intros (r1 & E & [= <- <-])%bind_Some _; by rewrite (expect_more _ _ _ t E)|]).
    intros ([x r1] & E & [= <- <-])%bind_Some Hr. rewrite <- str_app_cons.
    by rewrite (scan_number_more _ _ _ t E Hr).
Qed.

Lemma parse_value_object d s j r : parse_value d (String "{" s) = Some (j, r) -> complete j r.
Proof.
  destruct d as [|d]; cbn [parse_value skip_ws]; change (is_space "{") with false; cbn iota;
    change (Ascii.eqb "{" dq) with false; change (Ascii.eqb "{" "{") with true; cbn iota; [done|].
  by intros ([ms r1] & E & [= <- <-])%bind_Some.
Qed.

(** An object that is found at the beginning of a text is the one the text has. *)
Lemma parse_value_part d s n j r :
  HasPrefix s "{" = true -> parse_value d (str_take n s) = Some (j, r) ->
  parse_value d s = Some (j, r +:+ str_drop n s).
Proof.
  intros [x ->]%HasPrefix_spec E. change ("{" +:+ x) with (String "{" x) in *.
  rewrite <- (str_take_drop n (String "{" x)) at 1. apply parse_value_more; [exact E|].
  destruct n as [|n]; cbn [str_take] in E; [by destruct d|]. by apply parse_value_object in E.
Qed.

Lemma parse_part s n j r :
  HasPrefix s "{" = true -> parse (str_take n s) = Some (j, r) -> parse s = Some (j, r +:+ str_drop n s).
Proof. apply parse_value_part. Qed.
