(* ===== verification/Json.v ===== *)
(** * encoding/json: values

    Which [any] values [encoding/json] writes, as which trees of [JsonText], and
    what it reads from a tree. Formatting and parsing a [float64] is a parameter
    ([FloatText]): [strconv] prints the shortest decimal that parses back. *)

From S2P Require Import Prelude GoStrings GoSort GoValue JsonText.

(** ** Values and trees *)

Class FloatText := {
  FormatFloat : Z -> string;
  ParseFloat : string -> option Z
}.

Definition float64_finite (bits : Z) : bool := negb (Z.shiftr bits 52 mod 2048 =? 2047)%Z.

(** What [FormatFloat] and [ParseFloat] promise: a finite number is written as a
    literal that is read back as the same number, and what is read is finite. *)
Class FloatLaws `{FloatText} : Prop := {
  format_literal bits : float64_finite bits = true -> is_number (FormatFloat bits);
  parse_format bits : float64_finite bits = true -> ParseFloat (FormatFloat bits) = Some bits;
  parse_finite t bits : ParseFloat t = Some bits -> float64_finite bits = true
}.

(** What the decoder says of a text that it cannot use: a parameter. *)
Class JsonErrors := { decode_error : string -> error }.

(** The members of a map, in the order of their keys. *)
Definition members {A} (m : gmap string A) : list (string * A) :=
  omap (fun k => (fun v => (k, v)) <$> m !! k) (sorted_keys m).

(** Reading members one by one into a map: the last one of a name stays. *)
Definition read_members {A} (m : gmap string A) (ms : list (string * A)) : gmap string A :=
  foldl (fun acc '(k, v) => <[k := v]> acc) m ms.

(** A map after the round trip: keys that invalid UTF-8 told apart can fall
    together. *)
Definition json_object {A} (m : gmap string A) : gmap string A :=
  read_members ∅ (map (fun '(k, v) => (json_string k, v)) (members m)).

(** Can the value be marshalled, and what reading the JSON back gives. *)
Fixpoint json_encodable (v : value) : bool :=
  match v with
  | VFloat64 bits => float64_finite bits
  | VSlice l => forallb json_encodable l
  | VMap m => forallb (fun '(_, b) => b) (members (json_encodable <$> m))
  | _ => true
  end.
Fixpoint json_value (v : value) : value :=
  match v with
  | VString s => VString (json_string s)
  | VStrings l => VSlice (map (fun s => VString (json_string s)) l)
  | VSlice l => VSlice (map json_value l)
  | VMap m => VMap (json_object (json_value <$> m))
  | VNil | VBool _ | VFloat64 _ => v
  end.

Section float.
Context `{FloatText}.

Fixpoint tree_of (v : value) : json :=
  match v with
  | VNil => JNull
  | VBool b => JBool b
  | VFloat64 bits => JNum (FormatFloat bits)
  | VString s => JStr s
  | VStrings l => JArr (map JStr l)
  | VSlice l => JArr (map tree_of l)
  | VMap m => JObj (members (tree_of <$> m))
  end.

(** What [Decode] stores into an [any]; a number that is out of range is an error. *)
Fixpoint value_of (j : json) : option value :=
  match j with
  | JNull => Some VNil
  | JBool b => Some (VBool b)
  | JNum t => VFloat64 <$> ParseFloat t
  | JStr s => Some (VString s)
  | JArr l => VSlice <$> mapM value_of l
  | JObj ms => (fun ms => VMap (read_members ∅ ms)) <$> mapM (fun '(k, x) => (fun v => (k, v)) <$> value_of x) ms
  end.
End float.

(** ** Integers *)

Fixpoint digits_value (acc : Z) (s : string) : option Z :=
  match s with
  | EmptyString => Some acc
  | String c r => if is_digit c then digits_value (acc * 10 + (Z.of_N (byte_n c) - 48)) r else None
  end.

Definition decimal (t : string) : option Z :=
  match t with
  | String c r => if is_minus c then Z.opp <$> digits_value 0 r else digits_value 0 t
  | EmptyString => None
  end.

(** [strconv.ParseInt(t, 10, 64)] of a number literal: fractions, exponents and
    numbers out of range are errors. *)
Definition ParseInt64 (t : string) : option Z :=
  n ← decimal t; if ((min_int64 <=? n) && (n <=? max_int64))%Z then Some n else None.

(** ** Lemmas: maps *)

Lemma sorted_keys_fmap {A B} (f : A -> B) (m : gmap string A) : sorted_keys (f <$> m) = sorted_keys m.
Proof.
  unfold sorted_keys. rewrite map_to_list_fmap. f_equal. induction (map_to_list m) as [|[k v] l IH]; [done|].
  cbn. by rewrite <- IH.
Qed.

Lemma members_fmap {A B} (f : A -> B) (m : gmap string A) :
  members (f <$> m) = map (fun '(k, v) => (k, f v)) (members m).
Proof.
  unfold members. rewrite sorted_keys_fmap. induction (sorted_keys m) as [|k l IH]; [done|].
  cbn. rewrite lookup_fmap, IH. by destruct (m !! k).
Qed.

Lemma members_elem {A} (m : gmap string A) k v : (k, v) ∈ members m <-> m !! k = Some v.
Proof.
  unfold members. rewrite list_elem_of_omap. split.
  - intros (k' & _ & E). destruct (m !! k') eqn:Ek; [|done]. by injection E as <- <-.
  - intros E. exists k. split; [apply sorted_keys_elem; eauto|]. by rewrite E.
Qed.

Lemma members_Forall {A} (P : string * A -> Prop) (m : gmap string A) :
  (forall k v, m !! k = Some v -> P (k, v)) -> Forall P (members m).
Proof. intros HP. apply Forall_forall. intros [k v] Hk%members_elem. auto. Qed.

(** ** Lemmas: induction on values *)

Fixpoint value_size (v : value) : nat :=
  match v with
  | VSlice l => S (list_sum (map value_size l))
  | VMap m => S (list_sum (map snd (members (value_size <$> m))))
  | _ => 0
  end.

Lemma list_sum_elem n l : n ∈ l -> n <= list_sum l.
Proof. unfold list_sum. induction 1 as [n l|n m l _ IH]; cbn; lia. Qed.

Section value_ind.
Context (P : value -> Prop) (Hnil : P VNil) (Hbool : forall b, P (VBool b)) (Hfloat : forall z, P (VFloat64 z)).
Context (Hstr : forall s, P (VString s)) (Hstrs : forall l, P (VStrings l)).
Context (Hslice : forall l, Forall P l -> P (VSlice l)).
Context (Hmap : forall m, (forall k v, m !! k = Some v -> P v) -> P (VMap m)).

Lemma value_nested_ind v : P v.
Proof.
  remember (value_size v) as n eqn:Hn. assert (value_size v <= n) as Hle by lia. clear Hn. revert v Hle.
  induction n as [n IH] using lt_wf_ind. intros v Hle.
  destruct v as [|b|z|s|l|l|m]; auto; cbn in Hle.
  - apply Hslice, Forall_forall. intros v Hv. apply (IH (value_size v)); [|done].
    apply Nat.lt_le_trans with (2 := Hle). apply Nat.lt_succ_r, list_sum_elem.
    apply list_elem_of_fmap. eauto.
  - apply Hmap. intros k v Hv. apply (IH (value_size v)); [|done].
    apply Nat.lt_le_trans with (2 := Hle). apply Nat.lt_succ_r, list_sum_elem.
    apply list_elem_of_fmap. exists (k, value_size v). split; [done|].
    apply members_elem. by rewrite lookup_fmap, Hv.
Qed.
End value_ind.

(** ** The round trip of a value *)

Lemma mapM_map {A B C} (f : B -> option C) (g : A -> B) (h : A -> C) l :
  Forall (fun x => f (g x) = Some (h x)) l -> mapM f (map g l) = Some (map h l).
Proof. induction 1 as [|x l Hx _ IH]; [done|]. cbn in *. by rewrite Hx, IH. Qed.

Lemma encodable_slice l : json_encodable (VSlice l) = true -> Forall (fun v => json_encodable v = true) l.
Proof. cbn. rewrite forallb_forall. intros Hl. apply Forall_forall. intros v Hv. by apply Hl, list_elem_of_In. Qed.

Lemma encodable_map m k v : json_encodable (VMap m) = true -> m !! k = Some v -> json_encodable v = true.
Proof.
  cbn. rewrite forallb_forall. intros Hm Hk. apply (Hm (k, json_encodable v)), list_elem_of_In, members_elem.
  by rewrite lookup_fmap, Hk.
Qed.

Section float_laws.
Context `{FloatText} {Hlaws : FloatLaws}.

Lemma tree_literals v : json_encodable v = true -> literals (tree_of v).
Proof.
  induction v as [|b|z|s|l|l IH|m IH] using value_nested_ind; intros He; try done.
  - by apply format_literal.
  - apply literals_arr, Forall_forall. intros j Hj. apply list_elem_of_fmap in Hj as (s & -> & _). done.
  - apply literals_arr. apply encodable_slice in He. apply Forall_map, Forall_forall.
    intros v Hv. rewrite Forall_forall in IH, He. cbn. auto.
  - apply literals_obj. rewrite members_fmap. apply Forall_map, members_Forall. intros k v Hk.
    apply (IH k v Hk). by eapply encodable_map.
Qed.

Lemma value_round_trip v : json_encodable v = true -> value_of (json_tree (tree_of v)) = Some (json_value v).
Proof.
  induction v as [|b|z|s|l|l IH|m IH] using value_nested_ind; intros He; try done.
  - cbn. by rewrite parse_format.
  - cbn [tree_of json_tree value_of json_value]. rewrite map_map.
    by rewrite (mapM_map value_of _ (fun s => VString (json_string s))) by (by apply Forall_forall).
  - cbn [tree_of json_tree value_of json_value]. rewrite map_map. apply encodable_slice in He.
    rewrite (mapM_map value_of _ json_value); [done|].
    apply Forall_forall. intros v Hv. rewrite Forall_forall in IH, He. cbn. auto.
  - cbn [tree_of json_tree value_of json_value]. rewrite members_fmap, !map_map.
    unfold json_object. rewrite members_fmap, map_map.
    rewrite (mapM_map _ _ (fun '(k, v) => (json_string k, json_value v))).
    + cbn. do 3 f_equal. apply map_ext. by intros [k v].
    + apply members_Forall. intros k v Hk. cbn. rewrite (IH k v Hk); [done|]. by eapply encodable_map.
Qed.
End float_laws.

(** ** The round trip of an integer *)

Definition all_digits (s : string) : Prop := span_digits s = (s, "").

Lemma all_digits_cons c s : is_digit c = true -> all_digits s -> all_digits (String c s).
Proof. unfold all_digits. cbn. by intros -> ->. Qed.

Lemma pretty_char_digit x : (x < 10)%N ->
  is_digit (pretty_N_char x) = true /\ Z.of_N (byte_n (pretty_N_char x)) = (48 + Z.of_N x)%Z.
Proof.
  intros Hx. assert (x ∈ map N.of_nat (seq 0 10)) as Hin.
  { apply list_elem_of_fmap. exists (N.to_nat x). rewrite N2Nat.id. split; [done|]. apply elem_of_seq. lia. }
  assert (Forall (fun x => is_digit (pretty_N_char x) = true /\
    Z.of_N (byte_n (pretty_N_char x)) = (48 + Z.of_N x)%Z) (map N.of_nat (seq 0 10))) as Hall
    by (repeat constructor).
  rewrite Forall_forall in Hall. by apply Hall.
Qed.

(** The decimal digits of a positive number: they are digits, the first is not
    zero, and reading them gives the number. *)
Lemma pretty_N_go_spec x s :
  all_digits s ->
  all_digits (pretty_N_go x s) /\
  digits_value 0 (pretty_N_go x s) = digits_value (Z.of_N x) s /\
  ((0 < x)%N -> exists c r, pretty_N_go x s = String c r /\ is_digit c = true /\ c <> "0"%char).
Proof.
  revert s. induction (N.lt_wf_0 x) as [x _ IH]; intros s Hs.
  assert (x = 0 \/ 0 < x)%N as [->|Hx] by lia; [by rewrite pretty_N_go_0|].
  rewrite pretty_N_go_step by done.
  pose proof (N.mod_lt x 10 ltac:(done)) as Hm. destruct (pretty_char_digit _ Hm) as [Hd Hv].
  destruct (IH (x / 10)%N ltac:(by apply N.div_lt) (String (pretty_N_char (x mod 10)) s)) as (H1 & H2 & H3).
  { by apply all_digits_cons. }
  split_and!; [done| |].
  - rewrite H2. cbn [digits_value]. rewrite Hd, Hv. f_equal. pose proof (N.div_mod x 10 ltac:(done)). lia.
  - intros _. destruct (N.eq_0_gt_0_cases (x / 10)) as [E|Hq]; [|by apply H3].
    rewrite E, pretty_N_go_0. eexists _, _. split; [done|]. split; [done|].
    pose proof (N.div_mod x 10 ltac:(done)) as Hdm. rewrite E in Hdm.
    intros E0. rewrite E0 in Hv. cbn in Hv. lia.
Qed.

Lemma pretty_pos p :
  let s := pretty (N.pos p) in
  all_digits s /\ digits_value 0 s = Some (Z.pos p) /\
  exists c r, s = String c r /\ is_digit c = true /\ c <> "0"%char.
Proof.
  cbv zeta. unfold pretty, pretty_N. rewrite decide_False by done.
  destruct (pretty_N_go_spec (N.pos p) "" ltac:(done)) as (H1 & H2 & H3). split_and!; auto.
  by apply H3.
Qed.

Lemma digits_number sign s :
  all_digits s -> (exists c r, s = String c r /\ is_digit c = true /\ c <> "0"%char) ->
  sign = "" \/ sign = "-" -> is_number (sign +:+ s).
Proof.
  intros Hs (c & r & -> & Hc & H0) Hsign. unfold is_number, scan_number.
  assert (scan_sign is_minus (sign +:+ String c r) = (sign, String c r)) as ->.
  { destruct Hsign as [-> | ->]; [|done]. change ("" +:+ ?t) with t. cbn. unfold is_minus.
    destruct (Ascii.eqb c "-") eqn:E; [|done]. by apply Ascii.eqb_eq in E as ->. }
  cbn [scan_int]. rewrite (proj2 (Ascii.eqb_neq _ _) H0). unfold scan_digits. rewrite Hs.
  cbn. by rewrite !str_app_nil_r.
Qed.

(** A printed integer is a number literal. *)
Lemma Itoa_number z : is_number (Itoa z).
Proof.
  unfold Itoa. destruct z as [|p|p]; [done| |].
  - destruct (pretty_pos p) as (H1 & _ & H3). apply (digits_number "" _ H1 H3). by left.
  - destruct (pretty_pos p) as (H1 & _ & H3). apply (digits_number "-" _ H1 H3). by right.
Qed.

Lemma decimal_Itoa z : decimal (Itoa z) = Some z.
Proof.
  unfold Itoa, decimal. destruct z as [|p|p]; [done| |]; destruct (pretty_pos p) as (_ & H2 & H3); cbv zeta in *.
  - destruct H3 as (c & r & E & Hc & _). change (pretty (Z.pos p)) with (pretty (N.pos p)). rewrite H2, E.
    unfold is_minus. destruct (Ascii.eqb c "-") eqn:Em; [|done]. by apply Ascii.eqb_eq in Em as ->.
  - change (pretty (Z.neg p)) with (String "-" (pretty (N.pos p))). cbn [is_minus Ascii.eqb Bool.eqb].
    by rewrite H2.
Qed.

Lemma ParseInt64_Itoa z : (min_int64 <= z <= max_int64)%Z -> ParseInt64 (Itoa z) = Some z.
Proof.
  intros [H1 H2]. unfold ParseInt64. rewrite decimal_Itoa. cbn.
  apply Z.leb_le in H1, H2. by rewrite H1, H2.
Qed.

(** A text for numbers that keeps the laws: the bits in decimal. *)
Definition plain_floats : FloatText :=
  {| FormatFloat := Itoa;
     ParseFloat t := bits ← decimal t; if float64_finite bits then Some bits else None |}.
Lemma plain_floats_laws : FloatLaws (H := plain_floats).
Proof.
  split.
  - intros bits _. apply Itoa_number.
  - intros bits Hb. cbn [FormatFloat ParseFloat plain_floats]. rewrite decimal_Itoa. cbn [mbind option_bind].
    by rewrite Hb.
  - intros t bits (b & _ & H)%bind_Some. destruct (float64_finite b) eqn:E; [|done]. by injection H as <-.
Qed.

(** Error texts for the witnesses. *)
Definition plain_errors : JsonErrors := {| decode_error s := errorf (if s =s "" then "EOF" else "invalid JSON") |}.

(** ** Structs

    Decoding into a struct: each member goes to the field whose name it equals
    but for case; others are ignored, [null] changes nothing, and a type that
    does not fit fails the whole decoding, whatever else it has filled. *)

Definition setter (A : Type) : Type := json -> A -> option A.
Definition field (A : Type) : Type := string * setter A.

(** The first field with the name of [key]; no two names of a struct of the
    program are equal but for case. *)
Fixpoint field_index (names : list string) (key : string) : option nat :=
  match names with
  | [] => None
  | name :: rest => if EqualFold key name then Some 0 else S <$> field_index rest key
  end.

Definition set_field {A} (fields : list (field A)) (key : string) (j : json) (a : A) : option A :=
  match field_index (map fst fields) key ≫= (fun i => fields !! i) with
  | Some (_, set) => set j a
  | None => Some a
  end.

Definition set_members {A} (fields : list (field A)) (ms : list (string * json)) (a : A) : option A :=
  foldl (fun acc '(key, j) => a ← acc; set_field fields key j a) (Some a) ms.

Definition into_struct {A} (fields : list (field A)) : setter A := fun j a =>
  match j with
  | JNull => Some a
  | JObj ms => set_members fields ms a
  | _ => None
  end.

Definition into_string {A} (set : string -> A -> A) : setter A := fun j a =>
  match j with
  | JNull => Some a
  | JStr s => Some (set s a)
  | _ => None
  end.

Definition into_int {A} (set : Z -> A -> A) : setter A := fun j a =>
  match j with
  | JNull => Some a
  | JNum t => (fun n => set n a) <$> ParseInt64 t
  | _ => None
  end.

Definition into_bool {A} (set : bool -> A -> A) : setter A := fun j a =>
  match j with
  | JNull => Some a
  | JBool b => Some (set b a)
  | _ => None
  end.

(** [omitempty] *)
Definition unless_empty (empty : bool) (name : string) (j : json) : list (string * json) :=
  if empty then [] else [(name, j)].

Lemma unless_empty_Forall (P : string * json -> Prop) (empty : bool) name j :
  P (name, j) -> Forall P (unless_empty empty name j).
Proof. destruct empty; by repeat constructor. Qed.

(** A nil slice is null. *)
Definition slice_tree {A} (tree : A -> json) (l : slice A) : json :=
  match l with Some l => JArr (map tree l) | None => JNull end.

(** A tree that the decoder reads back when it follows [d] levels. *)
Definition fits (d : nat) (j : json) : Prop := literals j /\ depth j <= d.

Lemma fits_arr d l : Forall (fits d) l -> fits (S d) (JArr l).
Proof. intros [H1 H2]%Forall_and. split; [by apply literals_arr|by apply depth_arr]. Qed.
Lemma fits_obj d ms : Forall (fun m => fits d m.2) ms -> fits (S d) (JObj ms).
Proof. intros [H1 H2]%Forall_and. split; [by apply literals_obj|by apply depth_obj]. Qed.
Lemma fits_leaf d j : literals j -> depth j = 0 -> fits d j.
Proof. unfold fits. intros H ->. split; [done|lia]. Qed.
Lemma fits_map {A} (tree : A -> json) d l : (forall x, fits d (tree x)) -> fits (S d) (JArr (map tree l)).
Proof. intros Ht. apply fits_arr, Forall_map, Forall_forall. intros x _. apply Ht. Qed.
Lemma fits_slice {A} (tree : A -> json) d (l : slice A) : (forall x, fits d (tree x)) -> fits (S d) (slice_tree tree l).
Proof. intros Ht. destruct l; [by apply fits_map|by apply fits_leaf]. Qed.

Create HintDb trees discriminated.
#[export] Hint Resolve fits_map fits_slice fits_obj unless_empty_Forall : trees.
#[export] Hint Extern 0 (fits _ (snd _)) => progress cbn [snd] : trees.
#[export] Hint Extern 5 (fits _ _) => (by apply fits_leaf) : trees.
#[export] Hint Extern 1 (Forall _ (_ :: _)) => constructor : trees.
#[export] Hint Extern 1 (Forall _ []) => constructor : trees.
#[export] Hint Extern 1 (Forall _ (_ ++ _)) => apply Forall_app_2 : trees.

(** Into a [map[string]any]: [null] makes it nil, members are added to what an
    earlier member of the same name has left. *)
Definition into_map `{FloatText} {A} (get : A -> option object) (set : option object -> A -> A) : setter A :=
  fun j a =>
  match j with
  | JNull => Some (set None a)
  | JObj ms =>
      ms ← mapM (fun '(k, x) => (fun v => (k, v)) <$> value_of x) ms;
      Some (set (Some (read_members (default ∅ (get a)) ms)) a)
  | _ => None
  end.

(** ** Streams and texts *)

Section decode.
Context `{JsonErrors} {A : Type} (set : setter A).

(** [Decoder.Decode] of a stream that begins with [s]: its first value. *)
Definition Decode (a : A) (s : string) : result A :=
  match (parse s ≫= fun '(j, _) => set j a) with
  | Some a => Ok a
  | None => Err (decode_error s)
  end.

(** [json.Unmarshal]: one value, and nothing but white space after it. *)
Definition Unmarshal (a : A) (s : string) : result A :=
  match ('(j, rest) ← parse s; if skip_ws rest =s "" then set j a else None) with
  | Some a => Ok a
  | None => Err (decode_error s)
  end.

(** A tree that was written is decoded as its round trip. *)
Lemma Decode_print ms rest a a' :
  literals (JObj ms) -> depth (JObj ms) <= max_depth -> set (json_tree (JObj ms)) a = Some a' ->
  Decode a (print (JObj ms) +:+ rest) = Ok a'.
Proof.
  intros Hl Hd Hs. unfold Decode, parse. rewrite parse_value_print by done. cbn [mbind option_bind].
  by rewrite Hs.
Qed.

Lemma Unmarshal_print ms a a' :
  literals (JObj ms) -> depth (JObj ms) <= max_depth -> set (json_tree (JObj ms)) a = Some a' ->
  Unmarshal a (print (JObj ms)) = Ok a'.
Proof.
  intros Hl Hd Hs. unfold Unmarshal, parse. rewrite <- (str_app_nil_r (print _)), parse_value_print by done.
  cbn [mbind option_bind skip_ws String.eqb]. by rewrite Hs.
Qed.

Lemma Unmarshal_indent ms tail a a' :
  literals (JObj ms) -> depth (JObj ms) <= max_depth -> blank tail ->
  set (json_tree (JObj ms)) a = Some a' -> Unmarshal a (print_indent (JObj ms) +:+ tail) = Ok a'.
Proof.
  intros Hl Hd Ht Hs. unfold Unmarshal, parse. rewrite parse_value_indent by done.
  cbn [mbind option_bind]. rewrite <- (str_app_nil_r tail), skip_ws_blank by done.
  cbn [skip_ws String.eqb]. by rewrite Hs.
Qed.
End decode.

Lemma set_field_at {A} (fields : list (field A)) key i name set :
  field_index (map fst fields) key = Some i -> fields !! i = Some (name, set) ->
  forall j a, set_field fields key j a = set j a.
Proof. intros H1 H2 j a. unfold set_field. rewrite H1. cbn. by rewrite H2. Qed.

Lemma set_members_cons {A} (fields : list (field A)) key j ms a :
  set_members fields ((key, j) :: ms) a = a' ← set_field fields key j a; set_members fields ms a'.
Proof.
  unfold set_members. cbn. destruct (set_field fields key j a) as [a'|]; [done|].
  cbn. induction ms as [|[k x] ms IH]; [done|]. exact IH.
Qed.

Lemma set_members_app {A} (fields : list (field A)) l1 l2 a :
  set_members fields (l1 ++ l2) a = a' ← set_members fields l1 a; set_members fields l2 a'.
Proof.
  unfold set_members. rewrite foldl_app. destruct (foldl _ (Some a) l1) as [a'|]; [done|].
  cbn. induction l2 as [|[k j] l2 IH]; [done|]. exact IH.
Qed.

(** A member as the decoder meets it. *)
Definition decoded (m : string * json) : string * json := let '(k, x) := m in (json_string k, json_tree x).

(** A member whose name is that of the [i]-th field. *)
Lemma set_member {A} (fields : list (field A)) i name set x ms a a' :
  field_index (map fst fields) (json_string name) = Some i -> fields !! i = Some (name, set) ->
  set (json_tree x) a = Some a' ->
  set_members fields (map decoded ((name, x) :: ms)) a = set_members fields (map decoded ms) a'.
Proof.
  intros H1 H2 H3. cbn [map decoded]. rewrite set_members_cons, (set_field_at fields _ i name set H1 H2), H3. done.
Qed.

(** A member that [omitempty] may have left out. *)
Lemma set_optional {A} (fields : list (field A)) i name set (empty : bool) x ms a a' :
  field_index (map fst fields) (json_string name) = Some i -> fields !! i = Some (name, set) ->
  (if empty then a = a' else set (json_tree x) a = Some a') ->
  set_members fields (map decoded (unless_empty empty name x ++ ms)) a = set_members fields (map decoded ms) a'.
Proof.
  intros H1 H2 H3. destruct empty; [by subst|]. exact (set_member fields i name set x ms a a' H1 H2 H3).
Qed.

Definition int64 (n : Z) : Prop := (min_int64 <= n <= max_int64)%Z.

Lemma into_int_round_trip {A} (set : Z -> A -> A) n a :
  int64 n -> into_int set (json_tree (JNum (Itoa n))) a = Some (set n a).
Proof. intros Hn. cbn -[ParseInt64]. by rewrite ParseInt64_Itoa. Qed.

(** One member of a literal list. *)
Ltac read_member i :=
  erewrite (set_member _ i); [|vm_compute; reflexivity|reflexivity|first [by apply into_int_round_trip | reflexivity]].
(** One that may have been left out, after which the struct is [a]. *)
Ltac read_optional i a :=
  erewrite (set_optional _ i _ _ _ _ _ _ a); [|vm_compute; reflexivity|reflexivity|].
(** The same for a string, which is left out when it is empty. *)
Ltac read_optional_string i a :=
  read_optional i a;
  [|match goal with |- if String.eqb ?s _ then _ else _ => by destruct (s =s "") eqn:?; str_simpl; subst end].

(** A map that was written, into one that is still empty. *)
Lemma into_map_round_trip `{FloatLaws} {A} (get : A -> option object) set (m : object) a :
  json_encodable (VMap m) = true -> default ∅ (get a) = ∅ ->
  into_map get set (json_tree (tree_of (VMap m))) a = Some (set (Some (json_object (json_value <$> m))) a).
Proof.
  intros He Hg. pose proof (value_round_trip (VMap m) He) as Hv.
  cbn [tree_of json_tree value_of json_value] in *. unfold into_map. rewrite Hg.
  destruct (mapM _ _) as [ms|]; [|done]. cbn in Hv. by injection Hv as <-.
Qed.
