(* ===== verification/JsonValid.v ===== *)
(** * encoding/json: what was read once

    Strings that a decoder has returned are valid UTF-8, so that writing and
    reading them again changes nothing: [json_string] is idempotent, and a tree
    that was parsed is one that [json_tree] keeps, no deeper than the decoder
    follows, and so is a value that was decoded. *)

From S2P Require Import Prelude GoStrings GoSort GoValue Utf8 JsonText Json.

(** ** Strings *)

(** The string is the same after a round trip. *)
Definition valid (s : string) : Prop := json_string s = s.

Lemma runes_fuel_enough n m s :
  String.length s <= n -> String.length s <= m -> runes_fuel n s = runes_fuel m s.
Proof.
  revert m s. induction n as [|n IH]; intros [|m] [|c s] Hn Hm; cbn in Hn, Hm; try lia; try done.
  cbn [runes_fuel]. pose proof (decode_rune_width c s) as Hw. destruct (decode_rune (String c s)) as [r w].
  cbn in Hw. f_equal. apply IH; rewrite str_drop_length; cbn; lia.
Qed.

Lemma runes_cons c s :
  runes (String c s) = let '(r, w) := decode_rune (String c s) in
                       (r, str_take w (String c s)) :: runes (str_drop w (String c s)).
Proof.
  unfold runes. cbn [String.length runes_fuel].
  pose proof (decode_rune_width c s) as Hw. destruct (decode_rune (String c s)) as [r w]. cbn in Hw. f_equal.
  apply runes_fuel_enough; rewrite str_drop_length; cbn; lia.
Qed.

Lemma encode_nonempty r : exists c s, encode_rune r = String c s.
Proof. unfold encode_rune. repeat case_match; eauto. Qed.

(** A rune, whichever, goes through; surrogates are U+FFFD from the start. *)
Lemma json_string_rune r t : json_string (encode_rune r +:+ t) = encode_rune r +:+ json_string t.
Proof.
  rewrite <- encode_sanitized. pose proof (sanitized_scalar r) as Hr. set (q := sanitized r) in *.
  pose proof (decode_encode q t Hr) as Hd. pose proof (str_drop_app (encode_rune q) t) as Hdrop.
  destruct (encode_nonempty q) as (c & u & E). rewrite E in *. rewrite str_app_cons in *.
  unfold json_string. rewrite runes_cons, Hd. cbn [foldr fst]. by rewrite Hdrop, E, str_app_cons.
Qed.

Lemma valid_rune r t : valid t -> valid (encode_rune r +:+ t).
Proof. unfold valid. intros Ht. by rewrite json_string_rune, Ht. Qed.

Lemma encode_ascii c : (byte_n c < 128)%N -> encode_rune (byte_n c) = String c "".
Proof. by destruct c as [[] [] [] [] [] [] [] []]. Qed.
Lemma valid_char c t : (byte_n c < 128)%N -> valid t -> valid (String c t).
Proof. intros Hc Ht. pose proof (valid_rune (byte_n c) t Ht) as H. by rewrite encode_ascii in H. Qed.

(** What a round trip returns is valid. *)
Lemma json_string_valid s : valid (json_string s).
Proof. unfold json_string. induction (runes s) as [|rb l IH]; [done|]. by apply valid_rune. Qed.

Lemma json_string_nonempty s : s <> "" -> json_string s <> "".
Proof.
  destruct s as [|c s]; [done|]. intros _. unfold json_string. rewrite runes_cons.
  destruct (decode_rune (String c s)) as [r w]. cbn [foldr fst].
  destruct (encode_nonempty r) as (c' & u & ->). by rewrite str_app_cons.
Qed.

Lemma simple_escape_ascii e e' : simple_escape e = Some e' -> (byte_n e' < 128)%N.
Proof. by destruct e as [[] [] [] [] [] [] [] []]; intros [= <-]. Qed.

Lemma unquote_valid n s x r : unquote n s = Some (x, r) -> valid x.
Proof.
  assert (forall w o x r, prepend w o = Some (x, r) -> exists x', o = Some (x', r) /\ x = w +:+ x') as Hp.
  { intros w o x1 r1 ([x' r'] & -> & [= <- <-])%bind_Some. eauto. }
  revert s x r. induction n as [|n IH]; intros [|c s] x r; try done. cbn [unquote].
  destruct (Ascii.eqb c dq); [by intros [= <- _]|]. destruct (Ascii.eqb c bs).
  - destruct s as [|e s]; [done|]. destruct (Ascii.eqb e "u").
    + intros ([rr r1] & _ & H)%bind_Some. revert H.
      destruct (is_surrogate rr); [destruct (low_half rr r1) as [[dec r2]|]|];
        intros (x' & H & ->)%Hp; eapply valid_rune, IH, H.
    + intros (e' & He%simple_escape_ascii & (x' & H & ->)%Hp)%bind_Some. by eapply valid_char, IH, H.
  - destruct (N.ltb _ 32); [done|]. destruct (N.ltb_spec (byte_n c) 128) as [Hc|_].
    { intros (x' & H & ->)%Hp. by eapply valid_char, IH, H. }
    destruct (decode_rune (String c s)) as [rr k]. intros (x' & H & ->)%Hp. eapply valid_rune, IH, H.
Qed.

(** ** Trees *)

(** A tree that another round trip keeps, at most [d] deep. *)
Definition settled (d : nat) (j : json) : Prop := json_tree j = j /\ depth j <= d.

Lemma settled_arr d l : Forall (settled d) l -> settled (S d) (JArr l).
Proof.
  intros [H1 H2]%Forall_and. split; [|by apply depth_arr]. cbn [json_tree]. f_equal.
  induction H1 as [|x l Hx _ IH]; [done|]. cbn. inv H2. by rewrite Hx, IH.
Qed.
Lemma settled_obj d ms : Forall (fun m => valid m.1 /\ settled d m.2) ms -> settled (S d) (JObj ms).
Proof.
  intros [H1 [H2 H3]%Forall_and]%Forall_and. split; [|by apply depth_obj]. cbn [json_tree]. f_equal.
  clear H3. induction ms as [|[k x] ms IH]; [done|]. inv H1. inv H2. cbn in *. rewrite IH by done. by f_equal; f_equal.
Qed.

(** What is true of all items that are read is true of the list. *)
Definition returns {A} (P : A -> Prop) (item : string -> option (A * string)) : Prop :=
  forall s x r, item s = Some (x, r) -> P x.

Lemma parse_items_returns {A} (P : A -> Prop) item close n :
  returns P item -> returns (Forall P) (parse_items item close n).
Proof.
  intros Hitem. induction n as [|n IH]; intros s l r; [done|]. cbn [parse_items].
  intros ([x s1] & E%Hitem & H)%bind_Some. destruct (skip_ws s1) as [|c s2]; [done|].
  destruct (Ascii.eqb c ",").
  - apply bind_Some in H as ([xs s3] & H%IH & [= <- _]). by constructor.
  - destruct (Ascii.eqb c close); [|done]. injection H as <- _. by repeat constructor.
Qed.
Lemma parse_list_returns {A} (P : A -> Prop) item close :
  returns P item -> returns (Forall P) (parse_list item close).
Proof.
  intros Hitem s l r. unfold parse_list. destruct (skip_ws s) as [|c s1]; [done|].
  destruct (Ascii.eqb c close); [by intros [= <- _]|]. by apply parse_items_returns.
Qed.
Lemma parse_member_returns {A} (P : A -> Prop) item :
  returns P item -> returns (fun m => valid m.1 /\ P m.2) (parse_member item).
Proof.
  intros Hitem s x r. unfold parse_member. destruct (skip_ws s) as [|c s1]; [done|].
  destruct (Ascii.eqb c dq); [|done]. intros ([k s2] & E%unquote_valid & H)%bind_Some.
  destruct (skip_ws s2) as [|c2 s3]; [done|]. destruct (Ascii.eqb c2 ":"); [|done].
  apply bind_Some in H as ([v s4] & H%Hitem & [= <- _]). done.
Qed.

(** What a decoder has read is settled: all strings of a parsed tree are valid
    UTF-8, and it is no deeper than the decoder follows. *)
Lemma parse_value_settled d : returns (settled d) (parse_value d).
Proof.
  assert (forall d j, json_tree j = j -> depth j = 0 -> settled d j) as Hleaf
    by (intros ? ? ? Hd; split; [done|by rewrite Hd; lia]).
  induction d as [|d IH]; intros s j r; cbn [parse_value]; destruct (skip_ws s) as [|c s1]; try done;
    (destruct (Ascii.eqb c dq);
      [intros ([t r1] & E%unquote_valid & [= <- _])%bind_Some; apply Hleaf; [cbn; by rewrite E|done]|]).
  - repeat (destruct (Ascii.eqb c _); [try done; intros (r1 & _ & [= <- _])%bind_Some; by apply Hleaf|]).
    intros ([t r1] & _ & [= <- _])%bind_Some. by apply Hleaf.
  - destruct (Ascii.eqb c "{").
    { intros ([ms r1] & E & [= <- _])%bind_Some. apply settled_obj.
      by eapply parse_list_returns in E; [|apply parse_member_returns, IH]. }
    destruct (Ascii.eqb c "[").
    { intros ([l r1] & E & [= <- _])%bind_Some. apply settled_arr. by eapply parse_list_returns in E. }
    repeat (destruct (Ascii.eqb c _); [intros (r1 & _ & [= <- _])%bind_Some; by apply Hleaf|]).
    intros ([t r1] & _ & [= <- _])%bind_Some. by apply Hleaf.
Qed.

(** ** Maps *)

Section maps.
Context {A : Type}.

Lemma read_members_Forall (P : string -> A -> Prop) ms m :
  map_Forall P m -> Forall (fun kv => P kv.1 kv.2) ms -> map_Forall P (read_members m ms).
Proof.
  intros Hm Hms. revert m Hm. induction Hms as [|[k v] ms Hkv _ IH]; intros m Hm; [done|].
  apply IH. by apply map_Forall_insert_2.
Qed.

Lemma read_members_other ms (m : gmap string A) k : k ∉ map fst ms -> read_members m ms !! k = m !! k.
Proof.
  revert m. induction ms as [|[k' v] ms IH]; intros m Hk; [done|]. cbn in Hk. apply not_elem_of_cons in Hk as [Hne Hk].
  cbn [read_members foldl]. change (foldl _ ?a ms) with (read_members a ms).
  rewrite IH by done. by apply lookup_insert_ne.
Qed.
Lemma read_members_nodup ms (m : gmap string A) k v :
  NoDup (map fst ms) -> (k, v) ∈ ms -> read_members m ms !! k = Some v.
Proof.
  revert m. induction ms as [|[k' v'] ms IH]; intros m Hnd; [by intros ?%elem_of_nil|].
  cbn in Hnd. apply NoDup_cons in Hnd as [Hk Hnd].
  cbn [read_members foldl]. change (foldl _ ?a ms) with (read_members a ms).
  intros [[= -> ->]|H]%elem_of_cons; [|by apply IH].
  rewrite read_members_other by done. apply lookup_insert_eq.
Qed.

Lemma members_keys (m : gmap string A) : map fst (members m) = sorted_keys m.
Proof.
  unfold members. assert (Forall (fun k => is_Some (m !! k)) (sorted_keys m)) as Hin
    by (apply Forall_forall; intros k; apply sorted_keys_elem).
  induction Hin as [|k l [v Hv] _ IH]; [done|]. cbn. by rewrite Hv; cbn; rewrite IH.
Qed.

(** A map is what its members give. *)
Lemma read_members_members (m : gmap string A) : read_members ∅ (members m) = m.
Proof.
  assert (NoDup (map fst (members m))) as Hnd by (rewrite members_keys; apply sorted_keys_nodup).
  apply map_eq. intros k. destruct (m !! k) as [v|] eqn:E.
  - by apply read_members_nodup, members_elem.
  - rewrite read_members_other; [done|]. rewrite members_keys, sorted_keys_elem, E. by intros [].
Qed.

Lemma json_object_valid (m : gmap string A) : map_Forall (fun k _ => valid k) m -> json_object m = m.
Proof.
  intros Hm. rewrite <- (read_members_members m) at 2. unfold json_object. f_equal.
  assert (Forall (fun kv => valid kv.1) (members m)) as Hv by (apply members_Forall; intros k v; apply Hm).
  induction Hv as [|[k v] l Hk _ IH]; [done|]. cbn in *. by rewrite IH, Hk.
Qed.
End maps.

(** ** Values *)

Section values.
Context `{FloatLaws}.

(** A value that a round trip keeps, with a tree at most [d] deep. *)
Definition lasting (d : nat) (v : value) : Prop :=
  json_value v = v /\ json_encodable v = true /\ depth (tree_of v) <= d.

Lemma forallb_Forall {A} (f : A -> bool) l : Forall (fun x => f x = true) l -> forallb f l = true.
Proof. induction 1 as [|x l Hx _ IH]; [done|]. cbn. by rewrite Hx. Qed.

Lemma lasting_slice d l : Forall (lasting d) l -> lasting (S d) (VSlice l).
Proof.
  intros [H1 [H2 H3]%Forall_and]%Forall_and. split_and!.
  - cbn. f_equal. clear -H1. induction H1 as [|v l Hv _ IH]; [done|]. cbn. by rewrite Hv, IH.
  - by apply forallb_Forall.
  - cbn [tree_of]. apply depth_arr. by apply Forall_map.
Qed.

Lemma lasting_map d m : map_Forall (fun k v => valid k /\ lasting d v) m -> lasting (S d) (VMap m).
Proof.
  intros Hm. assert (json_value <$> m = m) as Hv.
  { apply map_eq. intros k. rewrite lookup_fmap. destruct (m !! k) as [v|] eqn:E; [|done].
    cbn. f_equal. by apply (Hm k v E). }
  split_and!.
  - cbn [json_value]. rewrite Hv. f_equal. apply json_object_valid. intros k v E. by apply (Hm k v E).
  - cbn [json_encodable]. apply forallb_Forall, members_Forall. intros k b Hb.
    rewrite lookup_fmap in Hb. destruct (m !! k) as [v|] eqn:E; [|done]. injection Hb as <-.
    by apply (Hm k v E).
  - cbn [tree_of]. apply depth_obj, members_Forall. intros k j Hj.
    rewrite lookup_fmap in Hj. destruct (m !! k) as [v|] eqn:E; [|done]. injection Hj as <-.
    by apply (Hm k v E).
Qed.

Lemma settled_le d j : settled d j -> match j with JArr _ | JObj _ => exists d', d = S d' | _ => True end.
Proof. intros [_ Hd]. destruct j; try done; destruct d; [cbn in Hd; lia|eauto|cbn in Hd; lia|eauto]. Qed.

Lemma settled_arr_inv d l : settled (S d) (JArr l) -> Forall (settled d) l.
Proof.
  intros [[= Hl] Hd%depth_arr]. apply Forall_and. split; [|done]. clear Hd.
  induction l as [|x l IH]; [constructor|]. cbn in Hl. injection Hl as Hx Hl. constructor; auto.
Qed.
Lemma settled_obj_inv d ms : settled (S d) (JObj ms) -> Forall (fun m => valid m.1 /\ settled d m.2) ms.
Proof.
  intros [[= Hl] Hd%depth_obj]. clear -Hl Hd.
  induction ms as [|[k x] ms IH]; [constructor|]. cbn in Hl. injection Hl as Hk Hx Hl. inv Hd.
  constructor; [by split_and!|]. by apply IH.
Qed.

(** What is decoded from settled trees lasts. *)
Lemma mapM_lasting {B} (f : B -> option value) (j : B -> json) d l vs :
  Forall (fun x => forall d v, settled d (j x) -> f x = Some v -> lasting d v) l ->
  Forall (fun x => settled d (j x)) l -> mapM f l = Some vs -> Forall (lasting d) vs.
Proof.
  intros IH Hl Hvs%mapM_Some. revert IH Hl. induction Hvs as [|x v l vs Hv _ IHvs]; [constructor|].
  intros IH Hl. inv IH. inv Hl. constructor; eauto.
Qed.

Lemma members_lasting d ms ms' :
  Forall (fun m => forall d v, settled d m.2 -> value_of m.2 = Some v -> lasting d v) ms ->
  Forall (fun m => valid m.1 /\ settled d m.2) ms ->
  mapM (fun '(k, x) => (fun v => (k, v)) <$> value_of x) ms = Some ms' ->
  Forall (fun kv => valid kv.1 /\ lasting d kv.2) ms'.
Proof.
  intros IH Hms Hms'%mapM_Some. revert IH Hms. induction Hms' as [|[k x] [k' v] ms ms' Hv _ IHms]; [constructor|].
  intros IH Hms. inv IH. inv Hms. destruct (value_of x) as [v'|] eqn:E; [|done]. injection Hv as <- <-.
  constructor; [|by apply IHms]. cbn in *. destruct_and!. split; [done|]. by eauto.
Qed.

Lemma value_of_lasting j : forall d v, settled d j -> value_of j = Some v -> lasting d v.
Proof.
  induction j as [| | | |l IH|ms IH] using json_tree_ind; intros d v Hj Hv; pose proof (settled_le _ _ Hj) as Hd.
  - injection Hv as <-. split_and!; [done..|cbn; lia].
  - injection Hv as <-. split_and!; [done..|cbn; lia].
  - cbn in Hv. destruct (ParseFloat t) as [b|] eqn:E; [|done]. injection Hv as <-.
    split_and!; [done|by eapply parse_finite|cbn; lia].
  - injection Hv as <-. destruct Hj as [[= Hs] _]. split_and!; [cbn; by rewrite Hs|done|cbn; lia].
  - destruct Hd as [d' ->]. apply settled_arr_inv in Hj. cbn in Hv.
    apply fmap_Some in Hv as (vs & Hvs & ->). apply lasting_slice. by eapply (mapM_lasting value_of id).
  - destruct Hd as [d' ->]. apply settled_obj_inv in Hj. cbn in Hv.
    apply fmap_Some in Hv as (ms' & Hms & ->). apply lasting_map, read_members_Forall; [apply map_Forall_empty|].
    by eapply members_lasting.
Qed.
End values.
