(* ===== verification/State.v ===== *)
(** * internal/state: the lifecycle state machine and its file store

    [src/internal/state/state.go]: transition validation, the per-session
    records under [<root>/.omg/state/sessions/<id>/state.json], the atomic write
    (temporary file and rename), stale heartbeats. The file system is a value of
    [FS]; a file either decodes to a [StateRecord] or does not ([CRaw]). *)

From S2P Require Import Prelude GoStrings GoValue GoSort GoPath GoFS JsonText Json.

(** ** Data *)

Definition LifecycleInactive := "inactive".
Definition LifecycleRunning := "running".
Definition LifecycleBlocked := "blocked".
Definition LifecycleAskUser := "ask_user".
Definition LifecycleFinished := "finished".
Definition LifecycleFailed := "failed".
Definition LifecycleCancelled := "cancelled".

Definition BlockedReasonStaleOwner := "stale_owner".
Definition BlockedReasonDaemonRestarted := "daemon_restarted".
Definition BlockedReasonHeartbeatExpired := "heartbeat_expired".

Record OmgErrorSummary := mkSummary {
  es_Class : string;
  es_Domain : string;
  es_Code : string;
  es_Message : string
}.

Record StateRecord := mkState {
  sr_Lifecycle : string;
  sr_Context : string;
  sr_SessionID : string;
  sr_OwnerID : string;
  sr_RequestID : string;
  sr_UpdatedAt : time;
  sr_HeartbeatAt : time;
  sr_BlockedReason : string;
  sr_Error : option OmgErrorSummary;
  sr_Metadata : option object
}.

Record Options := mkOptions { op_HeartbeatTimeout : duration }.

Record TransitionInput := mkInput {
  ti_To : string;
  ti_Context : string;
  ti_OwnerID : string;
  ti_RequestID : string;
  ti_BlockedReason : string;
  ti_Error : option OmgErrorSummary;
  ti_Metadata : option object;
  ti_Now : time
}.

Record Store := mkStore {
  st_root : string;
  st_heartbeatTimeout : duration;
  st_failBeforeRename : option error
}.

Definition NewStore (projectRoot : string) (options : Options) : Store :=
  let t := if (op_HeartbeatTimeout options =? 0)%Z then (120 * Second)%Z
           else op_HeartbeatTimeout options in
  mkStore projectRoot t None.

(** ** The transition relation *)

Definition isTerminal (lifecycle : string) : bool :=
  (lifecycle =s LifecycleFinished) || (lifecycle =s LifecycleFailed)
  || (lifecycle =s LifecycleCancelled).

(** The [allowed] table: a missing key reads as the empty slice. *)
Definition allowed (from : string) : list string :=
  if from =s LifecycleInactive then [LifecycleRunning]
  else if from =s LifecycleRunning then
    [LifecycleBlocked; LifecycleAskUser; LifecycleFinished; LifecycleFailed; LifecycleCancelled]
  else if from =s LifecycleBlocked then [LifecycleRunning; LifecycleFailed; LifecycleCancelled]
  else if from =s LifecycleAskUser then [LifecycleRunning; LifecycleFailed; LifecycleCancelled]
  else [].

Definition validateTransition `{UnicodeTables} (from to : string) : option error :=
  if to =s "" then Some (errorf "target lifecycle is required")
  else if isTerminal from then
    Some (errorf ("terminal lifecycle " +:+ Quote from +:+ " cannot transition to " +:+ Quote to))
  else if existsb (fun candidate => candidate =s to) (allowed from) then None
  else Some (errorf ("illegal transition from " +:+ Quote from +:+ " to " +:+ Quote to)).

(** ** Records on disk *)

(** A state file: JSON that decodes to a record, or other bytes. *)
Inductive content :=
| CRecord (r : StateRecord)
| CRaw (data : string).

Definition json_summary (e : OmgErrorSummary) : OmgErrorSummary :=
  mkSummary (json_string (es_Class e)) (json_string (es_Domain e)) (json_string (es_Code e))
    (json_string (es_Message e)).

(** [omitempty] drops an empty metadata map, which then reads back as nil. *)
Definition json_metadata (m : option object) : option object :=
  match m with
  | Some m => if decide (m = ∅) then None else Some (json_object (json_value <$> m))
  | None => None
  end.

Definition json_record (r : StateRecord) : StateRecord :=
  mkState (json_string (sr_Lifecycle r)) (json_string (sr_Context r)) (json_string (sr_SessionID r))
    (json_string (sr_OwnerID r)) (json_string (sr_RequestID r)) (sr_UpdatedAt r) (sr_HeartbeatAt r)
    (json_string (sr_BlockedReason r)) (json_summary <$> sr_Error r)
    (json_metadata (sr_Metadata r)).

(** [json.MarshalIndent(record)], as what the bytes decode to *)
Definition MarshalRecord (r : StateRecord) : result content :=
  if negb (time_encodable (sr_UpdatedAt r) && time_encodable (sr_HeartbeatAt r)) then
    Err year_error
  else if negb (match sr_Metadata r with Some m => json_encodable (VMap m) | None => true end) then
    Err (errorf "json: unsupported value")
  else Ok (CRecord (json_record r)).

Definition UnmarshalRecord (c : content) : result StateRecord :=
  match c with
  | CRecord r => Ok r
  | CRaw _ => Err (errorf "invalid character in state file")
  end.

(** ** Paths *)

Definition stateDir (s : Store) : string := JoinPath [st_root s; ".omg"; "state"].
Definition sessionDir (s : Store) : string := JoinPath [stateDir s; "sessions"].
Definition sessionPath (s : Store) (sessionID : string) : string :=
  JoinPath [sessionDir s; sessionID; "state.json"].
Definition rootPath (s : Store) : string := JoinPath [stateDir s; "state.json"].

(** ** Reading *)

Definition readRecord (fs : FS content) (path : string) : result StateRecord :=
  data ← ReadFile fs path; UnmarshalRecord data.

Definition Read (fs : FS content) (s : Store) (sessionID : string) : result StateRecord :=
  readRecord fs (sessionPath s sessionID).

Definition ReadEffective (fs : FS content) (s : Store) (sessionID : string) : result StateRecord :=
  if sessionID <>s "" then
    match Read fs s sessionID with
    | Ok record => Ok record
    | Err err => if negb (is_not_exist err) then Err err else readRecord fs (rootPath s)
    end
  else readRecord fs (rootPath s).

(** ** Writing *)

(** What the environment contributes to one write: the wall clock, the process
    id, and the calls that fail. A failing [MkdirAll] has created the first so
    many directories; a failing [WriteFile] has not opened the file, or leaves what
    it had written; a failing [Remove], whose error is dropped, leaves the temporary
    file. *)
Record WriteEnv := mkEnv {
  we_pid : Z;
  we_nano : time;
  we_mkdir_fault : option (error * nat);
  we_write_fault : option (error * option string);
  we_rename_fault : option error;
  we_remove_fault : bool
}.

(** The temporary name: [path.tmp.<pid>.<nanoseconds>] *)
Definition tmp_path (env : WriteEnv) (path : string) : string :=
  path +:+ ".tmp." +:+ Itoa (we_pid env) +:+ "." +:+ Itoa (we_nano env).

(** The primitive steps of one [atomicWrite], the store after it (the
    injected failure is consumed) and the error it returns. *)
Definition atomicWrite (env : WriteEnv) (s : Store) (path : string) (data : content)
    : list (fs_op content) * Store * option error :=
  let dirs := ancestors (Dir path) in
  match we_mkdir_fault env with
  | Some (err, made) => ([OpMkdirAll (take made dirs)], s, Some err)
  | None =>
      let mkdir := OpMkdirAll dirs in
      let tmp := tmp_path env path in
      match we_write_fault env with
      | Some (err, None) => ([mkdir], s, Some err)
      | Some (err, Some partial) =>
          ([mkdir; OpWrite tmp (CRaw ""); OpWrite tmp (CRaw partial)], s, Some err)
      | None =>
          let remove := if we_remove_fault env then [] else [OpRemove tmp] in
          let written := [mkdir; OpWrite tmp (CRaw ""); OpWrite tmp data] in
          match st_failBeforeRename s with
          | Some err =>
              (written ++ remove,
               mkStore (st_root s) (st_heartbeatTimeout s) None, Some err)
          | None =>
              match we_rename_fault env with
              | Some err => (written ++ remove, s, Some err)
              | None => (written ++ [OpRename tmp path], s, None)
              end
          end
      end
  end.

Definition writeRecord (env : WriteEnv) (fs : FS content) (s : Store) (path : string)
    (record : StateRecord) : FS content * Store * option error :=
  match MarshalRecord record with
  | Err err => (fs, s, Some err)
  | Ok data =>
      let '(ops, s', err) := atomicWrite env s path data in
      (apply_ops fs ops, s', err)
  end.

Definition writeSession (env : WriteEnv) (fs : FS content) (s : Store) (sessionID : string)
    (record : StateRecord) : FS content * Store * option error :=
  writeRecord env fs s (sessionPath s sessionID) record.

(** [wall] is what [time.Now().UTC()] reads. *)
Definition WriteRoot (env : WriteEnv) (wall : time) (fs : FS content) (s : Store)
    (record : StateRecord) : FS content * Store * option error :=
  let record := if IsZero (sr_UpdatedAt record) then
      mkState (sr_Lifecycle record) (sr_Context record) (sr_SessionID record) (sr_OwnerID record)
        (sr_RequestID record) wall (sr_HeartbeatAt record) (sr_BlockedReason record)
        (sr_Error record) (sr_Metadata record)
    else record in
  writeRecord env fs s (rootPath s) record.

(** ** Transition *)

Definition or_else (s d : string) : string := if s <>s "" then s else d.

Definition next_record (current : StateRecord) (sessionID : string) (now : time)
    (input : TransitionInput) : StateRecord :=
  mkState (ti_To input)
    (or_else (ti_Context input) (sr_Context current))
    sessionID
    (or_else (ti_OwnerID input) (sr_OwnerID current))
    (or_else (ti_RequestID input) (sr_RequestID current))
    now
    (if ti_To input =s LifecycleRunning then now else sr_HeartbeatAt current)
    (ti_BlockedReason input)
    (ti_Error input)
    (match ti_Metadata input with Some m => Some m | None => sr_Metadata current end).

Definition inactive_record (sessionID : string) : StateRecord :=
  mkState LifecycleInactive "" sessionID "" "" 0 0 "" None None.

(** The record a transition starts from: a session without a file is inactive. *)
Definition current_record (fs : FS content) (s : Store) (sessionID : string) : result StateRecord :=
  match Read fs s sessionID with
  | Ok r => Ok r
  | Err err => if negb (is_not_exist err) then Err err else Ok (inactive_record sessionID)
  end.

(** The read and check half of [Transition]: the record to write. *)
Definition prepare_transition `{UnicodeTables} (wall : time) (fs : FS content) (s : Store)
    (sessionID : string) (input : TransitionInput) : result StateRecord :=
  if sessionID =s "" then Err (errorf "session_id is required")
  else
    let now := if IsZero (ti_Now input) then wall else ti_Now input in
    current ← current_record fs s sessionID;
    match validateTransition (sr_Lifecycle current) (ti_To input) with
    | Some err => Err err
    | None => Ok (next_record current sessionID now input)
    end.

Definition Transition `{UnicodeTables} (env : WriteEnv) (wall : time) (fs : FS content) (s : Store)
    (sessionID : string) (input : TransitionInput) : FS content * Store * result StateRecord :=
  match prepare_transition wall fs s sessionID input with
  | Err err => (fs, s, Err err)
  | Ok next =>
      match writeSession env fs s sessionID next with
      | (fs', s', Some err) => (fs', s', Err err)
      | (fs', s', None) => (fs', s', Ok next)
      end
  end.

(** ** Stale heartbeats *)

Definition is_stale (s : Store) (now : time) (record : StateRecord) : bool :=
  (sr_Lifecycle record =s LifecycleRunning) && negb (IsZero (sr_HeartbeatAt record))
  && negb (Sub now (sr_HeartbeatAt record) <=? st_heartbeatTimeout s)%Z.

Definition mark_stale (now : time) (record : StateRecord) : StateRecord :=
  mkState LifecycleBlocked (sr_Context record) (sr_SessionID record) (sr_OwnerID record)
    (sr_RequestID record) now (sr_HeartbeatAt record) BlockedReasonStaleOwner
    (sr_Error record) (sr_Metadata record).

(** The result is [Ok None] when no session is stale, the record written
    otherwise: one call marks at most one session. *)
Fixpoint mark_loop (env : WriteEnv) (now : time) (fs : FS content) (s : Store)
    (entries : list (string * bool)) : FS content * Store * result (option StateRecord) :=
  match entries with
  | [] => (fs, s, Ok None)
  | (sessionID, isDir) :: rest =>
      if negb isDir then mark_loop env now fs s rest
      else match Read fs s sessionID with
           | Err err => (fs, s, Err err)
           | Ok record =>
               if negb (is_stale s now record) then mark_loop env now fs s rest
               else
                 let record' := mark_stale now record in
                 match writeSession env fs s sessionID record' with
                 | (fs', s', Some err) => (fs', s', Err err)
                 | (fs', s', None) => (fs', s', Ok (Some record'))
                 end
           end
  end.

Definition MarkStaleHeartbeats (env : WriteEnv) (wall : time) (fs : FS content) (s : Store)
    (now : time) : FS content * Store * result (option StateRecord) :=
  let now := if IsZero now then wall else now in
  match ReadDir fs (sessionDir s) with
  | Err err => if is_not_exist err then (fs, s, Ok None) else (fs, s, Err err)
  | Ok entries => mark_loop env now fs s entries
  end.

(** ** Specification

    The life of a session as a relation on lifecycles. *)

Inductive lstep : string -> string -> Prop :=
| L_start : lstep LifecycleInactive LifecycleRunning
| L_block : lstep LifecycleRunning LifecycleBlocked
| L_ask : lstep LifecycleRunning LifecycleAskUser
| L_finish : lstep LifecycleRunning LifecycleFinished
| L_resume from : from ∈ [LifecycleBlocked; LifecycleAskUser] -> lstep from LifecycleRunning
| L_end from to :
    from ∈ [LifecycleRunning; LifecycleBlocked; LifecycleAskUser] ->
    to ∈ [LifecycleFailed; LifecycleCancelled] -> lstep from to.

(** What a session's file says: no file is inactive, an unreadable one is
    nothing. *)
Definition lifecycle_at (fs : FS content) (s : Store) (sessionID : string) : option string :=
  match current_record fs s sessionID with
  | Ok r => Some (sr_Lifecycle r)
  | Err _ => None
  end.

(** The calls a process makes on a store, one after the other. *)
Inductive store_call :=
| CallTransition (env : WriteEnv) (wall : time) (sessionID : string) (input : TransitionInput)
| CallMarkStale (env : WriteEnv) (wall now : time)
| CallWriteRoot (env : WriteEnv) (wall : time) (record : StateRecord)
| CallFailNext (err : error).  (* a test arms [failBeforeRename] *)

Definition run_call `{UnicodeTables} (w : FS content * Store) (c : store_call)
    : FS content * Store :=
  let '(fs, s) := w in
  match c with
  | CallTransition env wall sid input => (Transition env wall fs s sid input).1
  | CallMarkStale env wall now => (MarkStaleHeartbeats env wall fs s now).1
  | CallWriteRoot env wall r => (WriteRoot env wall fs s r).1
  | CallFailNext err => (fs, mkStore (st_root s) (st_heartbeatTimeout s) (Some err))
  end.

Definition plain_call (c : store_call) : Prop :=
  match c with CallTransition _ _ sid _ => plain sid | _ => True end.

(** ** Validation *)

Lemma isTerminal_spec l :
  isTerminal l = true <-> l ∈ [LifecycleFinished; LifecycleFailed; LifecycleCancelled].
Proof.
  unfold isTerminal. rewrite !orb_true_iff, !eqb_true. set_solver.
Qed.

Lemma allowed_step from to : to ∈ allowed from <-> lstep from to.
Proof.
  split.
  - unfold allowed. repeat go_case; str_simpl; subst; intros H;
      in_list_inv; constructor; in_list.
  - inversion 1; subst; in_list_inv; in_list.
Qed.

Lemma lstep_from_inactive to : lstep LifecycleInactive to -> to = LifecycleRunning.
Proof. rewrite <- allowed_step. cbn. set_solver. Qed.

Lemma lstep_not_terminal from to : lstep from to -> isTerminal from = false /\ to <> "".
Proof.
  inversion 1; subst; in_list_inv; done.
Qed.

Lemma validateTransition_None `{UnicodeTables} from to :
  validateTransition from to = None <-> lstep from to.
Proof.
  rewrite <- allowed_step. unfold validateTransition.
  rewrite !guard_none. split.
  - intros (_ & _ & E). destruct (existsb _ _) eqn:Hx; [|done].
    apply existsb_exists in Hx as (c & Hc & E2). str_simpl. subst. by apply list_elem_of_In.
  - intros Hin. pose proof (lstep_not_terminal from to) as Hn. rewrite <- allowed_step in Hn.
    destruct (Hn Hin) as [-> Hto]. apply eqb_false in Hto. split; [done|]. split; [done|].
    replace (existsb _ _) with true; [done|]. symmetry. apply existsb_exists.
    exists to. rewrite String.eqb_refl. by rewrite <- list_elem_of_In.
Qed.

Lemma terminal_rtc l l' : rtc lstep l l' -> isTerminal l = true -> l' = l.
Proof.
  induction 1 as [|x y z Hs _ IH]; [done|]. intros Ht.
  apply lstep_not_terminal in Hs as [Hn _]. congruence.
Qed.

(** ** Paths *)

Lemma plain_omg : plain ".omg". Proof. by apply (bool_decide_unpack _). Qed.
Lemma plain_state : plain "state". Proof. by apply (bool_decide_unpack _). Qed.
Lemma plain_sessions : plain "sessions". Proof. by apply (bool_decide_unpack _). Qed.
Lemma plain_state_json : plain "state.json". Proof. by apply (bool_decide_unpack _). Qed.
#[local] Hint Resolve plain_omg plain_state plain_sessions plain_state_json : core.

Lemma stateDir_joined s : joined (stateDir s).
Proof. apply joined_intro; [by rewrite !Forall_cons, Forall_nil | done]. Qed.

Lemma sessionDir_eq s :
  sessionDir s = stateDir s +:+ "/sessions" /\ joined (sessionDir s).
Proof.
  apply (joined_join (stateDir s) ["sessions"]); [apply stateDir_joined | by rewrite Forall_singleton | done].
Qed.

Lemma rootPath_eq s : rootPath s = stateDir s +:+ "/state.json".
Proof.
  apply (joined_join (stateDir s) ["state.json"]); [apply stateDir_joined | by rewrite Forall_singleton | done].
Qed.

Lemma sessionPath_eq s sid :
  plain sid -> sessionPath s sid = stateDir s +:+ "/sessions/" +:+ sid +:+ "/state.json".
Proof.
  intros H. destruct (sessionDir_eq s) as [E Hj]. unfold sessionPath.
  destruct (joined_join _ [sid; "state.json"] Hj) as [-> _]; [by rewrite ?Forall_cons, Forall_nil | done|].
  by rewrite E, str_app_assoc.
Qed.

Lemma Dir_rootPath s : Dir (rootPath s) = stateDir s.
Proof. rewrite rootPath_eq. apply (joined_Dir _ "state.json"); [apply stateDir_joined | done]. Qed.

Lemma Dir_sessionPath s sid :
  plain sid -> Dir (sessionPath s sid) = stateDir s +:+ "/sessions/" +:+ sid.
Proof.
  intros H. rewrite sessionPath_eq by done. destruct (sessionDir_eq s) as [E Hj].
  destruct (joined_join _ [sid] Hj) as [E2 Hj2]; [by rewrite ?Forall_cons, Forall_nil | done|].
  assert (E3 : stateDir s +:+ "/sessions/" +:+ sid = JoinPath [sessionDir s; sid])
    by (rewrite E2, E, str_app_assoc; done).
  replace (stateDir s +:+ "/sessions/" +:+ sid +:+ "/state.json")
    with (JoinPath [sessionDir s; sid] +:+ "/" +:+ "state.json")
    by (rewrite <- E3, !str_app_assoc; done).
  by rewrite joined_Dir.
Qed.

(** A component without a slash is determined by what follows the next slash. *)
Lemma plain_cut a b r1 r2 :
  plain a -> plain b -> a +:+ "/" +:+ r1 = b +:+ "/" +:+ r2 -> a = b /\ r1 = r2.
Proof.
  intros (_ & _ & _ & Ha) (_ & _ & _ & Hb) E.
  assert (cut_byte slash (a +:+ String slash r1) = cut_byte slash (b +:+ String slash r2)) as Hc
    by (f_equal; exact E).
  rewrite !cut_byte_app in Hc by done. by simplify_eq.
Qed.

Lemma sessionPath_inj s a b :
  plain a -> plain b -> sessionPath s a = sessionPath s b -> a = b.
Proof.
  intros Ha Hb. rewrite !sessionPath_eq by done. intros E.
  apply str_app_inj_l, (str_app_inj_l "/sessions/") in E.
  by apply (plain_cut a b "state.json" "state.json") in E as [-> _].
Qed.

Lemma tmp_path_ne env path : tmp_path env path <> path.
Proof.
  unfold tmp_path. intros E. rewrite <- (str_app_nil_r path) in E at 2.
  apply str_app_inj_l in E. done.
Qed.

(** No write to a session's file, nor to the root record, touches another
    session's file: neither the target nor the temporary file, nor a directory
    in its place. *)
Definition apart (target q : string) : Prop :=
  q <> target /\ (forall env, q <> tmp_path env target) /\ q ∉ ancestors (Dir target).

Lemma sessionPath_apart s a b :
  plain a -> plain b -> a <> b -> apart (sessionPath s a) (sessionPath s b).
Proof.
  intros Ha Hb Hne. split; [|split].
  - intros E. apply sessionPath_inj in E; auto.
  - intros env. unfold tmp_path. rewrite !sessionPath_eq by done.
    rewrite !str_app_assoc. intros E. apply str_app_inj_l, (str_app_inj_l "/sessions/") in E.
    apply (plain_cut b a "state.json" ("state.json" +:+ _)) in E as [-> _]; done.
  - rewrite Dir_sessionPath, sessionPath_eq by done.
    intros [r E]%ancestors_prefix. rewrite !str_app_assoc in E.
    apply str_app_inj_l, (str_app_inj_l "/sessions/") in E.
    destruct Ha as (_ & _ & _ & Ha). apply not_true_iff_false in Ha. apply Ha.
    apply Contains_spec. exists b, ("state.json" +:+ r). by rewrite E.
Qed.

Lemma sessionPath_self_dir s a : plain a -> sessionPath s a ∉ ancestors (Dir (sessionPath s a)).
Proof.
  intros Ha. rewrite Dir_sessionPath, sessionPath_eq by done.
  intros [r E]%ancestors_prefix. rewrite !str_app_assoc in E.
  apply str_app_inj_l, (str_app_inj_l "/sessions/") in E.
  rewrite <- (str_app_nil_r a) in E at 1. by apply str_app_inj_l in E.
Qed.

Lemma rootPath_apart s a : plain a -> apart (rootPath s) (sessionPath s a).
Proof.
  intros Ha. unfold apart, tmp_path. rewrite Dir_rootPath, rootPath_eq, sessionPath_eq by done.
  split; [|split].
  - intros E%str_app_inj_l. done.
  - intros env E. rewrite str_app_assoc in E. apply str_app_inj_l in E. done.
  - intros [r E]%ancestors_prefix. rewrite <- (str_app_nil_r (stateDir s)), !str_app_assoc in E at 1.
    by apply str_app_inj_l in E.
Qed.

(** ** Atomic writes *)

Lemma elem_of_take {A} (x : A) n l : x ∈ take n l -> x ∈ l.
Proof. intros H. rewrite <- (take_drop n l). apply elem_of_app. by left. Qed.

(** The steps of an atomic write: everything before the rename leaves the target
    alone, and the rename is there exactly when the call succeeds. *)
Lemma atomicWrite_shape env s path data ops s' err :
  atomicWrite env s path data = (ops, s', err) -> path ∉ ancestors (Dir path) ->
  exists pre, Forall (avoids path) pre /\
    match err with
    | Some _ => ops = pre
    | None => ops = pre ++ [OpRename (tmp_path env path) path] /\
        (forall fs, fs_files (apply_ops fs pre) !! tmp_path env path = Some data)
    end.
Proof.
  intros H Hd. pose proof (tmp_path_ne env path) as Ht. unfold atomicWrite in H.
  destruct (we_mkdir_fault env) as [[e made]|].
  { injection H as <- <- <-. eexists; split; [|done]. rewrite Forall_singleton.
    simpl. by intros ?%elem_of_take. }
  destruct (we_write_fault env) as [[e [partial|]]|].
  1-2: injection H as <- <- <-; eexists; split; [|done]; by rewrite !Forall_cons, Forall_nil.
  destruct (st_failBeforeRename s) as [e|].
  { injection H as <- <- <-. eexists; split; [|done].
    destruct (we_remove_fault env); cbn [app]; by rewrite !Forall_cons, Forall_nil. }
  destruct (we_rename_fault env) as [e|]; injection H as <- <- <-.
  - eexists; split; [|done]. destruct (we_remove_fault env); cbn [app]; by rewrite !Forall_cons, Forall_nil.
  - eexists [_; _; _]. split; [|split; [reflexivity|]]; [by rewrite !Forall_cons, Forall_nil|].
    intros fs. simpl. by rewrite lookup_insert_eq.
Qed.

Lemma atomicWrite_avoids env s path data ops s' err q :
  atomicWrite env s path data = (ops, s', err) -> apart path q -> Forall (avoids q) ops.
Proof.
  intros H (Hq & Ht & Hd). specialize (Ht env). unfold atomicWrite in H.
  assert (forall n, q ∉ take n (ancestors (Dir path))) by (by intros n ?%elem_of_take).
  repeat go_case_in H; injection H as <- <- <-; simpl;
    rewrite ?Forall_cons, Forall_nil; simpl; auto 10.
Qed.

Lemma atomicWrite_root env s path data ops s' err :
  atomicWrite env s path data = (ops, s', err) -> st_root s' = st_root s.
Proof. unfold atomicWrite. intros H. repeat go_case_in H; by injection H as <- <- <-. Qed.

(** C7: an atomic write is all or nothing at every point where the process can
    die: after any number of its primitive steps a reader of the state file sees
    the old contents, or, once a successful write has finished, the new ones. A
    write that returns an error has left the old contents. *)
Theorem atomicWrite_crash_safe env s path data ops s' err fs n :
  atomicWrite env s path data = (ops, s', err) ->
  path ∉ ancestors (Dir path) ->
  ReadFile (apply_ops fs (take n ops)) path =
    match err with
    | None => if (length ops <=? n)%nat then Ok data else ReadFile fs path
    | Some _ => ReadFile fs path
    end.
Proof.
  intros H Hd. destruct (atomicWrite_shape _ _ _ _ _ _ _ H Hd) as (pre & Hpre & Hshape).
  assert (Htake : forall m, ReadFile (apply_ops fs (take m pre)) path = ReadFile fs path).
  { intros m. apply apply_ops_avoids. by apply Forall_take. }
  destruct err; [by rewrite Hshape|]. destruct Hshape as [-> Htmp].
  rewrite length_app. simpl. destruct (_ <=? n)%nat eqn:E.
  - apply Nat.leb_le in E. rewrite take_ge by (rewrite length_app; simpl; lia).
    rewrite apply_ops_app. simpl. by apply ReadFile_rename.
  - apply Nat.leb_gt in E. rewrite take_app_le by lia. apply Htake.
Qed.

Lemma writeRecord_effect env fs s path r fs' s' err :
  writeRecord env fs s path r = (fs', s', err) ->
  st_root s' = st_root s /\
  (forall q, apart path q -> ReadFile fs' q = ReadFile fs q) /\
  (path ∉ ancestors (Dir path) ->
   ReadFile fs' path = match err with None => Ok (CRecord (json_record r)) | Some _ => ReadFile fs path end).
Proof.
  unfold writeRecord, MarshalRecord.
  destruct (negb (_ && _)); [by intros [= <- <- <-]|].
  destruct (negb _); [by intros [= <- <- <-]|].
  destruct (atomicWrite env s path (CRecord (json_record r))) as [[ops s1] err1] eqn:E.
  intros [= <- <- <-]. split; [by eapply atomicWrite_root|]. split.
  - intros q Hq. apply apply_ops_avoids. by eapply atomicWrite_avoids.
  - intros Hd. destruct (atomicWrite_shape _ _ _ _ _ _ _ E Hd) as (pre & Hpre & Hshape).
    destruct err1; [subst; by apply apply_ops_avoids|]. destruct Hshape as [-> Htmp].
    rewrite apply_ops_app. simpl. by apply ReadFile_rename.
Qed.

(** ** Sequences of calls *)

Lemma lifecycle_at_ReadFile fs fs' s s' sid :
  st_root s' = st_root s -> ReadFile fs' (sessionPath s sid) = ReadFile fs (sessionPath s sid) ->
  lifecycle_at fs' s' sid = lifecycle_at fs s sid.
Proof.
  intros Hr HR. unfold lifecycle_at, current_record, Read, readRecord.
  replace (sessionPath s' sid) with (sessionPath s sid); [by rewrite HR|].
  unfold sessionPath, sessionDir, stateDir. by rewrite Hr.
Qed.

Lemma lifecycle_at_record fs s s' sid r :
  st_root s' = st_root s -> ReadFile fs (sessionPath s sid) = Ok (CRecord r) ->
  lifecycle_at fs s' sid = Some (sr_Lifecycle r).
Proof.
  intros Hr HR. unfold lifecycle_at, current_record, Read, readRecord.
  replace (sessionPath s' sid) with (sessionPath s sid); [by rewrite HR|].
  unfold sessionPath, sessionDir, stateDir. by rewrite Hr.
Qed.

Lemma json_string_lstep from to : lstep from to -> json_string to = to.
Proof. inversion 1; subst; in_list_inv; reflexivity. Qed.

(** A write to one session moves that session and no other. *)
Lemma writeSession_step env fs s sid r fs' s' err sid' l :
  writeSession env fs s sid r = (fs', s', err) -> plain sid -> plain sid' ->
  lifecycle_at fs s sid' = Some l ->
  (sid' = sid -> lstep l (sr_Lifecycle r)) ->
  st_root s' = st_root s /\
  exists l', lifecycle_at fs' s' sid' = Some l' /\ rtc lstep l l'.
Proof.
  intros H Hp Hp' Hl Hstep. unfold writeSession in H.
  destruct (writeRecord_effect _ _ _ _ _ _ _ _ H) as (Hroot & Hframe & Hself).
  split; [done|]. destruct (decide (sid' = sid)) as [->|Hne].
  - specialize (Hself (sessionPath_self_dir s sid Hp)). specialize (Hstep eq_refl).
    destruct err.
    + exists l. split; [|done]. by rewrite (lifecycle_at_ReadFile fs fs' s s').
    + exists (sr_Lifecycle r). split; [|by apply rtc_once].
      rewrite (lifecycle_at_record _ s s' sid _ Hroot Hself). simpl.
      by rewrite (json_string_lstep _ _ Hstep).
  - exists l. split; [|done]. rewrite (lifecycle_at_ReadFile fs fs' s s'); [done..|].
    by apply Hframe, sessionPath_apart.
Qed.

Lemma prepare_transition_ok `{UnicodeTables} wall fs s sid input next :
  prepare_transition wall fs s sid input = Ok next ->
  sid <> "" /\ exists current, current_record fs s sid = Ok current /\
    lstep (sr_Lifecycle current) (ti_To input) /\
    next = next_record current sid (if IsZero (ti_Now input) then wall else ti_Now input) input.
Proof.
  unfold prepare_transition. destruct (sid =s "") eqn:E; [done|]. str_simpl.
  destruct (current_record fs s sid) as [current|] eqn:Ec; simpl; [|done].
  destruct (validateTransition _ _) eqn:Ev; [done|]. intros [= <-].
  apply validateTransition_None in Ev. split; [done|]. by exists current.
Qed.

Lemma mark_loop_step env now fs s entries sid l :
  (forall n, (n, true) ∈ entries -> plain n) -> plain sid ->
  lifecycle_at fs s sid = Some l ->
  st_root (mark_loop env now fs s entries).1.2 = st_root s /\
  exists l', lifecycle_at (mark_loop env now fs s entries).1.1
    (mark_loop env now fs s entries).1.2 sid = Some l' /\ rtc lstep l l'.
Proof.
  intros Hn Hp Hl.
  induction entries as [|[n isDir] rest IH]; simpl; [eauto using rtc_refl|].
  assert (IH' := IH (fun m Hm => Hn m (list_elem_of_further _ _ _ Hm))). clear IH.
  destruct isDir; simpl; [|done].
  destruct (Read fs s n) as [record|] eqn:ER; [|eauto using rtc_refl].
  destruct (is_stale s now record) eqn:Est; simpl; [|done].
  destruct (writeSession env fs s n (mark_stale now record)) as [[fs1 s1] err1] eqn:EW.
  eapply (writeSession_step _ _ _ _ _ _ _ _ sid l) in EW as (Hr & l' & Hl' & Hs);
    [|apply Hn; left|done..|].
  - destruct err1; simpl; eauto.
  - intros ->. unfold lifecycle_at, current_record in Hl. rewrite ER in Hl. simplify_eq.
    unfold is_stale in Est. str_simpl. rewrite H. simpl. apply L_block.
Qed.

Lemma run_call_step `{UnicodeTables} fs s c sid l :
  plain_call c -> plain sid -> lifecycle_at fs s sid = Some l ->
  st_root (run_call (fs, s) c).2 = st_root s /\
  exists l', lifecycle_at (run_call (fs, s) c).1 (run_call (fs, s) c).2 sid = Some l' /\
    rtc lstep l l'.
Proof.
  intros Hc Hp Hl. destruct c as [env wall sid' input|env wall now|env wall r|err]; simpl in *.
  - unfold Transition. destruct (prepare_transition _ _ _ _ _) as [next|] eqn:E;
      [|eauto using rtc_refl].
    apply prepare_transition_ok in E as (_ & cur & Hcur & Hstep & ->).
    destruct (writeSession _ _ _ _ _) as [[fs1 s1] err1] eqn:EW.
    eapply (writeSession_step _ _ _ _ _ _ _ _ sid l) in EW as (Hr & l' & Hl' & Hs); [|done..|].
    + destruct err1; simpl; eauto.
    + intros ->. unfold lifecycle_at in Hl. rewrite Hcur in Hl. by simplify_eq.
  - unfold MarkStaleHeartbeats.
    destruct (ReadDir fs (sessionDir s)) as [entries|err] eqn:E.
    + apply mark_loop_step; [|done..]. intros n. by apply (ReadDir_plain fs (sessionDir s)).
    + destruct (is_not_exist err); simpl; eauto using rtc_refl.
  - unfold WriteRoot. destruct (writeRecord _ _ _ _ _) as [[fs1 s1] err1] eqn:EW.
    apply writeRecord_effect in EW as (Hr & Hframe & _). simpl. split; [done|].
    exists l. split; [|done]. rewrite (lifecycle_at_ReadFile fs fs1 s s1); [done..|].
    by apply Hframe, rootPath_apart.
  - split; [done|]. exists l. split; [|done]. by rewrite (lifecycle_at_ReadFile fs fs s _).
Qed.

(** [validateTransition] accepts exactly the edges of the lifecycle graph,
    and no edge leaves a terminal lifecycle. *)
Theorem validateTransition_spec `{UnicodeTables} from to :
  (validateTransition from to = None <-> lstep from to) /\
  (lstep from to -> isTerminal from = false).
Proof. split; [apply validateTransition_None|]. intros ?%lstep_not_terminal. naive_solver. Qed.

(** C1: whatever sequence of calls a process makes on a store, one after the other,
    (transitions of any sessions, stale-heartbeat sweeps, root records), whatever
    the clock says and whichever writes fail, the lifecycle a session's file shows
    only ever moves along the lifecycle graph; once terminal, it stays. The ids of
    the sessions are plain file names. Both conditions are needed: two overlapping
    calls can replace a terminal lifecycle ([concurrent_transitions_lose_terminal]),
    and an id that is a path can name another session's file ([sessionPath_aliasing]). *)
Theorem session_history `{UnicodeTables} fs s calls sid l :
  Forall plain_call calls -> plain sid -> lifecycle_at fs s sid = Some l ->
  let '(fs', s') := foldl run_call (fs, s) calls in
  exists l', lifecycle_at fs' s' sid = Some l' /\ rtc lstep l l' /\
    (isTerminal l = true -> l' = l).
Proof.
  intros Hc Hp. revert fs s l. induction Hc as [|c calls Hc _ IH]; intros fs s l Hl;
    cbn [foldl].
  - exists l. eauto using rtc_refl.
  - destruct (run_call_step fs s c sid l Hc Hp Hl) as (_ & l1 & Hl1 & H1).
    destruct (run_call (fs, s) c) as [fs1 s1]. simpl in *.
    specialize (IH fs1 s1 l1 Hl1).
    destruct (foldl run_call (fs1, s1) calls) as [fs' s'].
    destruct IH as (l' & Hl' & H2 & _). exists l'. split; [done|].
    assert (rtc lstep l l') by (transitivity l1; done).
    split; [done|]. by apply terminal_rtc.
Qed.

(** A write that nothing disturbs. *)
Definition no_fault (env : WriteEnv) (s : Store) : Prop :=
  we_mkdir_fault env = None /\ we_write_fault env = None /\ we_rename_fault env = None /\
  st_failBeforeRename s = None.

Lemma writeRecord_ok env fs s path r :
  no_fault env s -> ((writeRecord env fs s path r).2 = None <-> is_ok (MarshalRecord r) = true).
Proof.
  intros (E1 & E2 & E3 & E4). unfold writeRecord, atomicWrite. rewrite E1, E2, E3, E4.
  by destruct (MarshalRecord r).
Qed.

(** What one [Transition] does to the session's file. *)
Lemma Transition_effect `{UnicodeTables} env wall fs s sid input fs' s' r :
  plain sid -> Transition env wall fs s sid input = (fs', s', r) ->
  st_root s' = st_root s /\
  match r with
  | Ok next =>
      (exists current, current_record fs s sid = Ok current /\
         lstep (sr_Lifecycle current) (ti_To input) /\
         next = next_record current sid (if IsZero (ti_Now input) then wall else ti_Now input) input) /\
      Read fs' s sid = Ok (json_record next)
  | Err _ => ReadFile fs' (sessionPath s sid) = ReadFile fs (sessionPath s sid)
  end.
Proof.
  intros Hp. unfold Transition.
  destruct (prepare_transition wall fs s sid input) as [next|err] eqn:E; [|by intros [= <- <- <-]].
  apply prepare_transition_ok in E as (_ & cur & Hcur & Hstep & Hnext).
  destruct (writeSession env fs s sid next) as [[fs1 s1] err1] eqn:EW.
  destruct (writeRecord_effect _ _ _ _ _ _ _ _ EW) as (Hr & _ & Hself).
  specialize (Hself (sessionPath_self_dir s sid Hp)).
  destruct err1; intros [= <- <- <-]; (split; [done|]); [done|].
  split; [by exists cur|]. unfold Read, readRecord. by rewrite Hself.
Qed.

(** Without disturbance only the session's name, the edge and the encoding of the
    successor can make a transition fail. *)
Lemma Transition_succeeds `{UnicodeTables} env wall fs s sid input :
  no_fault env s ->
  (is_ok (Transition env wall fs s sid input).2 = true <-> sid <> "" /\
     exists current, current_record fs s sid = Ok current /\
       lstep (sr_Lifecycle current) (ti_To input) /\
       is_ok (MarshalRecord (next_record current sid
         (if IsZero (ti_Now input) then wall else ti_Now input) input)) = true).
Proof.
  intros Hn. unfold Transition.
  destruct (prepare_transition wall fs s sid input) as [next|err] eqn:E.
  - apply prepare_transition_ok in E as (Hne & cur & Hcur & Hstep & Hnext).
    pose proof (writeRecord_ok env fs s (sessionPath s sid) next Hn) as Hok. unfold writeSession.
    destruct (writeRecord _ _ _ _ _) as [[fs1 s1] [err1|]]; cbn in Hok |- *.
    + split; [done|]. intros (_ & cur' & Hcur' & _ & Hm). rewrite Hcur in Hcur'.
      injection Hcur' as <-. rewrite <- Hnext in Hm. naive_solver.
    + split; [|done]. intros _. split; [done|]. exists cur. rewrite <- Hnext. naive_solver.
  - split; [done|]. intros (Hne & cur & Hcur & Hstep & _).
    revert E. unfold prepare_transition. apply eqb_false in Hne. rewrite Hne, Hcur. cbn.
    apply validateTransition_None in Hstep. by rewrite Hstep.
Qed.

(** C8: a successful [Transition] starts from a readable or missing record, follows
    an edge of the lifecycle graph and leaves exactly the successor record it
    returns (as JSON keeps it) in the session's file; on any error the file is
    as it was. When nothing disturbs the write it succeeds exactly when the
    session has a name, the edge is legal and the successor can be marshalled. *)
Theorem Transition_spec `{UnicodeTables} env wall fs s sid input :
  plain sid ->
  let '(fs', s', r) := Transition env wall fs s sid input in
  let now := if IsZero (ti_Now input) then wall else ti_Now input in
  match r with
  | Ok next =>
      (exists current, current_record fs s sid = Ok current /\
         lstep (sr_Lifecycle current) (ti_To input) /\
         next = next_record current sid now input) /\
      Read fs' s' sid = Ok (json_record next)
  | Err _ => ReadFile fs' (sessionPath s' sid) = ReadFile fs (sessionPath s sid)
  end /\
  (no_fault env s ->
   (is_ok r = true <-> sid <> "" /\ exists current, current_record fs s sid = Ok current /\
      lstep (sr_Lifecycle current) (ti_To input) /\
      is_ok (MarshalRecord (next_record current sid now input)) = true)).
Proof.
  intros Hp. pose proof (Transition_succeeds env wall fs s sid input) as Hok.
  destruct (Transition env wall fs s sid input) as [[fs' s'] r] eqn:E.
  apply Transition_effect in E as [Hr He]; [|done]. split; [|exact Hok].
  assert (sessionPath s' sid = sessionPath s sid) as Hpath
    by (unfold sessionPath, sessionDir, stateDir; by rewrite Hr).
  destruct r; [|by rewrite Hpath]. unfold Read in *. by rewrite Hpath.
Qed.

(** ** Stale heartbeats *)

Lemma mark_loop_spec env now fs s entries fs' s' r :
  mark_loop env now fs s entries = (fs', s', r) ->
  match r with
  | Ok None => fs' = fs /\ forall n, (n, true) ∈ entries ->
      exists record, Read fs s n = Ok record /\ is_stale s now record = false
  | Ok (Some marked) => exists n record, (n, true) ∈ entries /\ Read fs s n = Ok record /\
      is_stale s now record = true /\ marked = mark_stale now record /\
      writeSession env fs s n marked = (fs', s', None)
  | Err _ => True
  end.
Proof.
  revert fs' s' r. induction entries as [|[n isDir] rest IH]; intros fs' s' r; simpl.
  - intros [= <- <- <-]. split; [done|]. intros ? H. inversion H.
  - destruct isDir; simpl; [destruct (Read fs s n) as [record|] eqn:ER|]; last 2 first.
    + by intros [= <- <- <-].
    + intros H. apply IH in H. destruct r as [[marked|]|]; [| |done].
      * destruct H as (m & rec & Hm & H). exists m, rec. split; [by right | done].
      * destruct H as [-> H]. split; [done|]. intros m [[= ]|Hm]%elem_of_cons. auto.
    + destruct (is_stale s now record) eqn:Est; simpl.
      * destruct (writeSession _ _ _ _ _) as [[fs1 s1] err1] eqn:EW.
        destruct err1; intros [= <- <- <-]; [done|].
        exists n, record. split; [left | done].
      * intros H. apply IH in H. destruct r as [[marked|]|]; [| |done].
        -- destruct H as (m & rec & Hm & H). exists m, rec. split; [by right | done].
        -- destruct H as [-> H]. split; [done|].
           intros m [[= ->]|Hm]%elem_of_cons; [by exists record | auto].
Qed.

(** A sweep that reports nothing leaves the store alone and means that every
    session directory has a readable record whose heartbeat is fresh (or that is
    not running); a sweep that reports a record found that session running with
    a heartbeat older than the timeout, and left it blocked, reason
    [stale_owner], everything else kept. *)
Theorem MarkStaleHeartbeats_spec env wall fs s now fs' s' r :
  MarkStaleHeartbeats env wall fs s now = (fs', s', Ok r) ->
  let now := if IsZero now then wall else now in
  match r with
  | None => fs' = fs /\ forall n, plain n -> sessionDir s +:+ "/" +:+ n ∈ fs_dirs fs ->
      sessionDir s ∈ fs_dirs fs ->
      exists record, Read fs s n = Ok record /\
        (sr_Lifecycle record = LifecycleRunning -> sr_HeartbeatAt record <> 0%Z ->
         (Sub now (sr_HeartbeatAt record) <= st_heartbeatTimeout s)%Z)
  | Some marked => exists n record, plain n /\ Read fs s n = Ok record /\
      sr_Lifecycle record = LifecycleRunning /\ sr_HeartbeatAt record <> 0%Z /\
      (st_heartbeatTimeout s < Sub now (sr_HeartbeatAt record))%Z /\
      marked = mark_stale now record /\
      Read fs' s' n = Ok (json_record marked)
  end.
Proof.
  unfold MarkStaleHeartbeats. intros H. simpl.
  set (now' := if IsZero now then wall else now) in *. clearbody now'.
  destruct (ReadDir fs (sessionDir s)) as [entries|err] eqn:Hdir.
  2: { destruct (is_not_exist err); [|discriminate H]. injection H as <- <- <-. split; [done|].
       intros n _ _ Hin. unfold ReadDir in Hdir. by rewrite decide_True in Hdir. }
  apply mark_loop_spec in H. destruct r as [marked|].
  - destruct H as (n & record & Hn & HR & Hst & -> & HW).
    apply (ReadDir_plain fs (sessionDir s)) in Hn; [|done]. exists n, record.
    unfold is_stale, IsZero in Hst. str_simpl. rewrite Z.eqb_neq in *. rewrite Z.leb_gt in *.
    repeat (split; [done|]).
    destruct (writeRecord_effect _ _ _ _ _ _ _ _ HW) as (Hr & _ & Hself).
    specialize (Hself (sessionPath_self_dir s n Hn)).
    unfold Read, readRecord, sessionPath, sessionDir, stateDir in *. by rewrite Hr, Hself.
  - destruct H as [-> H]. split; [done|]. intros n Hn Hin Hd.
    destruct (H n) as (record & HR & Hst).
    { unfold ReadDir in Hdir. rewrite decide_True in Hdir by done. injection Hdir as <-.
      by apply dir_entries_dir. }
    exists record. split; [done|]. intros Hl Hh. unfold is_stale, IsZero in Hst.
    rewrite Hl in Hst. apply Z.eqb_neq in Hh. rewrite Hh in Hst. simpl in Hst.
    apply negb_false_iff, Z.leb_le in Hst. done.
Qed.

(** ** Concurrent callers

    [lockForPath] only guards [atomicWrite]: between the read and the write of
    one [Transition], another process or goroutine can complete its own. *)

Record conc := mkConc {
  cc_fs : FS content;
  cc_store : Store;
  cc_pending : list (string * StateRecord)  (* validated, not yet written *)
}.

Inductive conc_step `{UnicodeTables} (env : WriteEnv) : conc -> conc -> Prop :=
| ConcPrepare fs s pending wall sid input next :
    prepare_transition wall fs s sid input = Ok next ->
    conc_step env (mkConc fs s pending) (mkConc fs s (pending ++ [(sid, next)]))
| ConcCommit fs s before sid next after fs' s' err :
    writeSession env fs s sid next = (fs', s', err) ->
    conc_step env (mkConc fs s (before ++ (sid, next) :: after)) (mkConc fs' s' (before ++ after)).

Definition quiet_env : WriteEnv := mkEnv 1 1 None None None false.
Definition to_input (to : string) : TransitionInput := mkInput to "" "" "" "" None None 1.

(** What the two racing transitions below write, in order. *)
Definition race_store : Store := NewStore "/p" (mkOptions 0).
Definition race_running : FS content :=
  (Transition (H := plain_tables) quiet_env 1 (mkFS ∅ ∅) race_store "s" (to_input "running")).1.1.

Definition race_next (to : string) : StateRecord :=
  match prepare_transition (H := plain_tables) 1 race_running race_store "s" (to_input to) with
  | Ok r => r
  | Err _ => inactive_record "s"
  end.
Definition race_first : FS content :=
  (writeSession quiet_env race_running race_store "s" (race_next "finished")).1.1.
Definition race_second : FS content :=
  (writeSession quiet_env race_first race_store "s" (race_next "cancelled")).1.1.

(** Two transitions of one session that overlap both pass validation, and the
    later write wins: a session that was seen [finished] on disk becomes
    [cancelled], although no edge leaves a terminal lifecycle. The mutex of
    [lockForPath] covers the write only, not the read and the check before it. *)
Theorem concurrent_transitions_lose_terminal :
  exists c1 c2 c3,
    rtc (conc_step (H := plain_tables) quiet_env) (mkConc race_running race_store []) c1 /\
    conc_step (H := plain_tables) quiet_env c1 c2 /\
    conc_step (H := plain_tables) quiet_env c2 c3 /\
    lifecycle_at (cc_fs c2) (cc_store c2) "s" = Some LifecycleFinished /\
    lifecycle_at (cc_fs c3) (cc_store c3) "s" = Some LifecycleCancelled /\
    ~ lstep LifecycleFinished LifecycleCancelled.
Proof.
  set (n1 := race_next "finished"). set (n2 := race_next "cancelled").
  exists (mkConc race_running race_store [("s", n1); ("s", n2)]),
    (mkConc race_first race_store [("s", n2)]), (mkConc race_second race_store []).
  split; [|split; [|split; [|split; [|split]]]].
  - eapply rtc_l; [|eapply rtc_l; [|apply rtc_refl]].
    + apply (ConcPrepare (H := plain_tables) _ _ _ [] 1 "s" (to_input "finished")).
      vm_compute. reflexivity.
    + apply (ConcPrepare (H := plain_tables) _ _ _ [("s", n1)] 1 "s" (to_input "cancelled")).
      vm_compute. reflexivity.
  - apply (ConcCommit (H := plain_tables) quiet_env race_running race_store [] "s" n1 [("s", n2)]
             race_first race_store None). vm_compute. reflexivity.
  - apply (ConcCommit (H := plain_tables) quiet_env race_first race_store [] "s" n2 []
             race_second race_store None). vm_compute. reflexivity.
  - vm_compute. reflexivity.
  - vm_compute. reflexivity.
  - by intros [? _]%lstep_not_terminal.
Qed.

(** Session names are joined into paths unchecked. Plain names never
    collide, but a name with a parent component reaches another session's file,
    and the name [..] is the root record. *)
Theorem sessionPath_aliasing s :
  (forall a b, plain a -> plain b -> sessionPath s a = sessionPath s b -> a = b) /\
  (forall a b, plain a -> plain b ->
     sessionPath s (a +:+ "/../" +:+ b) = sessionPath s b) /\
  sessionPath s ".." = rootPath s.
Proof.
  destruct (stateDir_joined s) as (r & st & Hok & Hne & E).
  assert (Hok' : clean_stack_ok r ("sessions" :: st)) by (by split; [|split]).
  assert (ES : sessionDir s = render_path r (rev ("sessions" :: st))).
  { unfold sessionDir. rewrite E, JoinPath_clean by (done || by rewrite Forall_singleton). done. }
  split; [intros; by eapply sessionPath_inj|]. split.
  - intros a b Ha Hb. unfold sessionPath. rewrite ES, !JoinPath_render by done.
    cbn [map concat]. rewrite !app_nil_r.
    change (a +:+ "/../" +:+ b) with (a +:+ String slash (".." +:+ String slash b)).
    rewrite !Split_app, (Split_none _ a), (Split_none _ b) by (apply Ha || apply Hb).
    change (Split ".." slash) with [".."]. rewrite <- !app_assoc. unfold clean_stack.
    cbn [app foldl]. rewrite (clean_step_plain _ _ a) by done.
    unfold clean_step at 3. simpl. destruct Ha as (_ & _ & Ha & _).
    apply eqb_false in Ha. by rewrite Ha.
  - unfold sessionPath, rootPath. by rewrite ES, E, !JoinPath_render.
Qed.

(** ** Witnesses *)

Lemma atomicWrite_crash_safe_witness :
  ReadFile (apply_ops (mkFS {["/p/state.json" := CRaw "old"]} ∅)
    (take 3 (atomicWrite quiet_env race_store "/p/state.json" (CRaw "new")).1.1)) "/p/state.json"
    = ReadFile (mkFS {["/p/state.json" := CRaw "old"]} ∅) "/p/state.json".
Proof.
  refine (atomicWrite_crash_safe quiet_env race_store "/p/state.json" (CRaw "new")
    (atomicWrite quiet_env race_store "/p/state.json" (CRaw "new")).1.1 race_store None
    (mkFS {["/p/state.json" := CRaw "old"]} ∅) 3 _ _).
  - vm_compute. reflexivity.
  - apply (bool_decide_unpack _). vm_compute. exact I.
Defined.

Lemma session_history_witness :
  exists l', lifecycle_at (foldl (run_call (H := plain_tables)) (race_running, race_store)
      [CallTransition quiet_env 1 "s" (to_input "finished");
       CallTransition quiet_env 1 "s" (to_input "running")]).1
    (foldl (run_call (H := plain_tables)) (race_running, race_store)
      [CallTransition quiet_env 1 "s" (to_input "finished");
       CallTransition quiet_env 1 "s" (to_input "running")]).2 "s" = Some l' /\
    rtc lstep LifecycleRunning l' /\ (isTerminal LifecycleRunning = true -> l' = LifecycleRunning).
Proof.
  refine (session_history (H := plain_tables) race_running race_store
      [CallTransition quiet_env 1 "s" (to_input "finished");
       CallTransition quiet_env 1 "s" (to_input "running")] "s" LifecycleRunning _ _ _).
  - rewrite !Forall_cons, Forall_nil. simpl. split_and!; [| |done];
      apply (bool_decide_unpack _); vm_compute; exact I.
  - apply (bool_decide_unpack _). vm_compute. exact I.
  - vm_compute. reflexivity.
Defined.

Lemma Transition_spec_witness :
  (exists current, current_record (mkFS ∅ ∅) race_store "s" = Ok current /\
     lstep (sr_Lifecycle current) "running" /\
     next_record (inactive_record "s") "s" 1 (to_input "running") =
       next_record current "s" 1 (to_input "running")) /\
  Read race_running race_store "s" =
    Ok (json_record (next_record (inactive_record "s") "s" 1 (to_input "running"))).
Proof.
  refine (proj1 (Transition_spec (H := plain_tables) quiet_env 1 (mkFS ∅ ∅) race_store "s"
    (to_input "running") _)).
  apply (bool_decide_unpack _). vm_compute. exact I.
Defined.

Definition stale_at : time := (121 * Second + 1)%Z.
Definition stale_record : StateRecord :=
  mark_stale stale_at (next_record (inactive_record "s") "s" 1 (to_input "running")).
Lemma MarkStaleHeartbeats_spec_witness :
  exists n record, plain n /\ Read race_running race_store n = Ok record /\
    sr_Lifecycle record = LifecycleRunning /\ sr_HeartbeatAt record <> 0%Z /\
    (120 * Second < Sub stale_at (sr_HeartbeatAt record))%Z /\
    stale_record = mark_stale stale_at record /\
    Read (MarkStaleHeartbeats quiet_env 1 race_running race_store stale_at).1.1 race_store n =
      Ok (json_record stale_record).
Proof.
  apply (MarkStaleHeartbeats_spec quiet_env 1 race_running race_store stale_at
    (MarkStaleHeartbeats quiet_env 1 race_running race_store stale_at).1.1 race_store
    (Some stale_record)).
  vm_compute. reflexivity.
Defined.
