(* ===== verification/StateRefine.v ===== *)
(** * internal/state: the store refines a table of records

    What the store of [State] promises its callers, without files, paths, temporary
    names and JSON: a root record and one record per session ([vault]), and what
    each call answers and changes ([vstep]). A file system that [represents] a
    vault keeps representing the vault that the specification reaches. *)

From S2P Require Import Prelude GoStrings GoValue GoPath GoFS State.
From stdpp Require Import relations.

(** ** The specification *)

Record vault := mkVault {
  va_root : option StateRecord;
  va_sessions : gmap string StateRecord;
  va_armed : option error  (* the failure that the next write meets *)
}.

Definition vault_current (v : vault) (sid : string) : StateRecord :=
  default (inactive_record sid) (va_sessions v !! sid).
Definition put_session (sid : string) (r : StateRecord) (v : vault) : vault :=
  mkVault (va_root v) (<[sid := r]> (va_sessions v)) (va_armed v).
Definition put_root (r : StateRecord) (v : vault) : vault :=
  mkVault (Some r) (va_sessions v) (va_armed v).
Definition arm (err : option error) (v : vault) : vault := mkVault (va_root v) (va_sessions v) err.

(** [ReadEffective]: the session's record, or else the root record. *)
Definition vault_effective (v : vault) (sid : string) : option StateRecord :=
  match va_sessions v !! sid with Some r => Some r | None => va_root v end.

(** What a call returns. *)
Inductive answer :=
| ARecord (r : result StateRecord)
| AMarked (r : result (option StateRecord))
| AWritten (err : option error)
| ADone.

Definition stamp (wall : time) (r : StateRecord) : StateRecord :=
  if IsZero (sr_UpdatedAt r) then
    mkState (sr_Lifecycle r) (sr_Context r) (sr_SessionID r) (sr_OwnerID r) (sr_RequestID r) wall
      (sr_HeartbeatAt r) (sr_BlockedReason r) (sr_Error r) (sr_Metadata r)
  else r.

(** Nothing disturbs the write of this call. *)
Definition undisturbed (v : vault) (env : WriteEnv) : Prop :=
  we_mkdir_fault env = None /\ we_write_fault env = None /\ we_rename_fault env = None /\
  va_armed v = None.

(** [vstep timeout v c a v']: on [v], the call [c] may answer [a] and leave [v']. *)
Inductive vstep (timeout : duration) (v : vault) : store_call -> answer -> vault -> Prop :=
| v_transition env wall sid input next :
    lstep (sr_Lifecycle (vault_current v sid)) (ti_To input) ->
    next = next_record (vault_current v sid) sid (if IsZero (ti_Now input) then wall else ti_Now input) input ->
    vstep timeout v (CallTransition env wall sid input) (ARecord (Ok next))
      (put_session sid (json_record next) v)
| v_refuse env wall sid input err armed :
    (undisturbed v env -> ~ (lstep (sr_Lifecycle (vault_current v sid)) (ti_To input) /\
       is_ok (MarshalRecord (next_record (vault_current v sid) sid
         (if IsZero (ti_Now input) then wall else ti_Now input) input)) = true)) ->
    armed = va_armed v \/ armed = None ->
    vstep timeout v (CallTransition env wall sid input) (ARecord (Err err)) (arm armed v)
| v_mark env wall now sid r :
    va_sessions v !! sid = Some r -> sr_Lifecycle r = LifecycleRunning -> sr_HeartbeatAt r <> 0%Z ->
    (timeout < Sub (if IsZero now then wall else now) (sr_HeartbeatAt r))%Z ->
    vstep timeout v (CallMarkStale env wall now)
      (AMarked (Ok (Some (mark_stale (if IsZero now then wall else now) r))))
      (put_session sid (json_record (mark_stale (if IsZero now then wall else now) r)) v)
| v_mark_none env wall now : vstep timeout v (CallMarkStale env wall now) (AMarked (Ok None)) v
| v_mark_fails env wall now err armed :
    armed = va_armed v \/ armed = None ->
    vstep timeout v (CallMarkStale env wall now) (AMarked (Err err)) (arm armed v)
| v_write env wall r :
    vstep timeout v (CallWriteRoot env wall r) (AWritten None) (put_root (json_record (stamp wall r)) v)
| v_write_fails env wall r err armed :
    (undisturbed v env -> is_ok (MarshalRecord (stamp wall r)) = false) ->
    armed = va_armed v \/ armed = None ->
    vstep timeout v (CallWriteRoot env wall r) (AWritten (Some err)) (arm armed v)
| v_arm err : vstep timeout v (CallFailNext err) ADone (arm (Some err) v).

(** A sequence of calls and their answers. *)
Inductive vsteps (timeout : duration) : vault -> list (store_call * answer) -> vault -> Prop :=
| vs_nil v : vsteps timeout v [] v
| vs_cons v c a v1 l v2 :
    vstep timeout v c a v1 -> vsteps timeout v1 l v2 -> vsteps timeout v ((c, a) :: l) v2.

(** ** The implementation, with its answers *)

Section impl.
Context `{UnicodeTables}.

Definition answer_call (w : FS content * Store) (c : store_call) : FS content * Store * answer :=
  let '(fs, s) := w in
  match c with
  | CallTransition env wall sid input =>
      let '(w, r) := Transition env wall fs s sid input in (w, ARecord r)
  | CallMarkStale env wall now => let '(w, r) := MarkStaleHeartbeats env wall fs s now in (w, AMarked r)
  | CallWriteRoot env wall r => let '(w, err) := WriteRoot env wall fs s r in (w, AWritten err)
  | CallFailNext err => (fs, mkStore (st_root s) (st_heartbeatTimeout s) (Some err), ADone)
  end.

Fixpoint answer_calls (w : FS content * Store) (calls : list store_call)
    : FS content * Store * list (store_call * answer) :=
  match calls with
  | [] => (w, [])
  | c :: rest =>
      let '(w, a) := answer_call w c in
      let '(w, l) := answer_calls w rest in
      (w, (c, a) :: l)
  end.

(** It is [State.run_call]. *)
Lemma answer_call_run w c : (answer_call w c).1 = run_call w c.
Proof.
  destruct w as [fs s], c; cbn; [destruct (Transition _ _ _ _ _ _)|destruct (MarkStaleHeartbeats _ _ _ _ _)
    |destruct (WriteRoot _ _ _ _ _)|]; done.
Qed.

(** ** The abstraction *)

Definition says (fs : FS content) (path : string) (o : option StateRecord) : Prop :=
  match o with
  | Some r => readRecord fs path = Ok r
  | None => exists err, readRecord fs path = Err err /\ is_not_exist err = true
  end.

Record represents (w : FS content * Store) (v : vault) : Prop := {
  rep_session : forall sid, plain sid -> says w.1 (sessionPath w.2 sid) (va_sessions v !! sid);
  rep_root : says w.1 (rootPath w.2) (va_root v);
  rep_armed : st_failBeforeRename w.2 = va_armed v;
  (* every session that has a record has a name of its own *)
  rep_plain : forall sid, is_Some (va_sessions v !! sid) -> plain sid
}.

Lemma says_ReadFile fs fs' path path' o :
  path' = path -> ReadFile fs' path = ReadFile fs path -> says fs path o -> says fs' path' o.
Proof. intros -> HR. unfold says, readRecord. by rewrite HR. Qed.

Lemma says_written fs path r : ReadFile fs path = Ok (CRecord r) -> says fs path (Some r).
Proof. intros HR. cbn. unfold readRecord. by rewrite HR. Qed.

Lemma represents_current fs s v sid :
  represents (fs, s) v -> plain sid -> current_record fs s sid = Ok (vault_current v sid).
Proof.
  intros [Hs _ _ _] Hp. specialize (Hs sid Hp). unfold current_record, Read, vault_current.
  cbn [fst snd] in Hs. destruct (va_sessions v !! sid) as [r|]; cbn [says default] in *; [by rewrite Hs|].
  destruct Hs as (err & -> & ->). done.
Qed.

Lemma represents_effective fs s v sid :
  represents (fs, s) v -> plain sid ->
  match vault_effective v sid with
  | Some r => ReadEffective fs s sid = Ok r
  | None => exists err, ReadEffective fs s sid = Err err /\ is_not_exist err = true
  end.
Proof.
  intros [Hs Hr _ _] Hp. specialize (Hs sid Hp). unfold ReadEffective, Read, vault_effective.
  cbn [fst snd] in *. destruct Hp as (Hne & _). apply eqb_false in Hne. rewrite Hne. cbn [negb].
  destruct (va_sessions v !! sid) as [r|]; cbn [says] in *; [by rewrite Hs|].
  destruct Hs as (err & -> & ->). cbn [negb]. destruct (va_root v); exact Hr.
Qed.

(** The root record's file is apart from every session's file, in both ways. *)
Lemma sessionPath_apart_root s a : plain a -> apart (sessionPath s a) (rootPath s).
Proof.
  intros Ha. unfold apart, tmp_path. rewrite Dir_sessionPath, rootPath_eq, sessionPath_eq by done.
  split; [|split].
  - intros E%str_app_inj_l. done.
  - intros env E. rewrite str_app_assoc in E. apply str_app_inj_l in E. done.
  - intros [r E]%ancestors_prefix. rewrite !str_app_assoc in E. by apply str_app_inj_l in E.
Qed.

Lemma rootPath_self_dir s : rootPath s ∉ ancestors (Dir (rootPath s)).
Proof.
  rewrite Dir_rootPath, rootPath_eq. intros [r E]%ancestors_prefix.
  rewrite <- (str_app_nil_r (stateDir s)), !str_app_assoc in E at 1. by apply str_app_inj_l in E.
Qed.

Lemma atomicWrite_armed env s path data ops s' err :
  atomicWrite env s path data = (ops, s', err) ->
  st_heartbeatTimeout s' = st_heartbeatTimeout s /\
  (st_failBeforeRename s' = st_failBeforeRename s \/ err <> None /\ st_failBeforeRename s' = None).
Proof.
  unfold atomicWrite. intros E.
  repeat go_case_in E; injection E as <- <- <-; (split; [done|]); first [by left | by right].
Qed.

Lemma writeRecord_armed env fs s path r fs' s' err :
  writeRecord env fs s path r = (fs', s', err) ->
  st_heartbeatTimeout s' = st_heartbeatTimeout s /\
  (st_failBeforeRename s' = st_failBeforeRename s \/ err <> None /\ st_failBeforeRename s' = None).
Proof.
  unfold writeRecord. destruct (MarshalRecord r); [|intros [= <- <- <-]; auto].
  destruct (atomicWrite env s path a) as [[ops s1] err1] eqn:E. intros [= <- <- <-].
  by apply atomicWrite_armed in E.
Qed.

Lemma same_paths s s' :
  st_root s' = st_root s ->
  rootPath s' = rootPath s /\ forall sid, sessionPath s' sid = sessionPath s sid.
Proof. intros Hr. unfold rootPath, sessionPath, sessionDir, stateDir. by rewrite Hr. Qed.

(** A write to a session's file. *)
Lemma represents_writeSession env fs s v sid r fs' s' err :
  represents (fs, s) v -> plain sid -> writeSession env fs s sid r = (fs', s', err) ->
  exists armed, (armed = va_armed v \/ err <> None /\ armed = None) /\
  represents (fs', s') (match err with None => put_session sid (json_record r) v | Some _ => arm armed v end).
Proof.
  intros [Hs Hr Ha Hpl] Hp HW. unfold writeSession in HW. cbn [fst snd] in *.
  destruct (writeRecord_effect _ _ _ _ _ _ _ _ HW) as (Hroot & Hframe & Hself).
  specialize (Hself (sessionPath_self_dir s sid Hp)).
  destruct (same_paths s s' Hroot) as [Er Es].
  destruct (writeRecord_armed _ _ _ _ _ _ _ _ HW) as [_ Harm].
  exists (st_failBeforeRename s'). split; [by rewrite <- Ha|].
  destruct err as [err|].
  - split; cbn [fst snd arm va_sessions va_root va_armed]; [|..|done|done].
    + intros sid' Hp'. eapply says_ReadFile; [apply Es| |by apply Hs].
      destruct (decide (sid' = sid)) as [->|Hne]; [done|]. by apply Hframe, sessionPath_apart.
    + eapply says_ReadFile; [exact Er| |exact Hr]. by apply Hframe, sessionPath_apart_root.
  - split; cbn [fst snd put_session va_sessions va_root va_armed].
    + intros sid' Hp'. destruct (decide (sid' = sid)) as [->|Hne].
      * rewrite lookup_insert_eq, Es. by apply says_written.
      * rewrite lookup_insert_ne by done. eapply says_ReadFile; [apply Es| |by apply Hs].
        by apply Hframe, sessionPath_apart.
    + eapply says_ReadFile; [exact Er| |exact Hr]. by apply Hframe, sessionPath_apart_root.
    + destruct Harm as [->|[? _]]; [exact Ha|done].
    + intros sid' [-> | [_ ?]]%lookup_insert_is_Some; [done|by apply Hpl].
Qed.

Lemma represents_writeRoot env fs s v r fs' s' err :
  represents (fs, s) v -> writeRecord env fs s (rootPath s) r = (fs', s', err) ->
  exists armed, (armed = va_armed v \/ err <> None /\ armed = None) /\
  represents (fs', s') (match err with None => put_root (json_record r) v | Some _ => arm armed v end).
Proof.
  intros [Hs Hr Ha Hpl] HW. cbn [fst snd] in *.
  destruct (writeRecord_effect _ _ _ _ _ _ _ _ HW) as (Hroot & Hframe & Hself).
  specialize (Hself (rootPath_self_dir s)). destruct (same_paths s s' Hroot) as [Er Es].
  destruct (writeRecord_armed _ _ _ _ _ _ _ _ HW) as [_ Harm].
  exists (st_failBeforeRename s'). split; [by rewrite <- Ha|].
  assert (forall sid, plain sid -> says fs' (sessionPath s' sid) (va_sessions v !! sid)) as Hs'.
  { intros sid Hp. eapply says_ReadFile; [apply Es| |by apply Hs]. by apply Hframe, rootPath_apart. }
  destruct err as [err|].
  - split; cbn [fst snd arm va_sessions va_root va_armed]; try done.
    eapply says_ReadFile; [exact Er|exact Hself|exact Hr].
  - split; cbn [fst snd put_root va_sessions va_root va_armed]; try done.
    + rewrite Er. by apply says_written.
    + destruct Harm as [->|[? _]]; [exact Ha|done].
Qed.

(** The sweep marks a session that is stale, or changes nothing. *)
Lemma mark_loop_refines env now fs s v entries fs' s' res :
  represents (fs, s) v -> (forall n, (n, true) ∈ entries -> plain n) ->
  mark_loop env now fs s entries = (fs', s', res) ->
  match res with
  | Ok None => fs' = fs /\ s' = s
  | Ok (Some marked) => exists sid r, plain sid /\ va_sessions v !! sid = Some r /\ is_stale s now r = true /\
      marked = mark_stale now r /\ represents (fs', s') (put_session sid (json_record marked) v)
  | Err _ => exists armed, (armed = va_armed v \/ armed = None) /\ represents (fs', s') (arm armed v)
  end.
Proof.
  intros Hrep Hn. induction entries as [|[n isDir] rest IH]; cbn [mark_loop]; [by intros [= <- <- <-]|].
  specialize (IH (fun m Hm => Hn m (list_elem_of_further _ _ _ Hm))).
  destruct isDir; cbn [negb]; [|done]. assert (plain n) as Hp by (apply Hn; left).
  destruct (Read fs s n) as [record|err] eqn:ER.
  - destruct (is_stale s now record) eqn:Est; cbn [negb]; [|done].
    destruct (writeSession env fs s n (mark_stale now record)) as [[fs1 s1] err1] eqn:EW.
    assert (va_sessions v !! n = Some record) as Hv.
    { pose proof (rep_session _ _ Hrep n Hp) as Hs. unfold Read in ER. cbn [fst snd] in Hs.
      destruct (va_sessions v !! n); cbn [says] in Hs; [congruence|]. destruct Hs as (e & He & _). congruence. }
    destruct (represents_writeSession _ _ _ _ _ _ _ _ _ Hrep Hp EW) as (armed & Ha & Hrep').
    destruct err1 as [e|]; intros [= <- <- <-].
    + exists armed. split; [naive_solver|done].
    + exists n, record. by split_and!.
  - intros [= <- <- <-]. exists (va_armed v). split; [by left|]. by destruct v.
Qed.

Lemma disturbed_write v env fs s path r :
  represents (fs, s) v -> undisturbed v env ->
  ((writeRecord env fs s path r).2 = None <-> is_ok (MarshalRecord r) = true).
Proof.
  intros Hrep (E1 & E2 & E3 & E4). apply writeRecord_ok. split_and!; [done..|].
  rewrite <- E4. exact (rep_armed _ _ Hrep).
Qed.

(** One call. *)
Lemma answer_call_refines fs s v c w' a :
  represents (fs, s) v -> plain_call c -> answer_call (fs, s) c = (w', a) ->
  exists v', vstep (st_heartbeatTimeout s) v c a v' /\ represents w' v'.
Proof.
  intros Hrep Hc. destruct c as [env wall sid input|env wall now|env wall r|err]; cbn [answer_call plain_call] in *.
  - pose proof (Transition_succeeds env wall fs s sid input) as Hok. unfold Transition in Hok |- *.
    pose proof (represents_current _ _ _ _ Hrep Hc) as Hcur.
    destruct (prepare_transition wall fs s sid input) as [next|err] eqn:E.
    + apply prepare_transition_ok in E as (_ & cur & Hcur' & Hstep & Hnext).
      rewrite Hcur in Hcur'. injection Hcur' as <-.
      destruct (writeSession env fs s sid next) as [[fs1 s1] err1] eqn:EW.
      destruct (represents_writeSession _ _ _ _ _ _ _ _ _ Hrep Hc EW) as (armed & Ha & Hrep').
      destruct err1 as [e|]; intros [= <- <-]; eexists; (split; [|exact Hrep']).
      * apply v_refuse; [|naive_solver]. intros Hun [_ Hm]. rewrite <- Hnext in Hm.
        apply (disturbed_write v env fs s (sessionPath s sid) next Hrep Hun) in Hm.
        unfold writeSession in EW. by rewrite EW in Hm.
      * by apply v_transition.
    + intros [= <- <-]. exists (arm (va_armed v) v). split; [|by destruct v].
      apply v_refuse; [|by left]. intros Hun [Hstep Hm]. cbn [snd is_ok] in Hok.
      assert (false = true) as Hf; [|done]. apply Hok.
      * destruct Hun as (E1 & E2 & E3 & E4). split_and!; [done..|]. rewrite <- E4. exact (rep_armed _ _ Hrep).
      * split; [by destruct Hc|]. exists (vault_current v sid). by split_and!.
  - unfold MarkStaleHeartbeats. destruct (ReadDir fs (sessionDir s)) as [entries|err] eqn:E.
    + assert (forall n, (n, true) ∈ entries -> plain n) as Hn.
      { intros n. by apply (ReadDir_plain fs (sessionDir s)). }
      destruct (mark_loop _ _ fs s entries) as [[fs1 s1] res] eqn:EM. intros [= <- <-].
      pose proof (mark_loop_refines _ _ _ _ _ _ _ _ _ Hrep Hn EM) as Hm.
      destruct res as [[marked|]|err].
      * destruct Hm as (sid & r & Hp & Hv & Hst & -> & Hrep'). eexists. split; [|exact Hrep'].
        unfold is_stale in Hst. str_simpl.
        apply v_mark; [done..|by apply Z.eqb_neq|by apply Z.leb_gt].
      * destruct Hm as [-> ->]. exists v. split; [constructor|done].
      * destruct Hm as (armed & Ha & Hrep'). exists (arm armed v). split; [by constructor|done].
    + destruct (is_not_exist err); intros [= <- <-].
      * exists v. split; [constructor|done].
      * exists (arm (va_armed v) v). split; [constructor; by left|by destruct v].
  - unfold WriteRoot. fold (stamp wall r).
    destruct (writeRecord env fs s (rootPath s) (stamp wall r)) as [[fs1 s1] err1] eqn:EW. intros [= <- <-].
    destruct (represents_writeRoot _ _ _ _ _ _ _ _ Hrep EW) as (armed & Ha & Hrep').
    eexists. split; [|exact Hrep']. destruct err1 as [e|]; [|constructor].
    apply v_write_fails; [|naive_solver]. intros Hun.
    destruct (is_ok (MarshalRecord (stamp wall r))) eqn:Em; [|done].
    apply (disturbed_write v env fs s (rootPath s) _ Hrep Hun) in Em. by rewrite EW in Em.
  - intros [= <- <-]. exists (arm (Some err) v). split; [constructor|].
    destruct Hrep as [Hs Hr Ha Hpl]. by split.
Qed.

Lemma answer_call_timeout w c : plain_call c ->
  st_heartbeatTimeout (answer_call w c).1.2 = st_heartbeatTimeout w.2.
Proof.
  destruct w as [fs s]. intros _. assert (forall env fs path r,
    st_heartbeatTimeout (writeRecord env fs s path r).1.2 = st_heartbeatTimeout s) as HW.
  { intros env fs' path r. destruct (writeRecord env fs' s path r) as [[fs1 s1] err] eqn:E.
    by apply writeRecord_armed in E as [? _]. }
  destruct c as [env wall sid input|env wall now|env wall r|err]; cbn [answer_call].
  - unfold Transition. destruct (prepare_transition _ _ _ _ _) as [next|]; [|done].
    specialize (HW env fs (sessionPath s sid) next). unfold writeSession.
    by destruct (writeRecord _ _ _ _ _) as [[fs1 s1] [e|]].
  - unfold MarkStaleHeartbeats. destruct (ReadDir _ _) as [entries|err]; [|by destruct (is_not_exist err)].
    generalize (if IsZero now then wall else now). intros t.
    induction entries as [|[n []] rest IH]; [done| |exact IH]. cbn [mark_loop negb].
    destruct (Read fs s n) as [r|]; [|done]. destruct (is_stale s t r); [|exact IH]. cbn [negb].
    specialize (HW env fs (sessionPath s n) (mark_stale t r)). unfold writeSession.
    by destruct (writeRecord _ _ _ _ _) as [[fs1 s1] [e|]].
  - unfold WriteRoot. specialize (HW env fs (rootPath s) (stamp wall r)). fold (stamp wall r).
    by destruct (writeRecord _ _ _ _ _) as [[fs1 s1] e].
  - done.
Qed.

(** C9: every sequence of calls on the files - with write errors, injected failures
    and the clock as they come - answers as the table of records may, and the
    files end up representing the table the specification reaches: every plain
    session reads as its record, or as the root record when it has none. A call
    whose write nothing disturbs fails only for a reason the specification
    knows: an illegal transition, or a record JSON cannot hold. *)
Theorem Store_refines fs s v calls fs' s' l
    (Hrep : represents (fs, s) v) (Hplain : Forall plain_call calls)
    (Hrun : answer_calls (fs, s) calls = (fs', s', l)) :
  exists v', vsteps (st_heartbeatTimeout s) v l v' /\ represents (fs', s') v' /\
    forall sid, plain sid ->
      match vault_effective v' sid with
      | Some r => ReadEffective fs' s' sid = Ok r
      | None => exists err, ReadEffective fs' s' sid = Err err /\ is_not_exist err = true
      end.
Proof.
  assert (exists v', vsteps (st_heartbeatTimeout s) v l v' /\ represents (fs', s') v') as (v' & Hv & Hr).
  { revert fs s v l Hrep Hrun. induction Hplain as [|c calls Hc _ IH]; intros fs s v l Hrep; cbn [answer_calls].
    { intros [= <- <- <-]. exists v. split; [constructor|done]. }
    destruct (answer_call (fs, s) c) as [[fs1 s1] a] eqn:E.
    destruct (answer_calls (fs1, s1) calls) as [[fs2 s2] l2] eqn:E2. intros [= <- <- <-].
    pose proof (answer_call_timeout (fs, s) c Hc) as Ht. rewrite E in Ht. cbn [fst snd] in Ht.
    destruct (answer_call_refines _ _ _ _ _ _ Hrep Hc E) as (v1 & Hs & Hrep1).
    destruct (IH fs1 s1 v1 l2 Hrep1 E2) as (v2 & Hs2 & Hrep2).
    exists v2. split; [|done]. econstructor; [exact Hs|]. by rewrite <- Ht. }
  exists v'. split; [done|]. split; [done|]. intros sid. by apply represents_effective.
Qed.

(** An empty directory is the empty table. *)
Lemma represents_empty s :
  st_failBeforeRename s = None -> represents (mkFS ∅ ∅, s) (mkVault None ∅ None).
Proof.
  intros Ha. split; cbn [fst snd va_sessions va_root va_armed]; [| |done|].
  - intros sid _. rewrite lookup_empty. eexists. split; reflexivity.
  - eexists. split; reflexivity.
  - intros sid. rewrite lookup_empty. by intros [].
Qed.
End impl.

(** Two calls on an empty directory: a session starts, and a second start is
    refused. *)
Definition demo_calls : list store_call :=
  [CallTransition quiet_env 1 "s1" (to_input LifecycleRunning);
   CallTransition quiet_env 2 "s1" (to_input LifecycleRunning)].

Lemma Store_refines_witness :
  exists v' l fs' s', answer_calls (H := plain_tables) (mkFS ∅ ∅, race_store) demo_calls = (fs', s', l) /\
    vsteps (st_heartbeatTimeout race_store) (mkVault None ∅ None) l v' /\
    match vault_effective v' "s1" with
    | Some r => ReadEffective fs' s' "s1" = Ok r
    | None => exists err, ReadEffective fs' s' "s1" = Err err /\ is_not_exist err = true
    end.
Proof.
  destruct (answer_calls (H := plain_tables) (mkFS ∅ ∅, race_store) demo_calls) as [[fs' s'] l] eqn:E.
  destruct (Store_refines (H := plain_tables) (mkFS ∅ ∅) race_store (mkVault None ∅ None) demo_calls fs' s' l)
    as (v' & Hv & _ & Hr).
  - by apply represents_empty.
  - repeat constructor; by apply (bool_decide_unpack _).
  - exact E.
  - exists v', l, fs', s'. split; [reflexivity|]. split; [exact Hv|].
    apply Hr. by apply (bool_decide_unpack _).
Defined.
