(* ===== verification/Guard.v ===== *)
(** * internal/guard: the policy gate in front of tool calls

    [src/internal/guard/guard.go]: rules are evaluated in order, the strictest
    verdict wins, suppressions switch single rules off, and a rule that fails
    closes the gate for destructive tools only. A rule is an interface value of
    the source; here it is a record of its two methods. *)

From S2P Require Import Prelude GoStrings GoValue GoPath.

Record GuardInput := mkGuardInput {
  gi_RequestID : string;
  gi_Project : string;
  gi_CWD : string;
  gi_Tool : string;
  gi_Args : object;
  gi_Agent : string;
  gi_Autonomy : string;
  gi_SessionID : string
}.

Definition GuardAllow := "allow".
Definition GuardWarn := "warn".
Definition GuardBlock := "block".

Definition SeverityInfo := "info".
Definition SeverityWarning := "warning".
Definition SeverityDanger := "danger".

Record GuardDecision := mkGuardDecision {
  gd_Action : string;
  gd_Severity : string;
  gd_Reason : string;
  gd_RuleID : string
}.

Record GuardResult := mkGuardResult {
  gr_Decision : GuardDecision;
  gr_Decisions : list GuardDecision;
  gr_Warnings : list string;
  gr_SuppressedRules : list string
}.

(** The [Rule] interface *)
Record Rule := mkRule {
  rule_ID : string;
  rule_Evaluate : GuardInput -> result GuardDecision
}.

Record Suppression := mkSuppression {
  su_RuleID : string;
  su_Reason : string;
  su_Scope : string;
  su_Paths : list string;
  su_Tools : list string
}.

(** [guard.Decision] *)
Definition Decision_ (action severity reason ruleID : string) : GuardDecision :=
  mkGuardDecision action severity reason ruleID.

Definition containsString (values : list string) (needle : string) : bool :=
  existsb (fun value => value =s needle) values.

Section tables.
Context `{UnicodeTables}.

Definition isDestructive (tool : string) : bool :=
  existsb (String.eqb (ToLower tool))
    ["write"; "edit"; "apply_patch"; "bash"; "shell_mutation"; "delete"; "rm"].

Definition errorDecision (input : GuardInput) (ruleID : string) (err : error) : GuardDecision :=
  let reason := "guard rule " +:+ Quote ruleID +:+ " failed: " +:+ Error err in
  if isDestructive (gi_Tool input) then Decision_ GuardBlock SeverityDanger reason ruleID
  else Decision_ GuardAllow SeverityWarning reason ruleID.

Definition actionRank (action : string) : Z :=
  if action =s GuardBlock then 3
  else if action =s GuardWarn then 2
  else if action =s GuardAllow then 1
  else 0.

Definition stricter (left right : string) : bool := (actionRank right <? actionRank left)%Z.

Definition severityRank (severity : string) : Z :=
  if severity =s SeverityDanger then 3
  else if severity =s SeverityWarning then 2
  else if severity =s SeverityInfo then 1
  else 0.

Definition validSuppression (s : Suppression) : bool :=
  (su_RuleID s <>s "") && (su_Reason s <>s "") && (su_Scope s =s "project")
  && (negb (bool_decide (su_Paths s = [])) || negb (bool_decide (su_Tools s = []))).

(** The first of the three keys whose value is a string, the empty one included. *)
Fixpoint first_string (keys : list string) (args : object) : string :=
  match keys with
  | [] => ""
  | key :: keys' => match as_string (args !! key) with
                    | Some value => value
                    | None => first_string keys' args
                    end
  end.
Definition inputPath (input : GuardInput) : string :=
  first_string ["path"; "file"; "file_path"] (gi_Args input).

(** [filepath.ToSlash] is the identity where the separator is a slash. *)
Definition pattern_matches (path pattern : string) : bool :=
  if HasSuffix pattern "/**" then HasPrefix path (TrimSuffix pattern "**")
  else match Match pattern path with
       | Ok true => true
       | _ => pattern =s path
       end.
Definition pathMatches (path : string) (patterns : list string) : bool :=
  if path =s "" then false else existsb (pattern_matches path) patterns.

Fixpoint suppressionApplies (input : GuardInput) (ruleID : string)
    (suppressions : list Suppression) : bool :=
  match suppressions with
  | [] => false
  | s :: rest =>
      if negb (validSuppression s) || (su_RuleID s <>s ruleID) then
        suppressionApplies input ruleID rest
      else if negb (bool_decide (su_Tools s = []))
              && negb (containsString (su_Tools s) (gi_Tool input)) then
        suppressionApplies input ruleID rest
      else if negb (bool_decide (su_Paths s = []))
              && negb (pathMatches (inputPath input) (su_Paths s)) then
        suppressionApplies input ruleID rest
      else true
  end.

(** The verdict of one rule that is not suppressed, and its warnings. *)
Definition rule_verdict (input : GuardInput) (rule : Rule) : GuardDecision * list string :=
  let '(decision, warnings) :=
    match rule_Evaluate rule input with
    | Ok decision => (decision, [])
    | Err err =>
        let decision := errorDecision input (rule_ID rule) err in
        (decision, if negb (isDestructive (gi_Tool input)) then [gd_Reason decision] else [])
    end in
  (if gd_Action decision =s "" then Decision_ GuardAllow SeverityInfo "allowed" (rule_ID rule)
   else decision, warnings).

(** Does a later verdict replace the one held so far? *)
Definition replaces (decision held : GuardDecision) : bool :=
  stricter (gd_Action decision) (gd_Action held)
  || ((gd_Action decision =s gd_Action held)
      && (severityRank (gd_Severity held) <? severityRank (gd_Severity decision))%Z).

Definition eval_rule (input : GuardInput) (suppressions : list Suppression)
    (result : GuardResult) (rule : Rule) : GuardResult :=
  if suppressionApplies input (rule_ID rule) suppressions then
    mkGuardResult (gr_Decision result) (gr_Decisions result) (gr_Warnings result)
      (gr_SuppressedRules result ++ [rule_ID rule])
  else
    let '(decision, warnings) := rule_verdict input rule in
    mkGuardResult (if replaces decision (gr_Decision result) then decision else gr_Decision result)
      (gr_Decisions result ++ [decision]) (gr_Warnings result ++ warnings)
      (gr_SuppressedRules result).

Definition default_allow : GuardDecision :=
  Decision_ GuardAllow SeverityInfo "allowed" "default-allow".

Definition Evaluate (input : GuardInput) (rules : list Rule) (suppressions : list Suppression)
    : GuardResult :=
  foldl (eval_rule input suppressions) (mkGuardResult default_allow [] [] []) rules.

(** ** Specification *)

(** How strict a verdict is: its action first, its severity among equal actions. *)
Definition verdict_rank (d : GuardDecision) : Z :=
  (4 * actionRank (gd_Action d) + severityRank (gd_Severity d))%Z.

Definition live (input : GuardInput) (suppressions : list Suppression) (rule : Rule) : bool :=
  negb (suppressionApplies input (rule_ID rule) suppressions).

(** [d] is the first of the strictest among [l]. *)
Definition first_strictest (d : GuardDecision) (l : list GuardDecision) : Prop :=
  exists before after, l = before ++ d :: after /\
    Forall (fun e => verdict_rank e < verdict_rank d)%Z before /\
    Forall (fun e => verdict_rank e <= verdict_rank d)%Z after.

(** When one suppression covers a call. *)
Definition covers (input : GuardInput) (ruleID : string) (s : Suppression) : Prop :=
  su_RuleID s = ruleID /\ ruleID <> "" /\ su_Reason s <> "" /\ su_Scope s = "project" /\
  (su_Paths s <> [] \/ su_Tools s <> []) /\
  (su_Tools s = [] \/ gi_Tool input ∈ su_Tools s) /\
  (su_Paths s = [] \/ pathMatches (inputPath input) (su_Paths s) = true).

(** ** Lemmas *)

Lemma containsString_spec values needle : containsString values needle = true <-> needle ∈ values.
Proof.
  unfold containsString. rewrite existsb_elem. setoid_rewrite eqb_true. naive_solver.
Qed.

Lemma actionRank_range a : (0 <= actionRank a <= 3)%Z.
Proof. unfold actionRank. repeat go_case; lia. Qed.

Lemma severityRank_range s : (0 <= severityRank s <= 3)%Z.
Proof. unfold severityRank. repeat go_case; lia. Qed.

Lemma actionRank_inj a b : actionRank a = actionRank b -> (0 < actionRank b)%Z -> a = b.
Proof. unfold actionRank. repeat go_case; str_simpl; subst; (done || lia). Qed.

Lemma actionRank_pos a : (0 < actionRank a)%Z -> a ∈ [GuardAllow; GuardWarn; GuardBlock].
Proof. unfold actionRank. repeat go_case; str_simpl; subst; intros; (in_list || lia). Qed.

Lemma actionRank_block a : (3 <= actionRank a)%Z -> a = GuardBlock.
Proof. unfold actionRank. repeat go_case; str_simpl; subst; intros; (done || lia). Qed.

(** As long as the held verdict is one of the three actions, replacing is
    comparing ranks, and the new one is again one of the three. *)
Lemma replaces_rank d held :
  (0 < actionRank (gd_Action held))%Z ->
  replaces d held = (verdict_rank held <? verdict_rank d)%Z.
Proof.
  intros Hpos. unfold replaces, stricter, verdict_rank. apply eq_true_iff_eq.
  rewrite orb_true_iff, andb_true_iff, !Z.ltb_lt, eqb_true.
  pose proof (severityRank_range (gd_Severity d)).
  pose proof (severityRank_range (gd_Severity held)). split.
  - intros [?|[-> ?]]; lia.
  - intros Hlt. destruct (Z.lt_trichotomy (actionRank (gd_Action held)) (actionRank (gd_Action d)))
      as [?|[E|?]]; [by left | | lia].
    right. rewrite E in Hlt. split; [by apply actionRank_inj | lia].
Qed.

Lemma first_strictest_step d l e :
  first_strictest d l -> (0 < actionRank (gd_Action d))%Z ->
  first_strictest (if replaces e d then e else d) (l ++ [e]) /\
  (0 < actionRank (gd_Action (if replaces e d then e else d)))%Z.
Proof.
  intros (b & a & -> & Hb & Ha) Hpos. rewrite replaces_rank by done.
  destruct (verdict_rank d <? verdict_rank e)%Z eqn:E.
  - apply Z.ltb_lt in E. split.
    + exists (b ++ d :: a), []. split; [done|]. split; [|constructor].
      apply Forall_app. split; [eapply Forall_impl; [exact Hb|] ; simpl; lia|].
      constructor; [done|]. eapply Forall_impl; [exact Ha|]; simpl; lia.
    + unfold verdict_rank in E. pose proof (severityRank_range (gd_Severity d)).
      pose proof (severityRank_range (gd_Severity e)). lia.
  - apply Z.ltb_ge in E. split; [|done]. exists b, (a ++ [e]).
    split; [by rewrite <- app_assoc|]. split; [done|].
    apply Forall_app. split; [done|]. by constructor.
Qed.

Lemma eval_rule_live input suppressions acc rule :
  live input suppressions rule = true ->
  eval_rule input suppressions acc rule =
    let d := (rule_verdict input rule).1 in
    mkGuardResult (if replaces d (gr_Decision acc) then d else gr_Decision acc)
      (gr_Decisions acc ++ [d]) (gr_Warnings acc ++ (rule_verdict input rule).2)
      (gr_SuppressedRules acc).
Proof.
  unfold live, eval_rule. rewrite negb_true_iff. intros ->. by destruct (rule_verdict input rule).
Qed.

Lemma eval_rule_dead input suppressions acc rule :
  live input suppressions rule = false ->
  eval_rule input suppressions acc rule =
    mkGuardResult (gr_Decision acc) (gr_Decisions acc) (gr_Warnings acc)
      (gr_SuppressedRules acc ++ [rule_ID rule]).
Proof. unfold live, eval_rule. rewrite negb_false_iff. by intros ->. Qed.

Lemma Evaluate_fold input suppressions rules acc :
  first_strictest (gr_Decision acc) (default_allow :: gr_Decisions acc) ->
  (0 < actionRank (gd_Action (gr_Decision acc)))%Z ->
  let r := foldl (eval_rule input suppressions) acc rules in
  let lives := List.filter (live input suppressions) rules in
  first_strictest (gr_Decision r) (default_allow :: gr_Decisions r) /\
  gr_Decisions r = gr_Decisions acc ++ map (fun rule => (rule_verdict input rule).1) lives /\
  gr_Warnings r = gr_Warnings acc ++ concat (map (fun rule => (rule_verdict input rule).2) lives) /\
  gr_SuppressedRules r = gr_SuppressedRules acc ++
    map rule_ID (List.filter (fun rule => negb (live input suppressions rule)) rules).
Proof.
  revert acc. induction rules as [|rule rules IH]; intros acc Hs Hpos; cbn -[live eval_rule].
  { by rewrite !app_nil_r. }
  destruct (live input suppressions rule) eqn:E.
  - rewrite (eval_rule_live _ _ _ _ E).
    destruct (first_strictest_step _ _ (rule_verdict input rule).1 Hs Hpos) as [Hs' Hpos'].
    destruct (IH (mkGuardResult _ (gr_Decisions acc ++ [(rule_verdict input rule).1])
      (gr_Warnings acc ++ (rule_verdict input rule).2) (gr_SuppressedRules acc)) Hs' Hpos')
      as (? & Hd & Hw & Hr).
    cbn in *. split_and!; [done | rewrite Hd | rewrite Hw | done]; by rewrite <- app_assoc.
  - rewrite (eval_rule_dead _ _ _ _ E).
    destruct (IH (mkGuardResult (gr_Decision acc) (gr_Decisions acc) (gr_Warnings acc)
      (gr_SuppressedRules acc ++ [rule_ID rule])) Hs Hpos) as (? & ? & ? & Hr).
    cbn in *. split_and!; [done..|]. rewrite Hr. by rewrite <- app_assoc.
Qed.

Lemma rule_verdict_error input rule err :
  rule_Evaluate rule input = Err err ->
  (rule_verdict input rule).1 = errorDecision input (rule_ID rule) err.
Proof.
  intros E. unfold rule_verdict, errorDecision. rewrite E. by destruct (isDestructive _).
Qed.

Lemma pattern_matches_dir path dir :
  pattern_matches path (dir +:+ "/**") = HasPrefix path (dir +:+ "/").
Proof.
  unfold pattern_matches. replace (HasSuffix (dir +:+ "/**") "/**") with true.
  - unfold TrimSuffix. change "/**" with ("/" +:+ "**"). rewrite <- str_app_assoc.
    replace (HasSuffix _ "**") with true.
    + f_equal. rewrite str_length_app, Nat.add_sub. apply str_take_app.
    + symmetry. apply HasSuffix_spec. eauto.
  - symmetry. apply HasSuffix_spec. eauto.
Qed.

Definition coversb (input : GuardInput) (ruleID : string) (s : Suppression) : bool :=
  validSuppression s && (su_RuleID s =s ruleID)
  && (bool_decide (su_Tools s = []) || containsString (su_Tools s) (gi_Tool input))
  && (bool_decide (su_Paths s = []) || pathMatches (inputPath input) (su_Paths s)).

Lemma covers_bool input ruleID s : coversb input ruleID s = true <-> covers input ruleID s.
Proof.
  unfold coversb, covers, validSuppression.
  rewrite !andb_true_iff, !orb_true_iff, !negb_true_iff, !eqb_false, !eqb_true,
    !bool_decide_eq_true, !bool_decide_eq_false, containsString_spec.
  split.
  - intros. destruct_and!. subst; split_and!; auto; tauto.
  - intros. destruct_and!. subst; split_and!; auto; tauto.
Qed.

(** ** The gate *)

Lemma Evaluate_folded input rules suppressions :
  let r := Evaluate input rules suppressions in
  let lives := List.filter (live input suppressions) rules in
  first_strictest (gr_Decision r) (default_allow :: gr_Decisions r) /\
  gr_Decisions r = map (fun rule => (rule_verdict input rule).1) lives /\
  gr_Warnings r = concat (map (fun rule => (rule_verdict input rule).2) lives) /\
  gr_SuppressedRules r =
    map rule_ID (List.filter (fun rule => negb (live input suppressions rule)) rules).
Proof.
  apply (Evaluate_fold input suppressions rules (mkGuardResult default_allow [] [] []));
    [by exists [], [] | done].
Qed.

Lemma first_strictest_le d l x :
  first_strictest d l -> x ∈ l -> (verdict_rank x <= verdict_rank d)%Z.
Proof.
  intros (b & a & -> & Hb & Ha). rewrite Forall_forall in Hb, Ha.
  intros [Hx|[->|Hx]%elem_of_cons]%elem_of_app; [specialize (Hb _ Hx) | | specialize (Ha _ Hx)]; lia.
Qed.

Lemma Evaluate_action input rules suppressions :
  gd_Action (gr_Decision (Evaluate input rules suppressions)) ∈ [GuardAllow; GuardWarn; GuardBlock].
Proof.
  destruct (Evaluate_folded input rules suppressions) as (Hs & _).
  apply (first_strictest_le _ _ default_allow) in Hs; [|by left].
  apply actionRank_pos. change (verdict_rank default_allow) with 5%Z in Hs. unfold verdict_rank in Hs.
  pose proof (severityRank_range (gd_Severity (gr_Decision (Evaluate input rules suppressions)))).
  lia.
Qed.

Lemma failing_rule_blocks input rules suppressions rule err :
  rule ∈ rules -> live input suppressions rule = true -> rule_Evaluate rule input = Err err ->
  isDestructive (gi_Tool input) = true ->
  gd_Action (gr_Decision (Evaluate input rules suppressions)) = GuardBlock.
Proof.
  intros Hin Hlive Herr Hdes.
  destruct (Evaluate_folded input rules suppressions) as (Hs & Hd & _).
  assert (errorDecision input (rule_ID rule) err
          ∈ gr_Decisions (Evaluate input rules suppressions)) as Hde.
  { rewrite Hd. apply list_elem_of_fmap. exists rule.
    split; [symmetry; by apply rule_verdict_error|].
    apply list_elem_of_In, List.filter_In. split; [by apply list_elem_of_In | done]. }
  apply (first_strictest_le _ _ (errorDecision input (rule_ID rule) err)) in Hs; [|by right].
  assert (verdict_rank (errorDecision input (rule_ID rule) err) = 15%Z) as Hmax
    by (unfold errorDecision; by rewrite Hdes).
  rewrite Hmax in Hs. unfold verdict_rank in Hs.
  pose proof (severityRank_range (gd_Severity (gr_Decision (Evaluate input rules suppressions)))).
  apply actionRank_block. lia.
Qed.

(** C14: every rule that no suppression covers gives one verdict, in the order of
    the rules, the suppressed ones are listed and give none, and the decision is
    the first of the strictest verdicts (action first, then severity), the
    default [allow] counting as the weakest start. *)
Theorem Evaluate_spec input rules suppressions :
  let r := Evaluate input rules suppressions in
  let lives := List.filter (live input suppressions) rules in
  gr_Decisions r = map (fun rule => (rule_verdict input rule).1) lives /\
  gr_Warnings r = concat (map (fun rule => (rule_verdict input rule).2) lives) /\
  gr_SuppressedRules r =
    map rule_ID (List.filter (fun rule => negb (live input suppressions rule)) rules) /\
  first_strictest (gr_Decision r) (default_allow :: gr_Decisions r) /\
  gd_Action (gr_Decision r) ∈ [GuardAllow; GuardWarn; GuardBlock].
Proof.
  intros r lives. destruct (Evaluate_folded input rules suppressions) as (? & ? & ? & ?).
  split_and!; [done.. | apply Evaluate_action].
Qed.

(** C26: the gate fails closed where it matters: when a rule that is not suppressed
    fails on a destructive tool, the call is blocked. On any other tool a
    failing rule only warns, and never makes the verdict stricter than the rules
    that did not fail. *)
Theorem Evaluate_fail_closed input rules suppressions rule err :
  rule ∈ rules -> live input suppressions rule = true -> rule_Evaluate rule input = Err err ->
  let r := Evaluate input rules suppressions in
  if isDestructive (gi_Tool input) then gd_Action (gr_Decision r) = GuardBlock
  else gd_Reason (errorDecision input (rule_ID rule) err) ∈ gr_Warnings r /\
       ((forall other d, other ∈ rules -> rule_Evaluate other input = Ok d ->
           gd_Action d ∈ [GuardAllow; ""]) -> gd_Action (gr_Decision r) = GuardAllow).
Proof.
  intros Hin Hlive Herr r.
  destruct (isDestructive (gi_Tool input)) eqn:Hdes; [by eapply failing_rule_blocks|].
  destruct (Evaluate_folded input rules suppressions) as (Hs & Hd & Hw & _).
  fold r in Hs, Hd, Hw. split.
  - rewrite Hw. apply list_elem_of_In, in_concat. exists (rule_verdict input rule).2. split.
    + apply (in_map (fun rule => (rule_verdict input rule).2)), List.filter_In.
      split; [by apply list_elem_of_In | done].
    + unfold rule_verdict, errorDecision. rewrite Herr, Hdes. by left.
  - intros Hall. destruct Hs as (b & a & E & _).
    assert (gr_Decision r ∈ default_allow :: gr_Decisions r) as Hx
      by (rewrite E; apply elem_of_app; right; left).
    apply elem_of_cons in Hx as [->|Hx]; [done|].
    rewrite Hd in Hx. apply list_elem_of_fmap in Hx as (o & -> & Ho).
    apply list_elem_of_In, List.filter_In in Ho as [Ho _]. apply list_elem_of_In in Ho.
    unfold rule_verdict. destruct (rule_Evaluate o input) as [d|e] eqn:Eo.
    + specialize (Hall o d Ho Eo). cbn.
      destruct (gd_Action d =s "") eqn:Q; str_simpl; [done|]. set_solver.
    + unfold errorDecision. rewrite Hdes. done.
Qed.

(** A rule is suppressed exactly when some suppression covers the call: it
    names the rule, has a reason and project scope, restricts itself by tools or
    by paths, and every restriction it states matches. *)
Theorem suppressionApplies_spec input ruleID suppressions :
  suppressionApplies input ruleID suppressions = true <->
  exists s, s ∈ suppressions /\ covers input ruleID s.
Proof.
  induction suppressions as [|s rest IH]; cbn [suppressionApplies].
  { split; [done|]. intros (s & Hs & _). inversion Hs. }
  pose proof (covers_bool input ruleID s) as Hc. unfold coversb in Hc.
  transitivity (covers input ruleID s \/ suppressionApplies input ruleID rest = true);
    [|rewrite IH; set_solver].
  rewrite <- Hc.
  destruct (validSuppression s), (su_RuleID s =s ruleID), (bool_decide (su_Tools s = [])),
    (containsString _ _), (bool_decide (su_Paths s = [])), (pathMatches _ _); simpl; intuition done.
Qed.

(** A directory suppression [dir/**] compares raw prefixes: it also covers a
    path that leaves the directory by a parent component, although that path
    names a file elsewhere in the project. *)
Theorem suppression_covers_parent_paths dir file :
  plain dir -> plain file ->
  pathMatches (dir +:+ "/../" +:+ file) [dir +:+ "/**"] = true /\
  Clean (dir +:+ "/../" +:+ file) = file.
Proof.
  intros Hd Hf. split.
  - unfold pathMatches. replace (_ =s "") with false; cbn [existsb].
    + rewrite pattern_matches_dir, orb_false_r. apply HasPrefix_spec.
      exists ("../" +:+ file). by rewrite str_app_assoc.
    + symmetry. apply eqb_false. intros [-> _]%str_app_nil. by destruct Hd.
  - assert (is_rooted (dir +:+ "/../" +:+ file) = false) as Hr.
    { rewrite is_rooted_app by apply Hd. destruct Hd as (? & _ & _ & Hd), dir as [|c s]; [done|].
      unfold is_rooted. rewrite prefix_single. rewrite Contains_byte_cons in Hd.
      by apply orb_false_elim in Hd as [? _]. }
    unfold Clean. rewrite Hr.
    change ("/../" +:+ file) with (String slash (".." +:+ String slash file)).
    rewrite !Split_app, (Split_none _ dir), (Split_none _ file) by (apply Hd || apply Hf).
    change (Split ".." slash) with [".."]. unfold clean_stack. cbn [app foldl].
    rewrite (clean_step_plain _ _ dir) by done. unfold clean_step at 2. cbn.
    destruct (dir =s "..") eqn:E; [str_simpl; subst; by destruct Hd as (_ & _ & ? & _)|].
    rewrite clean_step_plain by done. done.
Qed.
End tables.

(** ** Witnesses *)

Definition failing_rule : Rule := mkRule "explode" (fun _ => Err (errorf "boom")).
Definition tool_call (tool : string) : GuardInput := mkGuardInput "" "/repo" "" tool ∅ "" "" "".

Lemma Evaluate_fail_closed_witness :
  gd_Action (gr_Decision (Evaluate (H := plain_tables) (tool_call "Write") [failing_rule] []))
    = GuardBlock /\
  gd_Reason (errorDecision (H := plain_tables) (tool_call "read") "explode" (errorf "boom"))
    ∈ gr_Warnings (Evaluate (H := plain_tables) (tool_call "read") [failing_rule] []).
Proof.
  split.
  - apply (Evaluate_fail_closed (H := plain_tables) (tool_call "Write") [failing_rule] []
      failing_rule (errorf "boom")); [in_list | vm_compute; reflexivity | reflexivity].
  - apply (Evaluate_fail_closed (H := plain_tables) (tool_call "read") [failing_rule] []
      failing_rule (errorf "boom")); [in_list | vm_compute; reflexivity | reflexivity].
Defined.

Lemma suppression_covers_parent_paths_witness :
  pathMatches ("gen" +:+ "/../" +:+ "main.go") ["gen" +:+ "/**"] = true /\
  Clean ("gen" +:+ "/../" +:+ "main.go") = "main.go".
Proof.
  apply suppression_covers_parent_paths; apply (bool_decide_unpack _); vm_compute; exact I.
Defined.
