(* ===== verification/GoTime.v ===== *)
(** * Contexts, clocks and time formatting

    What the handlers use of Go's [context] and [time] packages. A context is the
    chain of calls that derived it, so that a callee (a sink, a runner, a worker)
    can tell a request's context from one detached by [WithoutCancel]. *)

From S2P Require Import Prelude GoStrings GoValue.

(** ** Contexts *)

Inductive context :=
| CtxRequest                                  (* the context a handler was given *)
| WithCancel (parent : context)
| WithTimeout (parent : context) (d : duration)
| WithoutCancel (parent : context).

(** Is the context cancelled because the request's context is? (Expired
    timeouts are the callee's own business.) *)
Fixpoint parent_cancelled (cancelled : bool) (ctx : context) : bool :=
  match ctx with
  | CtxRequest => cancelled
  | WithCancel parent | WithTimeout parent _ => parent_cancelled cancelled parent
  | WithoutCancel _ => false
  end.

(** The sources of [time.Now()] and [crypto/rand.Read] in a world [W]. *)
Class Clock (W : Type) := time_Now : W -> W * time.
Class Entropy (W : Type) := rand_Read : nat -> W -> W * result string.

(** ** [t.UTC().Format(time.RFC3339Nano)]

    Times are UTC; the civil date is computed over 400-year eras with the year
    starting in March. *)

Definition civil (days : Z) : Z * Z * Z :=
  let z := (days + 306)%Z in                    (* days since 0000-03-01 *)
  let era := (z / 146097)%Z in
  let doe := (z mod 146097)%Z in
  let yoe := ((doe - doe / 1460 + doe / 36524 - doe / 146096) / 365)%Z in
  let doy := (doe - (365 * yoe + yoe / 4 - yoe / 100))%Z in
  let mp := ((5 * doy + 2) / 153)%Z in
  let d := (doy - (153 * mp + 2) / 5 + 1)%Z in
  let m := (if mp <? 10 then mp + 3 else mp - 9)%Z in
  let y := (yoe + era * 400 + (if m <=? 2 then 1 else 0))%Z in
  (y, m, d).

(** [n] in decimal, padded with zeros to [k] digits *)
Fixpoint zeros (k : nat) : string :=
  match k with O => "" | S k => "0" +:+ zeros k end.
Definition pad (k : nat) (n : Z) : string :=
  let s := Itoa n in zeros (k - String.length s) +:+ s.

Fixpoint strip_trailing_zeros (fuel : nat) (s : string) : string :=
  match fuel with
  | O => s
  | S fuel => if HasSuffix s "0" then strip_trailing_zeros fuel (TrimSuffix s "0") else s
  end.

Definition FormatRFC3339Nano (t : time) : string :=
  let secs := (t / Second)%Z in
  let nanos := (t mod Second)%Z in
  let '(y, m, d) := civil (secs / 86400)%Z in
  let sod := (secs mod 86400)%Z in
  let frac := if (nanos =? 0)%Z then "" else "." +:+ strip_trailing_zeros 9 (pad 9 nanos) in
  pad 4 y +:+ "-" +:+ pad 2 m +:+ "-" +:+ pad 2 d +:+ "T" +:+ pad 2 (sod / 3600)%Z +:+ ":"
  +:+ pad 2 (sod / 60 mod 60)%Z +:+ ":" +:+ pad 2 (sod mod 60)%Z +:+ frac +:+ "Z".

Example format_epoch : FormatRFC3339Nano (62135596800 * Second)%Z = "1970-01-01T00:00:00Z".
Proof. vm_compute. reflexivity. Qed.
Example format_leap :
  FormatRFC3339Nano ((62135596800 + 1709210096) * Second + 120000000)%Z
  = "2024-02-29T12:34:56.12Z".
Proof. vm_compute. reflexivity. Qed.

Lemma detached_survives cancelled parent d :
  parent_cancelled cancelled (WithTimeout (WithoutCancel parent) d) = false.
Proof. done. Qed.
