(* ===== verification/Rfc3339.v ===== *)
(** * Parsing RFC 3339

    [parseRFC3339] of Go's [time] package, the path that [Time.UnmarshalJSON] and
    [time.Parse] with [RFC3339] or [RFC3339Nano] try first, and its round trip
    with [GoTime.FormatRFC3339Nano]. What they accept beyond it is a parameter. *)

From S2P Require Import Prelude GoStrings GoValue GoTime JsonText Json.

(** ** Dates *)

Definition leap_year (y : Z) : bool :=
  ((y mod 4 =? 0) && (negb (y mod 100 =? 0) || (y mod 400 =? 0)))%Z.

(** [daysIn] *)
Definition daysIn (m y : Z) : Z :=
  if (m =? 2)%Z && leap_year y then 29
  else nth (Z.to_nat (m - 1)) [31; 28; 31; 30; 31; 30; 31; 31; 30; 31; 30; 31]%Z 0%Z.

(** Days since 1 January of year 1. *)
Definition days_before_year (y : Z) : Z :=
  let p := (y - 1)%Z in (365 * p + p / 4 - p / 100 + p / 400)%Z.
Definition days_before_month (m y : Z) : Z :=
  (nth (Z.to_nat (m - 1)) [0; 31; 59; 90; 120; 151; 181; 212; 243; 273; 304; 334] 0
   + (if (2 <? m) && leap_year y then 1 else 0))%Z.
Definition date (y m d : Z) : Z := (days_before_year y + days_before_month m y + d - 1)%Z.

(** ** The parser *)

(** The decimal number in the first [k] bytes. *)
Definition take_uint (k : nat) (lo hi : Z) (s : string) : option (Z * string) :=
  if (String.length s <? k)%nat then None
  else x ← digits_value 0 (str_take k s);
       if ((lo <=? x) && (x <=? hi))%Z then Some (x, str_drop k s) else None.

Definition take_char (c : ascii) (s : string) : option string :=
  match s with
  | String b r => if Ascii.eqb b c then Some r else None
  | EmptyString => None
  end.

(** [parseNanoseconds]: at most nine digits count. *)
Definition nanoseconds (digits : string) : Z :=
  let digits := str_take 9 digits in
  (default 0 (digits_value 0 digits) * 10 ^ Z.of_nat (9 - String.length digits))%Z.

Definition take_fraction (s : string) : Z * string :=
  match s with
  | String c r =>
      match span_digits r with
      | (String _ _ as digits, rest) => if Ascii.eqb c "." then (nanoseconds digits, rest) else (0%Z, s)
      | _ => (0%Z, s)
      end
  | EmptyString => (0%Z, "")
  end.

(** The offset of the zone in seconds. *)
Definition take_zone (s : string) : option Z :=
  if s =s "Z" then Some 0%Z
  else match s with
  | String sign s =>
      if is_sign sign then
        '(hr, s) ← take_uint 2 0 23 s; s ← take_char ":" s; '(mm, s) ← take_uint 2 0 59 s;
        if s =s "" then Some ((if is_minus sign then -1 else 1) * (hr * 60 + mm) * 60)%Z else None
      else None
  | EmptyString => None
  end.

Definition parseRFC3339 (s : string) : option time :=
  '(y, s) ← take_uint 4 0 9999 s; s ← take_char "-" s;
  '(m, s) ← take_uint 2 1 12 s; s ← take_char "-" s;
  '(d, s) ← take_uint 2 1 (daysIn m y) s; s ← take_char "T" s;
  '(hour, s) ← take_uint 2 0 23 s; s ← take_char ":" s;
  '(min, s) ← take_uint 2 0 59 s; s ← take_char ":" s;
  '(sec, s) ← take_uint 2 0 59 s;
  let '(nanos, s) := take_fraction s in
  offset ← take_zone s;
  Some ((((date y m d * 24 + hour) * 60 + min) * 60 + sec - offset) * Second + nanos)%Z.

Example parse_epoch : parseRFC3339 "1970-01-01T00:00:00Z" = Some (62135596800 * Second)%Z.
Proof. vm_compute. reflexivity. Qed.
Example parse_offset :
  parseRFC3339 "2024-02-29T14:34:56.12+02:00" = Some ((62135596800 + 1709210096) * Second + 120000000)%Z.
Proof. vm_compute. reflexivity. Qed.
Example parse_bad : parseRFC3339 "2023-02-29T14:34:56Z" = None /\ parseRFC3339 "2023-02-28T14:34:5Z" = None.
Proof. vm_compute. split; reflexivity. Qed.

(** ** Dates go round *)

(** A statement about the numbers below [n], checked one by one. *)
Lemma below_spec (P : Z -> bool) n :
  forallb P (map Z.of_nat (seq 0 n)) = true -> forall z, (0 <= z < Z.of_nat n)%Z -> P z = true.
Proof.
  rewrite forallb_forall. intros Hall z Hz. apply Hall, in_map_iff. exists (Z.to_nat z).
  rewrite Z2Nat.id by lia. split; [done|]. apply in_seq. lia.
Qed.

(** Year of the era and day of the year, as [civil] computes them; both years and
    eras begin in March. *)
Definition year_of_era (doe : Z) : Z := ((doe - doe / 1460 + doe / 36524 - doe / 146096) / 365)%Z.
Definition era_start (yoe : Z) : Z := (365 * yoe + yoe / 4 - yoe / 100)%Z.
(** The year after the last begins a day later. *)
Definition era_end (yoe : Z) : Z := if (yoe =? 399)%Z then 146097%Z else era_start (yoe + 1).

Lemma year_of_era_mono a b : (0 <= a <= b)%Z -> (b < 146097)%Z -> (year_of_era a <= year_of_era b)%Z.
Proof.
  intros Hab Hb. apply Z.div_le_mono; [lia|].
  pose proof (Z.div_le_mono a b 36524 ltac:(lia) ltac:(lia)).
  assert (forall a b, a <= b -> a - a / 1460 <= b - b / 1460)%Z as Hm
    by (intros; Z.to_euclidean_division_equations; lia).
  assert (a - a / 1460 - a / 146096 <= b - b / 1460 - b / 146096)%Z; [|lia].
  destruct (Z.eq_dec b 146096) as [->|Hne].
  - destruct (Z.eq_dec a 146096) as [->|Hne]; [lia|]. rewrite (Z.div_small a 146096) by lia.
    pose proof (Hm a 146095%Z ltac:(lia)). change (146095 / 1460)%Z with 100%Z in *.
    change (146096 / 1460)%Z with 100%Z. change (146096 / 146096)%Z with 1%Z. lia.
  - rewrite (Z.div_small a 146096), (Z.div_small b 146096) by lia. pose proof (Hm a b ltac:(lia)). lia.
Qed.

Lemma year_of_era_ends y : (0 <= y < 400)%Z ->
  ((year_of_era (era_start y) =? y) && (year_of_era (era_end y - 1) =? y)
   && (era_start y <=? era_end y - 1) && (0 <=? era_start y) && (era_end y <=? 146097))%Z = true.
Proof. revert y. apply (below_spec _ 400). vm_compute. reflexivity. Qed.

Lemma year_of_era_spec doe : (0 <= doe < 146097)%Z ->
  let y := year_of_era doe in (0 <= y < 400 /\ era_start y <= doe < era_end y)%Z.
Proof.
  intros Hdoe y.
  assert (0 <= y < 400)%Z as Hy.
  { pose proof (year_of_era_mono 0 doe ltac:(lia) ltac:(lia)). pose proof (year_of_era_mono doe 146096 ltac:(lia) ltac:(lia)).
    change (year_of_era 0) with 0%Z in *. change (year_of_era 146096) with 399%Z in *. unfold y. lia. }
  split; [exact Hy|]. split.
  - destruct (Z.lt_ge_cases doe (era_start y)) as [Hlt|]; [|done]. exfalso.
    assert (y <> 0)%Z by (intros E; rewrite E in Hlt; change (era_start 0) with 0%Z in Hlt; lia).
    pose proof (year_of_era_ends (y - 1) ltac:(lia)) as He. rewrite !andb_true_iff, !Z.eqb_eq, !Z.leb_le in He.
    assert (era_end (y - 1) = era_start y) as Ee.
    { unfold era_end. destruct (Z.eqb_spec (y - 1) 399); [lia|]. f_equal. lia. }
    rewrite Ee in He. pose proof (year_of_era_mono doe (era_start y - 1) ltac:(lia) ltac:(lia)). fold y in H. lia.
  - destruct (Z.lt_ge_cases doe (era_end y)) as [|Hge]; [done|]. exfalso.
    unfold era_end in Hge. destruct (Z.eqb_spec y 399); [lia|].
    pose proof (year_of_era_ends (y + 1) ltac:(lia)) as He. rewrite !andb_true_iff, !Z.eqb_eq, !Z.leb_le in He.
    pose proof (year_of_era_mono (era_start (y + 1)) doe ltac:(lia) ltac:(lia)). fold y in H. lia.
Qed.

(** Day of the year to month and day, in years that begin in March. *)
Definition month_index (doy : Z) : Z := ((5 * doy + 2) / 153)%Z.
Definition month_of (doy : Z) : Z := (if month_index doy <? 10 then month_index doy + 3 else month_index doy - 9)%Z.
Definition day_of (doy : Z) : Z := (doy - (153 * month_index doy + 2) / 5 + 1)%Z.

Lemma month_day_spec doy : (0 <= doy < 366)%Z ->
  ((1 <=? month_of doy) && (month_of doy <=? 12) && (1 <=? day_of doy)
   && (days_before_month (month_of doy) 1 + day_of doy - 1
       =? (if month_of doy <=? 2 then doy - 306 else doy + 59))
   && ((day_of doy <=? daysIn (month_of doy) 1)
       || ((doy =? 365) && (month_of doy =? 2) && (day_of doy =? 29))))%Z = true.
Proof. revert doy. apply (below_spec _ 366). vm_compute. reflexivity. Qed.

Lemma year_spec y : (0 <= y < 400)%Z ->
  ((days_before_year y + (if leap_year y then 1 else 0) =? era_start y - 365)
   && (days_before_year (y + 1) =? era_start y)
   && (era_end y <=? era_start y + 366)
   && ((era_end y <=? era_start y + 365) || leap_year (y + 1)))%Z = true.
Proof. revert y. apply (below_spec _ 400). vm_compute. reflexivity. Qed.

Lemma leap_year_period y e : leap_year (y + 400 * e) = leap_year y.
Proof.
  unfold leap_year.
  replace (y + 400 * e)%Z with (y + (100 * e) * 4)%Z at 1 by lia. rewrite Z.mod_add by lia.
  replace (y + 400 * e)%Z with (y + (4 * e) * 100)%Z at 1 by lia. rewrite Z.mod_add by lia.
  replace (y + 400 * e)%Z with (y + e * 400)%Z by lia. by rewrite Z.mod_add by lia.
Qed.

Lemma days_before_year_period y e : days_before_year (y + 400 * e) = (days_before_year y + 146097 * e)%Z.
Proof.
  unfold days_before_year. replace (y + 400 * e - 1)%Z with ((y - 1) + 400 * e)%Z by lia.
  generalize (y - 1)%Z. intros p.
  replace (p + 400 * e)%Z with (p + (100 * e) * 4)%Z at 2 by lia. rewrite Z.div_add by lia.
  replace (p + 400 * e)%Z with (p + (4 * e) * 100)%Z at 2 by lia. rewrite Z.div_add by lia.
  replace (p + 400 * e)%Z with (p + e * 400)%Z at 2 by lia. rewrite Z.div_add by lia. lia.
Qed.

(** [civil] in terms of these. *)
Lemma civil_eq n :
  civil n =
    let era := ((n + 306) / 146097)%Z in
    let doe := ((n + 306) mod 146097)%Z in
    let doy := (doe - era_start (year_of_era doe))%Z in
    (year_of_era doe + era * 400 + (if month_of doy <=? 2 then 1 else 0), month_of doy, day_of doy)%Z.
Proof. reflexivity. Qed.

(** The civil date of a day is a date, and its day is that day. *)
Lemma date_civil n :
  let '(y, m, d) := civil n in
  date y m d = n /\ (1 <= m <= 12)%Z /\ (1 <= d <= daysIn m y)%Z.
Proof.
  rewrite civil_eq. cbv zeta.
  set (era := ((n + 306) / 146097)%Z). set (doe := ((n + 306) mod 146097)%Z).
  assert (0 <= doe < 146097)%Z as Hdoe by (apply Z.mod_pos_bound; lia).
  assert (n = 146097 * era + doe - 306)%Z as Hn by (pose proof (Z.div_mod (n + 306) 146097); lia).
  clearbody era doe. subst n.
  destruct (year_of_era_spec doe Hdoe) as [Hy Hstart]. set (y := year_of_era doe) in *.
  pose proof (year_spec y Hy) as Hspec. rewrite !andb_true_iff, orb_true_iff, !Z.eqb_eq, !Z.leb_le in Hspec.
  destruct Hspec as (((S1 & S2) & S3) & S4).
  set (doy := (doe - era_start y)%Z). assert (0 <= doy < 366)%Z as Hdoy by (unfold doy; lia).
  pose proof (month_day_spec doy Hdoy) as Hm.
  rewrite !andb_true_iff, orb_true_iff, !andb_true_iff, !Z.eqb_eq, !Z.leb_le in Hm.
  destruct Hm as ((((M1 & M2) & M3) & M4) & M5).
  replace (y + era * 400 + (if month_of doy <=? 2 then 1 else 0))%Z with
    ((y + (if month_of doy <=? 2 then 1 else 0)) + 400 * era)%Z by lia.
  unfold date, daysIn, days_before_month in *. rewrite days_before_year_period, leap_year_period.
  destruct (Z.leb_spec (month_of doy) 2) as [Hle|Hgt].
  - assert ((2 <? month_of doy)%Z = false) as E by (apply Z.ltb_ge; lia). rewrite E in *. cbn [andb] in *.
    split; [unfold doy in *; lia|]. split; [lia|]. split; [lia|]. change (leap_year 1) with false in M5.
    rewrite andb_false_r in M5.
    destruct M5 as [M5|[[D ->] ->]]; [|].
    + destruct (Z.eqb_spec (month_of doy) 2) as [Em|_]; [|exact M5]. rewrite Em in *. change (Z.to_nat (2 - 1)) with 1 in M5 |- *. cbn in M5 |- *.
      destruct (leap_year (y + 1)); lia.
    + cbn [Z.eqb Pos.eqb andb]. destruct S4 as [S4| ->]; [unfold doy in *; lia|lia].
  - assert ((2 <? month_of doy)%Z = true) as E by (apply Z.ltb_lt; lia). rewrite E in *. cbn [andb] in *.
    rewrite Z.add_0_r in *. change (leap_year 1) with false in *. rewrite andb_false_r in M5.
    split; [unfold doy in *; destruct (leap_year y); lia|]. split; [lia|]. split; [lia|].
    destruct (Z.eqb_spec (month_of doy) 2); [lia|]. cbn [andb]. destruct M5 as [M5|[[_ ?] _]]; [exact M5|lia].
Qed.

(** The years that RFC 3339 can write. *)
Lemma month_bound m d y : (1 <= m <= 12)%Z -> (1 <= d <= daysIn m y)%Z ->
  (0 <= days_before_month m y + d - 1 <= 364 + (if leap_year y then 1 else 0))%Z.
Proof.
  intros Hm Hd. assert (m ∈ map Z.of_nat (seq 1 12)) as Hin.
  { apply list_elem_of_fmap. exists (Z.to_nat m). split; [lia|]. apply elem_of_seq. lia. }
  clear Hm. revert Hd. unfold daysIn, days_before_month. cbn [map seq] in Hin.
  in_list_cases Hin; subst m; destruct (leap_year y);
    repeat match goal with
    | |- context [Z.to_nat (?t - 1)] =>
        let v := eval vm_compute in (Z.to_nat (t - 1)) in change (Z.to_nat (t - 1)) with v
    | |- context [Z.eqb ?a 2] => let v := eval vm_compute in (Z.eqb a 2) in change (Z.eqb a 2) with v
    | |- context [Z.ltb 2 ?a] => let v := eval vm_compute in (Z.ltb 2 a) in change (Z.ltb 2 a) with v
    end; cbn [nth andb]; lia.
Qed.

Lemma days_before_year_mono y : (10000 <= y -> 3652059 <= days_before_year y)%Z /\
  (y <= -1 -> days_before_year y <= -731)%Z /\ (y <= -2 -> days_before_year y <= -1096)%Z.
Proof.
  unfold days_before_year. split_and!; intros Hy; Z.to_euclidean_division_equations; lia.
Qed.

Lemma civil_year n : (-366 <= n < 3652059)%Z -> let '(y, _, _) := civil n in (0 <= y <= 9999)%Z.
Proof.
  intros Hn. pose proof (date_civil n) as Hd. destruct (civil n) as [[y m] d]. destruct Hd as (Hd & Hm & Hday).
  pose proof (month_bound m d y Hm Hday) as Hb. unfold date in Hd.
  destruct (days_before_year_mono y) as (H1 & H2 & H3).
  destruct (Z.eq_dec y (-1)) as [->|Hne].
  - change (leap_year (-1)) with false in Hb. lia.
  - destruct (leap_year y); lia.
Qed.

(** ** Padded numbers go round *)

Lemma pretty_N_go_length k x s : (x < 10 ^ N.of_nat k)%N -> String.length (pretty_N_go x s) <= k + String.length s.
Proof.
  revert x s. induction k as [|k IH]; intros x s Hx.
  { change (10 ^ N.of_nat 0)%N with 1%N in Hx. assert (x = 0)%N as -> by lia. rewrite pretty_N_go_0. lia. }
  assert (x = 0 \/ 0 < x)%N as [->|Hpos] by lia; [rewrite pretty_N_go_0; lia|].
  rewrite pretty_N_go_step by done. etransitivity; [apply IH|cbn; lia].
  apply N.Div0.div_lt_upper_bound. rewrite Nat2N.inj_succ, N.pow_succ_r' in Hx. lia.
Qed.

Lemma Itoa_length k n : (0 <= n < 10 ^ Z.of_nat (S k))%Z -> String.length (Itoa n) <= S k.
Proof.
  intros Hn. unfold Itoa. destruct n as [|p|p]; [cbn; lia| |lia].
  change (pretty (Z.pos p)) with (pretty (N.pos p)). unfold pretty, pretty_N. rewrite decide_False by done.
  pose proof (pretty_N_go_length (S k) (N.pos p) "") as Hl. cbn [String.length] in Hl. rewrite Nat.add_0_r in Hl. apply Hl.
  apply N2Z.inj_lt. rewrite N2Z.inj_pow. change (Z.of_N (N.pos p)) with (Z.pos p).
  rewrite nat_N_Z. change (Z.of_N 10) with 10%Z. lia.
Qed.

Lemma zeros_length k : String.length (zeros k) = k.
Proof. induction k as [|k IH]; [done|]. cbn [zeros]. rewrite str_length_app, IH. done. Qed.

Lemma digits_value_zeros k s : digits_value 0 (zeros k +:+ s) = digits_value 0 s.
Proof. induction k as [|k IH]; [done|]. cbn [zeros]. rewrite str_app_assoc. exact IH. Qed.

Lemma Itoa_value n : (0 <= n)%Z -> digits_value 0 (Itoa n) = Some n /\ all_digits (Itoa n).
Proof.
  intros Hn. unfold Itoa. destruct n as [|p|p]; [done| |lia].
  destruct (pretty_pos p) as (H1 & H2 & _). split; [exact H2|exact H1].
Qed.

Lemma pad_spec k n : (0 <= n < 10 ^ Z.of_nat (S k))%Z ->
  String.length (pad (S k) n) = S k /\ digits_value 0 (pad (S k) n) = Some n.
Proof.
  intros Hn. unfold pad. pose proof (Itoa_length k n Hn) as Hl. split.
  - rewrite str_length_app, zeros_length. lia.
  - rewrite digits_value_zeros. apply Itoa_value. lia.
Qed.

Lemma take_uint_pad k lo hi n s :
  (0 <= n < 10 ^ Z.of_nat (S k))%Z -> (lo <= n <= hi)%Z -> take_uint (S k) lo hi (pad (S k) n +:+ s) = Some (n, s).
Proof.
  intros Hn Hr. destruct (pad_spec k n Hn) as [Hl Hv]. unfold take_uint.
  rewrite str_length_app, Hl. replace ((S k + String.length s <? S k)%nat) with false
    by (symmetry; apply Nat.ltb_ge; lia).
  pose proof (str_take_app (pad (S k) n) s) as Ht. pose proof (str_drop_app (pad (S k) n) s) as Hd.
  rewrite Hl in Ht, Hd. rewrite Ht, Hd, Hv. cbn [mbind option_bind].
  destruct Hr as [H1 H2]. apply Z.leb_le in H1, H2. by rewrite H1, H2.
Qed.

(** ** The fraction goes round *)

Lemma strip_spec fuel s : exists j, s = strip_trailing_zeros fuel s +:+ zeros j.
Proof.
  revert s. induction fuel as [|fuel IH]; intros s; cbn [strip_trailing_zeros].
  { exists 0. by rewrite str_app_nil_r. }
  destruct (HasSuffix s "0") eqn:E; [|exists 0; by rewrite str_app_nil_r].
  assert (s = TrimSuffix s "0" +:+ "0") as Es.
  { unfold TrimSuffix. rewrite E. apply HasSuffix_spec in E as [r ->].
    rewrite str_length_app. change (String.length "0") with 1.
    replace (String.length r + 1 - 1) with (String.length r) by lia. by rewrite str_take_app. }
  destruct (IH (TrimSuffix s "0")) as [j Hj]. exists (j + 1).
  rewrite Es at 1. rewrite Hj at 1. rewrite str_app_assoc. f_equal.
  clear. induction j as [|j IH]; [done|]. cbn [zeros Nat.add]. by rewrite str_app_assoc, IH.
Qed.

Lemma digits_value_app a s t :
  digits_value a (s +:+ t) = v ← digits_value a s; digits_value v t.
Proof.
  revert a. induction s as [|c s IH]; intros a; [done|]. rewrite str_app_cons. cbn [digits_value].
  destruct (is_digit c); [apply IH|done].
Qed.

Lemma digits_value_pow a j : digits_value a (zeros j) = Some (a * 10 ^ Z.of_nat j)%Z.
Proof.
  revert a. induction j as [|j IH]; intros a; [cbn; f_equal; lia|].
  cbn [zeros]. change ("0" +:+ zeros j) with (String "0" (zeros j)). cbn [digits_value].
  change (is_digit "0") with true. cbn match. rewrite IH. f_equal.
  change (Z.of_N (byte_n "0") - 48)%Z with 0%Z. rewrite Nat2Z.inj_succ, Z.pow_succ_r by lia. lia.
Qed.

Lemma digits_value_digits a s : is_Some (digits_value a s) -> all_digits s.
Proof.
  revert a. induction s as [|c s IH]; intros a; [done|]. cbn [digits_value].
  destruct (is_digit c) eqn:E; [|by intros [? [=]]]. intros Hs. apply all_digits_cons; [done|]. by eapply IH.
Qed.

Lemma take_fraction_format nanos rest :
  (0 < nanos < 10 ^ 9)%Z -> delim rest ->
  take_fraction ("." +:+ strip_trailing_zeros 9 (pad 9 nanos) +:+ rest) = (nanos, rest).
Proof.
  intros Hn Hrest. destruct (pad_spec 8 nanos ltac:(change (Z.of_nat 9) with 9%Z; lia)) as [Hl Hv].
  destruct (strip_spec 9 (pad 9 nanos)) as [j Hj]. set (ds := strip_trailing_zeros 9 (pad 9 nanos)) in *.
  rewrite Hj in Hl, Hv. rewrite str_length_app, zeros_length in Hl. rewrite digits_value_app in Hv.
  destruct (digits_value 0 ds) as [v|] eqn:Ev; [|done]. cbn [mbind option_bind] in Hv.
  rewrite digits_value_pow in Hv. injection Hv as Hv.
  assert (all_digits ds) as Hd by (eapply digits_value_digits; eauto).
  change ("." +:+ ds +:+ rest) with (String "." (ds +:+ rest)). cbn [take_fraction].
  rewrite span_digits_app by done. rewrite Hd. cbn [fst snd].
  destruct ds as [|c ds'] eqn:Eds.
  { injection Ev as <-. lia. }
  change ("" +:+ rest) with rest. cbn [Ascii.eqb Bool.eqb]. f_equal. rewrite <- Eds in *. unfold nanoseconds.
  assert (str_take 9 ds = ds) as ->.
  { rewrite <- (str_take_drop 9 ds) at 2. assert (str_drop 9 ds = "") as ->; [|by rewrite str_app_nil_r].
    assert (String.length (str_drop 9 ds) = 0) as H0 by (rewrite str_drop_length; lia).
    by destruct (str_drop 9 ds). }
  rewrite Ev. cbn [default]. replace (9 - String.length ds) with j by lia. exact Hv.
Qed.

(** ** The round trip *)

Lemma daysIn_le m y : (daysIn m y <= 31)%Z.
Proof.
  unfold daysIn. destruct (_ && _); [lia|].
  assert (forall l : list Z, Forall (fun x => x <= 31)%Z l -> forall i, (nth i l 0 <= 31)%Z) as Hnth
    by (induction 1 as [|x l Hx _ IH]; intros [|i]; cbn; auto with lia).
  apply Hnth. by repeat constructor.
Qed.

(** A time of the years 0 to 9999 that was formatted is parsed as itself, to the
    nanosecond. *)
Lemma parse_format_time t :
  (-366 * 86400 * Second <= t < 3652059 * 86400 * Second)%Z -> parseRFC3339 (FormatRFC3339Nano t) = Some t.
Proof.
  intros Ht. unfold FormatRFC3339Nano. assert (Second = 1000000000)%Z as Es by done. rewrite Es in *.
  set (secs := (t / 1000000000)%Z). set (nanos := (t mod 1000000000)%Z).
  assert (t = 1000000000 * secs + nanos)%Z as Et by (apply Z.div_mod; lia).
  assert (0 <= nanos < 10 ^ 9)%Z as Hn by (apply Z.mod_pos_bound; lia). clearbody secs nanos. subst t.
  set (days := (secs / 86400)%Z). set (sod := (secs mod 86400)%Z).
  assert (secs = 86400 * days + sod)%Z as Esec by (apply Z.div_mod; lia).
  assert (0 <= sod < 86400)%Z as Hsod by (apply Z.mod_pos_bound; lia). clearbody days sod. subst secs.
  pose proof (date_civil days) as Hd. pose proof (civil_year days ltac:(lia)) as Hy.
  destruct (civil days) as [[y m] d]. destruct Hd as (Hdate & Hm & Hday).
  assert (1 <= d < 100)%Z as Hd2.
  { pose proof (daysIn_le m y). lia. }
  assert (0 <= sod / 3600 <= 23)%Z as Hh by (Z.to_euclidean_division_equations; lia).
  assert (0 <= sod / 60 mod 60 <= 59)%Z as Hmin by (pose proof (Z.mod_pos_bound (sod / 60) 60); lia).
  assert (0 <= sod mod 60 <= 59)%Z as Hs by (pose proof (Z.mod_pos_bound sod 60); lia).
  change (10 ^ 9)%Z with 1000000000%Z in *.
  set (frac := if (nanos =? 0)%Z then "" else _).
  assert (take_fraction (frac +:+ "Z") = (nanos, "Z")) as Hf.
  { unfold frac. destruct (Z.eqb_spec nanos 0) as [->|]; [done|]. rewrite str_app_assoc.
    by apply take_fraction_format; [lia|]. }
  unfold parseRFC3339.
  assert (forall c s, take_char c (String c "" +:+ s) = Some s) as Hc
    by (intros c s; change (String c "" +:+ s) with (String c s); cbn; by rewrite Ascii.eqb_refl).
  repeat (rewrite take_uint_pad by lia; cbn [mbind option_bind]; rewrite ?Hc; cbn [mbind option_bind]).
  rewrite Hf. change (take_zone "Z") with (Some 0%Z). cbn [mbind option_bind]. rewrite Hdate, Es. f_equal.
  assert (sod = (sod / 3600 * 60 + (sod / 60) mod 60) * 60 + sod mod 60)%Z as E
    by (Z.to_euclidean_division_equations; lia).
  lia.
Qed.

(** ** [time.Parse] *)

(** What [time.Parse] takes beyond [parseRFC3339] is a parameter. *)
Class TimeText := { Parse_lenient : string -> result time }.

(** [time.Parse(time.RFC3339Nano, s)], and what [Time.UnmarshalJSON] makes of the
    literal. *)
Definition time_Parse `{TimeText} (s : string) : result time :=
  match parseRFC3339 s with Some t => Ok t | None => Parse_lenient s end.

Definition plain_times : TimeText := {| Parse_lenient _ := Err (errorf "cannot parse time") |}.

(** What [Time.MarshalJSON] writes of a time it can encode. *)
Definition time_tree (t : time) : json := JStr (FormatRFC3339Nano t).

(** A formatted time is ASCII. *)
Lemma digits_ascii s : all_digits s -> is_ascii s = true.
Proof.
  unfold all_digits. induction s as [|c s IH]; [done|]. cbn [span_digits].
  destruct (is_digit c) eqn:E; [|done]. destruct (span_digits s) as [d r]. intros [= -> ->].
  unfold is_ascii in *. cbn [String.list_ascii_of_string forallb]. rewrite IH by done.
  by destruct c as [[] [] [] [] [] [] [] []].
Qed.

Lemma zeros_ascii k : is_ascii (zeros k) = true.
Proof. induction k as [|k IH]; [done|]. cbn [zeros]. by rewrite is_ascii_app, IH. Qed.

Lemma pad_ascii k n : (0 <= n)%Z -> is_ascii (pad k n) = true.
Proof.
  intros Hn. unfold pad. rewrite is_ascii_app, zeros_ascii. by apply digits_ascii, Itoa_value.
Qed.

Lemma format_ascii t : (-366 * 86400 * Second <= t < 3652059 * 86400 * Second)%Z -> is_ascii (FormatRFC3339Nano t) = true.
Proof.
  intros Ht. unfold FormatRFC3339Nano. assert (Second = 1000000000)%Z as Es by done. rewrite Es in *.
  set (days := (t / 1000000000 / 86400)%Z).
  assert (-366 <= days < 3652059)%Z as Hdays by (unfold days; Z.to_euclidean_division_equations; lia).
  pose proof (date_civil days) as Hd. pose proof (civil_year days Hdays) as Hy.
  destruct (civil days) as [[y m] d]. destruct Hd as (_ & Hm & Hday).
  set (sod := (t / 1000000000 mod 86400)%Z). assert (0 <= sod)%Z by (apply Z.mod_pos_bound; lia).
  rewrite !is_ascii_app, !pad_ascii by (try apply Z.mod_pos_bound; try apply Z.div_pos; lia).
  destruct (_ =? 0)%Z; [done|]. rewrite is_ascii_app.
  destruct (strip_spec 9 (pad 9 (t mod 1000000000))) as [j Hj].
  assert (is_ascii (pad 9 (t mod 1000000000)) = true) as Ha by (apply pad_ascii, Z.mod_pos_bound; lia).
  rewrite Hj, is_ascii_app in Ha. apply andb_prop in Ha as [-> _]. done.
Qed.

Lemma encodable_range t :
  time_encodable t = true -> (-366 * 86400 * Second <= t < 3652059 * 86400 * Second)%Z.
Proof.
  unfold time_encodable. intros [H1%Z.leb_le H2%Z.ltb_lt]%andb_prop. unfold day in *. lia.
Qed.

Lemma time_tree_read t : time_encodable t = true -> json_tree (time_tree t) = time_tree t.
Proof.
  intros Ht%encodable_range. unfold time_tree. cbn [json_tree]. by rewrite json_string_ascii by (by apply format_ascii).
Qed.
