(* ===== verification/StateText.v ===== *)
(** * internal/state: the bytes of a state file

    The JSON text of [src/internal/state/state.go]: the tags of [StateRecord] and
    [OmgErrorSummary], the indented text that [writeRecord] hands to
    [atomicWrite], and what [readRecord] makes of the bytes of a file. [State]
    keeps a file as what it decodes to; [record_on_disk] is why it may. *)

From S2P Require Import Prelude GoStrings GoSort GoValue GoTime JsonText Json Rfc3339 State.

Section text.
Context `{FloatText} `{JsonErrors} `{TimeText}.

(** ** Writing *)

Definition summary_members (e : OmgErrorSummary) : list (string * json) :=
  unless_empty (es_Class e =s "") "class" (JStr (es_Class e))
  ++ unless_empty (es_Domain e =s "") "domain" (JStr (es_Domain e))
  ++ unless_empty (es_Code e =s "") "code" (JStr (es_Code e))
  ++ unless_empty (es_Message e =s "") "message" (JStr (es_Message e)).

(** [omitempty] leaves out no time: it is a struct. *)
Definition record_members (r : StateRecord) : list (string * json) :=
  [("lifecycle", JStr (sr_Lifecycle r))]
  ++ unless_empty (sr_Context r =s "") "context" (JStr (sr_Context r))
  ++ unless_empty (sr_SessionID r =s "") "session_id" (JStr (sr_SessionID r))
  ++ unless_empty (sr_OwnerID r =s "") "owner_id" (JStr (sr_OwnerID r))
  ++ unless_empty (sr_RequestID r =s "") "request_id" (JStr (sr_RequestID r))
  ++ [("updated_at", time_tree (sr_UpdatedAt r)); ("heartbeat_at", time_tree (sr_HeartbeatAt r))]
  ++ unless_empty (sr_BlockedReason r =s "") "blocked_reason" (JStr (sr_BlockedReason r))
  ++ match sr_Error r with Some e => [("error", JObj (summary_members e))] | None => [] end
  ++ match sr_Metadata r with
     | Some m => unless_empty (bool_decide (m = ∅)) "metadata" (tree_of (VMap m))
     | None => []
     end.

(** The data that [writeRecord] writes. *)
Definition record_text (r : StateRecord) : result string :=
  if negb (time_encodable (sr_UpdatedAt r) && time_encodable (sr_HeartbeatAt r)) then
    Err year_error
  else if negb (match sr_Metadata r with Some m => json_encodable (VMap m) | None => true end) then
    Err (errorf "json: unsupported value")
  else Ok (print_indent (JObj (record_members r)) +:+ String "010" "").

(** ** Reading *)

(** [Time.UnmarshalJSON]; it looks at the literal, so that a string with escapes,
    which no encoder writes of a time, would be refused there. *)
Definition into_time {A} (set : time -> A -> A) : setter A := fun j a =>
  match j with
  | JNull => Some a
  | JStr s => match time_Parse s with Ok t => Some (set t a) | Err _ => None end
  | _ => None
  end.

Definition zero_summary : OmgErrorSummary := mkSummary "" "" "" "".
Definition summary_fields : list (field OmgErrorSummary) :=
  [("class", into_string (fun x '(mkSummary _ d c m) => mkSummary x d c m));
   ("domain", into_string (fun x '(mkSummary k _ c m) => mkSummary k x c m));
   ("code", into_string (fun x '(mkSummary k d _ m) => mkSummary k d x m));
   ("message", into_string (fun x '(mkSummary k d c _) => mkSummary k d c x))].

Definition zero_state : StateRecord := mkState "" "" "" "" "" time_zero time_zero "" None None.
Definition record_fields : list (field StateRecord) :=
  [("lifecycle", into_string (fun x '(mkState _ c s o r u h b e m) => mkState x c s o r u h b e m));
   ("context", into_string (fun x '(mkState l _ s o r u h b e m) => mkState l x s o r u h b e m));
   ("session_id", into_string (fun x '(mkState l c _ o r u h b e m) => mkState l c x o r u h b e m));
   ("owner_id", into_string (fun x '(mkState l c s _ r u h b e m) => mkState l c s x r u h b e m));
   ("request_id", into_string (fun x '(mkState l c s o _ u h b e m) => mkState l c s o x u h b e m));
   ("updated_at", into_time (fun x '(mkState l c s o r _ h b e m) => mkState l c s o r x h b e m));
   ("heartbeat_at", into_time (fun x '(mkState l c s o r u _ b e m) => mkState l c s o r u x b e m));
   ("blocked_reason", into_string (fun x '(mkState l c s o r u h _ e m) => mkState l c s o r u h x e m));
   ("error", fun j '(mkState l c s o r u h b e m) =>
      match j with
      | JNull => Some (mkState l c s o r u h b None m)
      | _ => (fun e => mkState l c s o r u h b (Some e) m)
               <$> into_struct summary_fields j (default zero_summary e)
      end);
   ("metadata", into_map sr_Metadata (fun x '(mkState l c s o r u h b e _) => mkState l c s o r u h b e x))].

(** What [readRecord] makes of a file's bytes. *)
Definition decode_record (data : string) : result StateRecord :=
  Unmarshal (into_struct record_fields) zero_state data.

(** ** The round trip *)

Context {Hlaws : FloatLaws}.

Lemma into_time_round_trip {A} (set : time -> A -> A) t a :
  time_encodable t = true -> into_time set (json_tree (time_tree t)) a = Some (set t a).
Proof.
  intros Ht. rewrite time_tree_read by done. cbn [time_tree into_time].
  unfold time_Parse. by rewrite parse_format_time by (by apply encodable_range).
Qed.

Lemma summary_members_read e :
  set_members summary_fields (map decoded (summary_members e)) zero_summary = Some (json_summary e).
Proof.
  destruct e as [k d c m]. unfold summary_members. cbn [es_Class es_Domain es_Code es_Message].
  rewrite <- (app_nil_r (unless_empty _ "message" _)).
  read_optional_string 0 (mkSummary (json_string k) "" "" "").
  read_optional_string 1 (mkSummary (json_string k) (json_string d) "" "").
  read_optional_string 2 (mkSummary (json_string k) (json_string d) (json_string c) "").
  read_optional_string 3 (mkSummary (json_string k) (json_string d) (json_string c) (json_string m)).
  done.
Qed.

Lemma record_members_read r :
  time_encodable (sr_UpdatedAt r) = true -> time_encodable (sr_HeartbeatAt r) = true ->
  (match sr_Metadata r with Some m => json_encodable (VMap m) | None => true end) = true ->
  set_members record_fields (map decoded (record_members r)) zero_state = Some (json_record r).
Proof.
  destruct r as [l c s o r u h b e m].
  cbn [sr_UpdatedAt sr_HeartbeatAt sr_Metadata]. intros Hu Hh Hm. unfold record_members.
  cbn [sr_Lifecycle sr_Context sr_SessionID sr_OwnerID sr_RequestID sr_UpdatedAt sr_HeartbeatAt sr_BlockedReason
    sr_Error sr_Metadata app].
  read_member 0. cbn beta iota.
  set (st := mkState (json_string l)).
  read_optional_string 1 (st (json_string c) "" "" "" time_zero time_zero "" None None).
  read_optional_string 2 (st (json_string c) (json_string s) "" "" time_zero time_zero "" None None).
  read_optional_string 3 (st (json_string c) (json_string s) (json_string o) "" time_zero time_zero "" None None).
  set (st' := st (json_string c) (json_string s) (json_string o)).
  read_optional_string 4 (st' (json_string r) time_zero time_zero "" None None).
  erewrite (set_member _ 5); [|vm_compute; reflexivity|reflexivity|by rewrite into_time_round_trip].
  erewrite (set_member _ 6); [|vm_compute; reflexivity|reflexivity|by rewrite into_time_round_trip].
  cbn beta iota.
  read_optional_string 7 (st' (json_string r) u h (json_string b) None None).
  rewrite map_app, set_members_app.
  assert (set_members record_fields
    (map decoded (match e with Some e => [("error", JObj (summary_members e))] | None => [] end))
    (st' (json_string r) u h (json_string b) None None)
    = Some (st' (json_string r) u h (json_string b) (json_summary <$> e) None)) as ->.
  { destruct e as [e|]; [|done]. erewrite (set_member _ 8); [done|vm_compute; reflexivity|reflexivity|].
    pose proof (summary_members_read e : into_struct summary_fields (JObj (map decoded (summary_members e)))
      zero_summary = Some (json_summary e)) as He.
    unfold st', st. cbn [json_tree default]. fold decoded. by setoid_rewrite He. }
  cbn [mbind option_bind]. destruct m as [m|]; [|done]. rewrite <- (app_nil_r (unless_empty _ _ _)).
  read_optional 9 (st' (json_string r) u h (json_string b) (json_summary <$> e) (json_metadata (Some m))).
  2: { cbn [json_metadata]. case_bool_decide; [by rewrite decide_True|]. rewrite decide_False by done.
       by rewrite into_map_round_trip. }
  done.
Qed.

Lemma record_literals r :
  (match sr_Metadata r with Some m => json_encodable (VMap m) | None => true end) = true ->
  literals (JObj (record_members r)).
Proof.
  intros Hm. apply literals_obj.
  unfold record_members. repeat apply Forall_app_2; try (by apply unless_empty_Forall); try by repeat constructor.
  - destruct (sr_Error r) as [e|]; [|constructor]. apply Forall_singleton. apply literals_obj.
    unfold summary_members. repeat apply Forall_app_2; by apply unless_empty_Forall.
  - destruct (sr_Metadata r) as [m|]; [|constructor]. apply unless_empty_Forall. by apply tree_literals.
Qed.

(** C5: a state file holds what [State] says it holds: the bytes that [writeRecord]
    writes of any record - indented text, [omitempty], times to the nanosecond,
    nested metadata - are read back as the record that [MarshalRecord] keeps, if
    the metadata does not nest deeper than the decoder follows; and the records
    that cannot be written are the same. *)
Theorem record_on_disk r :
  depth (JObj (record_members r)) <= max_depth ->
  match MarshalRecord r with
  | Ok c => exists data, record_text r = Ok data /\ decode_record data = UnmarshalRecord c
  | Err err => record_text r = Err err
  end.
Proof.
  intros Hd. unfold MarshalRecord, record_text.
  destruct (time_encodable (sr_UpdatedAt r)) eqn:Hu, (time_encodable (sr_HeartbeatAt r)) eqn:Hh; try done.
  cbn [andb negb]. destruct (match sr_Metadata r with Some m => _ | None => true end) eqn:Hm; [|done].
  eexists. split; [reflexivity|]. cbn [UnmarshalRecord].
  apply Unmarshal_indent; [by apply record_literals|done|by repeat constructor|]. by apply record_members_read.
Qed.
End text.

(** ** A state file *)

#[local] Existing Instances plain_floats plain_errors plain_times plain_floats_laws.

Definition demo_record : StateRecord :=
  mkState "blocked" "run" "s-1" "" "req" (62135596800 * Second + 120)%Z 5 "stale_owner"
    (Some (mkSummary "timeout" "" "" ("<" +:+ String "255" ""))) (Some {["k" := VSlice []]}).

Lemma record_on_disk_witness :
  exists data, record_text demo_record = Ok data /\ decode_record data = Ok (json_record demo_record).
Proof.
  assert (MarshalRecord demo_record = Ok (CRecord (json_record demo_record))) as E by (vm_compute; reflexivity).
  pose proof (record_on_disk demo_record ltac:(apply Nat.leb_le; vm_compute; reflexivity)) as H.
  rewrite E in H. exact H.
Defined.
