(* ===== verification/Storage.v ===== *)
(** * internal/storage: the event ledger and its tables

    [src/internal/storage/storage.go], [schema.go] and [memory.go]: the event
    record, the sink interface, the recorder, the in-memory sink, and the SQLite
    store. The tables the program writes are maps from ids to rows; an SQL
    statement of the source is a function on them with the semantics SQL gives
    it (upsert on a conflicting id, CHECK constraints on the inserted row,
    foreign keys when the connection enforces them); a transaction either
    commits the result of all its statements or leaves the tables alone. *)

From S2P Require Import Prelude GoStrings GoValue GoTime.

(** ** Events *)

Definition EventRunCreated := "run_created".
Definition EventRunStatusChanged := "run_status_changed".
Definition EventWorkCreated := "work_created".
Definition EventWorkClaimed := "work_claimed".
Definition EventWorkStarted := "work_started".
Definition EventWorkCompleted := "work_completed".
Definition EventWorkVerified := "work_verified".
Definition EventWorkFailed := "work_failed".
Definition EventWorkBlocked := "work_blocked".
Definition EventWorkRepackaged := "work_repackaged".
Definition EventAgentSpawned := "agent_spawned".
Definition EventAgentHeartbeat := "agent_heartbeat".
Definition EventAgentStopped := "agent_stopped".
Definition EventAgentFailed := "agent_failed".
Definition EventContextPacketCreated := "context_packet_created".
Definition EventEvidenceCreated := "evidence_created".
Definition EventToolCallStarted := "tool_call_started".
Definition EventToolCallCompleted := "tool_call_completed".
Definition EventToolCallFailed := "tool_call_failed".
Definition EventToolCallBlocked := "tool_call_blocked".
Definition EventVerificationStarted := "verification_started".
Definition EventVerificationPassed := "verification_passed".
Definition EventVerificationFailed := "verification_failed".
Definition EventApprovalRequested := "approval_requested".
Definition EventApprovalGranted := "approval_granted".
Definition EventApprovalDenied := "approval_denied".
Definition EventReportCreated := "report_created".
Definition EventFailureDiagnosed := "failure_diagnosed".

Abbreviation attributes := (gmap string string).

Record Event := mkEvent {
  ev_ID : string;
  ev_Type : string;
  ev_RunID : string;
  ev_WorkID : string;
  ev_AgentSessionID : string;
  ev_EvidenceID : string;
  ev_ToolCallID : string;
  ev_VerificationID : string;
  ev_RequestID : string;
  ev_Provider : string;
  ev_HostEvent : string;
  ev_ActorType : string;
  ev_ActorID : string;
  ev_Status : string;
  ev_Lifecycle : string;
  ev_ProjectRoot : string;
  ev_Attributes : option attributes;
  ev_Timestamp : time
}.

(** [event.Attributes[key]] *)
Definition attr (e : Event) (key : string) : string :=
  default "" (default ∅ (ev_Attributes e) !! key).

Definition set_type (t : string) (e : Event) : Event :=
  mkEvent (ev_ID e) t (ev_RunID e) (ev_WorkID e) (ev_AgentSessionID e) (ev_EvidenceID e)
    (ev_ToolCallID e) (ev_VerificationID e) (ev_RequestID e) (ev_Provider e) (ev_HostEvent e)
    (ev_ActorType e) (ev_ActorID e) (ev_Status e) (ev_Lifecycle e) (ev_ProjectRoot e)
    (ev_Attributes e) (ev_Timestamp e).
Definition set_timestamp (t : time) (e : Event) : Event :=
  mkEvent (ev_ID e) (ev_Type e) (ev_RunID e) (ev_WorkID e) (ev_AgentSessionID e) (ev_EvidenceID e)
    (ev_ToolCallID e) (ev_VerificationID e) (ev_RequestID e) (ev_Provider e) (ev_HostEvent e)
    (ev_ActorType e) (ev_ActorID e) (ev_Status e) (ev_Lifecycle e) (ev_ProjectRoot e)
    (ev_Attributes e) t.
Definition set_id (id : string) (e : Event) : Event :=
  mkEvent id (ev_Type e) (ev_RunID e) (ev_WorkID e) (ev_AgentSessionID e) (ev_EvidenceID e)
    (ev_ToolCallID e) (ev_VerificationID e) (ev_RequestID e) (ev_Provider e) (ev_HostEvent e)
    (ev_ActorType e) (ev_ActorID e) (ev_Status e) (ev_Lifecycle e) (ev_ProjectRoot e)
    (ev_Attributes e) (ev_Timestamp e).
Definition set_runid (r : string) (e : Event) : Event :=
  mkEvent (ev_ID e) (ev_Type e) r (ev_WorkID e) (ev_AgentSessionID e) (ev_EvidenceID e)
    (ev_ToolCallID e) (ev_VerificationID e) (ev_RequestID e) (ev_Provider e) (ev_HostEvent e)
    (ev_ActorType e) (ev_ActorID e) (ev_Status e) (ev_Lifecycle e) (ev_ProjectRoot e)
    (ev_Attributes e) (ev_Timestamp e).
Definition set_workid (w : string) (e : Event) : Event :=
  mkEvent (ev_ID e) (ev_Type e) (ev_RunID e) w (ev_AgentSessionID e) (ev_EvidenceID e)
    (ev_ToolCallID e) (ev_VerificationID e) (ev_RequestID e) (ev_Provider e) (ev_HostEvent e)
    (ev_ActorType e) (ev_ActorID e) (ev_Status e) (ev_Lifecycle e) (ev_ProjectRoot e)
    (ev_Attributes e) (ev_Timestamp e).
Definition set_root (r : string) (e : Event) : Event :=
  mkEvent (ev_ID e) (ev_Type e) (ev_RunID e) (ev_WorkID e) (ev_AgentSessionID e) (ev_EvidenceID e)
    (ev_ToolCallID e) (ev_VerificationID e) (ev_RequestID e) (ev_Provider e) (ev_HostEvent e)
    (ev_ActorType e) (ev_ActorID e) (ev_Status e) (ev_Lifecycle e) r
    (ev_Attributes e) (ev_Timestamp e).

Definition normalizeType (eventType : string) : string := TrimSpace eventType.

(** ** The sink interface and the recorder *)

(** A sink acts on a world [W] of the caller's choice. *)
Record Sink (W : Type) := mkSink {
  RecordEvent : context -> Event -> W -> W * option error
}.
Arguments mkSink {W} _.
Arguments RecordEvent {W} _ _ _ _.

Record Recorder (W : Type) := mkRecorder {
  rec_Sink : option (Sink W);
  rec_Now : option (W -> W * time);
  rec_NewID : option (Event -> string)
}.
Arguments mkRecorder {W} _ _ _.
Arguments rec_Sink {W} _.
Arguments rec_Now {W} _.
Arguments rec_NewID {W} _.

Definition recorder_now {W} `{Clock W} (r : Recorder W) (w : W) : W * time :=
  match rec_Now r with Some now => now w | None => time_Now w end.

Definition Record_ {W} `{Clock W} (r : Recorder W) (ctx : context) (event : Event) (w : W)
    : W * option error :=
  match rec_Sink r with
  | None => (w, None)
  | Some sink =>
      let event := set_type (normalizeType (ev_Type event)) event in
      if ev_Type event =s "" then (w, Some (errorf "storage event type is required"))
      else
        let '(w, event) :=
          if IsZero (ev_Timestamp event) then
            let '(w, t) := recorder_now r w in (w, set_timestamp t event)
          else (w, event) in
        let event :=
          match rec_NewID r with
          | Some newID => if ev_ID event =s "" then set_id (newID event) event else event
          | None => event
          end in
        RecordEvent sink ctx event w
  end.

(** ** The in-memory sink *)

Record MemorySink := mkMemorySink { events : slice Event }.

Definition NewMemorySink : MemorySink := mkMemorySink None.
Definition memory_RecordEvent (m : MemorySink) (e : Event) : MemorySink * option error :=
  (mkMemorySink (slice_append (events m) [e]), None).
Definition Snapshot (m : MemorySink) : list Event := elems (events m).
Definition Count (m : MemorySink) (t : string) : Z :=
  foldl (fun n e => if ev_Type e =s t then n + 1 else n)%Z 0%Z (elems (events m)).
Definition Reset (m : MemorySink) : MemorySink := mkMemorySink None.

Definition memory_sink : Sink MemorySink := mkSink (fun _ e m => memory_RecordEvent m e).

(** ** Statuses derived from events *)

Definition runStatus (event : Event) : string :=
  if ev_Lifecycle event <>s "" then
    if ev_Lifecycle event =s "running" then "executing"
    else if ev_Lifecycle event =s "ask_user" then "blocked"
    else if ev_Lifecycle event =s "finished" then "completed"
    else ev_Lifecycle event
  else
    let has t := ev_Type event =s t in
    if has EventRunCreated then "scoped"
    else if existsb has [EventAgentSpawned; EventWorkStarted; EventToolCallStarted;
                        EventToolCallCompleted; EventWorkCompleted] then "executing"
    else if has EventVerificationStarted then "verifying"
    else if has EventVerificationPassed then "completed"
    else if existsb has [EventVerificationFailed; EventToolCallFailed; EventWorkFailed;
                        EventAgentFailed] then "failed"
    else if has EventToolCallBlocked then "blocked"
    else "".

Definition workStatus (event : Event) : string :=
  let has t := ev_Type event =s t in
  if has EventWorkCreated then "ready"
  else if existsb has [EventWorkStarted; EventToolCallStarted; EventToolCallCompleted] then "running"
  else if has EventWorkCompleted then "completed"
  else if has EventVerificationPassed then "verified"
  else if existsb has [EventWorkFailed; EventVerificationFailed; EventToolCallFailed] then "failed"
  else if has EventToolCallBlocked then "blocked"
  else "".

Definition agentStatus (event : Event) : string :=
  let has t := ev_Type event =s t in
  if has EventAgentHeartbeat then "running"
  else if has EventAgentStopped then "stopped"
  else if has EventAgentFailed then "crashed"
  else if ev_Status event =s "failed" then "crashed"
  else "running".

Definition toolStatus (event : Event) : string :=
  let has t := ev_Type event =s t in
  if has EventToolCallStarted then
    if (ev_Status event =s "allowed") || (ev_Status event =s "blocked")
       || (ev_Status event =s "failed") then ev_Status event
    else "started"
  else if has EventToolCallCompleted then "completed"
  else if has EventToolCallFailed then "failed"
  else if has EventToolCallBlocked then "blocked"
  else "started".

Definition verificationStatus (event : Event) : string :=
  let has t := ev_Type event =s t in
  if has EventVerificationStarted then "running"
  else if has EventVerificationPassed then "passed"
  else if has EventVerificationFailed then "failed"
  else first_non_empty [ev_Status event; "pending"].

Definition evidence_kinds : list string :=
  ["file_anchor"; "git_diff"; "test_result"; "build_log"; "terminal_log"; "screenshot";
   "approval"; "report"; "other"].

Definition mapVerifyEvidenceKind (verifyKind : string) : string :=
  if verifyKind =s "command" then "terminal_log"
  else if verifyKind =s "manual" then "approval"
  else if verifyKind =s "artifact" then "report"
  else if existsb (String.eqb verifyKind) evidence_kinds then verifyKind
  else "other".

(** ** Deterministic ids: FNV-1a over the parts, a zero byte after each *)

Definition fnv_step (h : Z) (c : ascii) : Z :=
  (Z.lxor h (Z.of_N (N_of_ascii c)) * 1099511628211) mod 2 ^ 64.
Fixpoint fnv_write (h : Z) (s : string) : Z :=
  match s with
  | EmptyString => h
  | String c s' => fnv_write (fnv_step h c) s'
  end.
Definition fnv_offset : Z := 14695981039346656037.
Definition fnv_parts (parts : list string) : Z :=
  foldl (fun h part => fnv_step (fnv_write h part) "000"%char) fnv_offset parts.

Definition safePrefix (prefix : string) : string :=
  let prefix := Trim prefix "_" in
  if prefix =s "" then "id" else prefix.

Definition deterministicID (parts : list string) : string :=
  safePrefix (default "" (head parts)) +:+ "_" +:+ format_hex (Z.to_N (fnv_parts parts)).

Definition repoID (root : string) : string := deterministicID ["repo"; root].

Definition sqlTime (t : time) : string := FormatRFC3339Nano t.
(** [nullable]: an empty string is stored as NULL. *)
Definition nullable (value : string) : option string := if value =s "" then None else Some value.
Definition nullableInt (value : string) : option string := nullable value.
Definition completedAt (event : Event) : option string :=
  if existsb (fun t => ev_Type event =s t)
       [EventToolCallCompleted; EventToolCallFailed; EventToolCallBlocked]
  then Some (sqlTime (ev_Timestamp event)) else None.

Definition knownTable (table : string) : bool :=
  existsb (String.eqb table)
    ["repos"; "runs"; "work_items"; "work_dependencies"; "work_scopes"; "work_exit_criteria";
     "work_required_outputs"; "work_claims"; "agent_sessions"; "permission_policies";
     "permission_tools"; "permission_paths"; "approval_rules"; "context_packets";
     "context_packet_evidence"; "context_packet_memory"; "evidence"; "evidence_stale_rules";
     "tool_calls"; "verification_results"; "verification_evidence"; "failure_diagnoses";
     "work_repackages"; "events"; "messages"; "message_evidence"; "approval_requests";
     "memory_candidates"; "memory_candidate_evidence"; "reports"; "report_evidence"].
