(* ===== verification/StorageDB.v ===== *)
(** * internal/storage: the SQLite store

    [Store.RecordEvent] of [src/internal/storage/storage.go] as one transaction
    over the tables of [schema.go] that the program writes. SQLite and the
    driver contribute the outcome of each call ([TxEnv]): whether the connection
    enforces foreign keys, and the calls that fail. *)

From S2P Require Import Prelude GoStrings GoSort GoValue GoTime GoPath JsonText Json Storage SchemaText.

(** ** Rows *)

Record RepoRow := mkRepo { rp_root_path : string; rp_hash : string; rp_created : string; rp_updated : string }.
Record RunRow := mkRun {
  rn_repo_id : string; rn_objective : string; rn_status : string; rn_phase : string;
  rn_trace_id : string; rn_created_by : string; rn_created : string; rn_updated : string }.
Record WorkRow := mkWork {
  wk_run_id : string; wk_role : string; wk_status : string; wk_title : string; wk_goal : string;
  wk_created : string; wk_updated : string }.
Record AgentRow := mkAgentRow {
  ag_run_id : string; ag_role : string; ag_status : string; ag_backend_kind : string;
  ag_backend_model : string; ag_backend_ref : string; ag_work_id : option string;
  ag_spawned : string; ag_heartbeat : string }.
Record ToolRow := mkTool {
  tl_run_id : string; tl_work_id : option string; tl_agent_id : option string; tl_name : string;
  tl_status : string; tl_input : string; tl_output : string; tl_blocked : string; tl_error : string;
  tl_started : string; tl_completed : option string; tl_trace : string; tl_span : string }.
Record EvidenceRow := mkEvidence {
  ed_run_id : string; ed_work_id : option string; ed_agent_id : option string; ed_kind : string;
  ed_claim : string; ed_source_kind : string; ed_source_path : string; ed_command : string;
  ed_exit_code : option string; ed_artifact : string; ed_observed : string; ed_freshness : string }.
Record VerifRow := mkVerif {
  vf_run_id : string; vf_work_id : string; vf_status : string; vf_policy : string;
  vf_summary : string; vf_created : string; vf_created_by : string }.
Record DiagRow := mkDiag {
  dg_run_id : string; dg_work_id : string; dg_agent_id : option string;
  dg_verif_id : option string; dg_type : string; dg_reason : string; dg_repackage : string;
  dg_dem : string; dg_created : string; dg_created_by : string }.
Record EventRow := mkEventRow {
  er_run_id : string; er_type : string; er_actor_type : string; er_actor_id : string;
  er_work_id : option string; er_agent_id : option string; er_evidence_id : option string;
  er_tool_id : option string; er_verif_id : option string; er_payload : string;
  er_trace : string; er_span : string; er_commit : string; er_tree : string; er_created : string }.

Record DB := mkDB {
  db_repos : gmap string RepoRow;
  db_runs : gmap string RunRow;
  db_works : gmap string WorkRow;
  db_agents : gmap string AgentRow;
  db_tools : gmap string ToolRow;
  db_evidence : gmap string EvidenceRow;
  db_verifs : gmap string VerifRow;
  db_diags : gmap string DiagRow;
  db_events : gmap string EventRow
}.

Definition empty_db : DB := mkDB ∅ ∅ ∅ ∅ ∅ ∅ ∅ ∅ ∅.

(** ** Constraints of the schema *)

Definition one_of (l : list string) (s : string) : bool := existsb (String.eqb s) l.

(** ** Statements *)

Record TxEnv := mkTxEnv {
  te_now : time;                          (* [time.Now()] *)
  te_fk : bool;                           (* does this connection enforce foreign keys *)
  te_begin_fault : option error;
  te_stmt_faults : list (option error);   (* the n-th statement, none beyond the list *)
  te_commit_fault : option error
}.

Record Tx := mkTx { tx_db : DB; tx_fk : bool; tx_faults : list (option error) }.

Definition ErrCheck : error := errorf "constraint failed: CHECK constraint failed (275)".
Definition ErrForeignKey : error := errorf "constraint failed: FOREIGN KEY constraint failed (787)".

Definition ErrUnique : error :=
  errorf "constraint failed: UNIQUE constraint failed: repos.repo_hash (2067)".

(** No repository but [id] has this hash: the column is UNIQUE. *)
Definition unique_hash (repos : gmap string RepoRow) (id hash : string) : bool :=
  forallb (fun kv => (kv.1 =s id) || negb (rp_hash kv.2 =s hash)) (map_to_list repos).

Definition exec (stmt : bool -> DB -> result DB) (tx : Tx) : result Tx :=
  match tx_faults tx with
  | Some err :: _ => Err err
  | faults => db ← stmt (tx_fk tx) (tx_db tx); Ok (mkTx db (tx_fk tx) (tail faults))
  end.

(** A foreign key column that holds [key]: NULL references nothing. *)
Definition refs {R} (fk : bool) (tbl : gmap string R) (key : option string) : bool :=
  negb fk || match key with None => true | Some k => bool_decide (is_Some (tbl !! k)) end.

(** [INSERT ... ON CONFLICT(id) DO UPDATE]: CHECK constraints are tested on the
    row to insert, foreign keys on the columns that are actually written. *)
Definition upsert {R} (tbl : gmap string R) (id : string) (check : bool)
    (ins : R) (ins_refs : bool) (upd : R -> R) (upd_refs : bool) : result (gmap string R) :=
  if negb check then Err ErrCheck
  else match tbl !! id with
       | None => if ins_refs then Ok (<[id := ins]> tbl) else Err ErrForeignKey
       | Some old => if upd_refs then Ok (<[id := upd old]> tbl) else Err ErrForeignKey
       end.

Definition ensureRepo (event : Event) (tx : Tx) : result Tx :=
  let id := repoID (ev_ProjectRoot event) in
  let now := sqlTime (ev_Timestamp event) in
  exec (fun _ db =>
    _ ← (if unique_hash (db_repos db) id id then Ok tt else Err ErrUnique);
    t ← upsert (db_repos db) id true (mkRepo (ev_ProjectRoot event) id now now) true
      (fun old => mkRepo (ev_ProjectRoot event) (rp_hash old) (rp_created old) now) true;
    Ok (mkDB t (db_runs db) (db_works db) (db_agents db) (db_tools db) (db_evidence db)
          (db_verifs db) (db_diags db) (db_events db))) tx.

Definition ensureRun (event : Event) (tx : Tx) : result Tx :=
  let status := runStatus event in
  let now := sqlTime (ev_Timestamp event) in
  let insertStatus := if status =s "" then "scoped" else status in
  let repo := repoID (ev_ProjectRoot event) in
  let objective := first_non_empty [attr event "objective"; ev_RequestID event; ev_Type event] in
  exec (fun fk db =>
    t ← upsert (db_runs db) (ev_RunID event) (one_of run_statuses insertStatus)
      (mkRun repo objective insertStatus (ev_HostEvent event) (attr event "trace_id")
         (ev_ActorID event) now now)
      (refs fk (db_repos db) (Some repo))
      (fun old => if status =s ""
         then mkRun (rn_repo_id old) (rn_objective old) (rn_status old) (rn_phase old)
                (rn_trace_id old) (rn_created_by old) (rn_created old) now
         else mkRun (rn_repo_id old) (rn_objective old) status (ev_HostEvent event)
                (rn_trace_id old) (rn_created_by old) (rn_created old) now)
      true;
    Ok (mkDB (db_repos db) t (db_works db) (db_agents db) (db_tools db) (db_evidence db)
          (db_verifs db) (db_diags db) (db_events db))) tx.

Definition ensureWork (event : Event) (tx : Tx) : result Tx :=
  let status := workStatus event in
  if status =s "" then Ok tx
  else
    let now := sqlTime (ev_Timestamp event) in
    let role := first_non_empty [attr event "role"; "executor"] in
    exec (fun fk db =>
      t ← upsert (db_works db) (ev_WorkID event) (one_of roles role && one_of work_statuses status)
        (mkWork (ev_RunID event) role status
           (first_non_empty [attr event "title"; ev_WorkID event])
           (first_non_empty [attr event "goal"; ev_Type event]) now now)
        (refs fk (db_runs db) (Some (ev_RunID event)))
        (fun old => mkWork (wk_run_id old) (wk_role old) status (wk_title old) (wk_goal old)
                      (wk_created old) now)
        true;
      Ok (mkDB (db_repos db) (db_runs db) t (db_agents db) (db_tools db) (db_evidence db)
            (db_verifs db) (db_diags db) (db_events db))) tx.

Definition ensureAgentSession (event : Event) (tx : Tx) : result Tx :=
  let now := sqlTime (ev_Timestamp event) in
  let role := first_non_empty [attr event "role"; "executor"] in
  let status := agentStatus event in
  let work := nullable (ev_WorkID event) in
  exec (fun fk db =>
    t ← upsert (db_agents db) (ev_AgentSessionID event)
      (one_of roles role && one_of agent_statuses status)
      (mkAgentRow (ev_RunID event) role status (ev_Provider event) (attr event "backend_model")
         (attr event "backend_session_ref") work now now)
      (refs fk (db_runs db) (Some (ev_RunID event)) && refs fk (db_works db) work)
      (fun old => mkAgentRow (ag_run_id old) (ag_role old) status (ag_backend_kind old)
         (ag_backend_model old) (ag_backend_ref old)
         (match work with Some w => Some w | None => ag_work_id old end)
         (ag_spawned old) now)
      (refs fk (db_works db) work);
    Ok (mkDB (db_repos db) (db_runs db) (db_works db) t (db_tools db) (db_evidence db)
          (db_verifs db) (db_diags db) (db_events db))) tx.

(** The id assigned to the event when the upsert succeeds is lost: the source
    assigns it to the callee's copy of the event. *)
Definition upsertToolCall (event : Event) (tx : Tx) : result Tx :=
  let id := first_non_empty [ev_ToolCallID event; deterministicID ["tool"; ev_ID event]] in
  let status := toolStatus event in
  let now := sqlTime (ev_Timestamp event) in
  let work := nullable (ev_WorkID event) in
  let agent := nullable (ev_AgentSessionID event) in
  exec (fun fk db =>
    t ← upsert (db_tools db) id (one_of tool_statuses status)
      (mkTool (ev_RunID event) work agent (first_non_empty [attr event "tool"; "unknown"]) status
         (attr event "input_summary") (attr event "output_summary") (attr event "blocked_reason")
         (attr event "error_message") now (completedAt event) (attr event "trace_id")
         (attr event "span_id"))
      (refs fk (db_runs db) (Some (ev_RunID event)) && refs fk (db_works db) work
       && refs fk (db_agents db) agent)
      (fun old => mkTool (tl_run_id old) (tl_work_id old) (tl_agent_id old) (tl_name old) status
         (tl_input old) (attr event "output_summary") (attr event "blocked_reason")
         (attr event "error_message") (tl_started old) (completedAt event) (tl_trace old)
         (tl_span old))
      true;
    Ok (mkDB (db_repos db) (db_runs db) (db_works db) (db_agents db) t (db_evidence db)
          (db_verifs db) (db_diags db) (db_events db))) tx.

Definition upsertEvidence (event : Event) (tx : Tx) : result Tx :=
  let id := first_non_empty [ev_EvidenceID event; deterministicID ["evidence"; ev_ID event]] in
  let kind := mapVerifyEvidenceKind (first_non_empty [attr event "kind"; "other"]) in
  let claim := first_non_empty [attr event "claim"; attr event "summary"; ev_Type event] in
  let work := nullable (ev_WorkID event) in
  let agent := nullable (ev_AgentSessionID event) in
  exec (fun fk db =>
    t ← upsert (db_evidence db) id (one_of kind_values kind)
      (mkEvidence (ev_RunID event) work agent kind claim (attr event "source_kind")
         (attr event "source_path") (attr event "command") (nullableInt (attr event "exit_code"))
         (attr event "artifact_path") (sqlTime (ev_Timestamp event)) (attr event "freshness"))
      (refs fk (db_runs db) (Some (ev_RunID event)) && refs fk (db_works db) work
       && refs fk (db_agents db) agent)
      (fun old => mkEvidence (ed_run_id old) (ed_work_id old) (ed_agent_id old) (ed_kind old) claim
         (ed_source_kind old) (ed_source_path old) (ed_command old) (ed_exit_code old)
         (ed_artifact old) (ed_observed old) (attr event "freshness"))
      true;
    Ok (mkDB (db_repos db) (db_runs db) (db_works db) (db_agents db) (db_tools db) t
          (db_verifs db) (db_diags db) (db_events db))) tx.

(** The work a verification or a diagnosis hangs on: the event's, or one
    derived from the run, which [ensureWork] then gets to see. *)
Definition derive_work (suffix : string) (event : Event) (tx : Tx) : result (Event * Tx) :=
  if ev_WorkID event =s "" then
    let event := set_workid (deterministicID ["work"; ev_RunID event; suffix]) event in
    tx ← ensureWork event tx; Ok (event, tx)
  else Ok (event, tx).

Definition upsertVerification (event : Event) (tx : Tx) : result Tx :=
  '(event, tx) ← derive_work "verification" event tx;
  let id := first_non_empty [ev_VerificationID event;
                             deterministicID ["verification"; ev_ID event]] in
  let status := verificationStatus event in
  exec (fun fk db =>
    t ← upsert (db_verifs db) id (one_of verif_statuses status)
      (mkVerif (ev_RunID event) (ev_WorkID event) status (attr event "verification_policy")
         (attr event "summary") (sqlTime (ev_Timestamp event)) (ev_ActorID event))
      (refs fk (db_runs db) (Some (ev_RunID event))
       && refs fk (db_works db) (Some (ev_WorkID event)))
      (fun old => mkVerif (vf_run_id old) (vf_work_id old) status (vf_policy old)
         (attr event "summary") (vf_created old) (vf_created_by old))
      true;
    Ok (mkDB (db_repos db) (db_runs db) (db_works db) (db_agents db) (db_tools db)
          (db_evidence db) t (db_diags db) (db_events db))) tx.

Definition upsertFailureDiagnosis (event : Event) (tx : Tx) : result Tx :=
  '(event, tx) ← derive_work "failure" event tx;
  let id := deterministicID ["diagnosis"; ev_ID event] in
  let type := first_non_empty [attr event "failure_type"; "unknown"] in
  let reason := first_non_empty [attr event "reason"; attr event "summary"; ev_Type event] in
  let agent := nullable (ev_AgentSessionID event) in
  let verif := nullable (ev_VerificationID event) in
  exec (fun fk db =>
    t ← upsert (db_diags db) id (one_of failure_types type)
      (mkDiag (ev_RunID event) (ev_WorkID event) agent verif type reason
         (attr event "recommended_repackage") (attr event "dem_trace_ref")
         (sqlTime (ev_Timestamp event)) (ev_ActorID event))
      (refs fk (db_runs db) (Some (ev_RunID event))
       && refs fk (db_works db) (Some (ev_WorkID event))
       && refs fk (db_agents db) agent && refs fk (db_verifs db) verif)
      (fun old => mkDiag (dg_run_id old) (dg_work_id old) (dg_agent_id old) (dg_verif_id old)
         (dg_type old) reason (dg_repackage old) (dg_dem old) (dg_created old)
         (dg_created_by old))
      true;
    Ok (mkDB (db_repos db) (db_runs db) (db_works db) (db_agents db) (db_tools db)
          (db_evidence db) (db_verifs db) t (db_events db))) tx.

Definition recordSpecializedRow (event : Event) (tx : Tx) : result Tx :=
  let has t := ev_Type event =s t in
  if existsb has [EventToolCallStarted; EventToolCallCompleted; EventToolCallFailed;
                  EventToolCallBlocked] then upsertToolCall event tx
  else if existsb has [EventVerificationStarted; EventVerificationPassed;
                       EventVerificationFailed] then upsertVerification event tx
  else if has EventEvidenceCreated then upsertEvidence event tx
  else if has EventFailureDiagnosed then upsertFailureDiagnosis event tx
  else Ok tx.

(** [json.Marshal(event.Attributes)]: it cannot fail. *)
Definition attributes_tree (a : option attributes) : json :=
  match a with Some m => JObj (members (JStr <$> m)) | None => JNull end.
Definition payload_json (a : option attributes) : string := print (attributes_tree a).

Definition event_row (event : Event) : EventRow :=
  mkEventRow (ev_RunID event) (ev_Type event) (ev_ActorType event) (ev_ActorID event)
    (nullable (ev_WorkID event)) (nullable (ev_AgentSessionID event))
    (nullable (ev_EvidenceID event)) (nullable (ev_ToolCallID event))
    (nullable (ev_VerificationID event)) (payload_json (ev_Attributes event)) (attr event "trace_id")
    (attr event "span_id") (attr event "git_commit") (attr event "git_tree_hash")
    (sqlTime (ev_Timestamp event)).

Definition insertEvent (event : Event) (tx : Tx) : result Tx :=
  exec (fun fk db =>
    t ← upsert (db_events db) (ev_ID event) (one_of event_types (ev_Type event))
      (event_row event)
      (refs fk (db_runs db) (Some (ev_RunID event))
       && refs fk (db_works db) (nullable (ev_WorkID event))
       && refs fk (db_agents db) (nullable (ev_AgentSessionID event))
       && refs fk (db_evidence db) (nullable (ev_EvidenceID event))
       && refs fk (db_tools db) (nullable (ev_ToolCallID event))
       && refs fk (db_verifs db) (nullable (ev_VerificationID event)))
      (fun old => old) true;
    Ok (mkDB (db_repos db) (db_runs db) (db_works db) (db_agents db) (db_tools db)
          (db_evidence db) (db_verifs db) (db_diags db) t)) tx.

(** ** The store *)

Record Store := mkStore { sto_path : string; sto_projectRoot : string }.

Definition DefaultDBPath (projectRoot : string) : string :=
  JoinPath [projectRoot; ".omg"; "omg.db"].

(** The event as the transaction sees it: type trimmed, the missing time, run
    id, event id and project root filled in, in this order. *)
Definition complete_event (s : Store) (now : time) (event : Event) : Event :=
  let event := if IsZero (ev_Timestamp event) then set_timestamp now event else event in
  let stamp := FormatRFC3339Nano (ev_Timestamp event) in
  let event := if ev_RunID event =s "" then
      set_runid (first_non_empty [ev_RequestID event;
        deterministicID ["run"; ev_Type event; ev_ProjectRoot event; stamp]]) event
    else event in
  let event := if ev_ID event =s "" then
      set_id (deterministicID ["event"; ev_RunID event; ev_Type event; ev_RequestID event; stamp])
        event
    else event in
  if ev_ProjectRoot event =s "" then set_root (sto_projectRoot s) event else event.

Definition record_tx (event : Event) (tx : Tx) : result Tx :=
  tx ← ensureRepo event tx;
  tx ← ensureRun event tx;
  tx ← (if ev_WorkID event <>s "" then ensureWork event tx else Ok tx);
  tx ← (if ev_AgentSessionID event <>s "" then ensureAgentSession event tx else Ok tx);
  tx ← recordSpecializedRow event tx;
  insertEvent event tx.

(** [s = None] is a nil store (or one without a database). A failed commit
    leaves the transaction rolled back. *)
Definition RecordEvent (s : option Store) (env : TxEnv) (event : Event) (db : DB)
    : DB * option error :=
  match s with
  | None => (db, None)
  | Some s =>
      let event := set_type (normalizeType (ev_Type event)) event in
      if ev_Type event =s "" then (db, Some (errorf "event type is required"))
      else
        let event := complete_event s (te_now env) event in
        match te_begin_fault env with
        | Some err => (db, Some err)
        | None =>
            match record_tx event (mkTx db (te_fk env) (te_stmt_faults env)) with
            | Err err => (db, Some err)
            | Ok tx => match te_commit_fault env with
                       | Some err => (db, Some err)
                       | None => (tx_db tx, None)
                       end
            end
        end
  end.

(** ** The payload of an event *)

(** The attributes of an event can be read back from its row. *)
Lemma payload_json_reads a : parse (payload_json a) = Some (json_tree (attributes_tree a), "").
Proof.
  assert (fits 1 (attributes_tree a)) as [Hl Hd].
  { destruct a as [m|]; cbn [attributes_tree]; [|by auto with trees].
    apply fits_obj. rewrite members_fmap. apply Forall_map, Forall_forall. intros [k v] _. by apply fits_leaf. }
  unfold payload_json. rewrite <- (str_app_nil_r (print _)).
  apply parse_value_print; [done|etransitivity; [exact Hd|by apply Nat.leb_le]|by destruct a].
Qed.

(** ** The schema's constraints, as an invariant

    Every status and role is in its CHECK list, and every reference resolves. *)

#[local] Arguments one_of : simpl never.
#[local] Arguments refs : simpl never.
#[local] Arguments first_non_empty : simpl never.

Abbreviation ref tbl key := (refs true tbl key).

Definition run_ok (db : DB) (r : RunRow) : bool :=
  one_of run_statuses (rn_status r) && ref (db_repos db) (Some (rn_repo_id r)).
Definition work_ok (db : DB) (r : WorkRow) : bool :=
  one_of roles (wk_role r) && one_of work_statuses (wk_status r)
  && ref (db_runs db) (Some (wk_run_id r)).
Definition agent_ok (db : DB) (r : AgentRow) : bool :=
  one_of roles (ag_role r) && one_of agent_statuses (ag_status r)
  && ref (db_runs db) (Some (ag_run_id r)) && ref (db_works db) (ag_work_id r).
Definition tool_ok (db : DB) (r : ToolRow) : bool :=
  one_of tool_statuses (tl_status r) && ref (db_runs db) (Some (tl_run_id r))
  && ref (db_works db) (tl_work_id r) && ref (db_agents db) (tl_agent_id r).
Definition evidence_ok (db : DB) (r : EvidenceRow) : bool :=
  one_of kind_values (ed_kind r) && ref (db_runs db) (Some (ed_run_id r))
  && ref (db_works db) (ed_work_id r) && ref (db_agents db) (ed_agent_id r).
Definition verif_ok (db : DB) (r : VerifRow) : bool :=
  one_of verif_statuses (vf_status r) && ref (db_runs db) (Some (vf_run_id r))
  && ref (db_works db) (Some (vf_work_id r)).
Definition diag_ok (db : DB) (r : DiagRow) : bool :=
  one_of failure_types (dg_type r) && ref (db_runs db) (Some (dg_run_id r))
  && ref (db_works db) (Some (dg_work_id r)) && ref (db_agents db) (dg_agent_id r)
  && ref (db_verifs db) (dg_verif_id r).
Definition event_ok (db : DB) (r : EventRow) : bool :=
  one_of event_types (er_type r) && ref (db_runs db) (Some (er_run_id r))
  && ref (db_works db) (er_work_id r) && ref (db_agents db) (er_agent_id r)
  && ref (db_evidence db) (er_evidence_id r) && ref (db_tools db) (er_tool_id r)
  && ref (db_verifs db) (er_verif_id r).

Definition all_rows {R} (ok : R -> bool) (tbl : gmap string R) : Prop :=
  map_Forall (fun _ r => ok r = true) tbl.

Definition db_ok (db : DB) : Prop :=
  all_rows (run_ok db) (db_runs db) /\ all_rows (work_ok db) (db_works db) /\
  all_rows (agent_ok db) (db_agents db) /\ all_rows (tool_ok db) (db_tools db) /\
  all_rows (evidence_ok db) (db_evidence db) /\ all_rows (verif_ok db) (db_verifs db) /\
  all_rows (diag_ok db) (db_diags db) /\ all_rows (event_ok db) (db_events db).

(** Nothing is deleted, and the event ledger is append-only. *)
Definition grows {R} (t t' : gmap string R) : Prop :=
  forall k, is_Some (t !! k) -> is_Some (t' !! k).
Definition db_le (db db' : DB) : Prop :=
  grows (db_repos db) (db_repos db') /\ grows (db_runs db) (db_runs db') /\
  grows (db_works db) (db_works db') /\ grows (db_agents db) (db_agents db') /\
  grows (db_tools db) (db_tools db') /\ grows (db_evidence db) (db_evidence db') /\
  grows (db_verifs db) (db_verifs db') /\ grows (db_diags db) (db_diags db') /\
  db_events db ⊆ db_events db'.

#[export] Instance grows_preorder {R} : PreOrder (@grows R).
Proof. split; [by intros t k | intros ? ? ? H1 H2 k H; auto]. Qed.

#[export] Instance db_le_preorder : PreOrder db_le.
Proof.
  split.
  - intros db. unfold db_le. split_and!; reflexivity.
  - intros ? ? ? H1 H2. unfold db_le in *. destruct_and!. split_and!; by etransitivity.
Qed.

Lemma refs_mono {R} (t t' : gmap string R) o : grows t t' -> ref t o = true -> ref t' o = true.
Proof.
  unfold refs. destruct o as [k|]; cbn; [|done]. rewrite !bool_decide_eq_true. auto.
Qed.

(** What an upsert leaves: the old keys and the id, and on the id either the
    inserted row or the updated old one. *)
Lemma upsert_grows {R} tbl id check (ins : R) ir upd ur tbl' :
  upsert tbl id check ins ir upd ur = Ok tbl' -> grows tbl tbl' /\ is_Some (tbl' !! id).
Proof.
  unfold upsert. destruct check; [|done]. simpl.
  destruct (tbl !! id) eqn:E; [destruct ur | destruct ir]; intros [= <-];
    (split; [intros k Hk; destruct (decide (k = id)) as [->|];
       [rewrite lookup_insert_eq; eauto | by rewrite lookup_insert_ne by done]
      | rewrite lookup_insert_eq; eauto]).
Qed.

Lemma upsert_rows {R} tbl id check (ins : R) ir upd ur tbl' (ok : R -> bool) :
  upsert tbl id check ins ir upd ur = Ok tbl' ->
  all_rows ok tbl ->
  (check = true -> ir = true -> ok ins = true) ->
  (forall old, ok old = true -> check = true -> ur = true -> ok (upd old) = true) ->
  all_rows ok tbl'.
Proof.
  unfold upsert. destruct check; [|done]. simpl. intros E Hall Hins Hupd.
  assert (forall v, ok v = true -> all_rows ok (<[id := v]> tbl)) as Hset.
  { intros v Hv k row Hk. destruct (decide (k = id)) as [->|].
    - rewrite lookup_insert_eq in Hk. by injection Hk as <-.
    - rewrite lookup_insert_ne in Hk by done. eauto. }
  destruct (tbl !! id) eqn:El; [destruct ur; [|done] | destruct ir; [|done]];
    injection E as <-; apply Hset; [|auto].
  apply Hupd; [|done..]. by apply Hall in El.
Qed.

(** Every repository's hash is its id, as the store writes it. *)
Definition hashed (db : DB) : Prop := map_Forall (fun id r => rp_hash r = id) (db_repos db).

Lemma hashed_unique db id : hashed db -> unique_hash (db_repos db) id id = true.
Proof.
  intros Hh. apply forallb_forall. intros [k r] Hin%list_elem_of_In%elem_of_map_to_list.
  apply Hh in Hin. cbn. rewrite Hin. by destruct (k =s id).
Qed.

(** One step of a transaction that respects the schema. *)
Definition good_step (tx tx' : Tx) : Prop :=
  tx_fk tx' = tx_fk tx /\ db_le (tx_db tx) (tx_db tx') /\ (hashed (tx_db tx) -> hashed (tx_db tx')) /\
  (tx_fk tx = true -> db_ok (tx_db tx) -> db_ok (tx_db tx')).

#[export] Instance good_step_preorder : PreOrder good_step.
Proof.
  unfold good_step. split.
  - intros tx. split_and!; [done | reflexivity | done | done].
  - intros t1 t2 t3 (E1 & L1 & R1 & H1) (E2 & L2 & R2 & H2).
    split_and!; [congruence | by etransitivity | auto | rewrite E1 in H2; auto].
Qed.

Lemma exec_good stmt tx tx' :
  (forall fk db db', stmt fk db = Ok db' ->
     db_le db db' /\ (hashed db -> hashed db') /\ (fk = true -> db_ok db -> db_ok db')) ->
  exec stmt tx = Ok tx' -> good_step tx tx'.
Proof.
  intros H. unfold exec, good_step.
  destruct (tx_faults tx) as [|[]] eqn:E; try done;
    (destruct (stmt (tx_fk tx) (tx_db tx)) as [db'|] eqn:Es; [|done]; intros [= <-]; simpl;
     apply H in Es as (? & ? & ?); done).
Qed.

(** Rows stay valid when the tables grow. *)
Lemma rows_mono {R} (okf : DB -> R -> bool) db db' tbl :
  db_le db db' ->
  (forall r, okf db r = true -> okf db' r = true) ->
  all_rows (okf db) tbl -> all_rows (okf db') tbl.
Proof. intros _ H Hall k r Hk. eauto. Qed.

Ltac ok_mono :=
  intros [] ; unfold run_ok, work_ok, agent_ok, tool_ok, evidence_ok, verif_ok, diag_ok, event_ok;
  simpl; rewrite ?andb_true_iff; intros; destruct_and!; split_and!; eauto using refs_mono.

Lemma ok_mono db db' :
  db_le db db' ->
  (forall r, run_ok db r = true -> run_ok db' r = true) /\
  (forall r, work_ok db r = true -> work_ok db' r = true) /\
  (forall r, agent_ok db r = true -> agent_ok db' r = true) /\
  (forall r, tool_ok db r = true -> tool_ok db' r = true) /\
  (forall r, evidence_ok db r = true -> evidence_ok db' r = true) /\
  (forall r, verif_ok db r = true -> verif_ok db' r = true) /\
  (forall r, diag_ok db r = true -> diag_ok db' r = true) /\
  (forall r, event_ok db r = true -> event_ok db' r = true).
Proof.
  unfold db_le. intros. destruct_and!. split_and!; ok_mono.
Qed.

(** A statement of the store: it upserts into one table and keeps the others. *)
Ltac stmt_good :=
  apply exec_good; intros fk db db';
  match goal with |- context [upsert ?t ?i ?c ?ins ?ir ?u ?ur] =>
    destruct (upsert t i c ins ir u ur) as [t'|] eqn:EU; [|done];
    cbn; intros [= <-];
    pose proof (proj1 (upsert_grows _ _ _ _ _ _ _ _ EU)) as Hg;
    match goal with |- ?le /\ _ =>
      assert le as Hle; [unfold db_le; cbn; split_and!; (reflexivity || done) |];
      split; [exact Hle|]; split; [done|]; intros -> Hok; pose proof (ok_mono _ _ Hle) as Hmono;
      unfold db_ok in *; cbn; destruct_and!;
      split_and!; try (by eapply rows_mono; [exact Hle | |]; eauto);
      (eapply upsert_rows; [exact EU | by eapply rows_mono; [exact Hle | |]; eauto | |])
    end
  end.

Lemma ensureRepo_good event tx tx' : ensureRepo event tx = Ok tx' -> good_step tx tx'.
Proof.
  unfold ensureRepo. apply exec_good. intros fk db db' E. apply bind_ok in E as (_ & _ & E).
  apply bind_ok in E as (t & EU & [= <-]). pose proof (proj1 (upsert_grows _ _ _ _ _ _ _ _ EU)) as Hg.
  match goal with |- ?le /\ _ => assert le as Hle by (unfold db_le; cbn; split_and!; (reflexivity || done)) end.
  split; [exact Hle|]. split.
  - unfold hashed. cbn [db_repos]. intros Hh k row Hk. revert EU. unfold upsert. cbn [negb].
    destruct (db_repos db !! _) as [old|] eqn:El; intros [= <-];
      (destruct (decide (k = repoID (ev_ProjectRoot event))) as [->|Hne];
       [rewrite lookup_insert_eq in Hk; injection Hk as <-; cbn; first [by apply Hh in El | done]
       |rewrite lookup_insert_ne in Hk by done; by apply Hh]).
  - intros _ Hok. pose proof (ok_mono _ _ Hle) as Hmono. unfold db_ok in *. cbn. destruct_and!.
    split_and!; (eapply rows_mono; [exact Hle | |]; eauto).
Qed.

Ltac rows_done :=
  unfold run_ok, work_ok, agent_ok, tool_ok, evidence_ok, verif_ok, diag_ok, event_ok; cbn;
  intros;
  repeat match goal with |- context [if ?s =s "" then _ else _] => destruct (s =s "") end; cbn;
  rewrite ?andb_true_iff in *; destruct_and?; split_and?; eauto using refs_mono.

Lemma ensureRun_good event tx tx' : ensureRun event tx = Ok tx' -> good_step tx tx'.
Proof. unfold ensureRun. stmt_good; rows_done. Qed.

Lemma ensureWork_good event tx tx' : ensureWork event tx = Ok tx' -> good_step tx tx'.
Proof.
  unfold ensureWork. destruct (workStatus event =s ""); [by intros [= <-]|].
  stmt_good; rows_done.
Qed.

Lemma ensureAgentSession_good event tx tx' :
  ensureAgentSession event tx = Ok tx' -> good_step tx tx'.
Proof.
  unfold ensureAgentSession. stmt_good; rows_done.
  destruct (nullable _); eauto using refs_mono.
Qed.

Lemma upsertToolCall_good event tx tx' : upsertToolCall event tx = Ok tx' -> good_step tx tx'.
Proof. unfold upsertToolCall. stmt_good; rows_done. Qed.

Lemma upsertEvidence_good event tx tx' : upsertEvidence event tx = Ok tx' -> good_step tx tx'.
Proof. unfold upsertEvidence. stmt_good; rows_done. Qed.

Lemma derive_work_good suffix event tx event' tx' :
  derive_work suffix event tx = Ok (event', tx') -> good_step tx tx'.
Proof.
  unfold derive_work. destruct (ev_WorkID event =s ""); [|by intros [= _ <-]].
  destruct (ensureWork _ tx) as [tx1|] eqn:E; [|done]. intros [= _ <-].
  by eapply ensureWork_good.
Qed.

Lemma upsertVerification_good event tx tx' :
  upsertVerification event tx = Ok tx' -> good_step tx tx'.
Proof.
  unfold upsertVerification. destruct (derive_work _ event tx) as [[ev tx1]|] eqn:E; [|done].
  apply derive_work_good in E. cbn. intros H. etransitivity; [exact E|]. revert H.
  stmt_good; rows_done.
Qed.

Lemma upsertFailureDiagnosis_good event tx tx' :
  upsertFailureDiagnosis event tx = Ok tx' -> good_step tx tx'.
Proof.
  unfold upsertFailureDiagnosis. destruct (derive_work _ event tx) as [[ev tx1]|] eqn:E; [|done].
  apply derive_work_good in E. cbn. intros H. etransitivity; [exact E|]. revert H.
  stmt_good; rows_done.
Qed.

Lemma recordSpecializedRow_good event tx tx' :
  recordSpecializedRow event tx = Ok tx' -> good_step tx tx'.
Proof.
  unfold recordSpecializedRow. cbv zeta.
  destruct (existsb _ _); [apply upsertToolCall_good|].
  destruct (existsb _ _); [apply upsertVerification_good|].
  destruct (_ =s _); [apply upsertEvidence_good|].
  destruct (_ =s _); [apply upsertFailureDiagnosis_good|].
  by intros [= <-].
Qed.

Lemma upsert_keeps {R} tbl id check (ins : R) ir ur tbl' :
  upsert tbl id check ins ir (fun old => old) ur = Ok tbl' ->
  tbl ⊆ tbl' /\ tbl' !! id = Some (default ins (tbl !! id)) /\
  (forall k, k <> id -> tbl' !! k = tbl !! k).
Proof.
  unfold upsert. destruct check; [|done]. simpl.
  destruct (tbl !! id) as [old|] eqn:E; [destruct ur; [|done] | destruct ir; [|done]];
    intros [= <-]; split_and!.
  - by rewrite insert_id.
  - by rewrite lookup_insert_eq.
  - intros. by rewrite lookup_insert_ne.
  - by apply insert_subseteq.
  - by rewrite lookup_insert_eq.
  - intros. by rewrite lookup_insert_ne.
Qed.

Lemma insertEvent_good event tx tx' : insertEvent event tx = Ok tx' -> good_step tx tx'.
Proof.
  unfold insertEvent. apply exec_good. intros fk db db'.
  destruct (upsert _ _ _ _ _ _ _) as [t'|] eqn:EU; [|done]. cbn. intros [= <-].
  assert (db_events db ⊆ t') as Hs by apply (upsert_keeps _ _ _ _ _ _ _ EU).
  match goal with |- ?le /\ _ => assert le as Hle end.
  { unfold db_le; cbn; split_and!; (reflexivity || done). }
  split; [exact Hle|]. split; [done|]. intros -> Hok. pose proof (ok_mono _ _ Hle) as Hmono.
  unfold db_ok in *; cbn; destruct_and!.
  split_and!; try (by eapply rows_mono; [exact Hle | |]; eauto).
  eapply upsert_rows; [exact EU | by eapply rows_mono; [exact Hle | |]; eauto | |];
    rows_done.
Qed.

Lemma record_tx_good event tx tx' : record_tx event tx = Ok tx' -> good_step tx tx'.
Proof.
  unfold record_tx. intros H.
  apply bind_ok in H as (tx1 & E1 & H). apply bind_ok in H as (tx2 & E2 & H).
  apply bind_ok in H as (tx3 & E3 & H). apply bind_ok in H as (tx4 & E4 & H).
  apply bind_ok in H as (tx5 & E5 & H).
  apply ensureRepo_good in E1. apply ensureRun_good in E2.
  apply recordSpecializedRow_good in E5. apply insertEvent_good in H.
  assert (good_step tx2 tx3)
    by (revert E3; case (ev_WorkID event <>s ""); [apply ensureWork_good | by intros [= <-]]).
  assert (good_step tx3 tx4)
    by (revert E4; case (ev_AgentSessionID event <>s ""); [apply ensureAgentSession_good | by intros [= <-]]).
  by repeat (etransitivity; [eassumption|]).
Qed.

(** ** What each statement leaves alone *)

Lemma exec_inv stmt tx tx' :
  exec stmt tx = Ok tx' ->
  stmt (tx_fk tx) (tx_db tx) = Ok (tx_db tx') /\ tx_fk tx' = tx_fk tx.
Proof.
  unfold exec. destruct (tx_faults tx) as [|[]]; try done;
    (intros H; apply bind_ok in H as (db & -> & [= <-]); done).
Qed.

Lemma exec_frame {B} (f : DB -> B) stmt tx tx' :
  (forall fk db db', stmt fk db = Ok db' -> f db' = f db) ->
  exec stmt tx = Ok tx' -> f (tx_db tx') = f (tx_db tx).
Proof. intros H E. apply exec_inv in E as [E _]. by eapply H. Qed.

Ltac frame f :=
  apply (exec_frame f); intros ? ? ? Hstmt; repeat apply bind_ok in Hstmt as (? & _ & Hstmt);
  injection Hstmt as <-; reflexivity.

(** The tables a query about runs and the ledger is answered from. *)
Definition ledger (db : DB) := (db_runs db, db_events db).

Lemma ensureRepo_frame event tx tx' :
  ensureRepo event tx = Ok tx' -> ledger (tx_db tx') = ledger (tx_db tx).
Proof. unfold ensureRepo. frame ledger. Qed.

Lemma ensureWork_frame event tx tx' :
  ensureWork event tx = Ok tx' -> ledger (tx_db tx') = ledger (tx_db tx).
Proof.
  unfold ensureWork. destruct (workStatus event =s ""); [by intros [= <-]|]. frame ledger.
Qed.

Lemma ensureAgentSession_frame event tx tx' :
  ensureAgentSession event tx = Ok tx' -> ledger (tx_db tx') = ledger (tx_db tx).
Proof. unfold ensureAgentSession. frame ledger. Qed.

Lemma derive_work_frame suffix event tx event' tx' :
  derive_work suffix event tx = Ok (event', tx') -> ledger (tx_db tx') = ledger (tx_db tx).
Proof.
  unfold derive_work. destruct (ev_WorkID event =s ""); [|by intros [= _ <-]].
  intros H. apply bind_ok in H as (tx1 & H & [= _ <-]). by eapply ensureWork_frame.
Qed.

Lemma recordSpecializedRow_frame event tx tx' :
  recordSpecializedRow event tx = Ok tx' -> ledger (tx_db tx') = ledger (tx_db tx).
Proof.
  unfold recordSpecializedRow. cbv zeta.
  destruct (existsb _ _); [unfold upsertToolCall; frame ledger|].
  destruct (existsb _ _).
  { unfold upsertVerification. intros H. apply bind_ok in H as ([ev tx1] & E & H).
    apply derive_work_frame in E. rewrite <- E. revert H. frame ledger. }
  destruct (_ =s _); [unfold upsertEvidence; frame ledger|].
  destruct (_ =s _); [|by intros [= <-]].
  unfold upsertFailureDiagnosis. intros H. apply bind_ok in H as ([ev tx1] & E & H).
  apply derive_work_frame in E. rewrite <- E. revert H. frame ledger.
Qed.

(** The transaction in stages. *)
Lemma record_tx_stages event tx tx' :
  record_tx event tx = Ok tx' ->
  exists tx1 tx2 tx3 tx4 tx5,
    ensureRepo event tx = Ok tx1 /\ ensureRun event tx1 = Ok tx2 /\
    (if ev_WorkID event <>s "" then ensureWork event tx2 else Ok tx2) = Ok tx3 /\
    (if ev_AgentSessionID event <>s "" then ensureAgentSession event tx3 else Ok tx3) = Ok tx4 /\
    recordSpecializedRow event tx4 = Ok tx5 /\ insertEvent event tx5 = Ok tx' /\
    ledger (tx_db tx1) = ledger (tx_db tx) /\
    db_events (tx_db tx5) = db_events (tx_db tx) /\ db_runs (tx_db tx') = db_runs (tx_db tx2).
Proof.
  intros H. unfold record_tx in H.
  apply bind_ok in H as (tx1 & E1 & H). apply bind_ok in H as (tx2 & E2 & H).
  apply bind_ok in H as (tx3 & E3 & H). apply bind_ok in H as (tx4 & E4 & H).
  apply bind_ok in H as (tx5 & E5 & H).
  exists tx1, tx2, tx3, tx4, tx5. do 6 (split; [done|]).
  pose proof (ensureRepo_frame _ _ _ E1) as F1.
  assert (db_events (tx_db tx2) = db_events (tx_db tx1)) as F2
    by (revert E2; unfold ensureRun; frame db_events).
  assert (ledger (tx_db tx3) = ledger (tx_db tx2)) as F3
    by (revert E3; case (ev_WorkID event <>s ""); [apply ensureWork_frame | by intros [= <-]]).
  assert (ledger (tx_db tx4) = ledger (tx_db tx3)) as F4
    by (revert E4; case (ev_AgentSessionID event <>s "");
        [apply ensureAgentSession_frame | by intros [= <-]]).
  pose proof (recordSpecializedRow_frame _ _ _ E5) as F5.
  assert (db_runs (tx_db tx') = db_runs (tx_db tx5)) as F6
    by (revert H; unfold insertEvent; frame db_runs).
  unfold ledger in *. simplify_eq. split_and!; congruence.
Qed.

Lemma RecordEvent_inv s env event db db' err :
  RecordEvent (Some s) env event db = (db', err) ->
  let e := complete_event s (te_now env) (set_type (normalizeType (ev_Type event)) event) in
  match err with
  | Some _ => db' = db
  | None => normalizeType (ev_Type event) <> "" /\ te_begin_fault env = None /\
            te_commit_fault env = None /\
            exists tx', record_tx e (mkTx db (te_fk env) (te_stmt_faults env)) = Ok tx' /\
                        tx_db tx' = db'
  end.
Proof.
  unfold RecordEvent. cbn. destruct (normalizeType (ev_Type event) =s "") eqn:Et.
  { by intros [= <- <-]. }
  destruct (te_begin_fault env) eqn:Eb; [by intros [= <- <-]|].
  destruct (record_tx _ _) as [tx|e] eqn:Er; [|by intros [= <- <-]].
  destruct (te_commit_fault env) eqn:Ec; intros [= <- <-]; [done|].
  str_simpl. split_and!; eauto.
Qed.

(** The ledger after a successful recording. *)
Lemma RecordEvent_ledger s env event db db' :
  RecordEvent (Some s) env event db = (db', None) ->
  let e := complete_event s (te_now env) (set_type (normalizeType (ev_Type event)) event) in
  db_events db' !! ev_ID e = Some (default (event_row e) (db_events db !! ev_ID e)) /\
  forall id, id <> ev_ID e -> db_events db' !! id = db_events db !! id.
Proof.
  intros H. apply RecordEvent_inv in H. cbv zeta in H |- *.
  set (e := complete_event _ _ _) in *. clearbody e.
  destruct H as (_ & _ & _ & tx' & H & <-).
  apply record_tx_stages in H as (_ & _ & _ & _ & tx5 & _ & _ & _ & _ & _ & H & _ & F & _).
  cbn in F. rewrite <- F. apply exec_inv in H as [H _].
  apply bind_ok in H as (t & H & [= <-]). by apply upsert_keeps in H as [_ H].
Qed.

(** C32: recording an event is all or nothing, whatever calls of the driver fail: on
    an error the tables are as they were; on success nothing has been deleted
    and the ledger has the event's row, and otherwise the rows it had: the first
    recording of an id stays. *)
Theorem RecordEvent_atomic s env event db db' err :
  RecordEvent (Some s) env event db = (db', err) ->
  let e := complete_event s (te_now env) (set_type (normalizeType (ev_Type event)) event) in
  match err with
  | Some _ => db' = db
  | None => db_le db db' /\
      db_events db' !! ev_ID e = Some (default (event_row e) (db_events db !! ev_ID e)) /\
      forall id, id <> ev_ID e -> db_events db' !! id = db_events db !! id
  end.
Proof.
  intros H. destruct err as [err|]; cbv zeta.
  - apply RecordEvent_inv in H. exact H.
  - split; [|by apply RecordEvent_ledger]. apply RecordEvent_inv in H. cbv zeta in H.
    destruct H as (_ & _ & _ & tx' & H & <-). apply record_tx_good in H. apply H.
Qed.

(** On a connection that enforces foreign keys, every recorded event keeps the
    schema's constraints: what the database promises. *)
Theorem RecordEvent_schema s env event db :
  te_fk env = true -> db_ok db -> db_ok (RecordEvent s env event db).1.
Proof.
  intros Hfk Hok. destruct s as [s|]; [|done].
  destruct (RecordEvent (Some s) env event db) as [db' err] eqn:E. simpl.
  apply RecordEvent_inv in E. destruct err; [by subst|].
  destruct E as (_ & _ & _ & tx' & H & <-). apply record_tx_good in H as (_ & _ & _ & H). auto.
Qed.

(** The status of a run follows its events: a recorded event that implies a run
    status sets it, any other leaves the status of a known run alone and creates
    an unknown run as [scoped]; no other run changes. *)
Theorem RecordEvent_run_status s env event db db' :
  RecordEvent (Some s) env event db = (db', None) ->
  let e := complete_event s (te_now env) (set_type (normalizeType (ev_Type event)) event) in
  rn_status <$> (db_runs db' !! ev_RunID e) =
    Some (if runStatus e =s ""
          then default "scoped" (rn_status <$> (db_runs db !! ev_RunID e))
          else runStatus e) /\
  forall id, id <> ev_RunID e -> db_runs db' !! id = db_runs db !! id.
Proof.
  intros H. apply RecordEvent_inv in H. cbv zeta in H |- *.
  set (e := complete_event _ _ _) in *. clearbody e.
  destruct H as (_ & _ & _ & tx' & H & <-).
  apply record_tx_stages in H as (tx1 & tx2 & _ & _ & _ & _ & E2 & _ & _ & _ & _ & F1 & _ & F2).
  rewrite F2. unfold ledger in F1. injection F1 as F1 _. cbn in F1. rewrite <- F1.
  apply exec_inv in E2 as [E2 _]. apply bind_ok in E2 as (t & E2 & [= <-]).
  cbn [tx_db db_runs]. revert E2. unfold upsert.
  destruct (one_of _ _); cbn [negb]; [|done].
  destruct (db_runs (tx_db tx1) !! ev_RunID e) as [old|] eqn:El;
    [|destruct (refs _ _ _); [|done]];
    intros [= <-]; rewrite lookup_insert_eq; (split; [|intros; by rewrite lookup_insert_ne]);
    destruct (runStatus e =s ""); done.
Qed.

(** ** Which events the schema takes *)

Definition no_faults (env : TxEnv) : Prop :=
  te_begin_fault env = None /\ te_stmt_faults env = [] /\ te_commit_fault env = None.

Definition known {R} (tbl : gmap string R) (id : string) : Prop := is_Some (tbl !! id).

Definition tool_event (e : Event) : Prop :=
  ev_Type e ∈ [EventToolCallStarted; EventToolCallCompleted; EventToolCallFailed;
               EventToolCallBlocked].
Definition verification_event (e : Event) : Prop :=
  ev_Type e ∈ [EventVerificationStarted; EventVerificationPassed; EventVerificationFailed].

(** The event's own demands: allowed enumerations, and for every id it carries a
    row that exists or that recording it creates. *)
Record acceptable (db : DB) (e : Event) : Prop := {
  acc_type : one_of event_types (ev_Type e) = true;
  acc_run : runStatus e = "" \/ one_of run_statuses (runStatus e) = true;
  acc_role : one_of roles (first_non_empty [attr e "role"; "executor"]) = true;
  acc_work : ev_WorkID e = "" \/ workStatus e <> "" \/ known (db_works db) (ev_WorkID e);
  acc_evidence : ev_EvidenceID e = "" \/ known (db_evidence db) (ev_EvidenceID e) \/
                 ev_Type e = EventEvidenceCreated;
  acc_tool : ev_ToolCallID e = "" \/ known (db_tools db) (ev_ToolCallID e) \/ tool_event e;
  acc_verif : ev_VerificationID e = "" \/ known (db_verifs db) (ev_VerificationID e) \/
              verification_event e;
  acc_started : ev_Type e = EventVerificationStarted -> ev_WorkID e <> "";
  acc_diagnosis : ev_Type e = EventFailureDiagnosed ->
    ev_WorkID e <> "" /\
    one_of failure_types (first_non_empty [attr e "failure_type"; "unknown"]) = true
}.

Lemma upsert_total {R} tbl id check (ins : R) ir upd ur :
  check = true -> ir = true -> ur = true ->
  exists t, upsert tbl id check ins ir upd ur = Ok t /\ grows tbl t /\ known t id.
Proof.
  intros -> -> ->.
  destruct (upsert tbl id true ins true upd true) as [t|] eqn:E.
  - exists t. split; [done|]. by eapply upsert_grows.
  - unfold upsert in E. simpl in E. by destruct (tbl !! id).
Qed.

Lemma refs_known {R} fk (tbl : gmap string R) id : known tbl id -> refs fk tbl (Some id) = true.
Proof. intros H. unfold refs. destruct fk; [|done]. by apply bool_decide_eq_true. Qed.

Lemma refs_nullable {R} fk (tbl : gmap string R) id :
  id = "" \/ known tbl id -> refs fk tbl (nullable id) = true.
Proof.
  unfold nullable. destruct (id =s "") eqn:E; str_simpl; [by destruct fk|].
  intros [->|H]; [done|]. by apply refs_known.
Qed.

Lemma nullable_known {R} (t t' : gmap string R) id :
  grows t t' -> id = "" \/ known t id -> id = "" \/ known t' id.
Proof. intros Hg [->|H]; [by left | right; by apply Hg]. Qed.

Lemma runStatus_insert e :
  runStatus e = "" \/ one_of run_statuses (runStatus e) = true ->
  one_of run_statuses (if runStatus e =s "" then "scoped" else runStatus e) = true.
Proof. intros [->|H]; [done|]. by destruct (runStatus e =s ""). Qed.

Lemma workStatus_ok e : workStatus e <> "" -> one_of work_statuses (workStatus e) = true.
Proof.
  unfold workStatus. cbv zeta. repeat match goal with
    |- context [if ?b then _ else _] => destruct b; [done|] end. done.
Qed.

Lemma agentStatus_ok e : one_of agent_statuses (agentStatus e) = true.
Proof.
  unfold agentStatus. cbv zeta. repeat match goal with
    |- context [if ?b then _ else _] => destruct b; [done|] end. done.
Qed.

Lemma toolStatus_ok e : one_of tool_statuses (toolStatus e) = true.
Proof.
  unfold toolStatus. cbv zeta. destruct (_ =s _).
  - destruct (_ || _) eqn:E; [|done]. rewrite !orb_true_iff, !eqb_true in E.
    by destruct E as [[-> | ->] | ->].
  - repeat match goal with |- context [if ?b then _ else _] => destruct b; [done|] end. done.
Qed.

Lemma verificationStatus_ok e :
  verification_event e -> one_of verif_statuses (verificationStatus e) = true.
Proof.
  unfold verification_event, verificationStatus. cbv zeta. intros H.
  in_list_inv; done.
Qed.

Lemma mapVerifyEvidenceKind_ok k : one_of kind_values (mapVerifyEvidenceKind k) = true.
Proof.
  unfold mapVerifyEvidenceKind.
  repeat match goal with |- context [if (?a =s ?b) then _ else _] => destruct (a =s b); [done|] end.
  destruct (existsb _ _) eqn:E; [exact E | done].
Qed.

(** One statement that passes its checks: the transaction goes on, the tables
    have grown and the id is known. *)
Ltac total Hf :=
  unfold exec; rewrite ?Hf; cbn [tail];
  match goal with |- context [upsert ?t ?i ?c ?ins ?ir ?u ?ur] =>
    let t' := fresh "t" in let E := fresh "E" in let G := fresh "G" in let K := fresh "K" in
    destruct (upsert_total t i c ins ir u ur) as (t' & E & G & K);
    [| | | rewrite E; eexists; split; [reflexivity|]; cbn] end.

Lemma ensureRepo_total e tx :
  tx_faults tx = [] -> hashed (tx_db tx) ->
  exists tx', ensureRepo e tx = Ok tx' /\ tx_faults tx' = [] /\
    known (db_repos (tx_db tx')) (repoID (ev_ProjectRoot e)).
Proof. intros Hf Hh. unfold ensureRepo, exec. rewrite Hf, hashed_unique by done. cbn -[upsert]. total Hf; done. Qed.

Lemma ensureRun_total e tx :
  tx_faults tx = [] -> runStatus e = "" \/ one_of run_statuses (runStatus e) = true ->
  known (db_repos (tx_db tx)) (repoID (ev_ProjectRoot e)) ->
  exists tx', ensureRun e tx = Ok tx' /\ tx_faults tx' = [] /\
    known (db_runs (tx_db tx')) (ev_RunID e).
Proof.
  intros Hf Hs Hr. unfold ensureRun. total Hf; [by apply runStatus_insert | by apply refs_known | done..].
Qed.

Lemma ensureWork_total e tx :
  tx_faults tx = [] -> known (db_runs (tx_db tx)) (ev_RunID e) ->
  one_of roles (first_non_empty [attr e "role"; "executor"]) = true ->
  workStatus e <> "" \/ known (db_works (tx_db tx)) (ev_WorkID e) ->
  exists tx', ensureWork e tx = Ok tx' /\ tx_faults tx' = [] /\
    known (db_works (tx_db tx')) (ev_WorkID e).
Proof.
  intros Hf Hr Hrole Hw. unfold ensureWork. destruct (workStatus e =s "") eqn:Es; str_simpl.
  { exists tx. by destruct Hw. }
  total Hf; [by rewrite Hrole, workStatus_ok | by apply refs_known | done..].
Qed.

Lemma ensureAgentSession_total e tx :
  tx_faults tx = [] -> known (db_runs (tx_db tx)) (ev_RunID e) ->
  one_of roles (first_non_empty [attr e "role"; "executor"]) = true ->
  ev_WorkID e = "" \/ known (db_works (tx_db tx)) (ev_WorkID e) ->
  exists tx', ensureAgentSession e tx = Ok tx' /\ tx_faults tx' = [] /\
    known (db_agents (tx_db tx')) (ev_AgentSessionID e).
Proof.
  intros Hf Hr Hrole Hw. unfold ensureAgentSession.
  total Hf; [by rewrite Hrole, agentStatus_ok |
    by rewrite refs_known, refs_nullable | by apply refs_nullable | done].
Qed.

(** The references every row of this event makes resolve. *)
Definition grounded (e : Event) (tx : Tx) : Prop :=
  tx_faults tx = [] /\ known (db_runs (tx_db tx)) (ev_RunID e) /\
  (ev_WorkID e = "" \/ known (db_works (tx_db tx)) (ev_WorkID e)) /\
  (ev_AgentSessionID e = "" \/ known (db_agents (tx_db tx)) (ev_AgentSessionID e)).

Lemma known_first {R} (t : gmap string R) id d :
  known t (first_non_empty [id; d]) -> id = "" \/ known t id.
Proof.
  destruct (decide (id = "")) as [->|Hne]; [by left|].
  rewrite first_non_empty_head by done. by right.
Qed.

Lemma upsertToolCall_total e tx :
  grounded e tx -> exists tx', upsertToolCall e tx = Ok tx' /\ tx_faults tx' = [] /\
    (ev_ToolCallID e = "" \/ known (db_tools (tx_db tx')) (ev_ToolCallID e)).
Proof.
  intros (Hf & Hr & Hw & Ha). unfold upsertToolCall.
  total Hf; [apply toolStatus_ok | by rewrite refs_known, !refs_nullable | done |].
  split; [done|]. by eapply known_first.
Qed.

Lemma upsertEvidence_total e tx :
  grounded e tx -> exists tx', upsertEvidence e tx = Ok tx' /\ tx_faults tx' = [] /\
    (ev_EvidenceID e = "" \/ known (db_evidence (tx_db tx')) (ev_EvidenceID e)).
Proof.
  intros (Hf & Hr & Hw & Ha). unfold upsertEvidence.
  total Hf; [apply mapVerifyEvidenceKind_ok | by rewrite refs_known, !refs_nullable | done |].
  split; [done|]. by eapply known_first.
Qed.

Lemma upsertVerification_total e tx :
  grounded e tx -> verification_event e ->
  one_of roles (first_non_empty [attr e "role"; "executor"]) = true ->
  (ev_Type e = EventVerificationStarted -> ev_WorkID e <> "") ->
  exists tx', upsertVerification e tx = Ok tx' /\ tx_faults tx' = [] /\
    (ev_VerificationID e = "" \/ known (db_verifs (tx_db tx')) (ev_VerificationID e)).
Proof.
  intros (Hf & Hr & Hw & Ha) Ht Hrole Hst. unfold upsertVerification.
  assert (exists e' tx1, derive_work "verification" e tx = Ok (e', tx1) /\
    tx_faults tx1 = [] /\ known (db_runs (tx_db tx1)) (ev_RunID e) /\
    known (db_works (tx_db tx1)) (ev_WorkID e') /\ verification_event e' /\
    ev_RunID e' = ev_RunID e /\ ev_VerificationID e' = ev_VerificationID e)
    as (e' & tx1 & -> & Hf1 & Hr1 & Hw1 & Ht1 & E1 & E2).
  { unfold derive_work. destruct (ev_WorkID e =s "") eqn:Ew; str_simpl.
    - set (e' := set_workid _ e).
      destruct (ensureWork_total e' tx) as (tx1 & E & Hf1 & Hk); [done..| left |].
      { unfold verification_event in Ht. unfold workStatus. subst e'. cbn -[existsb].
        in_list_cases Ht; [by apply Hst in Ht | by rewrite Ht..]. }
      rewrite E. exists e', tx1. apply ensureWork_good in E as (_ & Hle & _).
      split_and!; try done. by apply Hle.
    - exists e, tx. destruct Hw; [done|]. split_and!; done. }
  cbn. total Hf1; [by apply verificationStatus_ok | by rewrite E1, !refs_known | done |].
  split; [done|]. rewrite <- E2. by eapply known_first.
Qed.

Lemma upsertFailureDiagnosis_total e tx :
  grounded e tx -> ev_WorkID e <> "" ->
  one_of failure_types (first_non_empty [attr e "failure_type"; "unknown"]) = true ->
  ev_VerificationID e = "" \/ known (db_verifs (tx_db tx)) (ev_VerificationID e) ->
  exists tx', upsertFailureDiagnosis e tx = Ok tx' /\ tx_faults tx' = [].
Proof.
  intros (Hf & Hr & Hw & Ha) Hne Hty Hv. unfold upsertFailureDiagnosis, derive_work.
  apply eqb_false in Hne as Hne'. rewrite Hne'. cbn -[exec]. destruct Hw; [done|].
  total Hf; [done | by rewrite !refs_known, !refs_nullable | done..].
Qed.

Lemma type_in e l :
  existsb (fun t => ev_Type e =s t) l = bool_decide (ev_Type e ∈ l).
Proof. apply eq_true_iff_eq. rewrite bool_decide_eq_true. apply existsb_eqb_elem. Qed.

Lemma recordSpecializedRow_total e tx db :
  acceptable db e -> db_le db (tx_db tx) -> grounded e tx ->
  exists tx', recordSpecializedRow e tx = Ok tx' /\ tx_faults tx' = [] /\
    (ev_EvidenceID e = "" \/ known (db_evidence (tx_db tx')) (ev_EvidenceID e)) /\
    (ev_ToolCallID e = "" \/ known (db_tools (tx_db tx')) (ev_ToolCallID e)) /\
    (ev_VerificationID e = "" \/ known (db_verifs (tx_db tx')) (ev_VerificationID e)).
Proof.
  intros [_ _ Hrole _ He Ht Hv Hst Hdg] Hle Hg.
  assert (forall tx', recordSpecializedRow e tx = Ok tx' ->
    (known (db_evidence db) (ev_EvidenceID e) -> known (db_evidence (tx_db tx')) (ev_EvidenceID e)) /\
    (known (db_tools db) (ev_ToolCallID e) -> known (db_tools (tx_db tx')) (ev_ToolCallID e)) /\
    (known (db_verifs db) (ev_VerificationID e) -> known (db_verifs (tx_db tx')) (ev_VerificationID e)))
    as Hkeep.
  { intros tx' E. apply recordSpecializedRow_good in E as (_ & Hle' & _).
    assert (db_le db (tx_db tx')) as (_ & _ & _ & _ & ? & ? & ? & _) by by etransitivity.
    split_and!; unfold known; auto. }
  revert Hkeep. unfold recordSpecializedRow. cbv zeta. rewrite !type_in.
  fold (tool_event e) (verification_event e). intros Hkeep.
  case_bool_decide as D1; [|case_bool_decide as D2; [|
    destruct (ev_Type e =s EventEvidenceCreated) eqn:D3; [|
    destruct (ev_Type e =s EventFailureDiagnosed) eqn:D4]]]; str_simpl.
  - destruct (upsertToolCall_total e tx Hg) as (tx' & E & Hf & Hk). specialize (Hkeep _ E).
    exists tx'. split_and!; try done.
    + destruct He as [?|[?|He]]; [tauto..|]. unfold tool_event in D1. rewrite He in D1. in_list_cases D1; done.
    + destruct Hv as [?|[?|Hv]]; [tauto..|]. exfalso. unfold verification_event in Hv.
      unfold tool_event in D1. in_list_cases Hv; rewrite Hv in D1; in_list_cases D1; done.
  - destruct (upsertVerification_total e tx Hg D2 Hrole Hst) as (tx' & E & Hf & Hk).
    specialize (Hkeep _ E). exists tx'. split_and!; try done.
    + destruct He as [?|[?|He]]; [tauto..|]. unfold verification_event in D2. rewrite He in D2. in_list_cases D2; done.
    + destruct Ht as [?|[?|Ht]]; [tauto..|]. by destruct D1.
  - destruct (upsertEvidence_total e tx Hg) as (tx' & E & Hf & Hk). specialize (Hkeep _ E).
    exists tx'. split_and!; try done.
    + destruct Ht as [?|[?|Ht]]; [tauto..|]. by destruct D1.
    + destruct Hv as [?|[?|Hv]]; [tauto..|]. by destruct D2.
  - destruct (Hdg D4) as [Hne Hty].
    assert (ev_VerificationID e = "" \/ known (db_verifs (tx_db tx)) (ev_VerificationID e)) as Hv'.
    { destruct Hv as [?|[?|Hv]]; [by left | right; by apply Hle | by destruct D2]. }
    destruct (upsertFailureDiagnosis_total e tx Hg Hne Hty Hv') as (tx' & E & Hf).
    specialize (Hkeep _ E). exists tx'. split_and!; try done; tauto.
  - specialize (Hkeep _ eq_refl). exists tx. destruct Hg. split_and!; try done; tauto.
Qed.

Lemma insertEvent_total e tx :
  grounded e tx -> one_of event_types (ev_Type e) = true ->
  ev_EvidenceID e = "" \/ known (db_evidence (tx_db tx)) (ev_EvidenceID e) ->
  ev_ToolCallID e = "" \/ known (db_tools (tx_db tx)) (ev_ToolCallID e) ->
  ev_VerificationID e = "" \/ known (db_verifs (tx_db tx)) (ev_VerificationID e) ->
  exists tx', insertEvent e tx = Ok tx'.
Proof.
  intros (Hf & Hr & Hw & Ha) Hty He Ht Hv.
  cut (exists tx', insertEvent e tx = Ok tx' /\ True); [naive_solver|]. unfold insertEvent.
  total Hf; [done | by rewrite refs_known, !refs_nullable | done..].
Qed.

Lemma record_tx_total e tx :
  tx_faults tx = [] -> hashed (tx_db tx) -> acceptable (tx_db tx) e -> exists tx', record_tx e tx = Ok tx'.
Proof.
  intros Hf Hh Hacc. pose proof Hacc as [Hty Hrun Hrole Hwork _ _ _ _ _]. unfold record_tx.
  destruct (ensureRepo_total e tx Hf Hh) as (tx1 & E1 & Hf1 & Hk1).
  destruct (ensureRun_total e tx1 Hf1 Hrun Hk1) as (tx2 & E2 & Hf2 & Hk2).
  pose proof (ensureRepo_good _ _ _ E1) as G1. pose proof (ensureRun_good _ _ _ E2) as G2.
  assert (exists tx3, (if ev_WorkID e <>s "" then ensureWork e tx2 else Ok tx2) = Ok tx3 /\
    tx_faults tx3 = [] /\ good_step tx2 tx3 /\
    (ev_WorkID e = "" \/ known (db_works (tx_db tx3)) (ev_WorkID e))) as (tx3 & E3 & Hf3 & G3 & Hk3).
  { destruct (ev_WorkID e =s "") eqn:Ew; str_simpl; cbn [negb].
    - exists tx2. split_and!; [done.. | by left].
    - destruct (ensureWork_total e tx2 Hf2 Hk2 Hrole) as (tx3 & E & ? & ?).
      { destruct Hwork as [?|[?|Hk]]; [done | by left | right].
        assert (good_step tx tx2) as (_ & Hle & _) by by etransitivity. by apply Hle. }
      exists tx3. split_and!; [done.. | by eapply ensureWork_good | by right]. }
  assert (known (db_runs (tx_db tx3)) (ev_RunID e)) as Hr3
    by (destruct G3 as (_ & Hle & _); by apply Hle).
  assert (exists tx4, (if ev_AgentSessionID e <>s "" then ensureAgentSession e tx3 else Ok tx3)
      = Ok tx4 /\ tx_faults tx4 = [] /\ good_step tx3 tx4 /\
    (ev_AgentSessionID e = "" \/ known (db_agents (tx_db tx4)) (ev_AgentSessionID e)))
    as (tx4 & E4 & Hf4 & G4 & Hk4).
  { destruct (ev_AgentSessionID e =s "") eqn:Ea; str_simpl; cbn [negb].
    - exists tx3. split_and!; [done.. | by left].
    - destruct (ensureAgentSession_total e tx3 Hf3 Hr3 Hrole Hk3) as (tx4 & E & ? & ?).
      exists tx4. split_and!; [done.. | by eapply ensureAgentSession_good | by right]. }
  assert (grounded e tx4) as Hg4.
  { destruct G4 as (_ & Hle & _). split_and!; [done | by apply Hle | | done].
    destruct Hk3; [by left | right; by apply Hle]. }
  assert (good_step tx tx4) as (_ & Hle4 & _)
    by (do 3 (etransitivity; [eassumption|]); done).
  destruct (recordSpecializedRow_total e tx4 (tx_db tx) Hacc Hle4 Hg4)
    as (tx5 & E5 & Hf5 & He & Ht & Hv).
  pose proof (recordSpecializedRow_good _ _ _ E5) as (_ & Hle5 & _).
  destruct (insertEvent_total e tx5) as (tx6 & E6); try done.
  { destruct Hg4 as (_ & Hr & Hw & Ha). split_and!; [done | by apply Hle5 | |];
      [destruct Hw | destruct Ha]; (by left) || (right; by apply Hle5). }
  exists tx6. rewrite E1. cbn. rewrite E2. cbn. rewrite E3. cbn. rewrite E4. cbn. rewrite E5. done.
Qed.

Lemma RecordEvent_taken s env event db :
  no_faults env -> hashed db ->
  let e := complete_event s (te_now env) (set_type (normalizeType (ev_Type event)) event) in
  acceptable db e ->
  exists db', RecordEvent (Some s) env event db = (db', None).
Proof.
  intros (Hb & Hs & Hc) Hh e Hacc. unfold RecordEvent. cbv zeta. fold e.
  replace (ev_Type (set_type _ event) =s "") with false.
  - rewrite Hb. destruct (record_tx_total e (mkTx db (te_fk env) (te_stmt_faults env)) Hs Hh Hacc)
      as [tx' ->]. rewrite Hc. eauto.
  - symmetry. apply eqb_false. cbn. intros E. destruct Hacc as [Hty _ _ _ _ _ _ _ _].
    replace (ev_Type e) with "" in Hty; [done|]. rewrite <- E.
    unfold e, complete_event. repeat match goal with
      |- context [if ?b then _ else _] => destruct b end; done.
Qed.

Lemma RecordEvent_hashed s env event db : hashed db -> hashed (RecordEvent s env event db).1.
Proof.
  intros Hh. destruct s as [s|]; [|done].
  destruct (RecordEvent (Some s) env event db) as [db' err] eqn:E. cbn.
  apply RecordEvent_inv in E. destruct err; [by subst|].
  destruct E as (_ & _ & _ & tx' & H & <-). apply record_tx_good in H as (_ & _ & H & _). auto.
Qed.

(** What the CHECK constraints of the events and of the runs refuse. *)
Lemma record_tx_checked e tx tx' :
  record_tx e tx = Ok tx' ->
  one_of event_types (ev_Type e) = true /\ (runStatus e = "" \/ one_of run_statuses (runStatus e) = true).
Proof.
  intros (tx1 & tx2 & tx3 & tx4 & tx5 & _ & E2 & _ & _ & _ & E6 & _)%record_tx_stages. split.
  - apply exec_inv in E6 as [E6 _]. apply bind_ok in E6 as (t & E6 & _). revert E6. unfold upsert.
    by destruct (one_of event_types _).
  - apply exec_inv in E2 as [E2 _]. apply bind_ok in E2 as (t & E2 & _). revert E2. unfold upsert.
    destruct (runStatus e =s "") eqn:Er; str_simpl; [by left|]. destruct (one_of run_statuses _); [by right|done].
Qed.


(** ** Two rows the schema never gets *)

Lemma good_prefix e tx tx1 tx2 tx4 :
  ensureRepo e tx = Ok tx1 -> ensureRun e tx1 = Ok tx2 -> ev_WorkID e = "" ->
  (if ev_AgentSessionID e <>s "" then ensureAgentSession e tx2 else Ok tx2) = Ok tx4 ->
  tx_fk tx4 = tx_fk tx /\ db_works (tx_db tx4) = db_works (tx_db tx) /\
  db_diags (tx_db tx4) = db_diags (tx_db tx) /\ db_verifs (tx_db tx4) = db_verifs (tx_db tx).
Proof.
  intros E1 E2 _ E4.
  set (f := fun db => (db_works db, db_diags db, db_verifs db)).
  assert (f (tx_db tx1) = f (tx_db tx)) as F1 by (revert E1; unfold ensureRepo; frame f).
  assert (f (tx_db tx2) = f (tx_db tx1)) as F2 by (revert E2; unfold ensureRun; frame f).
  assert (f (tx_db tx4) = f (tx_db tx2)) as F4
    by (revert E4; case (ev_AgentSessionID e <>s "");
        [unfold ensureAgentSession; frame f | by intros [= <-]]).
  apply ensureRepo_good in E1 as [G1 _]. apply ensureRun_good in E2 as [G2 _].
  assert (tx_fk tx4 = tx_fk tx2) as G4.
  { revert E4. case (ev_AgentSessionID e <>s ""); [|by intros [= <-]].
    intros E4. by apply ensureAgentSession_good in E4 as [G4 _]. }
  unfold f in *. simplify_eq. split_and!; congruence.
Qed.

Lemma upsert_dangling {R} (tbl : gmap string R) id check ins ir upd ur t :
  tbl !! id = None -> ir = false -> upsert tbl id check ins ir upd ur = Ok t -> False.
Proof. unfold upsert. intros -> ->. by destruct check. Qed.

Lemma derive_no_work suffix e tx :
  ev_WorkID e = "" -> workStatus e = "" ->
  derive_work suffix e tx = Ok (set_workid (deterministicID ["work"; ev_RunID e; suffix]) e, tx).
Proof.
  intros Hw Hs. unfold derive_work. rewrite Hw. cbn.
  unfold ensureWork. change (workStatus (set_workid _ e)) with (workStatus e). by rewrite Hs.
Qed.

Lemma no_ref {R} (tbl : gmap string R) id : tbl !! id = None -> refs true tbl (Some id) = false.
Proof. intros H. unfold refs. cbn [orb negb]. apply bool_decide_eq_false. rewrite H. by intros [? ?]. Qed.

Lemma diagnosis_stuck e tx tx' :
  tx_fk tx = true -> ev_WorkID e = "" -> workStatus e = "" ->
  db_works (tx_db tx) !! deterministicID ["work"; ev_RunID e; "failure"] = None ->
  db_diags (tx_db tx) !! deterministicID ["diagnosis"; ev_ID e] = None ->
  upsertFailureDiagnosis e tx = Ok tx' -> False.
Proof.
  intros Hfk Hw Hs Hnw Hnd E. unfold upsertFailureDiagnosis in E.
  apply bind_ok in E as ([e' tx1] & D & E). rewrite derive_no_work in D by done.
  injection D as <- <-. apply exec_inv in E as [E _]. apply bind_ok in E as (t & E & _).
  rewrite Hfk in E. eapply upsert_dangling; [exact Hnd | | exact E].
  cbn [ev_WorkID set_workid]. by rewrite (no_ref _ _ Hnw), andb_false_r.
Qed.

Lemma verification_stuck e tx tx' :
  tx_fk tx = true -> ev_WorkID e = "" -> workStatus e = "" ->
  db_works (tx_db tx) !! deterministicID ["work"; ev_RunID e; "verification"] = None ->
  db_verifs (tx_db tx) !! first_non_empty [ev_VerificationID e;
     deterministicID ["verification"; ev_ID e]] = None ->
  upsertVerification e tx = Ok tx' -> False.
Proof.
  intros Hfk Hw Hs Hnw Hnd E. unfold upsertVerification in E.
  apply bind_ok in E as ([e' tx1] & D & E). rewrite derive_no_work in D by done.
  injection D as <- <-. apply exec_inv in E as [E _]. apply bind_ok in E as (t & E & _).
  rewrite Hfk in E. eapply upsert_dangling; [exact Hnd | | exact E].
  cbn [ev_WorkID set_workid]. by rewrite (no_ref _ _ Hnw), andb_false_r.
Qed.

Lemma unowned_stuck e tx tx' :
  tx_fk tx = true -> ev_WorkID e = "" ->
  (ev_Type e = EventFailureDiagnosed /\
   db_works (tx_db tx) !! deterministicID ["work"; ev_RunID e; "failure"] = None /\
   db_diags (tx_db tx) !! deterministicID ["diagnosis"; ev_ID e] = None) \/
  (ev_Type e = EventVerificationStarted /\
   db_works (tx_db tx) !! deterministicID ["work"; ev_RunID e; "verification"] = None /\
   db_verifs (tx_db tx) !! first_non_empty [ev_VerificationID e;
     deterministicID ["verification"; ev_ID e]] = None) ->
  record_tx e tx = Ok tx' -> False.
Proof.
  intros Hfk Hw Hcase E.
  apply record_tx_stages in E as (tx1 & tx2 & tx3 & tx4 & tx5 & E1 & E2 & E3 & E4 & E5 & _).
  rewrite Hw in E3. injection E3 as <-.
  destruct (good_prefix _ _ _ _ _ E1 E2 Hw E4) as (Ffk & Fw & Fd & Fv).
  rewrite Hfk in Ffk. unfold recordSpecializedRow in E5.
  destruct Hcase as [(Ht & Hnw & Hnd)|(Ht & Hnw & Hnd)]; rewrite Ht in E5.
  - eapply (diagnosis_stuck e tx4 tx5); try done;
      [unfold workStatus; by rewrite Ht | by rewrite Fw | by rewrite Fd].
  - eapply (verification_stuck e tx4 tx5); try done;
      [unfold workStatus; by rewrite Ht | by rewrite Fw | by rewrite Fv].
Qed.

(** A failure diagnosis or a started verification that names no work item is
    never recorded when foreign keys are enforced: the store derives a work id
    for the row, but the insertion of that work item is skipped because these
    event types imply no work status. *)
Theorem unowned_rows_rejected s env event db :
  let e := complete_event s (te_now env) (set_type (normalizeType (ev_Type event)) event) in
  te_fk env = true -> ev_WorkID e = "" ->
  (ev_Type e = EventFailureDiagnosed /\
   db_works db !! deterministicID ["work"; ev_RunID e; "failure"] = None /\
   db_diags db !! deterministicID ["diagnosis"; ev_ID e] = None) \/
  (ev_Type e = EventVerificationStarted /\
   db_works db !! deterministicID ["work"; ev_RunID e; "verification"] = None /\
   db_verifs db !! first_non_empty [ev_VerificationID e;
     deterministicID ["verification"; ev_ID e]] = None) ->
  exists err, RecordEvent (Some s) env event db = (db, Some err).
Proof.
  intros e Hfk Hw Hcase. destruct (RecordEvent (Some s) env event db) as [db' err] eqn:E.
  apply RecordEvent_inv in E. cbv zeta in E. fold e in E. clearbody e.
  destruct err as [err|]; [exists err; by subst|]. exfalso.
  destruct E as (_ & _ & _ & tx' & E & _). by eapply unowned_stuck in E.
Qed.

(** The ledger row of a tool call that carries no id of its own is not linked to
    the [tool_calls] row recorded with it, although that row exists under an id
    derived from the event: the source assigns the derived id to a copy. *)
Theorem tool_call_rows_unlinked s env event db db' :
  RecordEvent (Some s) env event db = (db', None) ->
  let e := complete_event s (te_now env) (set_type (normalizeType (ev_Type event)) event) in
  tool_event e -> ev_ToolCallID e = "" -> db_events db !! ev_ID e = None ->
  is_Some (db_tools db' !! deterministicID ["tool"; ev_ID e]) /\
  er_tool_id <$> (db_events db' !! ev_ID e) = Some None.
Proof.
  intros H e Ht Hid Hfresh. split.
  - apply RecordEvent_inv in H. cbv zeta in H. fold e in H.
    destruct H as (_ & _ & _ & tx' & H & <-).
    apply record_tx_stages in H as (tx1 & tx2 & tx3 & tx4 & tx5 & _ & _ & _ & _ & E5 & E6 & _).
    assert (db_tools (tx_db tx') = db_tools (tx_db tx5)) as ->
      by (revert E6; unfold insertEvent; frame db_tools).
    unfold recordSpecializedRow in E5. cbv zeta in E5. rewrite type_in in E5.
    rewrite bool_decide_eq_true_2 in E5 by exact Ht.
    apply exec_inv in E5 as [E5 _]. apply bind_ok in E5 as (t & E5 & [= <-]).
    cbn [tx_db db_tools]. apply upsert_grows in E5 as [_ E5]. rewrite Hid in E5. exact E5.
  - apply RecordEvent_ledger in H as [H _]. fold e in H. rewrite H, Hfresh. cbn.
    by rewrite Hid.
Qed.

(** ** Witnesses *)

Definition demo_store : Store := mkStore "/p/.omg/omg.db" "/p".
Definition demo_env : TxEnv := mkTxEnv 1 true None [] None.
Definition demo_event (type work : string) : Event :=
  mkEvent "" type "r" work "" "" "" "" "req" "direct" "on-run" "user" "" "" "" "" None 1.
Definition demo_db : DB :=
  (RecordEvent (Some demo_store) demo_env (demo_event EventWorkCreated "w") empty_db).1.

Lemma RecordEvent_atomic_witness :
  RecordEvent (Some demo_store) demo_env (demo_event EventFailureDiagnosed "") demo_db
    = (demo_db, Some ErrForeignKey) /\
  db_le empty_db demo_db /\ size (db_events demo_db) = 1.
Proof.
  assert (RecordEvent (Some demo_store) demo_env (demo_event EventWorkCreated "w") empty_db
    = (demo_db, None)) as H by (vm_compute; reflexivity).
  split; [vm_compute; reflexivity|]. split; [|vm_compute; reflexivity].
  exact (proj1 (RecordEvent_atomic _ _ _ _ _ _ H)).
Defined.

Lemma RecordEvent_run_status_witness :
  rn_status <$> (db_runs demo_db !! "r") = Some "scoped".
Proof.
  assert (RecordEvent (Some demo_store) demo_env (demo_event EventWorkCreated "w") empty_db
    = (demo_db, None)) as H by (vm_compute; reflexivity).
  exact (proj1 (RecordEvent_run_status _ _ _ _ _ H)).
Defined.


Lemma unowned_rows_rejected_witness :
  exists err, RecordEvent (Some demo_store) demo_env (demo_event EventFailureDiagnosed "") demo_db
    = (demo_db, Some err).
Proof.
  apply unowned_rows_rejected; [reflexivity | reflexivity|].
  left. vm_compute. repeat split.
Defined.

Lemma tool_call_rows_unlinked_witness :
  let r := RecordEvent (Some demo_store) demo_env (demo_event EventToolCallStarted "") demo_db in
  let e := complete_event demo_store 1 (demo_event EventToolCallStarted "") in
  is_Some (db_tools r.1 !! deterministicID ["tool"; ev_ID e]) /\
  er_tool_id <$> (db_events r.1 !! ev_ID e) = Some None.
Proof.
  cbv zeta. apply (tool_call_rows_unlinked demo_store demo_env
    (demo_event EventToolCallStarted "") demo_db).
  - vm_compute. reflexivity.
  - apply (bool_decide_unpack _). vm_compute. exact I.
  - reflexivity.
  - vm_compute. reflexivity.
Defined.
