(* ===== verification/Schema.v ===== *)
(** * internal/storage: the schema and its migration

    The opening, migration and closing of the store of [storage.go] and its two
    queries of the schema. SQLite runs a [CREATE ... IF NOT EXISTS] statement by
    adding the table or index it names. Also: what the store computes for a column
    is what the column's CHECK constraint allows. *)

From S2P Require Import Prelude GoStrings GoValue GoTime GoPath State Storage SchemaText StorageDB.

(** ** The database file *)

(** The tables and indexes of a database file. *)
Record catalog := mkCatalog { ct_tables : gset string; ct_indexes : gset string }.

(** Running one statement of [Migrate]. *)
Definition run_statement (stmt : string) (c : catalog) : catalog :=
  match table_of stmt, index_of stmt with
  | Some t, _ => mkCatalog ({[t]} ∪ ct_tables c) (ct_indexes c)
  | None, Some i => mkCatalog (ct_tables c) ({[i]} ∪ ct_indexes c)
  | None, None => c  (* a PRAGMA concerns the connection only *)
  end.

Definition migrate_statements : list string := "PRAGMA foreign_keys = ON" :: schemaStatements.

(** [faults]: the outcome of each [ExecContext], none beyond the list. *)
Fixpoint run_statements (stmts : list string) (faults : list (option error)) (c : catalog)
    : catalog * option error :=
  match stmts with
  | [] => (c, None)
  | stmt :: rest =>
      match faults with
      | Some err :: _ =>
          (c, Some (mkError (err_kind_of err)
                 ("migrate: " +:+ Error err +:+ String "010" "" +:+ "statement: " +:+ stmt)))
      | _ => run_statements rest (tail faults) (run_statement stmt c)
      end
  end.

(** A nil store has no database. *)
Definition Migrate (s : option Store) (faults : list (option error)) (c : catalog) : catalog * option error :=
  match s with
  | None => (c, Some (errorf "storage store is nil"))
  | Some _ => run_statements migrate_statements faults c
  end.

Record OpenEnv := mkOpenEnv {
  oe_mkdir : option error;
  oe_open : option error;
  oe_exec : list (option error)
}.

(** [c] is the catalog of the file that is opened. *)
Definition OpenStore (env : OpenEnv) (projectRoot dbPath : string) (c : catalog) : catalog * result Store :=
  let path := if dbPath =s "" then DefaultDBPath projectRoot else dbPath in
  match oe_mkdir env, oe_open env with
  | Some err, _ | None, Some err => (c, Err err)
  | None, None =>
      let store := mkStore path projectRoot in
      match Migrate (Some store) (oe_exec env) c with
      | (c, Some err) => (c, Err err)
      | (c, None) => (c, Ok store)
      end
  end.

Definition Path (s : Store) : string := sto_path s.
Definition Shutdown (s : option Store) (close_err : option error) : option error :=
  match s with None => None | Some _ => close_err end.

Section queries.
Context `{UnicodeTables}.

(** [rows] counts the rows of a table, or fails. *)
Definition Count (rows : string -> result Z) (table : string) : result Z :=
  if negb (knownTable table) then Err (errorf ("unknown table " +:+ Quote table)) else rows table.

(** [query_err] is an error of the query other than that there is no row. *)
Definition HasTable (query_err : option error) (c : catalog) (table : string) : bool * option error :=
  match query_err with
  | Some err => (false, Some err)
  | None => (bool_decide (table ∈ ct_tables c), None)
  end.
End queries.

(** ** Theorems *)

Lemma knownTable_schema table : knownTable table = true <-> table ∈ schema_tables.
Proof.
  unfold knownTable. rewrite existsb_eqb_elem.
  match goal with |- _ ∈ ?l <-> _ => assert (schema_tables = l) as -> by (vm_compute; reflexivity) end. done.
Qed.

Lemma migrate_tables : omap table_of migrate_statements = schema_tables.
Proof. vm_compute. reflexivity. Qed.

(** The lifecycles of a session that a run's row knows, under the names it has for them. *)
Definition session_lifecycles : list string :=
  [LifecycleRunning; LifecycleBlocked; LifecycleAskUser; LifecycleFinished; LifecycleFailed; LifecycleCancelled].

Lemma one_of_elem l s : one_of l s = true <-> s ∈ l.
Proof. apply existsb_eqb_elem. Qed.

Lemma runStatus_ok e :
  ev_Lifecycle e ∈ "" :: session_lifecycles -> runStatus e = "" \/ one_of run_statuses (runStatus e) = true.
Proof.
  unfold session_lifecycles. intros Hl. unfold runStatus. in_list_cases Hl; rewrite Hl; try by right.
  cbn [String.eqb negb]. cbv zeta. repeat match goal with
    |- context [if ?b then _ else _] => destruct b; [by right|] end. by left.
Qed.


(** ** Migrating *)

#[local] Opaque schemaStatements migrate_statements schema_tables.

Definition run_all (stmts : list string) (c : catalog) : catalog :=
  foldl (fun c stmt => run_statement stmt c) c stmts.

Lemma run_statement_idemp a c : run_statement a (run_statement a c) = run_statement a c.
Proof.
  unfold run_statement. destruct (table_of a), (index_of a); cbn; try done; f_equal; set_solver.
Qed.

Lemma run_statement_comm a b c : run_statement a (run_statement b c) = run_statement b (run_statement a c).
Proof.
  unfold run_statement.
  destruct (table_of a), (index_of a), (table_of b), (index_of b); cbn; try done; f_equal; set_solver.
Qed.

Lemma run_all_absorbs stmt stmts c : stmt ∈ stmts -> run_all stmts (run_statement stmt c) = run_all stmts c.
Proof.
  revert c. induction stmts as [|a stmts IH]; intros c Hin; [by apply elem_of_nil in Hin|].
  unfold run_all in *. cbn [foldl]. apply elem_of_cons in Hin as [->|Hin].
  - by rewrite run_statement_idemp.
  - rewrite run_statement_comm. by apply IH.
Qed.

(** A run that stops early has run a prefix, and names the statement it stopped at. *)
Lemma run_statements_prefix stmts faults c :
  let '(c', err) := run_statements stmts faults c in
  exists done rest, stmts = done ++ rest /\ c' = run_all done c /\
    match err with
    | None => rest = []
    | Some e => exists stmt, head rest = Some stmt /\ Contains (Error e) stmt = true
    end.
Proof.
  revert faults c. induction stmts as [|stmt stmts IH]; intros faults c; cbn [run_statements].
  { by exists [], []. }
  assert (forall fs, let '(c', err) := run_statements stmts fs (run_statement stmt c) in
    exists done rest, stmt :: stmts = done ++ rest /\ c' = run_all done c /\
    match err with
    | None => rest = []
    | Some e => exists stmt, head rest = Some stmt /\ Contains (Error e) stmt = true
    end) as Hstep.
  { intros fs. specialize (IH fs (run_statement stmt c)).
    destruct (run_statements stmts fs (run_statement stmt c)) as [c' err].
    destruct IH as (done & rest & -> & -> & He). by exists (stmt :: done), rest. }
  destruct faults as [|[err|] faults]; [exact (Hstep _)| |exact (Hstep _)].
  exists [], (stmt :: stmts). split_and!; [done..|]. exists stmt. split; [done|]. cbn [Error].
  apply Contains_spec. exists ("migrate: " +:+ Error err +:+ String "010" "" +:+ "statement: "), "".
  by rewrite str_app_nil_r, !str_app_assoc.
Qed.

Lemma run_statements_ok stmts c : run_statements stmts [] c = (run_all stmts c, None).
Proof. revert c. induction stmts as [|stmt stmts IH]; intros c; [done|]. apply IH. Qed.

Lemma run_all_prefix l1 l2 c : run_all (l1 ++ l2) (run_all l1 c) = run_all (l1 ++ l2) c.
Proof.
  assert (forall l, l ⊆ l1 ++ l2 -> forall c, run_all (l1 ++ l2) (run_all l c) = run_all (l1 ++ l2) c) as Hl.
  { induction l as [|a l IH]; intros Hsub c'; [done|]. unfold run_all at 2. cbn [foldl].
    change (foldl _ (run_statement a c') l) with (run_all l (run_statement a c')).
    rewrite IH by set_solver. apply run_all_absorbs. set_solver. }
  apply Hl. set_solver.
Qed.

Lemma run_all_tables stmts c table :
  table ∈ ct_tables (run_all stmts c) <-> table ∈ omap table_of stmts \/ table ∈ ct_tables c.
Proof.
  revert c. induction stmts as [|stmt stmts IH]; intros c; [cbn; set_solver|].
  unfold run_all in *. cbn [foldl omap list_omap]. rewrite IH. unfold run_statement.
  destruct (table_of stmt) as [t|]; [cbn; set_solver|]. destruct (index_of stmt); done.
Qed.

(** A migration that fails names the statement it failed at and leaves what it
    had created; the next migration then ends where an undisturbed first one
    would have: with every table of the schema beside those of the file. *)
Theorem Migrate_resumes s faults c :
  let '(c', err) := Migrate (Some s) faults c in
  let final := run_all migrate_statements c in
  Migrate (Some s) [] c' = (final, None) /\
  match err with
  | None => c' = final
  | Some e => exists stmt, stmt ∈ migrate_statements /\ Contains (Error e) stmt = true /\
      ct_tables c ⊆ ct_tables c' /\ ct_tables c' ⊆ ct_tables final
  end /\
  forall table, (HasTable None final table).1 = true <-> table ∈ schema_tables \/ table ∈ ct_tables c.
Proof.
  unfold Migrate. pose proof (run_statements_prefix migrate_statements faults c) as Hp.
  destruct (run_statements migrate_statements faults c) as [c' err].
  destruct Hp as (done & rest & Heq & -> & He). cbv zeta. split; [|split].
  - rewrite run_statements_ok. by rewrite Heq, run_all_prefix.
  - destruct err as [e|]; [|subst rest; by rewrite Heq, app_nil_r].
    destruct He as (stmt & Hh & Hc). exists stmt. split; [|split; [done|split]].
    + rewrite Heq. destruct rest as [|x rest]; [done|]. injection Hh as ->. set_solver.
    + intros t Ht. apply run_all_tables. by right.
    + intros t. rewrite Heq, !run_all_tables, omap_app. set_solver.
  - intros table. cbn [HasTable fst]. by rewrite bool_decide_eq_true, run_all_tables, migrate_tables.
Qed.

(** Opening a store runs the migration, on the default path or the given one. *)
Lemma OpenStore_ok env root dbPath c c' st :
  OpenStore env root dbPath c = (c', Ok st) ->
  sto_projectRoot st = root /\ sto_path st = (if dbPath =s "" then DefaultDBPath root else dbPath) /\
  forall table, knownTable table = true -> table ∈ ct_tables c'.
Proof.
  unfold OpenStore. destruct (oe_mkdir env); [done|]. destruct (oe_open env); [done|]. cbn [Migrate].
  pose proof (run_statements_prefix migrate_statements (oe_exec env) c) as Hp.
  destruct (run_statements migrate_statements (oe_exec env) c) as [c1 [err|]]; [done|].
  intros [= <- <-]. split_and!; [done..|]. destruct Hp as (done & rest & Heq & -> & ->).
  rewrite app_nil_r in Heq. subst done. intros table Hk. apply run_all_tables. left.
  rewrite migrate_tables. by apply knownTable_schema.
Qed.
