(* ===== verification/Config.v ===== *)
(** * internal/config: layered configuration

    [src/internal/config/config.go]: three layers (built-in, user, project), each
    a YAML file that decodes to a patch; patches are applied in order. The YAML
    library is a parameter ([YAML]): documents, nodes and the decoding of a node
    into a Go value; the decoder of an agent definition is the program's own. *)

From S2P Require Import Prelude GoStrings GoValue GoPath.

Definition ConfigFilename := "config.yaml".

(** ** Data *)

Record Options := mkOptions {
  opt_BuiltInDir : string;
  opt_UserDir : string;
  opt_ProjectDir : string
}.

Record ModelCandidate := mkModelCandidate {
  mc_Model : string;
  mc_Variant : string;
  mc_ReasoningEffort : string;
  mc_Params : object
}.

Record TriggerDefinition := mkTriggerDefinition {
  td_Domain : string;
  td_Pattern : string;
  td_Priority : Z
}.

Record AgentDefinition := mkAgentDefinition {
  ad_Name : string;
  ad_Description : string;
  ad_Aliases : slice string;
  ad_Category : string;
  ad_Autonomy : string;
  ad_Cost : string;
  ad_Mode : string;
  ad_Model : string;
  ad_ModelChain : slice ModelCandidate;
  ad_Tools : slice string;
  ad_ToolsAll : bool;
  ad_ToolsExcept : slice string;
  ad_Triggers : slice TriggerDefinition;
  ad_UseWhen : slice string;
  ad_AvoidWhen : slice string;
  ad_Disabled : bool;
  ad_UnknownFields : slice string;
  ad_Source : string
}.

Record SkillDefinition := mkSkillDefinition {
  sd_Name : string;
  sd_Description : string;
  sd_Prompt : string;
  sd_Disabled : bool;
  sd_Source : string
}.

Record WorkerConfig := mkWorkerConfig { wc_Kind : string; wc_BinaryPath : string }.

(** [StorageConfig] holds one field, [Database.Path]. *)
Record Config := mkConfig {
  cfg_Agents : gmap string AgentDefinition;
  cfg_Skills : gmap string SkillDefinition;
  cfg_StoragePath : string;
  cfg_Workers : gmap string WorkerConfig
}.

Record agentPatch := mkAgentPatch {
  ap_Description : option string;
  ap_Aliases : slice string;
  ap_Category : option string;
  ap_Autonomy : option string;
  ap_Cost : option string;
  ap_Mode : option string;
  ap_Model : option string;
  ap_ModelChain : slice ModelCandidate;
  ap_Tools : slice string;
  ap_ToolsSet : bool;
  ap_ToolsAll : bool;
  ap_ToolsAppend : slice string;
  ap_ToolsExcept : slice string;
  ap_Triggers : slice TriggerDefinition;
  ap_UseWhen : slice string;
  ap_AvoidWhen : slice string;
  ap_Disabled : option bool;
  ap_UnknownFields : slice string
}.

Record skillPatch := mkSkillPatch {
  sp_Description : option string;
  sp_Prompt : option string;
  sp_Disabled : option bool
}.

Record workerPatch := mkWorkerPatch { wp_Kind : option string; wp_BinaryPath : option string }.

Record configPatch := mkConfigPatch {
  cp_Agents : gmap string agentPatch;
  cp_Skills : gmap string skillPatch;
  cp_StoragePath : option string;
  cp_Workers : gmap string workerPatch
}.

Definition zero_agent : AgentDefinition :=
  mkAgentDefinition "" "" None "" "" "" "" "" None None false None None None None false None "".
Definition zero_skill : SkillDefinition := mkSkillDefinition "" "" "" false "".
Definition zero_worker : WorkerConfig := mkWorkerConfig "" "".
Definition zero_patch : agentPatch :=
  mkAgentPatch None None None None None None None None None false false None None None None None
    None None.
Definition empty_patch : configPatch := mkConfigPatch ∅ ∅ None ∅.

(** Cloning a slice copies its elements; nil stays nil. *)
Definition cloneStrings (values : slice string) : slice string := values.
Definition cloneModels (values : slice ModelCandidate) : slice ModelCandidate := values.
Definition cloneTriggers (values : slice TriggerDefinition) : slice TriggerDefinition := values.

(** ** Decoding an agent definition *)

Inductive node_kind := MappingNode | ScalarNode | OtherNode.

(** The YAML library. [Decode] into a slice gets the value the slice has so far. *)
Class YAML := {
  node : Type;
  Kind : node -> node_kind;
  Value : node -> string;
  Content : node -> list node;
  Decode_string : node -> result string;
  Decode_bool : node -> result bool;
  Decode_strings : node -> slice string -> result (slice string);
  Decode_models : node -> slice ModelCandidate -> result (slice ModelCandidate);
  Decode_triggers : node -> slice TriggerDefinition -> result (slice TriggerDefinition);
  (* [yaml.Unmarshal] of a document, given the decoder of one agent *)
  Unmarshal : (node -> result agentPatch) -> string -> result configPatch
}.

Section yaml.
Context `{YAML}.

Definition wrap {A} (field : string) (r : result A) : result A :=
  match r with
  | Ok a => Ok a
  | Err e => Err (mkError (err_kind_of e) (field +:+ ": " +:+ Error e))
  end.

(** One key of the mapping. *)
Definition decode_field (p : agentPatch) (key : string) (val : node) : result agentPatch :=
  let 'mkAgentPatch desc ali cat aut cost mode model chain tools tset tall tapp texc trig usew avoid
       dis unk := p in
  if key =s "description" then
    out ← wrap key (Decode_string val);
    Ok (mkAgentPatch (Some out) ali cat aut cost mode model chain tools tset tall tapp texc trig
          usew avoid dis unk)
  else if key =s "aliases" then
    out ← wrap key (Decode_strings val ali);
    Ok (mkAgentPatch desc out cat aut cost mode model chain tools tset tall tapp texc trig
          usew avoid dis unk)
  else if key =s "category" then
    out ← wrap key (Decode_string val);
    Ok (mkAgentPatch desc ali (Some out) aut cost mode model chain tools tset tall tapp texc trig
          usew avoid dis unk)
  else if key =s "autonomy" then
    out ← wrap key (Decode_string val);
    Ok (mkAgentPatch desc ali cat (Some out) cost mode model chain tools tset tall tapp texc trig
          usew avoid dis unk)
  else if key =s "cost" then
    out ← wrap key (Decode_string val);
    Ok (mkAgentPatch desc ali cat aut (Some out) mode model chain tools tset tall tapp texc trig
          usew avoid dis unk)
  else if key =s "mode" then
    out ← wrap key (Decode_string val);
    Ok (mkAgentPatch desc ali cat aut cost (Some out) model chain tools tset tall tapp texc trig
          usew avoid dis unk)
  else if key =s "model" then
    out ← wrap key (Decode_string val);
    Ok (mkAgentPatch desc ali cat aut cost mode (Some out) chain tools tset tall tapp texc trig
          usew avoid dis unk)
  else if key =s "model_chain" then
    out ← wrap key (Decode_models val chain);
    Ok (mkAgentPatch desc ali cat aut cost mode model out tools tset tall tapp texc trig
          usew avoid dis unk)
  else if key =s "tools" then
    match Kind val, Value val =s "all" with
    | ScalarNode, true =>
        Ok (mkAgentPatch desc ali cat aut cost mode model chain tools true true tapp texc trig
              usew avoid dis unk)
    | _, _ =>
        out ← wrap key (Decode_strings val tools);
        Ok (mkAgentPatch desc ali cat aut cost mode model chain out true tall tapp texc trig
              usew avoid dis unk)
    end
  else if key =s "tools_append" then
    out ← wrap key (Decode_strings val tapp);
    Ok (mkAgentPatch desc ali cat aut cost mode model chain tools tset tall out texc trig
          usew avoid dis unk)
  else if key =s "tools_except" then
    out ← wrap key (Decode_strings val texc);
    Ok (mkAgentPatch desc ali cat aut cost mode model chain tools tset tall tapp out trig
          usew avoid dis unk)
  else if key =s "triggers" then
    out ← wrap key (Decode_triggers val trig);
    Ok (mkAgentPatch desc ali cat aut cost mode model chain tools tset tall tapp texc out
          usew avoid dis unk)
  else if key =s "useWhen" then
    out ← wrap key (Decode_strings val usew);
    Ok (mkAgentPatch desc ali cat aut cost mode model chain tools tset tall tapp texc trig
          out avoid dis unk)
  else if key =s "avoidWhen" then
    out ← wrap key (Decode_strings val avoid);
    Ok (mkAgentPatch desc ali cat aut cost mode model chain tools tset tall tapp texc trig
          usew out dis unk)
  else if key =s "disabled" then
    out ← wrap key (Decode_bool val);
    Ok (mkAgentPatch desc ali cat aut cost mode model chain tools tset tall tapp texc trig
          usew avoid (Some out) unk)
  else
    Ok (mkAgentPatch desc ali cat aut cost mode model chain tools tset tall tapp texc trig
          usew avoid dis (slice_append unk [key])).

(** The pairs of a mapping node; its content has an even length. *)
Fixpoint decode_fields (p : agentPatch) (content : list node) : result agentPatch :=
  match content with
  | key :: val :: rest => p ← decode_field p (Value key) val; decode_fields p rest
  | _ => Ok p
  end.

Definition UnmarshalYAML (value : node) : result agentPatch :=
  match Kind value with
  | MappingNode => decode_fields zero_patch (Content value)
  | _ => Err (errorf "agent definition must be a mapping")
  end.

(** ** Applying a patch *)

Definition patch_agent (name source : string) (agent : AgentDefinition) (p : agentPatch)
    : AgentDefinition :=
  let or {A} (o : option A) (d : A) := default d o in
  let or_slice {A} (o d : slice A) : slice A := match o with Some l => Some l | None => d end in
  let tools := if ap_ToolsSet p then cloneStrings (ap_Tools p) else ad_Tools agent in
  mkAgentDefinition name
    (or (ap_Description p) (ad_Description agent))
    (or_slice (cloneStrings (ap_Aliases p)) (ad_Aliases agent))
    (or (ap_Category p) (ad_Category agent))
    (or (ap_Autonomy p) (ad_Autonomy agent))
    (or (ap_Cost p) (ad_Cost agent))
    (or (ap_Mode p) (ad_Mode agent))
    (or (ap_Model p) (ad_Model agent))
    (or_slice (cloneModels (ap_ModelChain p)) (ad_ModelChain agent))
    (match ap_ToolsAppend p with Some l => slice_append tools l | None => tools end)
    (if ap_ToolsSet p then ap_ToolsAll p else ad_ToolsAll agent)
    (or_slice (cloneStrings (ap_ToolsExcept p)) (ad_ToolsExcept agent))
    (or_slice (cloneTriggers (ap_Triggers p)) (ad_Triggers agent))
    (or_slice (cloneStrings (ap_UseWhen p)) (ad_UseWhen agent))
    (or_slice (cloneStrings (ap_AvoidWhen p)) (ad_AvoidWhen agent))
    (or (ap_Disabled p) (ad_Disabled agent))
    (or_slice (cloneStrings (ap_UnknownFields p)) (ad_UnknownFields agent))
    source.

Definition patch_skill (name source : string) (skill : SkillDefinition) (p : skillPatch)
    : SkillDefinition :=
  mkSkillDefinition name (default (sd_Description skill) (sp_Description p))
    (default (sd_Prompt skill) (sp_Prompt p)) (default (sd_Disabled skill) (sp_Disabled p)) source.

Definition patch_worker (worker : WorkerConfig) (p : workerPatch) : WorkerConfig :=
  mkWorkerConfig (default (wc_Kind worker) (wp_Kind p))
    (default (wc_BinaryPath worker) (wp_BinaryPath p)).

(** A [range] loop over a patch's map, in the order [order] it happens to take:
    each entry is read (the zero value if absent), changed and stored back. *)
Definition range_patch {A P} (zero : A) (f : string -> A -> P -> A)
    (order : list (string * P)) (m : gmap string A) : gmap string A :=
  foldl (fun m '(name, p) => <[name := f name (default zero (m !! name)) p]> m) m order.

Definition applyPatch (cfg : Config) (patch : configPatch) (source : string) : Config :=
  mkConfig
    (range_patch zero_agent (fun name a p => patch_agent name source a p)
       (map_to_list (cp_Agents patch)) (cfg_Agents cfg))
    (range_patch zero_skill (fun name s p => patch_skill name source s p)
       (map_to_list (cp_Skills patch)) (cfg_Skills cfg))
    (default (cfg_StoragePath cfg) (cp_StoragePath patch))
    (range_patch zero_worker (fun _ w p => patch_worker w p)
       (map_to_list (cp_Workers patch)) (cfg_Workers cfg)).

(** ** Loading *)

(** [files] is [os.ReadFile]. *)
Definition loadPatch (files : string -> result string) (dir : string) : result configPatch :=
  match files (JoinPath [dir; ConfigFilename]) with
  | Err err => if is_not_exist err then Ok empty_patch else Err err
  | Ok content => Unmarshal UnmarshalYAML content
  end.

Fixpoint load_sources (files : string -> result string) (sources : list (string * string))
    (cfg : Config) : result Config :=
  match sources with
  | [] => Ok cfg
  | (name, dir) :: rest =>
      if dir =s "" then load_sources files rest cfg
      else match loadPatch files dir with
           | Err err => Err (mkError (err_kind_of err) ("load " +:+ name +:+ " config: " +:+ Error err))
           | Ok patch => load_sources files rest (applyPatch cfg patch name)
           end
  end.

Definition sources (options : Options) : list (string * string) :=
  [("built-in", opt_BuiltInDir options); ("user", opt_UserDir options);
   ("project", opt_ProjectDir options)].

Definition Load (files : string -> result string) (options : Options) : result Config :=
  load_sources files (sources options) (mkConfig ∅ ∅ "" ∅).

(** ** What one patch and a stack of patches mean for one name *)

Definition patched {A P} (zero : A) (f : A -> P -> A) (p : option P) (old : option A) : option A :=
  match p with Some p => Some (f (default zero old) p) | None => old end.

(** The layers that were read, in order: each source with a directory. *)
Fixpoint layers (files : string -> result string) (srcs : list (string * string))
    : result (list (string * configPatch)) :=
  match srcs with
  | [] => Ok []
  | (name, dir) :: rest =>
      if dir =s "" then layers files rest
      else patch ← loadPatch files dir; ps ← layers files rest; Ok ((name, patch) :: ps)
  end.

(** The last layer that says something about [x]. *)
Fixpoint last_some {L A} (say : L -> option A) (ls : list L) (d : A) : A :=
  match ls with
  | [] => d
  | l :: rest => last_some say rest (default d (say l))
  end.

Lemma range_patch_lookup {A P} (zero : A) (f : string -> A -> P -> A) order m name :
  NoDup (order.*1) ->
  range_patch zero f order m !! name =
    patched zero (f name) ((list_to_map order : gmap string P) !! name) (m !! name).
Proof.
  revert m. induction order as [|[k p] order IH]; intros m; simpl.
  { intros _. by rewrite lookup_empty. }
  intros [Hk Hnd]%NoDup_cons. unfold range_patch in IH |- *. simpl. rewrite (IH _ Hnd).
  destruct (decide (k = name)) as [->|Hne].
  - rewrite !lookup_insert_eq. rewrite not_elem_of_list_to_map_1 by done. done.
  - by rewrite !lookup_insert_ne.
Qed.

(** Whatever order the loop takes, the result is the same. *)
Lemma range_patch_order {A P} (zero : A) (f : string -> A -> P -> A) (ps : gmap string P) order m :
  order ≡ₚ map_to_list ps ->
  range_patch zero f order m = range_patch zero f (map_to_list ps) m.
Proof.
  intros Hp. apply map_eq. intros name.
  assert (NoDup (order.*1)) as Hnd by (rewrite Hp; apply NoDup_fst_map_to_list).
  rewrite !range_patch_lookup by (done || apply NoDup_fst_map_to_list).
  by rewrite (list_to_map_proper order (map_to_list ps)).
Qed.

Lemma applyPatch_agents cfg patch source name :
  cfg_Agents (applyPatch cfg patch source) !! name =
    patched zero_agent (patch_agent name source) (cp_Agents patch !! name) (cfg_Agents cfg !! name).
Proof.
  simpl. rewrite range_patch_lookup by apply NoDup_fst_map_to_list. by rewrite list_to_map_to_list.
Qed.

Lemma applyPatch_workers cfg patch source name :
  cfg_Workers (applyPatch cfg patch source) !! name =
    patched zero_worker patch_worker (cp_Workers patch !! name) (cfg_Workers cfg !! name).
Proof.
  simpl. rewrite range_patch_lookup by apply NoDup_fst_map_to_list. by rewrite list_to_map_to_list.
Qed.

Lemma load_sources_layers files srcs cfg cfg' :
  load_sources files srcs cfg = Ok cfg' <->
  exists ps, layers files srcs = Ok ps /\
    cfg' = foldl (fun c '(name, p) => applyPatch c p name) cfg ps.
Proof.
  revert cfg. induction srcs as [|[name dir] rest IH]; intros cfg; simpl.
  { split; [intros [= <-]; by exists [] | by intros (ps & [= <-] & ->)]. }
  destruct (dir =s ""); [apply IH|].
  destruct (loadPatch files dir) as [patch|err]; simpl; [|naive_solver].
  rewrite IH. split.
  - intros (ps & E & ->). exists ((name, patch) :: ps). by rewrite E.
  - intros (ps & E & ->). apply bind_ok in E as (ps' & -> & [= <-]). eauto.
Qed.

(** What a layer says about one agent. *)
Definition said {A} (name : string) (f : agentPatch -> option A) (l : string * configPatch)
    : option A :=
  p ← cp_Agents l.2 !! name; f p.

Definition agent_step (name : string) (old : option AgentDefinition) (l : string * configPatch)
    : option AgentDefinition :=
  patched zero_agent (patch_agent name l.1) (cp_Agents l.2 !! name) old.

Lemma applyPatches_agent ps cfg name :
  cfg_Agents (foldl (fun c '(source, p) => applyPatch c p source) cfg ps) !! name =
    foldl (agent_step name) (cfg_Agents cfg !! name) ps.
Proof.
  revert cfg. induction ps as [|[source p] ps IH]; intros cfg; simpl; [done|].
  by rewrite IH, applyPatch_agents.
Qed.

(** A field that a patch either sets or leaves alone holds what the last layer
    that set it says. *)
Lemma last_layer {A} name (get : AgentDefinition -> A) (say : agentPatch -> option A) ps old fin d :
  (forall source a p, get (patch_agent name source a p) = default (get a) (say p)) ->
  get zero_agent = d ->
  foldl (agent_step name) old ps = Some fin ->
  get fin = last_some (said name say) ps (get (default zero_agent old)).
Proof.
  intros Hget <-. revert old. induction ps as [|[source p] ps IH]; intros old; simpl.
  { by intros ->. }
  intros E. rewrite (IH _ E). f_equal. unfold agent_step, said, patched. simpl.
  destruct (cp_Agents p !! name) as [ap|]; simpl; [by rewrite Hget | done].
Qed.

(** The allowed tools of an agent, layer by layer: a layer that sets [tools]
    replaces the list, and its [tools_append] extends what is there. *)
Definition tools_step (name : string) (acc : list string) (l : string * configPatch)
    : list string :=
  match cp_Agents l.2 !! name with
  | Some p => (if ap_ToolsSet p then elems (ap_Tools p) else acc) ++ elems (ap_ToolsAppend p)
  | None => acc
  end.

Lemma last_tools name ps old fin :
  foldl (agent_step name) old ps = Some fin ->
  elems (ad_Tools fin) = foldl (tools_step name) (elems (ad_Tools (default zero_agent old))) ps.
Proof.
  revert old. induction ps as [|[source p] ps IH]; intros old; simpl; [by intros ->|].
  intros E. rewrite (IH _ E). f_equal. unfold agent_step, tools_step, patched. simpl.
  destruct (cp_Agents p !! name) as [ap|]; simpl; [|done].
  destruct (ap_ToolsAppend ap); rewrite ?elems_slice_append; simpl; rewrite ?app_nil_r;
    destruct (ap_ToolsSet ap); done.
Qed.

Lemma last_mention name ps old fin :
  foldl (agent_step name) old ps = Some fin ->
  old = Some fin /\ Forall (fun l => cp_Agents l.2 !! name = None) ps \/
  ad_Name fin = name /\
    ad_Source fin = last_some (fun l => (fun _ => l.1) <$> cp_Agents l.2 !! name) ps (ad_Source (default zero_agent old)).
Proof.
  revert old. induction ps as [|[source p] ps IH]; intros old; simpl; [intros ->; by left|].
  intros E. apply IH in E as [[E Hall]|[Hn Hs]]; unfold agent_step, patched in *; simpl in *;
    destruct (cp_Agents p !! name) as [ap|] eqn:Ep; simpl in *.
  - right. injection E as <-. simpl. split; [done|]. clear IH.
    induction Hall as [|l ps Hl _ IHl]; simpl; [done|]. by rewrite Hl.
  - left. split; [done|]. by constructor.
  - by right.
  - by right.
Qed.

(** For every agent of a loaded configuration each field holds what the last
    layer that mentions the field says (project over user over built-in), the
    source is the last layer that mentions the agent, and the tool list is the
    last one set with all later [tools_append] lists behind it. *)
Theorem Load_agent files options cfg name a :
  Load files options = Ok cfg -> cfg_Agents cfg !! name = Some a ->
  exists ps, layers files (sources options) = Ok ps /\
    let last {A} (say : agentPatch -> option A) := last_some (said name say) ps in
    ad_Name a = name /\
    ad_Source a = last_some (fun l => (fun _ => l.1) <$> cp_Agents l.2 !! name) ps "" /\
    ad_Description a = last ap_Description "" /\ ad_Category a = last ap_Category "" /\
    ad_Autonomy a = last ap_Autonomy "" /\ ad_Cost a = last ap_Cost "" /\
    ad_Mode a = last ap_Mode "" /\ ad_Model a = last ap_Model "" /\
    ad_Disabled a = last ap_Disabled false /\
    ad_ToolsAll a = last (fun p => if ap_ToolsSet p then Some (ap_ToolsAll p) else None) false /\
    ad_Aliases a = last (fun p => Some <$> ap_Aliases p) None /\
    ad_ModelChain a = last (fun p => Some <$> ap_ModelChain p) None /\
    ad_ToolsExcept a = last (fun p => Some <$> ap_ToolsExcept p) None /\
    ad_Triggers a = last (fun p => Some <$> ap_Triggers p) None /\
    ad_UseWhen a = last (fun p => Some <$> ap_UseWhen p) None /\
    ad_AvoidWhen a = last (fun p => Some <$> ap_AvoidWhen p) None /\
    elems (ad_Tools a) = foldl (tools_step name) [] ps.
Proof.
  unfold Load. rewrite load_sources_layers. intros (ps & Hps & ->) Ha. exists ps.
  split; [done|]. rewrite applyPatches_agent in Ha. cbn [cfg_Agents] in Ha.
  rewrite lookup_empty in Ha.
  assert (forall A (get : AgentDefinition -> A) say,
    (forall source b p, get (patch_agent name source b p) = default (get b) (say p)) ->
    get a = last_some (said name say) ps (get zero_agent)) as HL
    by (intros A get say Hget; by apply (last_layer name get say ps None a (get zero_agent))).
  split_and!.
  - apply last_mention in Ha as [[[=] _]|[Hm _]]. done.
  - apply last_mention in Ha as [[[=] _]|[_ Hm]]. done.
  - by apply (HL _ ad_Description ap_Description).
  - by apply (HL _ ad_Category ap_Category).
  - by apply (HL _ ad_Autonomy ap_Autonomy).
  - by apply (HL _ ad_Cost ap_Cost).
  - by apply (HL _ ad_Mode ap_Mode).
  - by apply (HL _ ad_Model ap_Model).
  - by apply (HL _ ad_Disabled ap_Disabled).
  - apply (HL _ ad_ToolsAll). intros source b p. simpl. by destruct (ap_ToolsSet p).
  - apply (HL _ ad_Aliases (fun p => Some <$> ap_Aliases p)). intros source b p. simpl.
    by destruct (ap_Aliases p).
  - apply (HL _ ad_ModelChain (fun p => Some <$> ap_ModelChain p)). intros source b p. simpl.
    by destruct (ap_ModelChain p).
  - apply (HL _ ad_ToolsExcept (fun p => Some <$> ap_ToolsExcept p)). intros source b p. simpl.
    by destruct (ap_ToolsExcept p).
  - apply (HL _ ad_Triggers (fun p => Some <$> ap_Triggers p)). intros source b p. simpl.
    by destruct (ap_Triggers p).
  - apply (HL _ ad_UseWhen (fun p => Some <$> ap_UseWhen p)). intros source b p. simpl.
    by destruct (ap_UseWhen p).
  - apply (HL _ ad_AvoidWhen (fun p => Some <$> ap_AvoidWhen p)). intros source b p. simpl.
    by destruct (ap_AvoidWhen p).
  - by apply last_tools in Ha.
Qed.

(** Go ranges over a map in a random order; applying a patch gives the same
    configuration whatever orders its three loops take. *)
Theorem applyPatch_order cfg patch source agents skills workers :
  agents ≡ₚ map_to_list (cp_Agents patch) ->
  skills ≡ₚ map_to_list (cp_Skills patch) ->
  workers ≡ₚ map_to_list (cp_Workers patch) ->
  applyPatch cfg patch source =
  mkConfig
    (range_patch zero_agent (fun name a p => patch_agent name source a p) agents (cfg_Agents cfg))
    (range_patch zero_skill (fun name s p => patch_skill name source s p) skills (cfg_Skills cfg))
    (default (cfg_StoragePath cfg) (cp_StoragePath patch))
    (range_patch zero_worker (fun _ w p => patch_worker w p) workers (cfg_Workers cfg)).
Proof.
  intros Ha Hs Hw. unfold applyPatch.
  rewrite (range_patch_order _ _ _ _ _ Ha), (range_patch_order _ _ _ _ _ Hs),
    (range_patch_order _ _ _ _ _ Hw). done.
Qed.

(** The keys of an agent definition the program knows. *)
Definition known_keys : list string :=
  ["description"; "aliases"; "category"; "autonomy"; "cost"; "mode"; "model"; "model_chain";
   "tools"; "tools_append"; "tools_except"; "triggers"; "useWhen"; "avoidWhen"; "disabled"].

(** The keys of the pairs of a mapping, in order. *)
Fixpoint mapping_keys (content : list node) : list string :=
  match content with
  | key :: _ :: rest => Value key :: mapping_keys rest
  | _ => []
  end.

Lemma decode_field_unknown p key val p' :
  decode_field p key val = Ok p' ->
  ap_UnknownFields p' =
    if bool_decide (key ∈ known_keys) then ap_UnknownFields p
    else slice_append (ap_UnknownFields p) [key].
Proof.
  destruct p. unfold decode_field.
  repeat match goal with
  | |- context [if (key =s ?k) then _ else _] => destruct (key =s k) eqn:?; str_simpl; subst;
      [rewrite bool_decide_eq_true_2 by in_list;
       first [intros H'; apply bind_ok in H' as (? & _ & [= <-]); done |
              destruct (Kind val), (Value val =s "all"); intros H';
              try (apply bind_ok in H' as (? & _ & H')); injection H' as <-; done] |]
  end.
  intros [= <-]. rewrite bool_decide_eq_false_2; [done|].
  intros Hin. unfold known_keys in Hin. in_list_cases Hin; done.
Qed.

Lemma decode_fields_unknown content : forall q p,
  decode_fields q content = Ok p ->
  elems (ap_UnknownFields p) =
    elems (ap_UnknownFields q) ++ filter (fun key => key ∉ known_keys) (mapping_keys content).
Proof.
  revert content. fix IH 1. intros [|key [|val rest]] q p; simpl.
  - intros [= <-]. by rewrite app_nil_r.
  - intros [= <-]. by rewrite app_nil_r.
  - intros E. apply bind_ok in E as (q' & Eq & E). rewrite (IH rest q' p E).
    rewrite (decode_field_unknown _ _ _ _ Eq), filter_cons.
    case_bool_decide; case_decide; try done; rewrite ?elems_slice_append, <- ?app_assoc; done.
Qed.

(** Decoding an agent definition keeps going past keys it does not know and
    reports exactly those, in order; the definition must be a mapping. *)
Theorem UnmarshalYAML_unknown value p :
  UnmarshalYAML value = Ok p ->
  Kind value = MappingNode /\
  elems (ap_UnknownFields p) =
    filter (fun key => key ∉ known_keys) (mapping_keys (Content value)).
Proof.
  unfold UnmarshalYAML. destruct (Kind value); try done. intros E. split; [done|].
  by apply decode_fields_unknown in E.
Qed.
End yaml.

(** ** Witnesses: a document type with two documents *)

Inductive demo_node := DScalar (s : string) | DList (l : list string) | DMap (l : list demo_node).

Definition demo_strings (n : demo_node) (_ : slice string) : result (slice string) :=
  match n with DList l => Ok (Some l) | _ => Err (errorf "not a sequence") end.

Definition demo_builtin : demo_node :=
  DMap [DScalar "description"; DScalar "Reviews changes"; DScalar "tools"; DList ["read"];
        DScalar "posture"; DScalar "calm"].
Definition demo_project : demo_node :=
  DMap [DScalar "description"; DScalar "Reviews Go"; DScalar "tools_append"; DList ["grep"]].

Definition demo_yaml : YAML := {|
  node := demo_node;
  Kind n := match n with DMap _ => MappingNode | DScalar _ => ScalarNode | DList _ => OtherNode end;
  Value n := match n with DScalar s => s | _ => "" end;
  Content n := match n with DMap l => l | _ => [] end;
  Decode_string n := match n with DScalar s => Ok s | _ => Err (errorf "not a scalar") end;
  Decode_bool n := match n with DScalar s => Ok (s =s "true") | _ => Err (errorf "not a bool") end;
  Decode_strings := demo_strings;
  Decode_models _ l := Ok l;
  Decode_triggers _ l := Ok l;
  Unmarshal dec doc :=
    p ← dec (if doc =s "builtin" then demo_builtin else demo_project);
    Ok (mkConfigPatch {["reviewer" := p]} ∅ None ∅)
|}.

Definition demo_files (path : string) : result string :=
  if path =s "/etc/omg/config.yaml" then Ok "builtin"
  else if path =s "/p/.omg/config.yaml" then Ok "project"
  else Err (mkError KNotExist "no such file").
Definition demo_options : Options := mkOptions "/etc/omg" "/home/u/.omg" "/p/.omg".
Definition demo_config : Config :=
  match Load (H := demo_yaml) demo_files demo_options with
  | Ok cfg => cfg
  | Err _ => mkConfig ∅ ∅ "" ∅
  end.

Lemma Load_agent_witness :
  exists a, cfg_Agents demo_config !! "reviewer" = Some a /\
    ad_Description a = "Reviews Go" /\ elems (ad_Tools a) = ["read"; "grep"] /\
    ad_Source a = "project".
Proof.
  destruct (cfg_Agents demo_config !! "reviewer") as [a|] eqn:E;
    [|vm_compute in E; discriminate E].
  exists a. split; [reflexivity|].
  destruct (Load_agent (H := demo_yaml) demo_files demo_options demo_config "reviewer" a)
    as (ps & Hps & _ & Hs & Hd & _ & _ & _ & _ & _ & _ & _ & _ & _ & _ & _ & _ & _ & Ht); [vm_compute; reflexivity | exact E|].
  vm_compute in Hps. injection Hps as <-. vm_compute in Hs, Hd, Ht. auto.
Defined.

Lemma applyPatch_order_witness :
  applyPatch demo_config empty_patch "project" =
  mkConfig (cfg_Agents demo_config) (cfg_Skills demo_config) "" (cfg_Workers demo_config).
Proof.
  exact (applyPatch_order demo_config empty_patch "project" [] [] []
    (Permutation_refl _) (Permutation_refl _) (Permutation_refl _)).
Defined.

Lemma UnmarshalYAML_unknown_witness :
  exists p, UnmarshalYAML (H := demo_yaml) demo_builtin = Ok p /\
    elems (ap_UnknownFields p) = ["posture"].
Proof.
  destruct (UnmarshalYAML (H := demo_yaml) demo_builtin) as [p|] eqn:E;
    [|vm_compute in E; discriminate E].
  exists p. split; [reflexivity|].
  exact (proj2 (UnmarshalYAML_unknown (H := demo_yaml) demo_builtin p E)).
Defined.
