(* ===== verification/Registry.v ===== *)
(** * internal/registry: the active agents

    [src/internal/registry/registry.go] builds the registry of active agents from
    a configuration; [code.go] keeps agents registered from code. The loops over
    Go maps are over their sorted keys, as in the source. *)

From S2P Require Import Prelude GoStrings GoSort GoValue Config.

(** ** Data *)

Record RegOptions := mkRegOptions { Strict : bool }.

(** [registry.ModelCandidate] has the fields of the configuration's. *)
Record Trigger := mkTrigger { tr_Domain : string; tr_Pattern : string; tr_Priority : Z }.

Definition ToolModeDefault := "default".
Definition ToolModeAllowlist := "allowlist".
Definition ToolModeAllExcept := "all_except".

Record ToolPolicy := mkToolPolicy { tp_Mode : string; tp_Allow : slice string; tp_Except : slice string }.

Record Agent := mkAgent {
  agt_Name : string;
  agt_Description : string;
  agt_Aliases : slice string;
  agt_Category : string;
  agt_Autonomy : string;
  agt_Cost : string;
  agt_Mode : string;
  agt_Models : slice ModelCandidate;
  agt_Tools : ToolPolicy;
  agt_Triggers : slice Trigger;
  agt_UseWhen : slice string;
  agt_AvoidWhen : slice string;
  agt_Source : string
}.

Record Registry := mkRegistry {
  reg_Agents : gmap string Agent;
  reg_Aliases : gmap string string;
  reg_Warnings : list string
}.

Definition zero_regagent : Agent :=
  mkAgent "" "" None "" "" "" "" None (mkToolPolicy "" None None) None None None "".

(** ** Normalisation *)

Definition clone_triggers (values : slice TriggerDefinition) : slice Trigger :=
  map (fun v => mkTrigger (td_Domain v) (td_Pattern v) (td_Priority v)) <$> values.

Definition normalizeTools (definition : AgentDefinition) : result ToolPolicy :=
  if ad_ToolsAll definition then
    Ok (mkToolPolicy ToolModeAllExcept None (cloneStrings (ad_ToolsExcept definition)))
  else match elems (ad_ToolsExcept definition) with
  | _ :: _ => Err (errorf "tools_except is valid only when tools: all")
  | [] =>
      match ad_Tools definition with
      | Some tools => Ok (mkToolPolicy ToolModeAllowlist (cloneStrings (Some tools)) None)
      | None => Ok (mkToolPolicy ToolModeDefault None None)
      end
  end.

Section tables.
Context `{UnicodeTables}.

Definition normalizeModels (definition : AgentDefinition) : slice ModelCandidate * list string :=
  match elems (ad_ModelChain definition) with
  | _ :: _ as chain =>
      (Some chain,
       if ad_Model definition <>s "" then
         ["agent " +:+ Quote (ad_Name definition) +:+
          " has both model and model_chain; model_chain wins"]
       else [])
  | [] =>
      if ad_Model definition <>s "" then
        (Some [mkModelCandidate (ad_Model definition) "" "" ∅], [])
      else (None, [])
  end.

Definition normalizeAgent (definition : AgentDefinition) : result (Agent * list string) :=
  match normalizeTools definition with
  | Err err => Err (errorf ("agent " +:+ Quote (ad_Name definition) +:+ ": " +:+ Error err))
  | Ok tools =>
      let '(models, warnings) := normalizeModels definition in
      Ok (mkAgent (ad_Name definition) (ad_Description definition)
            (cloneStrings (ad_Aliases definition)) (ad_Category definition)
            (ad_Autonomy definition) (ad_Cost definition) (ad_Mode definition) models tools
            (clone_triggers (ad_Triggers definition)) (cloneStrings (ad_UseWhen definition))
            (cloneStrings (ad_AvoidWhen definition)) (ad_Source definition), warnings)
  end.

(** ** Build *)

Definition unknown_warning (definition : AgentDefinition) (field : string) : string :=
  "agent " +:+ Quote (ad_Name definition) +:+ " unknown field " +:+ Quote field.

(** The body of the first loop: nothing for a disabled agent. *)
Definition build_agent (cfg : Config) (options : RegOptions) (reg : Registry) (name : string)
    : result Registry :=
  let definition := default zero_agent (cfg_Agents cfg !! name) in
  if ad_Disabled definition then Ok reg
  else if ad_Name definition =s "" then
    Err (errorf ("agent " +:+ Quote name +:+ " missing name"))
  else if ad_Description definition =s "" then
    Err (errorf ("agent " +:+ Quote (ad_Name definition) +:+ " missing description"))
  else
    let unknown := map (unknown_warning definition) (elems (ad_UnknownFields definition)) in
    match Strict options, unknown with
    | true, warning :: _ => Err (errorf ("unknown field: " +:+ warning))
    | _, _ =>
        '(agent, warnings) ← normalizeAgent definition;
        match Strict options, warnings with
        | true, warning :: _ => Err (errorf ("strict warning: " +:+ warning))
        | _, _ =>
            Ok (mkRegistry (<[agt_Name agent := agent]> (reg_Agents reg)) (reg_Aliases reg)
                  (reg_Warnings reg ++ unknown ++ warnings))
        end
    end.

Fixpoint build_agents (cfg : Config) (options : RegOptions) (names : list string) (reg : Registry)
    : result Registry :=
  match names with
  | [] => Ok reg
  | name :: rest => reg ← build_agent cfg options reg name; build_agents cfg options rest reg
  end.

Definition sortedAgentNames (agents : gmap string Agent) : list string := sorted_keys agents.

(** The inner loop of the second pass: the aliases of one agent. *)
Fixpoint add_aliases (agents : gmap string Agent) (name : string) (aliases : list string)
    (acc : gmap string string) : result (gmap string string) :=
  match aliases with
  | [] => Ok acc
  | alias :: rest =>
      if alias =s "" then add_aliases agents name rest acc
      else
        let add := if bool_decide (is_Some (agents !! alias)) && (alias <>s name) then
            Err (errorf ("alias collision: " +:+ Quote alias +:+
                         " conflicts with canonical agent name"))
          else add_aliases agents name rest (<[alias := name]> acc) in
        match acc !! alias with
        | Some existing =>
            if existing <>s name then
              Err (errorf ("alias collision: " +:+ Quote alias +:+ " maps to both " +:+
                           Quote existing +:+ " and " +:+ Quote name))
            else add
        | None => add
        end
  end.

Fixpoint build_aliases (agents : gmap string Agent) (names : list string)
    (acc : gmap string string) : result (gmap string string) :=
  match names with
  | [] => Ok acc
  | name :: rest =>
      let agent := default zero_regagent (agents !! name) in
      acc ← add_aliases agents (agt_Name agent) (elems (agt_Aliases agent)) acc;
      build_aliases agents rest acc
  end.

Definition Build (cfg : Config) (options : RegOptions) : result Registry :=
  reg ← build_agents cfg options (sorted_keys (cfg_Agents cfg)) (mkRegistry ∅ ∅ []);
  aliases ← build_aliases (reg_Agents reg) (sortedAgentNames (reg_Agents reg)) (reg_Aliases reg);
  Ok (mkRegistry (reg_Agents reg) aliases (reg_Warnings reg)).

(** [reg.Agent(name)] and [reg.ResolveAlias(alias)] *)
Definition Agent_ (r : Registry) (name : string) : option Agent := reg_Agents r !! name.
Definition ResolveAlias (r : Registry) (alias : string) : option string := reg_Aliases r !! alias.

(** ** Agents registered from code

    The package's map as explicit state. [Build] does not take it. *)

Abbreviation code_agents := (gmap string Agent).

Definition Register (codeAgents : code_agents) (a : Agent) : code_agents * option error :=
  if agt_Name a =s "" then (codeAgents, Some (errorf "agent name is required"))
  else match codeAgents !! agt_Name a with
       | Some _ => (codeAgents,
                    Some (errorf ("agent " +:+ Quote (agt_Name a) +:+ " already registered")))
       | None => (<[agt_Name a := a]> codeAgents, None)
       end.

Definition registered (codeAgents : code_agents) : gmap string Agent := codeAgents.
Definition ResetRegistry : code_agents := ∅.

(** ** Specification *)

(** Agent [n] declares the alias [al]. *)
Definition claims (agents : gmap string Agent) (n al : string) : Prop :=
  al <> "" /\ exists a, agents !! n = Some a /\ al ∈ elems (agt_Aliases a).

(** [al] cannot be an alias of [n]: another agent claims it, or is called so. *)
Definition collides (agents : gmap string Agent) (n al : string) : Prop :=
  (exists m, m <> n /\ claims agents m al) \/ (is_Some (agents !! al) /\ al <> n).

Definition enabled (cfg : Config) (name : string) (d : AgentDefinition) : Prop :=
  cfg_Agents cfg !! name = Some d /\ ad_Disabled d = false.

(** A definition the registry takes. *)
Definition buildable (d : AgentDefinition) : Prop :=
  ad_Name d <> "" /\ ad_Description d <> "" /\
  (elems (ad_ToolsExcept d) = [] \/ ad_ToolsAll d = true).

(** What [config.Load] guarantees: agents are stored under their names. *)
Definition well_named (cfg : Config) : Prop :=
  map_Forall (fun name d => ad_Name d = name) (cfg_Agents cfg).

Definition active_agent (d : AgentDefinition) : option Agent :=
  if ad_Disabled d then None
  else match normalizeAgent d with Ok (a, _) => Some a | Err _ => None end.

(** ** Lemmas *)

Lemma normalizeTools_ok d :
  is_ok (normalizeTools d) = true <-> elems (ad_ToolsExcept d) = [] \/ ad_ToolsAll d = true.
Proof.
  unfold normalizeTools. destruct (ad_ToolsAll d); [split; auto|].
  destruct (elems (ad_ToolsExcept d)); [|split; [done | naive_solver]].
  split; [by left|]. by destruct (ad_Tools d).
Qed.

Lemma normalizeAgent_name d a w :
  normalizeAgent d = Ok (a, w) ->
  agt_Name a = ad_Name d /\ agt_Aliases a = ad_Aliases d /\ is_ok (normalizeTools d) = true.
Proof.
  unfold normalizeAgent. destruct (normalizeTools d); [|done].
  destruct (normalizeModels d). by intros [= <- _].
Qed.

Lemma normalizeAgent_total d :
  is_ok (normalizeTools d) = true -> exists a w, normalizeAgent d = Ok (a, w).
Proof.
  unfold normalizeAgent. destruct (normalizeTools d); [|done].
  destruct (normalizeModels d). eauto.
Qed.

(** One turn of the first loop. *)
Lemma build_agent_ok cfg options reg name d reg' :
  cfg_Agents cfg !! name = Some d ->
  build_agent cfg options reg name = Ok reg' ->
  reg_Aliases reg' = reg_Aliases reg /\
  (ad_Disabled d = false -> buildable d /\ is_Some (active_agent d)) /\
  reg_Agents reg' = match active_agent d with
                    | Some a => <[ad_Name d := a]> (reg_Agents reg)
                    | None => reg_Agents reg
                    end.
Proof.
  unfold build_agent, active_agent, buildable. intros ->. change (default zero_agent (Some d)) with d.
  destruct (ad_Disabled d) eqn:Ed; [by intros [= <-]|].
  destruct (ad_Name d =s "") eqn:En; [done|]. destruct (ad_Description d =s "") eqn:Edesc; [done|].
  str_simpl. intros E.
  assert (('(agent, warnings) ← normalizeAgent d;
      match Strict options, warnings with
      | true, warning :: _ => Err (errorf ("strict warning: " +:+ warning))
      | _, _ => Ok (mkRegistry (<[agt_Name agent := agent]> (reg_Agents reg)) (reg_Aliases reg)
                  (reg_Warnings reg ++ map (unknown_warning d) (elems (ad_UnknownFields d)) ++ warnings))
      end) = Ok reg') as E' by (revert E; destruct (Strict options), (map _ _); done).
  apply bind_ok in E' as ([a w] & Ea & E'). rewrite Ea.
  apply normalizeAgent_name in Ea as (Hn & _ & Ht%normalizeTools_ok).
  destruct (Strict options), w; try done; injection E' as <-; rewrite Hn; cbn; eauto 10.
Qed.

Lemma build_agent_total cfg options reg name d :
  cfg_Agents cfg !! name = Some d -> Strict options = false ->
  (ad_Disabled d = false -> buildable d) ->
  exists reg', build_agent cfg options reg name = Ok reg'.
Proof.
  unfold build_agent. intros -> -> Hb. change (default zero_agent (Some d)) with d.
  destruct (ad_Disabled d); [eauto|]. destruct (Hb eq_refl) as (Hn & Hd & Ht).
  apply eqb_false in Hn, Hd. rewrite Hn, Hd.
  apply normalizeTools_ok, normalizeAgent_total in Ht as (a & w & ->).
  destruct (map _ _); eexists; reflexivity.
Qed.

Lemma build_agents_ok cfg options names reg reg' :
  well_named cfg -> (forall n, n ∈ names -> is_Some (cfg_Agents cfg !! n)) ->
  build_agents cfg options names reg = Ok reg' ->
  reg_Aliases reg' = reg_Aliases reg /\
  (forall n d, n ∈ names -> enabled cfg n d -> buildable d) /\
  forall n, reg_Agents reg' !! n =
    if bool_decide (n ∈ names) then
      match cfg_Agents cfg !! n ≫= active_agent with Some a => Some a | None => reg_Agents reg !! n end
    else reg_Agents reg !! n.
Proof.
  intros Hwn. revert reg. induction names as [|name names IH]; intros reg Hin; simpl.
  { intros [= <-]. split_and!; [done | intros ?? Hx; inversion Hx | done]. }
  intros E. apply bind_ok in E as (reg1 & E1 & E).
  destruct (Hin name) as [d Hd]; [by left|].
  destruct (build_agent_ok _ _ _ _ _ _ Hd E1) as (Ha & Hb & Hr).
  apply IH in E as (Ha' & Hb' & Hr'); [|intros; apply Hin; by right].
  split_and!; [congruence | |].
  - intros n d' [->|Hn]%elem_of_cons [Hd' Hdis]; [|by eapply Hb'].
    rewrite Hd in Hd'. injection Hd' as <-. by apply Hb.
  - intros n. rewrite Hr', Hr. clear Hr Hr'.
    assert (ad_Name d = name) as -> by by apply (Hwn _ _ Hd).
    destruct (decide (n = name)) as [->|Hne].
    + rewrite (bool_decide_eq_true_2 (name ∈ name :: names)) by left. rewrite Hd. simpl.
      destruct (active_agent d) as [a|]; simpl; [|by case_bool_decide].
      rewrite lookup_insert_eq. by case_bool_decide.
    + assert (match active_agent d with
        | Some a => <[name := a]> (reg_Agents reg) | None => reg_Agents reg end !! n
        = reg_Agents reg !! n) as ->
        by (destruct (active_agent d); [by rewrite lookup_insert_ne | done]).
      rewrite (bool_decide_ext (n ∈ name :: names) (n ∈ names)); [done|].
      rewrite elem_of_cons. naive_solver.
Qed.

Lemma build_agents_total cfg options names reg :
  Strict options = false ->
  (forall n, n ∈ names -> exists d, cfg_Agents cfg !! n = Some d /\
     (ad_Disabled d = false -> buildable d)) ->
  exists reg', build_agents cfg options names reg = Ok reg'.
Proof.
  intros Hs. revert reg. induction names as [|name names IH]; intros reg Hin; simpl; [eauto|].
  destruct (Hin name) as (d & Hd & Hb); [by left|].
  destruct (build_agent_total cfg options reg name d Hd Hs Hb) as [reg1 ->]. simpl.
  apply IH. intros. apply Hin. by right.
Qed.

(** The alias pass over one agent. *)
Lemma add_aliases_spec agents name aliases acc :
  let bad al := (exists m, m <> name /\ acc !! al = Some m) \/
                (is_Some (agents !! al) /\ al <> name) in
  match add_aliases agents name aliases acc with
  | Ok acc' =>
      (forall al, al ∈ aliases -> al <> "" -> ~ bad al) /\
      forall al n, acc' !! al = Some n <->
        acc !! al = Some n \/ (n = name /\ al ∈ aliases /\ al <> "")
  | Err _ => exists al, al ∈ aliases /\ al <> "" /\ bad al
  end.
Proof.
  cbv zeta. revert acc. induction aliases as [|al rest IH]; intros acc; cbn [add_aliases].
  { split; [intros ? Hx; inversion Hx|]. intros al n. split; [by left|].
    intros [?|(_ & Hx & _)]; [done | inversion Hx]. }
  destruct (al =s "") eqn:Eal; str_simpl; subst.
  { specialize (IH acc). destruct (add_aliases _ _ _ _) as [acc'|].
    - destruct IH as [IHb IHl]. split.
      + intros al [->|Hin]%elem_of_cons Hne; [done | by apply IHb].
      + intros al n. rewrite IHl, elem_of_cons. naive_solver.
    - destruct IH as (al & ? & ?). exists al. rewrite elem_of_cons. naive_solver. }
  assert (forall acc1, (acc !! al = None \/ acc !! al = Some name) -> acc1 = <[al := name]> acc ->
    forall k m, acc1 !! k = Some m <-> acc !! k = Some m \/ (k = al /\ m = name)) as Hacc.
  { intros acc1 Hal -> k m. destruct (decide (k = al)) as [->|Hne].
    - rewrite lookup_insert_eq. naive_solver.
    - rewrite lookup_insert_ne by done. naive_solver. }
  assert ((acc !! al = None \/ acc !! al = Some name) ->
    let P r := match r with
    | Ok acc' => (forall a, a ∈ al :: rest -> a <> "" -> ~ ((exists m, m <> name /\ acc !! a = Some m) \/
                (is_Some (agents !! a) /\ a <> name))) /\
        forall a n, acc' !! a = Some n <-> acc !! a = Some n \/ (n = name /\ a ∈ al :: rest /\ a <> "")
    | Err _ => exists a, a ∈ al :: rest /\ a <> "" /\ ((exists m, m <> name /\ acc !! a = Some m) \/
                (is_Some (agents !! a) /\ a <> name))
    end in
    P (if bool_decide (is_Some (agents !! al)) && (al <>s name) then
      Err (errorf ("alias collision: " +:+ Quote al +:+ " conflicts with canonical agent name"))
      else add_aliases agents name rest (<[al := name]> acc))) as Hadd.
  { intros Hal. cbv zeta. destruct (bool_decide _ && _) eqn:Eb.
    { str_simpl. exists al. split; [left|]. split; [done|]. right. by apply bool_decide_eq_true in H0. }
    specialize (IH (<[al := name]> acc)). specialize (Hacc _ Hal eq_refl).
    destruct (add_aliases _ _ _ _) as [acc'|].
    - destruct IH as [IHb IHl]. split.
      + intros a [->|Hin]%elem_of_cons Hne.
        * intros [(m & Hm & Hl)|[Hs Hn]]; [destruct Hal; congruence|].
          apply andb_false_iff in Eb as [Eb|Eb].
          -- by apply bool_decide_eq_false in Eb.
          -- str_simpl. done.
        * intros Hbad. apply (IHb a Hin Hne). destruct Hbad as [(m & Hm & Hl)|?]; [|by right].
          left. exists m. split; [done|]. apply Hacc. by left.
      + intros a n. rewrite IHl, Hacc, elem_of_cons. naive_solver.
    - destruct IH as (a & Hin & Hne & Hbad). exists a. split; [by right|]. split; [done|].
      destruct Hbad as [(m & Hm & Hl)|?]; [|by right]. apply Hacc in Hl as [Hl|[-> ->]]; [|done].
      left. eauto. }
  destruct (acc !! al) as [existing|] eqn:El; [|by apply Hadd; left].
  destruct (existing =s name) eqn:Ee; str_simpl; cbn [negb].
  - subst. apply Hadd. by right.
  - exists al. split; [left|]. split; [done|]. left. eauto.
Qed.

(** Agents are stored under their names. *)
Definition named (agents : gmap string Agent) : Prop :=
  map_Forall (fun n a => agt_Name a = n) agents.

(** The alias pass over all agents: [acc] holds the aliases of the agents done. *)
Lemma build_aliases_spec agents todo done_ acc :
  named agents -> NoDup todo -> (forall n, n ∈ todo -> is_Some (agents !! n)) ->
  (forall n, n ∈ todo -> n ∉ done_) ->
  (forall al n, acc !! al = Some n <-> n ∈ done_ /\ claims agents n al) ->
  match build_aliases agents todo acc with
  | Ok acc' =>
      (forall n al, n ∈ todo -> claims agents n al -> ~ (is_Some (agents !! al) /\ al <> n)) /\
      forall al n, acc' !! al = Some n <-> (n ∈ done_ ++ todo) /\ claims agents n al
  | Err _ => exists n al, claims agents n al /\ collides agents n al
  end.
Proof.
  intros Hnamed. revert done_ acc. induction todo as [|name todo IH]; intros done_ acc Hnd Hin Hdisj Hacc;
    cbn [build_aliases].
  { rewrite app_nil_r. split; [intros ? ? Hx; inversion Hx | done]. }
  apply NoDup_cons in Hnd as [Hname Hnd].
  destruct (Hin name) as [a Ha]; [by left|]. rewrite Ha.
  change (default zero_regagent (Some a)) with a.
  assert (agt_Name a = name) as -> by by apply (Hnamed _ _ Ha).
  assert (forall al, al ∈ elems (agt_Aliases a) /\ al <> "" <-> claims agents name al) as Hcl.
  { intros al. unfold claims. rewrite Ha. naive_solver. }
  pose proof (add_aliases_spec agents name (elems (agt_Aliases a)) acc) as Hadd. cbv zeta in Hadd.
  destruct (add_aliases agents name _ acc) as [acc1|]; cbn [mbind result_bind].
  - destruct Hadd as [Hok Hl].
    specialize (IH (done_ ++ [name]) acc1).
    destruct (build_aliases agents todo acc1) as [acc'|].
    + destruct IH as [IHb IHl].
      * done.
      * intros. apply Hin. by right.
      * intros n Hn [Hd|Hd%list_elem_of_singleton]%elem_of_app; [|by subst].
        by apply (Hdisj n); [right|].
      * intros al n. rewrite Hl, Hacc, elem_of_app, list_elem_of_singleton.
        rewrite (Hcl al). clear. split.
        { intros [[??]|[-> ?]]; auto. }
        { intros [[?| ->] ?]; auto. }
      * split.
        -- intros n al [->|Hn]%elem_of_cons Hc; [|by apply IHb].
           apply Hcl in Hc as [Hc Hne]. intros Hbad. apply (Hok al Hc Hne). by right.
        -- intros al n. rewrite IHl, <- app_assoc. done.
    + apply IH; try done.
      * intros. apply Hin. by right.
      * intros n Hn [Hd|Hd%list_elem_of_singleton]%elem_of_app; [|by subst].
        by apply (Hdisj n); [right|].
      * intros al n. rewrite Hl, Hacc, elem_of_app, list_elem_of_singleton.
        rewrite (Hcl al). clear. split.
        { intros [[??]|[-> ?]]; auto. }
        { intros [[?| ->] ?]; auto. }
  - destruct Hadd as (al & Hal & Hne & Hbad). exists name, al. split; [by apply Hcl|].
    destruct Hbad as [(m & Hm & Hl)|?]; [|by right]. left. exists m. split; [done|].
    by apply Hacc in Hl as [_ Hl].
Qed.

Lemma build_agents_named cfg options reg :
  well_named cfg ->
  build_agents cfg options (sorted_keys (cfg_Agents cfg)) (mkRegistry ∅ ∅ []) = Ok reg ->
  reg_Aliases reg = ∅ /\
  (forall n d, enabled cfg n d -> buildable d) /\
  (forall n, reg_Agents reg !! n = cfg_Agents cfg !! n ≫= active_agent) /\
  named (reg_Agents reg).
Proof.
  intros Hwn E. apply build_agents_ok in E as (Ha & Hb & Hr); [|done|]; cycle 1.
  { intros n. by rewrite sorted_keys_elem. }
  cbn in Ha, Hr.
  assert (forall n, reg_Agents reg !! n = cfg_Agents cfg !! n ≫= active_agent) as Hlook.
  { intros n. rewrite Hr, lookup_empty. case_bool_decide as Hin.
    - by destruct (cfg_Agents cfg !! n ≫= active_agent).
    - rewrite sorted_keys_elem in Hin. by destruct (cfg_Agents cfg !! n); [destruct Hin|]. }
  split_and!; [done | | done |].
  - intros n d Hd. apply (Hb n d); [|done]. apply sorted_keys_elem. destruct Hd. eauto.
  - intros n a Hn. rewrite Hlook in Hn.
    destruct (cfg_Agents cfg !! n) as [d|] eqn:Ed; [|done]. simpl in Hn.
    unfold active_agent in Hn. destruct (ad_Disabled d); [done|].
    destruct (normalizeAgent d) as [[a' w]|] eqn:En; [|done]. injection Hn as <-.
    apply normalizeAgent_name in En as [-> _]. by apply (Hwn _ _ Ed).
Qed.

Lemma build_aliases_total agents :
  named agents ->
  match build_aliases agents (sortedAgentNames agents) ∅ with
  | Ok acc' =>
      (forall n al, claims agents n al -> ~ (is_Some (agents !! al) /\ al <> n)) /\
      forall al n, acc' !! al = Some n <-> claims agents n al
  | Err _ => exists n al, claims agents n al /\ collides agents n al
  end.
Proof.
  intros Hn.
  pose proof (build_aliases_spec agents (sortedAgentNames agents) [] ∅ Hn) as Hs.
  assert (forall n al, claims agents n al -> n ∈ sortedAgentNames agents) as Hin.
  { intros n al (_ & a & Ha & _). apply sorted_keys_elem. eauto. }
  unfold sortedAgentNames in *. specialize (Hs (sorted_keys_nodup agents)).
  destruct (build_aliases agents (sorted_keys agents) ∅) as [acc'|].
  - destruct Hs as [Hb Hl].
    + intros n. by rewrite sorted_keys_elem.
    + intros n _ Hx. inversion Hx.
    + intros al n. rewrite lookup_empty. split; [done|]. intros [Hx _]. inversion Hx.
    + split; [intros n al Hc; apply Hb; [by eapply Hin | done]|].
      intros al n. rewrite Hl. simpl. split; [by intros [_ ?] | intros; split; eauto].
  - apply Hs.
    + intros n. by rewrite sorted_keys_elem.
    + intros n _ Hx. inversion Hx.
    + intros al n. rewrite lookup_empty. split; [done|]. intros [Hx _]. inversion Hx.
Qed.

(** ** The registry's promises *)

(** C39: a built registry holds exactly the normalised enabled agents, under their
    names; an alias resolves exactly to the one agent that declares it, and is
    never the name of another agent. *)
Theorem Build_sound cfg options reg :
  well_named cfg -> Build cfg options = Ok reg ->
  (forall name, Agent_ reg name = cfg_Agents cfg !! name ≫= active_agent) /\
  (forall alias name, ResolveAlias reg alias = Some name <-> claims (reg_Agents reg) name alias) /\
  (forall alias name other, ResolveAlias reg alias = Some name ->
     claims (reg_Agents reg) other alias -> other = name) /\
  (forall alias name, ResolveAlias reg alias = Some name -> alias <> name ->
     Agent_ reg alias = None).
Proof.
  intros Hwn E. unfold Build in E. apply bind_ok in E as (reg0 & E0 & E).
  apply build_agents_named in E0 as (Ha & _ & Hr & Hnamed); [|done].
  apply bind_ok in E as (aliases & E & [= <-]). rewrite Ha in E.
  pose proof (build_aliases_total _ Hnamed) as Hs. rewrite E in Hs. destruct Hs as [Hb Hl].
  unfold Agent_, ResolveAlias. cbn. split_and!; try done.
  - intros alias name other H1 H2. apply Hl in H2. congruence.
  - intros alias name H1 Hne. apply Hl in H1.
    destruct (reg_Agents reg0 !! alias) eqn:Es; [|done].
    exfalso. apply (Hb _ _ H1). eauto.
Qed.

(** Without strict mode, building fails exactly when some enabled agent has no
    name, no description or a [tools_except] without [tools: all], or when two
    enabled agents collide on an alias. Disabled agents never matter. *)
Theorem Build_succeeds_iff cfg options :
  well_named cfg -> Strict options = false ->
  (is_ok (Build cfg options) = true <->
   (forall name d, enabled cfg name d -> buildable d) /\
   (forall name alias,
      let agents := omap active_agent (cfg_Agents cfg) in
      claims agents name alias -> ~ collides agents name alias)).
Proof.
  intros Hwn Hs.
  assert (forall reg, (forall n, reg_Agents reg !! n = cfg_Agents cfg !! n ≫= active_agent) ->
    reg_Agents reg = omap active_agent (cfg_Agents cfg)) as Hext.
  { intros reg Hr. apply map_eq. intros n. by rewrite Hr, lookup_omap. }
  cbv zeta. unfold Build. split.
  - intros E. destruct (build_agents _ _ _ _) as [reg0|] eqn:E0; [|done].
    apply build_agents_named in E0 as (Ha & Hb & Hr & Hnamed); [|done]. split; [done|].
    rewrite <- (Hext _ Hr). cbn in E. rewrite Ha in E.
    pose proof (build_aliases_total _ Hnamed) as Hal.
    destruct (build_aliases _ _ _) as [acc|]; [|done]. destruct Hal as [Hb' Hl].
    intros n al Hc [(m & Hne & Hm)|Hx]; [|by apply (Hb' n al)].
    apply Hl in Hc, Hm. congruence.
  - intros [Hb Hnc].
    destruct (build_agents_total cfg options (sorted_keys (cfg_Agents cfg)) (mkRegistry ∅ ∅ []))
      as [reg0 E0]; [done | |].
    { intros n [d Hd]%sorted_keys_elem. exists d. split; [done|]. intros. by apply (Hb n). }
    rewrite E0. apply build_agents_named in E0 as (Ha & _ & Hr & Hnamed); [|done].
    rewrite <- (Hext _ Hr) in Hnc. cbn. rewrite Ha.
    pose proof (build_aliases_total _ Hnamed) as Hal.
    destruct (build_aliases _ _ _) as [acc|]; [done|].
    destruct Hal as (n & al & Hc & Hx). by destruct (Hnc _ _ Hc).
Qed.

(** Registration from code takes each name once and never replaces an agent;
    [Build] takes no argument for what was registered, so a code agent is never
    part of a registry unless the configuration defines it too. *)
Lemma Register_first_wins codeAgents a :
  let '(codeAgents', err) := Register codeAgents a in
  (err = None <-> agt_Name a <> "" /\ codeAgents !! agt_Name a = None) /\
  codeAgents ⊆ codeAgents' /\
  (err = None -> codeAgents' !! agt_Name a = Some a) /\
  (forall cfg options reg, well_named cfg -> cfg_Agents cfg !! agt_Name a = None ->
     Build cfg options = Ok reg -> Agent_ reg (agt_Name a) = None).
Proof.
  assert (forall cfg options reg, well_named cfg -> cfg_Agents cfg !! agt_Name a = None ->
     Build cfg options = Ok reg -> Agent_ reg (agt_Name a) = None) as Hbuild.
  { intros cfg options reg Hwn Hn E. unfold Build in E. apply bind_ok in E as (reg0 & E0 & E).
    apply build_agents_named in E0 as (_ & _ & Hr & _); [|done].
    apply bind_ok in E as (aliases & E & [= <-]). unfold Agent_. cbn. by rewrite Hr, Hn. }
  unfold Register. destruct (agt_Name a =s "") eqn:En; str_simpl.
  { split_and!; [naive_solver | done | done | done]. }
  destruct (codeAgents !! agt_Name a) eqn:El.
  - split_and!; [naive_solver | done | done | done].
  - split_and!; [naive_solver | by apply insert_subseteq | | done].
    intros _. by rewrite lookup_insert_eq.
Qed.
End tables.

(** ** Witnesses *)

Definition demo_definition (name : string) (aliases : list string) (disabled : bool)
    : AgentDefinition :=
  mkAgentDefinition name "An agent" (Some aliases) "" "" "" "" "m" None (Some ["read"]) false None
    None None None disabled None "project".
Definition demo_cfg : Config :=
  mkConfig {["architect" := demo_definition "architect" ["oracle"; "arch"] false;
             "critic" := demo_definition "critic" ["review"] false;
             "old" := demo_definition "old" ["oracle"] true]} ∅ "" ∅.
Definition demo_registry : Registry :=
  match Build (H := plain_tables) demo_cfg (mkRegOptions false) with
  | Ok reg => reg
  | Err _ => mkRegistry ∅ ∅ []
  end.

Lemma demo_well_named : well_named demo_cfg.
Proof. apply (bool_decide_unpack _). vm_compute. exact I. Defined.

Lemma Build_sound_witness :
  Agent_ demo_registry "old" = None /\
  ResolveAlias demo_registry "oracle" = Some "architect" /\ Agent_ demo_registry "oracle" = None.
Proof.
  assert (Build (H := plain_tables) demo_cfg (mkRegOptions false) = Ok demo_registry) as E
    by (vm_compute; reflexivity).
  destruct (Build_sound (H := plain_tables) _ _ _ demo_well_named E) as (Ha & _ & _ & Hn).
  split; [rewrite Ha; vm_compute; reflexivity|].
  assert (ResolveAlias demo_registry "oracle" = Some "architect") as Hr
    by (vm_compute; reflexivity).
  split; [exact Hr|]. apply (Hn _ _ Hr). discriminate.
Defined.

Lemma Build_succeeds_iff_witness :
  is_ok (Build (H := plain_tables) demo_cfg (mkRegOptions false)) = true /\
  forall name d, enabled demo_cfg name d -> buildable d.
Proof.
  assert (is_ok (Build (H := plain_tables) demo_cfg (mkRegOptions false)) = true) as E
    by (vm_compute; reflexivity).
  split; [exact E|].
  apply (Build_succeeds_iff (H := plain_tables) demo_cfg (mkRegOptions false) demo_well_named
    eq_refl). exact E.
Defined.
