(* ===== verification/Wire.v ===== *)
(** * The v1 envelope on the wire

    The JSON tags of [src/internal/protocol/protocol.go] and the text of requests
    and responses: what [ReadRequest], [WriteResponse] and the client of
    [src/cmd/omg/main.go] ([marshalRequest], [writeRequest], [protocolDecode])
    write and read, on top of [Json]. The texts of the decoder's errors are a
    parameter. *)

From S2P Require Import Prelude GoStrings GoSort GoValue JsonText Json Protocol.

(** ** What JSON keeps of an envelope *)

Definition wire_object (m : object) : object := json_object (json_value <$> m).

Definition wire_request (r : Request) : Request :=
  mkRequest (req_Version r) (json_string (req_RequestID r)) (json_string (req_Provider r))
    (json_string (req_Event r)) (json_string (req_Project r)) (json_string (req_CWD r))
    (json_string (req_SessionID r)) (req_TimeoutMS r) (wire_object (req_Capabilities r))
    (wire_object (req_Payload r)).

Definition wire_response (r : Response) : Response :=
  mkResponse (resp_OK r) (json_string (resp_RequestID r)) (json_string (resp_Action r))
    (json_string (resp_Output r)) (map json_string <$> resp_Warnings r)
    ((fun e => mkResponseError (json_string (re_Class e)) (json_string (re_Message e)) (re_Retryable e))
       <$> resp_Error r).

(** [marshalRequest]: a float that JSON cannot write is an error. *)
Definition encodable (r : Request) : bool :=
  json_encodable (VMap (req_Capabilities r)) && json_encodable (VMap (req_Payload r)).
Definition marshalRequest (r : Request) : result Request :=
  if encodable r then Ok (wire_request r) else Err (errorf "json: unsupported value").

(** ** Writing *)

Section wire.
Context `{FloatText} `{JsonErrors}.

Definition request_members (r : Request) : list (string * json) :=
  [("version", JNum (Itoa (req_Version r))); ("request_id", JStr (req_RequestID r));
   ("provider", JStr (req_Provider r)); ("event", JStr (req_Event r));
   ("project", JStr (req_Project r)); ("cwd", JStr (req_CWD r))]
  ++ unless_empty (req_SessionID r =s "") "session_id" (JStr (req_SessionID r))
  ++ unless_empty (req_TimeoutMS r =? 0)%Z "timeout_ms" (JNum (Itoa (req_TimeoutMS r)))
  ++ unless_empty (bool_decide (req_Capabilities r = ∅)) "capabilities" (tree_of (VMap (req_Capabilities r)))
  ++ unless_empty (bool_decide (req_Payload r = ∅)) "payload" (tree_of (VMap (req_Payload r))).

(** [json.Marshal(req)] *)
Definition request_text (r : Request) : result string :=
  if encodable r then Ok (print (JObj (request_members r))) else Err (errorf "json: unsupported value").

Definition nl : string := String "010" "".

(** What [writeRequest] puts on the connection. *)
Definition writeRequest (r : Request) : result string :=
  data ← request_text r; Ok (data +:+ nl).

Definition error_tree (e : ResponseError) : json :=
  JObj [("class", JStr (re_Class e)); ("message", JStr (re_Message e)); ("retryable", JBool (re_Retryable e))].

Definition response_members (r : Response) : list (string * json) :=
  [("ok", JBool (resp_OK r))]
  ++ unless_empty (resp_RequestID r =s "") "request_id" (JStr (resp_RequestID r))
  ++ [("action", JStr (resp_Action r)); ("output", JStr (resp_Output r));
      ("warnings", slice_tree JStr (resp_Warnings r));
      ("error", match resp_Error r with Some e => error_tree e | None => JNull end)].

(** The text that [WriteResponse] writes. *)
Definition response_text (r : Response) : string :=
  print (JObj (response_members (WriteResponse r))) +:+ nl.

(** ** Reading *)

Definition zero_request : Request := mkRequest 0 "" "" "" "" "" "" 0 ∅ ∅.

(** A nil map reads as an empty one. *)
Definition into_object (get : Request -> object) (set : object -> Request -> Request) : setter Request :=
  into_map (fun r => Some (get r)) (fun m => set (default ∅ m)).

Definition request_fields : list (field Request) :=
  [("version", into_int (fun n '(mkRequest _ id p e pr c s t ca pa) => mkRequest n id p e pr c s t ca pa));
   ("request_id", into_string (fun x '(mkRequest v _ p e pr c s t ca pa) => mkRequest v x p e pr c s t ca pa));
   ("provider", into_string (fun x '(mkRequest v id _ e pr c s t ca pa) => mkRequest v id x e pr c s t ca pa));
   ("event", into_string (fun x '(mkRequest v id p _ pr c s t ca pa) => mkRequest v id p x pr c s t ca pa));
   ("project", into_string (fun x '(mkRequest v id p e _ c s t ca pa) => mkRequest v id p e x c s t ca pa));
   ("cwd", into_string (fun x '(mkRequest v id p e pr _ s t ca pa) => mkRequest v id p e pr x s t ca pa));
   ("session_id", into_string (fun x '(mkRequest v id p e pr c _ t ca pa) => mkRequest v id p e pr c x t ca pa));
   ("timeout_ms", into_int (fun n '(mkRequest v id p e pr c s _ ca pa) => mkRequest v id p e pr c s n ca pa));
   ("capabilities", into_object req_Capabilities
      (fun m '(mkRequest v id p e pr c s t _ pa) => mkRequest v id p e pr c s t m pa));
   ("payload", into_object req_Payload
      (fun m '(mkRequest v id p e pr c s t ca _) => mkRequest v id p e pr c s t ca m))].

(** [decoder.Decode(&req)] on a stream that begins with [s]. *)
Definition decode_request (s : string) : result Request :=
  Decode (into_struct request_fields) zero_request s.

Definition zero_error : ResponseError := mkResponseError "" "" false.
Definition error_fields : list (field ResponseError) :=
  [("class", into_string (fun x '(mkResponseError _ m r) => mkResponseError x m r));
   ("message", into_string (fun x '(mkResponseError c _ r) => mkResponseError c x r));
   ("retryable", into_bool (fun b '(mkResponseError c m _) => mkResponseError c m b))].

(** Into a [[]string]: a [null] keeps what the slice held at its place (of a
    slice that an earlier member of the same name has left; what its capacity
    holds beyond its length is not modelled). *)
Fixpoint into_strings (old : list string) (l : list json) : option (list string) :=
  match l with
  | [] => Some []
  | j :: l =>
      s ← into_string (fun s _ => s) j (default "" (head old));
      rest ← into_strings (tail old) l; Some (s :: rest)
  end.

Definition zero_response : Response := mkResponse false "" "" "" None None.

Definition response_fields : list (field Response) :=
  [("ok", into_bool (fun b '(mkResponse _ id a o w e) => mkResponse b id a o w e));
   ("request_id", into_string (fun x '(mkResponse k _ a o w e) => mkResponse k x a o w e));
   ("action", into_string (fun x '(mkResponse k id _ o w e) => mkResponse k id x o w e));
   ("output", into_string (fun x '(mkResponse k id a _ w e) => mkResponse k id a x w e));
   ("warnings", fun j '(mkResponse k id a o w e) =>
      match j with
      | JNull => Some (mkResponse k id a o None e)
      | JArr l => (fun w => mkResponse k id a o (Some w) e) <$> into_strings (elems w) l
      | _ => None
      end);
   ("error", fun j '(mkResponse k id a o w e) =>
      match j with
      | JNull => Some (mkResponse k id a o w None)
      | _ => (fun e => mkResponse k id a o w (Some e)) <$> into_struct error_fields j (default zero_error e)
      end)].

(** [protocolDecode] *)
Definition decode_response (s : string) : result Response :=
  Decode (into_struct response_fields) zero_response s.

(** [ReadRequest] of a stream. *)
Definition read_request (s : string) : option Request * option ProtocolError := ReadRequest (decode_request s).

(** ** The round trip *)

Context {Hlaws : FloatLaws}.

Lemma into_object_round_trip get set m r :
  json_encodable (VMap m) = true -> get r = ∅ ->
  into_object get set (json_tree (tree_of (VMap m))) r = Some (set (wire_object m) r).
Proof. intros He Hg. unfold into_object. by rewrite into_map_round_trip by (done || by cbn). Qed.

Lemma request_members_read r :
  int64 (req_Version r) -> int64 (req_TimeoutMS r) -> encodable r = true ->
  set_members request_fields (map decoded (request_members r)) zero_request = Some (wire_request r).
Proof.
  intros Hv Ht [Hca Hpa]%andb_prop. destruct r as [v id p e pr c s t ca pa].
  cbn [req_Version req_TimeoutMS req_Capabilities req_Payload] in *.
  unfold request_members. cbn [req_Version req_RequestID req_Provider req_Event req_Project req_CWD req_SessionID
    req_TimeoutMS req_Capabilities req_Payload app].
  read_member 0. read_member 1. read_member 2. read_member 3. read_member 4. read_member 5.
  cbn beta iota.
  set (req := mkRequest v (json_string id) (json_string p) (json_string e) (json_string pr) (json_string c)).
  read_optional_string 6 (req (json_string s) 0%Z ∅ ∅).
  read_optional 7 (req (json_string s) t ∅ ∅).
  2: { destruct (Z.eqb_spec t 0) as [->|_]; [done|]. by rewrite into_int_round_trip. }
  read_optional 8 (req (json_string s) t (wire_object ca) ∅).
  2: { case_bool_decide as E; [by rewrite E|]. by rewrite into_object_round_trip. }
  rewrite <- (app_nil_r (unless_empty _ "payload" _)).
  read_optional 9 (req (json_string s) t (wire_object ca) (wire_object pa)).
  2: { case_bool_decide as E; [by rewrite E|]. by rewrite into_object_round_trip. }
  done.
Qed.

Lemma request_literals r : encodable r = true -> literals (JObj (request_members r)).
Proof.
  intros [Hca Hpa]%andb_prop. apply literals_obj.
  pose proof (Itoa_number (req_Version r)). pose proof (Itoa_number (req_TimeoutMS r)).
  pose proof (tree_literals _ Hca). pose proof (tree_literals _ Hpa).
  unfold request_members. repeat apply Forall_app_2; try (by apply unless_empty_Forall). by repeat constructor.
Qed.

Lemma request_text_decodes r rest :
  int64 (req_Version r) -> int64 (req_TimeoutMS r) -> depth (JObj (request_members r)) <= max_depth ->
  encodable r = true ->
  decode_request (print (JObj (request_members r)) +:+ nl +:+ rest) = Ok (wire_request r).
Proof.
  intros Hv Ht Hd He. apply Decode_print; [by apply request_literals|done|]. by apply request_members_read.
Qed.

(** C4: what the client writes is what the daemon reads: the text of a request,
    followed by anything, decodes to the request as [marshalRequest] says JSON
    keeps it - every field, whatever [omitempty] left out, any nested payload -
    if its integers fit an [int] and it does not nest deeper than the decoder
    follows; a request that JSON cannot write is an error on both sides. *)
Theorem request_on_the_wire r rest :
  int64 (req_Version r) -> int64 (req_TimeoutMS r) ->
  depth (JObj (request_members r)) <= max_depth ->
  match writeRequest r with
  | Ok text => decode_request (text +:+ rest) = marshalRequest r
  | Err err => marshalRequest r = Err err
  end.
Proof.
  intros Hv Ht Hd. unfold writeRequest, request_text, marshalRequest.
  destruct (encodable r) eqn:He; [|done]. cbn [mbind result_bind]. rewrite str_app_assoc.
  by apply request_text_decodes.
Qed.

(** ** Responses *)

Lemma into_strings_round_trip old l :
  into_strings old (map json_tree (map JStr l)) = Some (map json_string l).
Proof. revert old. induction l as [|s l IH]; intros old; [done|]. cbn. by rewrite IH. Qed.

Lemma error_round_trip e :
  into_struct error_fields (json_tree (error_tree e)) zero_error =
    Some (mkResponseError (json_string (re_Class e)) (json_string (re_Message e)) (re_Retryable e)).
Proof.
  destruct e as [c m r]. change (json_tree (error_tree (mkResponseError c m r))) with
    (JObj (map decoded [("class", JStr c); ("message", JStr m); ("retryable", JBool r)])).
  cbn [into_struct]. read_member 0. read_member 1. read_member 2. done.
Qed.

Lemma response_members_read r :
  set_members response_fields (map decoded (response_members r)) zero_response = Some (wire_response r).
Proof.
  destruct r as [k id a o w e]. unfold response_members.
  cbn [resp_OK resp_RequestID resp_Action resp_Output resp_Warnings resp_Error app].
  read_member 0. cbn beta iota.
  read_optional_string 1 (mkResponse k (json_string id) "" "" None None).
  read_member 2. read_member 3. cbn beta iota.
  erewrite (set_member _ 4 _ _ _ _ _
    (mkResponse k (json_string id) (json_string a) (json_string o) (map json_string <$> w) None));
    [|vm_compute; reflexivity|reflexivity|].
  2: { destruct w as [l|]; [|done]. cbn [slice_tree json_tree]. by rewrite into_strings_round_trip. }
  erewrite (set_member _ 5 _ _ _ _ _ (wire_response (mkResponse k id a o w e)));
    [|vm_compute; reflexivity|reflexivity|].
  2: { destruct e as [e|]; [|done]. cbn [json_tree error_tree map].
       pose proof (error_round_trip e) as He. cbn [error_tree json_tree map] in He.
       cbn [elems default]. by rewrite He. }
  done.
Qed.

Lemma response_fits r : fits 3 (JObj (response_members r)).
Proof.
  assert (fits 2 (match resp_Error r with Some e => error_tree e | None => JNull end))
    by (destruct (resp_Error r); [unfold error_tree|]; auto with trees).
  unfold response_members. auto 12 with trees.
Qed.

Lemma response_text_decodes r rest :
  decode_response (response_text r +:+ rest) = Ok (wire_response (WriteResponse r)).
Proof.
  unfold response_text. rewrite str_app_assoc.
  destruct (response_fits (WriteResponse r)) as [Hl Hd].
  apply Decode_print; [done|etransitivity; [exact Hd|by apply Nat.leb_le]|apply response_members_read].
Qed.

(** C6: what [WriteResponse] writes is what a host or the client reads: the text of
    any response, followed by anything, decodes to the response as JSON keeps it,
    its nil warnings as an empty list; and if the response is a promise that hosts
    can rely on, so is what they read. *)
Theorem response_on_the_wire r rest :
  exists r', decode_response (response_text r +:+ rest) = Ok r' /\
    r' = wire_response (WriteResponse r) /\
    resp_Warnings r' <> None /\
    (resp_OK r' = resp_OK r) /\ (resp_Error r' = None <-> resp_Error r = None).
Proof.
  exists (wire_response (WriteResponse r)). split; [apply response_text_decodes|]. split; [done|].
  destruct r as [k id a o w e]. cbn. split_and!; [by destruct w|done|by destruct e].
Qed.
End wire.

(** ** Examples *)

#[local] Existing Instances plain_floats plain_errors plain_floats_laws.

(** A request with a nested payload and a byte that is no UTF-8. *)
Definition demo_wire : Request :=
  mkRequest 1 "r1" "direct" "on-run" "/p" "" "" (-5) ∅
    {["goal" := VString ("a<b" +:+ String "255" ""); "checks" := VStrings ["x"];
      "deep" := VMap {["k" := VSlice [VNil; VBool true; VFloat64 7]]}]}.

Lemma request_on_the_wire_witness :
  exists text, writeRequest demo_wire = Ok text /\ decode_request (text +:+ "tail") = Ok (wire_request demo_wire).
Proof.
  pose proof (request_on_the_wire demo_wire "tail" ltac:(vm_compute; split; discriminate)
    ltac:(vm_compute; split; discriminate) ltac:(apply Nat.leb_le; vm_compute; reflexivity)) as Hw.
  destruct (writeRequest demo_wire) as [text|e] eqn:E; [|vm_compute in E; discriminate E].
  exists text. split; [reflexivity|]. rewrite Hw. vm_compute. reflexivity.
Defined.

Definition quoted (s : string) : string := String dq (s +:+ String dq "").
(** Case does not matter, the last member of a name wins, others are ignored; a
    fraction is no version. *)
Example decode_folds :
  decode_request ("{" +:+ quoted "VERSION" +:+ ": 2," +:+ quoted "x" +:+ ":[{}]," +:+ quoted "Version" +:+ ":1 } ...")
    = Ok (mkRequest 1 "" "" "" "" "" "" 0 ∅ ∅) /\
  decode_request ("{" +:+ quoted "version" +:+ ":1.0}") = Err (errorf "invalid JSON") /\
  decode_request "null" = Ok zero_request /\ decode_request "" = Err (errorf "EOF").
Proof. vm_compute. repeat split. Qed.
