(* ===== verification/Relay.v ===== *)
(** * cmd/omg: requests that are passed on

    A hook command reads a request from its standard input and writes it to the
    daemon's socket ([hook commands] of [src/cmd/omg/main.go]). What was decoded
    once is kept by every further round trip, so the daemon handles the request
    that the host has sent. *)

From S2P Require Import Prelude GoStrings GoSort GoValue JsonText JsonPrefix Json JsonValid Protocol Wire.

Section relay.
Context `{FloatLaws} `{JsonErrors}.

(** ** Decoding keeps an invariant *)

Lemma set_members_inv {A} (P : A -> Prop) (fields : list (field A)) ms a a' :
  Forall (fun f => forall k j a a', (k, j) ∈ ms -> P a -> f.2 j a = Some a' -> P a') fields ->
  set_members fields ms a = Some a' -> P a -> P a'.
Proof.
  intros Hf. assert (forall ms', (forall m, m ∈ ms' -> m ∈ ms) -> forall a, P a ->
    set_members fields ms' a = Some a' -> P a') as Hs; [|intros Ha HP; by eapply Hs].
  induction ms' as [|[k j] ms' IH]; intros Hin b Hb; [by intros [= <-]|].
  rewrite set_members_cons. intros (b' & Hset & Hrest)%bind_Some.
  eapply IH; [intros m Hm; apply Hin; by constructor| |exact Hrest].
  revert Hset. unfold set_field. destruct (_ ≫= _) as [[name set]|] eqn:E; [|by intros [= <-]].
  apply bind_Some in E as (i & _ & Hi). pose proof (Forall_lookup_1 _ _ _ _ Hf Hi) as Hi'.
  intros Hset. eapply Hi'; [apply Hin; by constructor|exact Hb|exact Hset].
Qed.

(** A request that a round trip keeps; the values of its objects are at most [D]
    deep. *)
Section steady.
Context (D : nat).
Definition lasting_object (m : object) : Prop := map_Forall (fun k v => valid k /\ lasting D v) m.
Record steady (r : Request) : Prop := mkSteady {
  st_strings : Forall valid [req_RequestID r; req_Provider r; req_Event r; req_Project r; req_CWD r; req_SessionID r];
  st_numbers : int64 (req_Version r) /\ int64 (req_TimeoutMS r);
  st_capabilities : lasting_object (req_Capabilities r);
  st_payload : lasting_object (req_Payload r)
}.

Lemma ParseInt64_int64 t n : ParseInt64 t = Some n -> int64 n.
Proof.
  unfold ParseInt64, int64. intros (m & _ & Hm)%bind_Some. destruct (_ && _) eqn:E; [|done].
  injection Hm as <-. apply andb_prop in E as [?%Z.leb_le ?%Z.leb_le]. done.
Qed.

Lemma into_map_lasting {A} (get : A -> option object) set j a a' :
  settled (S D) j -> lasting_object (default ∅ (get a)) ->
  into_map get set j a = Some a' -> exists m, a' = set m a /\ lasting_object (default ∅ m).
Proof.
  intros Hj Ha. unfold into_map. destruct j as [| | | | |ms]; try done.
  - intros [= <-]. exists None. split; [done|]. apply map_Forall_empty.
  - intros (ms' & Hms & [= <-])%bind_Some. eexists. split; [done|]. cbn [default].
    apply read_members_Forall; [done|]. apply settled_obj_inv in Hj. eapply members_lasting; [|exact Hj|exact Hms].
    apply Forall_forall. intros m _ d v. apply value_of_lasting.
Qed.

(** A setter of a string, a number or an object keeps a request steady. *)
Definition keeps_steady (ms : list (string * json)) (set : setter Request) : Prop :=
  forall k j a a', (k, j) ∈ ms -> steady a -> set j a = Some a' -> steady a'.

Section setters.
Context (ms : list (string * json)) (Hms : forall k j, (k, j) ∈ ms -> settled (S D) j).

Lemma into_string_steady set :
  (forall x a, valid x -> steady a -> steady (set x a)) -> keeps_steady ms (into_string set).
Proof.
  intros Hset k j a a' Hin%Hms Ha. destruct j; try done; [by intros [= <-]|].
  intros [= <-]. apply Hset; [|done]. by destruct Hin as [[= ?] _].
Qed.
Lemma into_int_steady set :
  (forall n a, int64 n -> steady a -> steady (set n a)) -> keeps_steady ms (into_int set).
Proof.
  intros Hset k j a a' Hin%Hms Ha. destruct j; try done; [by intros [= <-]|].
  cbn. intros (n & Hn%ParseInt64_int64 & ->)%fmap_Some. by apply Hset.
Qed.
Lemma into_object_steady get set :
  (forall a, steady a -> lasting_object (get a)) ->
  (forall m a, lasting_object m -> steady a -> steady (set m a)) -> keeps_steady ms (into_object get set).
Proof.
  intros Hget Hset k j a a' Hin%Hms Ha. unfold into_object.
  intros (m & -> & Hm)%into_map_lasting; [|done|by apply Hget]. by apply Hset.
Qed.
End setters.

Lemma set_request_steady ms r r' :
  Forall (fun m => valid m.1 /\ settled (S D) m.2) ms ->
  set_members request_fields ms r = Some r' -> steady r -> steady r'.
Proof.
  intros Hj. apply set_members_inv.
  assert (forall k j, (k, j) ∈ ms -> settled (S D) j) as Hms
    by (intros k j Hk; rewrite Forall_forall in Hj; by apply Hj in Hk as [_ ?]). clear Hj.
  unfold request_fields. repeat (apply Forall_cons_2; [|]); [..|constructor]; cbn [snd];
    first [ apply (into_string_steady ms Hms); intros x [] Hx [Hs Hn Hc Hp]
          | apply (into_int_steady ms Hms); intros n [] Hn' [Hs Hn Hc Hp]
          | apply (into_object_steady ms Hms); [by intros [] []|intros m [] Hm [Hs Hn Hc Hp]] ];
    cbn in *; decompose_Forall_hyps; (split; [by repeat constructor|by destruct_and!|done|done]).
Qed.
End steady.

Lemma max_depth_split : exists D, max_depth = S (S D).
Proof. exists (Nat.pred (Nat.pred max_depth)). vm_compute. reflexivity. Qed.

Lemma decode_steady s r : decode_request s = Ok r -> exists D, max_depth = S (S D) /\ steady D r.
Proof.
  unfold decode_request, Decode, parse. destruct max_depth_split as [D ED]. rewrite ED.
  destruct (parse_value _ s) as [[j rest]|] eqn:Ej; [|done]. apply parse_value_settled in Ej.
  cbn [mbind option_bind]. destruct (into_struct request_fields j zero_request) as [r'|] eqn:Hr; [|done].
  intros [= ->]. exists D. split; [done|].
  assert (steady D zero_request) as Hz by (by split; [repeat constructor|..]).
  destruct j as [| | | | |ms]; try done; cbn [into_struct] in Hr; [by injection Hr as <-|].
  apply settled_obj_inv in Ej. by eapply set_request_steady.
Qed.

(** ** The request that is passed on *)

Section passed_on.
Context (D : nat) (r : Request) (Hr : steady D r).

Lemma steady_wire : wire_request r = r.
Proof.
  destruct Hr as [Hs _ Hc Hp]. clear Hr. destruct r as [v id p e pr c s t ca pa]. cbn in Hs, Hc, Hp.
  unfold valid in Hs. decompose_Forall_hyps. unfold wire_request.
  cbn [req_Version req_RequestID req_Provider req_Event req_Project req_CWD req_SessionID req_TimeoutMS
    req_Capabilities req_Payload].
  assert (forall m, lasting_object D m -> wire_object m = m) as Ho.
  { intros m Hm%lasting_map. destruct Hm as ([= Hm] & _ & _). by unfold wire_object. }
  rewrite (Ho ca), (Ho pa) by done. by f_equal.
Qed.

Lemma steady_encodable : encodable r = true.
Proof.
  destruct Hr as [_ _ Hc%lasting_map Hp%lasting_map]. unfold encodable.
  destruct Hc as (_ & -> & _), Hp as (_ & -> & _). done.
Qed.

Lemma steady_depth : depth (JObj (request_members r)) <= S (S D).
Proof.
  destruct Hr as [_ _ Hc%lasting_map Hp%lasting_map].
  apply depth_obj. unfold request_members.
  assert (forall x, depth (JStr x) <= S D) by (intros; cbn; lia).
  assert (forall x, depth (JNum x) <= S D) by (intros; cbn; lia).
  repeat apply Forall_app_2; try apply unless_empty_Forall; cbn [snd];
    first [ by destruct Hc as (_ & _ & ?) | by destruct Hp as (_ & _ & ?)
          | repeat (apply Forall_cons_2; [cbn [snd]; auto|]); auto ].
Qed.
End passed_on.

(** What a hook command passes on is what it was given: the text that it writes of
    a request it has read is decoded by the daemon, whatever follows it, to that
    very request. *)
Lemma passed_on s req rest :
  decode_request s = Ok req ->
  exists text, writeRequest req = Ok text /\ decode_request (text +:+ rest) = Ok req.
Proof.
  intros (D & ED & Hr)%decode_steady. pose proof (steady_encodable D req Hr) as He.
  pose proof (steady_depth D req Hr) as Hd. rewrite <- ED in Hd.
  exists (print (JObj (request_members req)) +:+ nl). unfold writeRequest, request_text. rewrite He. split; [done|].
  rewrite str_app_assoc, request_text_decodes; [by rewrite (steady_wire D req Hr)|apply Hr..|done|done].
Qed.

(** Of a request that is passed on, a daemon that gets only a part decodes either
    nothing or that request. *)
Lemma passed_on_part s req text n :
  decode_request s = Ok req -> writeRequest req = Ok text ->
  decode_request (str_take n text) = Ok req \/ exists err, decode_request (str_take n text) = Err err.
Proof.
  intros Hs Et. destruct (decode_request (str_take n text)) as [req'|err] eqn:E; [left|right; by eexists].
  destruct (passed_on s req "" Hs) as (text' & Et' & Ht). rewrite Et in Et'. injection Et' as <-.
  rewrite str_app_nil_r in Ht. rewrite <- Ht. revert E. unfold decode_request, Decode.
  destruct (parse (str_take n text)) as [[j r]|] eqn:Ep; [|done].
  rewrite (parse_part text n j r); [|revert Et|exact Ep].
  - cbn [mbind option_bind]. by destruct (into_struct _ _ _).
  - unfold writeRequest, request_text. destruct (encodable req); [|done]. by intros [= <-].
Qed.
End relay.
