(* ===== verification/Route.v ===== *)
(** * internal/route: from a prompt to an agent and a procedure

    [src/internal/route/route.go]: trigger terms of the registered agents are
    searched in the lower-cased prompt; the matches are sorted and the best one
    decides. Scores are 32-bit floats, computed with [SpecFloat]. *)

From S2P Require Import Prelude GoStrings GoSort GoValue Config Registry.
From Stdlib Require Import SpecFloat.

(** ** Data *)

Definition ProcedureInterview := "interview".
Definition ProcedurePlan := "plan".
Definition ProcedureExecute := "execute".
Definition ProcedureReview := "review".
Definition ProcedureVerify := "verify".
Definition ProcedureCancel := "cancel".
Definition ProcedureNone := "none".

Definition ConfidenceLow := "low".
Definition ConfidenceMedium := "medium".
Definition ConfidenceHigh := "high".

Abbreviation float32 := spec_float.

Record RouteResult := mkRoute {
  rt_Procedure : string;
  rt_Domain : string;
  rt_Agent : string;
  rt_Confidence : string;
  rt_Score : option float32;
  rt_Reasons : list string;
  rt_Triggers : list string;
  rt_RequiresUser : bool
}.

Record match_ := mkMatch {
  m_agent : Agent;
  m_trigger : Trigger;
  m_matched : list string;
  m_priority : Z;
  m_matchCount : Z;
  m_weak : bool
}.

Section tables.
Context `{UnicodeTables}.

(** ** Terms *)

Definition is_separator (c : ascii) : bool :=
  existsb (Ascii.eqb c) ["|"; ","; ";"; "010"; "009"]%char.

Definition triggerTerms (pattern : string) : list string :=
  List.filter (fun term => term <>s "") (map TrimSpace (FieldsFunc (ToLower pattern) is_separator)).

Definition matchedTerms (text : string) (terms : list string) : list string :=
  List.filter (Contains text) terms.

Definition weakMatch (text : string) (matched : list string) : bool :=
  match matched with
  | [term] => Contains text ("maybe " +:+ term) || Contains text (term +:+ "?")
  | _ => false
  end.

Definition containsAny (text : string) (terms : list string) : bool :=
  existsb (Contains text) terms.

(** The Korean terms are the bytes of the source's UTF-8 literals. *)
Definition procedureFor (text : string) : string :=
  if containsAny text ["cancel"; "stop"; "abort"; "취소"; "중단"] then ProcedureCancel
  else if containsAny text ["interview"; "clarify"; "question"; "모호"; "질문"; "인터뷰"]
  then ProcedureInterview
  else if containsAny text ["plan"; "roadmap"; "spec"; "계획"; "설계"] then ProcedurePlan
  else if containsAny text ["review"; "audit"; "inspect"; "검토"; "리뷰"] then ProcedureReview
  else if containsAny text ["verify"; "test"; "validate"; "검증"; "테스트"] then ProcedureVerify
  else if containsAny text ["implement"; "build"; "create"; "fix"; "add"; "구현"; "수정"; "추가"]
  then ProcedureExecute
  else ProcedureNone.

(** ** Matches *)

Definition trigger_match (text : string) (agent : Agent) (trigger : Trigger) : list match_ :=
  match matchedTerms text (triggerTerms (tr_Pattern trigger)) with
  | [] => []
  | matched => [mkMatch agent trigger matched (tr_Priority trigger) (Z.of_nat (length matched))
                  (weakMatch text matched)]
  end.

Definition agent_matches (text : string) (agents : gmap string Agent) (name : string)
    : list match_ :=
  let agent := default zero_regagent (agents !! name) in
  concat (map (trigger_match text agent) (elems (agt_Triggers agent))).

Definition all_matches (text : string) (reg : Registry) : list match_ :=
  concat (map (agent_matches text (reg_Agents reg)) (sortedAgentNames (reg_Agents reg))).

(** More terms first, then the higher priority, then the agent's name. *)
Definition match_less : match_ -> match_ -> bool :=
  then_less (key_less (fun m => (- m_matchCount m)%Z))
    (then_less (key_less (fun m => (- m_priority m)%Z))
       (key_str_less (fun m => agt_Name (m_agent m)))).

Definition findMatches (text : string) (reg : Registry) : list match_ :=
  stable_sort match_less (all_matches text reg).

(** ** Confidence and score *)

Definition confidenceFor (m : match_) : string :=
  if (2 <=? m_matchCount m)%Z then ConfidenceHigh
  else if m_weak m then ConfidenceLow
  else ConfidenceMedium.

(** binary32: 24 bits of precision, exponents up to 128 *)
Definition f32_of_Z (z : Z) : float32 := binary_normalize 24 128 z 0 false.
Definition f32_half : float32 := binary_normalize 24 128 1 (-1) false.

Definition scoreFor (m : match_) : float32 :=
  let score := f32_of_Z (m_matchCount m) in
  let score := if (0 <? m_priority m)%Z
               then SFadd 24 128 score (SFdiv 24 128 (f32_of_Z (m_priority m)) (f32_of_Z 100))
               else score in
  if m_weak m then SFmul 24 128 score f32_half else score.

(** ** Route *)

Definition no_route : RouteResult :=
  mkRoute ProcedureNone "" "" ConfidenceLow None ["no trigger match"] [] false.

Definition route_to (text : string) (best : match_) : RouteResult :=
  let confidence := confidenceFor best in
  let procedure := procedureFor text in
  mkRoute (if procedure =s ProcedureNone then ProcedureExecute else procedure)
    (tr_Domain (m_trigger best)) (agt_Name (m_agent best)) confidence (Some (scoreFor best))
    ["matched registry trigger for agent " +:+ agt_Name (m_agent best)] (m_matched best)
    ((agt_Autonomy (m_agent best) =s "cautious") && (confidence =s ConfidenceLow)).

Definition Route (input : string) (reg : Registry) : RouteResult :=
  let text := ToLower input in
  match findMatches text reg with
  | [] => no_route
  | best :: _ => route_to text best
  end.

(** ** Specification *)

(** A trigger of a registered agent that the text hits. *)
Definition hit (text : string) (reg : Registry) (agent : Agent) (trigger : Trigger) : Prop :=
  (exists name, reg_Agents reg !! name = Some agent) /\
  trigger ∈ elems (agt_Triggers agent) /\
  exists term, term ∈ triggerTerms (tr_Pattern trigger) /\ Contains text term = true.

(** How many of a trigger's terms the text contains. *)
Definition hits (text : string) (trigger : Trigger) : Z :=
  Z.of_nat (length (matchedTerms text (triggerTerms (tr_Pattern trigger)))).

(** [(n1, p1, name1)] is at least as good as [(n2, p2, name2)]. *)
Definition no_worse (n1 p1 : Z) (name1 : string) (n2 p2 : Z) (name2 : string) : Prop :=
  (n1 > n2)%Z \/ n1 = n2 /\ ((p1 > p2)%Z \/ p1 = p2 /\ str_less name2 name1 = false).

Lemma trigger_match_spec text agent trigger m :
  m ∈ trigger_match text agent trigger <->
  matchedTerms text (triggerTerms (tr_Pattern trigger)) <> [] /\
  m = mkMatch agent trigger (matchedTerms text (triggerTerms (tr_Pattern trigger)))
        (tr_Priority trigger) (hits text trigger)
        (weakMatch text (matchedTerms text (triggerTerms (tr_Pattern trigger)))).
Proof.
  unfold trigger_match, hits. destruct (matchedTerms _ _) as [|t ts].
  - split; [intros Hx; inversion Hx | by intros [? _]].
  - rewrite list_elem_of_singleton. naive_solver.
Qed.

Lemma matched_nonempty text terms :
  matchedTerms text terms <> [] <-> exists term, term ∈ terms /\ Contains text term = true.
Proof.
  unfold matchedTerms. split.
  - destruct (List.filter _ _) as [|t ts] eqn:E; [done|]. intros _. exists t.
    assert (In t (List.filter (Contains text) terms)) as Hin by (rewrite E; by left).
    apply List.filter_In in Hin as [Hin Hc]. by apply list_elem_of_In in Hin.
  - intros (t & Hin & Hc) E.
    assert (In t (List.filter (Contains text) terms)) as Hx
      by (apply List.filter_In; split; [by apply list_elem_of_In | done]).
    rewrite E in Hx. done.
Qed.

Lemma elem_of_concat_map {A B} (f : A -> list B) l x :
  x ∈ concat (map f l) <-> exists a, a ∈ l /\ x ∈ f a.
Proof.
  rewrite list_elem_of_In, in_concat. split.
  - intros (y & Hy & Hx). apply in_map_iff in Hy as (a & <- & Ha).
    exists a. by rewrite !list_elem_of_In.
  - intros (a & Ha & Hx). exists (f a). rewrite <- !list_elem_of_In. split; [|done].
    apply list_elem_of_In, in_map. by apply list_elem_of_In.
Qed.

Lemma all_matches_spec text reg m :
  m ∈ all_matches text reg <->
  hit text reg (m_agent m) (m_trigger m) /\
  m = mkMatch (m_agent m) (m_trigger m)
        (matchedTerms text (triggerTerms (tr_Pattern (m_trigger m))))
        (tr_Priority (m_trigger m)) (hits text (m_trigger m))
        (weakMatch text (matchedTerms text (triggerTerms (tr_Pattern (m_trigger m))))).
Proof.
  unfold all_matches, hit. rewrite elem_of_concat_map. split.
  - intros (name & Hn & Hm). apply sorted_keys_elem in Hn as [a Ha].
    unfold agent_matches in Hm. rewrite Ha in Hm. change (default _ (Some a)) with a in Hm.
    apply elem_of_concat_map in Hm as (tr & Htr & Hm).
    apply trigger_match_spec in Hm as [Hne ->]. cbn. rewrite matched_nonempty in Hne. eauto 10.
  - intros ([[name Hn] [Htr Hterm]] & ->). exists name. split; [apply sorted_keys_elem; eauto|].
    unfold agent_matches. cbn [m_agent]. cbn [m_agent m_trigger] in *. rewrite Hn.
    change (default _ (Some ?a)) with a. apply elem_of_concat_map. exists (m_trigger m).
    split; [done|]. apply trigger_match_spec. by rewrite matched_nonempty.
Qed.

Lemma match_less_no_worse m1 m2 :
  match_less m2 m1 = false ->
  no_worse (m_matchCount m1) (m_priority m1) (agt_Name (m_agent m1))
           (m_matchCount m2) (m_priority m2) (agt_Name (m_agent m2)).
Proof.
  unfold match_less, then_less, key_less, key_str_less, no_worse.
  repeat match goal with |- context [(?a <? ?b)%Z] => destruct (Z.ltb_spec a b) end;
    try done; intros; try lia.
  all: right; split; [lia|].
  all: first [left; lia | right; split; [lia | done]].
Qed.

(** Routing picks a registered agent's trigger that the prompt hits, and no
    other hit has more matching terms, or as many and a higher priority, or the
    same of both and an agent with a smaller name; what it reports are the terms
    of that trigger found in the lower-cased prompt. Without any hit there is no
    agent, and a user is asked only for a cautious agent with low confidence. *)
Theorem Route_best input reg :
  let text := ToLower input in
  let r := Route input reg in
  ((forall agent trigger, ~ hit text reg agent trigger) /\ r = no_route) \/
  exists agent trigger,
    hit text reg agent trigger /\
    rt_Agent r = agt_Name agent /\ rt_Domain r = tr_Domain trigger /\
    rt_Triggers r = matchedTerms text (triggerTerms (tr_Pattern trigger)) /\
    rt_Procedure r <> ProcedureNone /\
    (rt_Confidence r = ConfidenceHigh <-> (2 <= hits text trigger)%Z) /\
    (rt_RequiresUser r = true <->
       agt_Autonomy agent = "cautious" /\ rt_Confidence r = ConfidenceLow) /\
    forall agent' trigger', hit text reg agent' trigger' ->
      no_worse (hits text trigger) (tr_Priority trigger) (agt_Name agent)
               (hits text trigger') (tr_Priority trigger') (agt_Name agent').
Proof.
  cbv zeta. unfold Route, findMatches.
  destruct (stable_sort match_less (all_matches (ToLower input) reg)) as [|best rest] eqn:E.
  - left. split; [|done]. intros a t Hhit.
    assert (mkMatch a t (matchedTerms (ToLower input) (triggerTerms (tr_Pattern t))) (tr_Priority t)
      (hits (ToLower input) t) (weakMatch (ToLower input) (matchedTerms (ToLower input)
      (triggerTerms (tr_Pattern t)))) ∈ all_matches (ToLower input) reg) as Hin
      by by apply all_matches_spec.
    apply (stable_sort_elem match_less) in Hin. rewrite E in Hin. inversion Hin.
  - right. exists (m_agent best), (m_trigger best).
    assert (best ∈ all_matches (ToLower input) reg) as Hin
      by (apply (stable_sort_elem match_less); rewrite E; left).
    apply all_matches_spec in Hin as [Hhit Hbest].
    assert (m_matchCount best = hits (ToLower input) (m_trigger best)) as Hc by by rewrite Hbest.
    assert (m_matched best = matchedTerms (ToLower input)
      (triggerTerms (tr_Pattern (m_trigger best)))) as Hm by by rewrite Hbest.
    assert (m_priority best = tr_Priority (m_trigger best)) as Hp by by rewrite Hbest.
    unfold route_to. cbn. split_and!; try done.
    + destruct (procedureFor _ =s ProcedureNone) eqn:Ep; by str_simpl.
    + unfold confidenceFor. rewrite Hc. destruct (Z.leb_spec 2 (hits (ToLower input) (m_trigger best)));
        [by split; [lia|] |]. destruct (m_weak best); split; (done || lia).
    + by rewrite andb_true_iff, !eqb_true.
    + intros a' t' Hhit'.
      set (m' := mkMatch a' t' (matchedTerms (ToLower input) (triggerTerms (tr_Pattern t')))
        (tr_Priority t') (hits (ToLower input) t') (weakMatch (ToLower input)
        (matchedTerms (ToLower input) (triggerTerms (tr_Pattern t'))))).
      assert (m' ∈ all_matches (ToLower input) reg) as Hin' by by apply all_matches_spec.
      rewrite <- Hc, <- Hp. apply (match_less_no_worse best m').
      by eapply (stable_sort_head match_less).
Qed.
End tables.
