(* ===== verification/Prompt.v ===== *)
(** * internal/prompt: the system prompt and its token budget

    [src/internal/prompt/prompt.go]: optional sections are dropped, lowest priority
    first, until the prompt fits; [section.go]: dynamic sections, built in order of
    priority. Tokens are counted as whitespace-separated fields. *)

From S2P Require Import Prelude GoStrings GoSort GoValue GoTime.

(** ** Data *)

Record ModelInfo := mkModelInfo { mi_Model : string; mi_Family : string }.
Record ProjectContext := mkProjectContext { pc_Rules : string }.
Record TokenBudget := mkTokenBudget { tb_MaxTokens : Z }.

Record SectionSpec := mkSectionSpec {
  ss_Name : string;
  ss_Source : string;
  ss_Content : string;
  ss_Required : bool;
  ss_Priority : Z
}.

Record PromptSection := mkPromptSection {
  ps_Name : string;
  ps_Source : string;
  ps_Tokens : Z;
  ps_Required : bool;
  ps_Priority : Z
}.

Record BuildPromptOutput := mkBuildPromptOutput {
  bo_SystemPrompt : string;
  bo_Sections : list PromptSection;
  bo_OmittedSections : list PromptSection;
  bo_Warnings : list string;
  bo_TokenEstimate : Z
}.

Definition estimateTokens (content : string) : Z := Z.of_nat (length (Fields content)).

Definition totalTokens (sections : list SectionSpec) : Z :=
  foldl (fun total s => total + estimateTokens (ss_Content s))%Z 0%Z sections.

Definition metadataFor (s : SectionSpec) : PromptSection :=
  mkPromptSection (ss_Name s) (ss_Source s) (estimateTokens (ss_Content s)) (ss_Required s)
    (ss_Priority s).

(** ** Selection *)

(** The indices of the optional sections, in order. *)
Fixpoint optional_indices (i : nat) (sections : list SectionSpec) : list nat :=
  match sections with
  | [] => []
  | s :: rest => if ss_Required s then optional_indices (S i) rest
                 else i :: optional_indices (S i) rest
  end.

Definition priority_at (sections : list SectionSpec) (i : nat) : Z :=
  default 0%Z (ss_Priority <$> sections !! i).

Definition index_less (sections : list SectionSpec) : nat -> nat -> bool :=
  then_less (key_less (priority_at sections)) (key_less Z.of_nat).

(** [None] is the source's -1. *)
Definition lowestPriorityOptionalIndex (sections : list SectionSpec) : option nat :=
  head (stable_sort (index_less sections) (optional_indices 0 sections)).

Definition budget_error (what : string) (got max : Z) : error :=
  errorf ("required section token budget exceeded: " +:+ what +:+ "=" +:+ Itoa got +:+ " max="
          +:+ Itoa max).

Section tables.
Context `{UnicodeTables}.

Record Selection := mkSelection {
  sel_selected : list SectionSpec;
  sel_omitted : list PromptSection;
  sel_warnings : list string
}.

(** The loop over the selected sections: every turn removes one, so the number
    of sections is fuel enough ([None] is never reached). *)
Fixpoint drop_loop (fuel : nat) (maxTokens : Z) (sel : Selection) : option (result Selection) :=
  if negb (maxTokens <? totalTokens (sel_selected sel))%Z then Some (Ok sel)
  else match fuel with
  | O => None
  | S fuel =>
      match lowestPriorityOptionalIndex (sel_selected sel) with
      | None => Some (Err (budget_error "total" (totalTokens (sel_selected sel)) maxTokens))
      | Some idx =>
          match sel_selected sel !! idx with
          | None => Some (Err (errorf "index out of range"))
          | Some section =>
              drop_loop fuel maxTokens
                (mkSelection (delete idx (sel_selected sel))
                   (sel_omitted sel ++ [metadataFor section])
                   (sel_warnings sel ++ ["omitted optional section " +:+ Quote (ss_Name section)
                                         +:+ " due to token budget"]))
          end
      end
  end.

Definition requiredTokens (sections : list SectionSpec) : Z :=
  foldl (fun total s => if ss_Required s then total + estimateTokens (ss_Content s) else total)%Z
    0%Z sections.

Definition selectSections (sections : list SectionSpec) (budget : TokenBudget)
    : option (result Selection) :=
  let maxTokens := tb_MaxTokens budget in
  if (maxTokens <=? 0)%Z then Some (Ok (mkSelection sections [] []))
  else if (maxTokens <? requiredTokens sections)%Z then
    Some (Err (budget_error "required" (requiredTokens sections) maxTokens))
  else drop_loop (length sections) maxTokens (mkSelection sections [] []).

Definition nonblank (s : SectionSpec) : bool := TrimSpace (ss_Content s) <>s "".

Definition BuildPrompt (sections : list SectionSpec) (budget : TokenBudget)
    : option (result BuildPromptOutput) :=
  match selectSections sections budget with
  | None => None
  | Some (Err err) => Some (Err err)
  | Some (Ok sel) =>
      let kept := List.filter nonblank (sel_selected sel) in
      let meta := map metadataFor kept in
      Some (Ok (mkBuildPromptOutput
        (Join (map (fun s => TrimSpace (ss_Content s)) kept) (String "010" (String "010" "")))
        meta (sel_omitted sel) (sel_warnings sel)
        (foldl (fun total m => total + ps_Tokens m)%Z 0%Z meta)))
  end.

(** ** Dynamic sections *)

(** The [Section] interface; [In] is [DynamicInput]. *)
Record DynSection (In : Type) := mkDynSection {
  dyn_Name : string;
  dyn_Priority : Z;
  dyn_Build : context -> In -> result string
}.
Arguments dyn_Name {In} _.
Arguments dyn_Priority {In} _.
Arguments dyn_Build {In} _ _ _.

Definition StaticSection {In} (name : string) (priority : Z) (content : string) : DynSection In :=
  mkDynSection In name priority (fun _ _ => Ok content).
Definition FuncSection {In} (name : string) (priority : Z) (fn : context -> In -> result string)
    : DynSection In := mkDynSection In name priority fn.

Record DynamicOutput := mkDynamicOutput { do_SystemPrompt : string; do_Warnings : list string }.

Definition build_dynamic_step {In} (ctx : context) (input : In)
    (acc : list string * list string) (sec : DynSection In) : list string * list string :=
  let '(parts, warnings) := acc in
  match dyn_Build sec ctx input with
  | Err err => (parts, warnings ++ ["section " +:+ dyn_Name sec +:+ ": " +:+ Error err])
  | Ok content =>
      let content := TrimSpace content in
      if content <>s "" then (parts ++ [content], warnings) else (parts, warnings)
  end.

Definition sort_sections {In} (sections : list (DynSection In)) : list (DynSection In) :=
  stable_sort (key_less dyn_Priority) sections.

(** It never fails: the error of the source's signature is always nil. *)
Definition BuildDynamic {In} (ctx : context) (sections : list (DynSection In)) (input : In)
    : DynamicOutput :=
  let '(parts, warnings) := foldl (build_dynamic_step ctx input) ([], []) (sort_sections sections) in
  mkDynamicOutput (Join parts (String "010" (String "010" ""))) warnings.

(** ** Lemmas *)

Lemma sum_from {A} (f : A -> Z) l n m :
  foldl (fun total x => total + f x)%Z (n + m)%Z l = (n + foldl (fun total x => total + f x) m l)%Z.
Proof.
  revert m. induction l as [|x l IH]; intros m; simpl; [done|].
  rewrite <- Z.add_assoc. apply IH.
Qed.

Lemma totalTokens_cons s rest :
  totalTokens (s :: rest) = (estimateTokens (ss_Content s) + totalTokens rest)%Z.
Proof.
  unfold totalTokens. cbn [foldl]. rewrite <- (Z.add_comm (estimateTokens _) 0).
  apply (sum_from (fun s => estimateTokens (ss_Content s))).
Qed.

Lemma requiredTokens_total sections :
  requiredTokens sections = totalTokens (List.filter ss_Required sections).
Proof.
  unfold requiredTokens. assert (forall n,
    foldl (fun total s => if ss_Required s then total + estimateTokens (ss_Content s) else total)%Z
      n sections = (n + totalTokens (List.filter ss_Required sections))%Z) as Hn.
  { induction sections as [|s rest IH]; intros n; simpl; [cbn; lia|].
    rewrite IH. destruct (ss_Required s); [rewrite totalTokens_cons|]; lia. }
  rewrite Hn. lia.
Qed.

Lemma estimateTokens_nonneg c : (0 <= estimateTokens c)%Z.
Proof. unfold estimateTokens. lia. Qed.

Lemma totalTokens_nonneg l : (0 <= totalTokens l)%Z.
Proof.
  induction l as [|s l IH]; [done|]. rewrite totalTokens_cons.
  pose proof (estimateTokens_nonneg (ss_Content s)). lia.
Qed.

Lemma optional_indices_spec i sections k :
  k ∈ optional_indices i sections <->
  exists s, (i <= k)%nat /\ sections !! (k - i)%nat = Some s /\ ss_Required s = false.
Proof.
  revert i. induction sections as [|s rest IH]; intros i; simpl.
  { split; [intros Hx; inversion Hx | intros (? & _ & Hx & _); by rewrite lookup_nil in Hx]. }
  assert (k ∈ optional_indices (S i) rest <->
    exists s', (i < k)%nat /\ (s :: rest) !! (k - i)%nat = Some s' /\ ss_Required s' = false) as Hrest.
  { rewrite IH. split; intros (s' & Hle & Hl & Hr); exists s'; (split; [lia|]); split; try done.
    - destruct (k - i)%nat as [|j] eqn:Ej; [lia|]. simpl. by replace j with (k - S i)%nat by lia.
    - destruct (k - i)%nat as [|j] eqn:Ej; [lia|]. simpl in Hl.
      by replace (k - S i)%nat with j by lia. }
  destruct (ss_Required s) eqn:Er.
  - rewrite Hrest. split; intros (s' & Hle & Hl & Hr); exists s'; (split; [|done]); [lia|].
    destruct (decide (k = i)) as [->|]; [|lia]. rewrite Nat.sub_diag in Hl. simpl in Hl. congruence.
  - rewrite elem_of_cons, Hrest. split.
    + intros [->|(s' & Hle & Hl & Hr)]; [|exists s'; split; [lia|done]].
      exists s. by rewrite Nat.sub_diag.
    + intros (s' & Hle & Hl & Hr). destruct (decide (k = i)) as [->|]; [by left|].
      right. exists s'. split; [lia|done].
Qed.

#[local] Instance index_less_weak sections : StrictWeak (index_less sections).
Proof. unfold index_less. apply _. Qed.

(** The section the loop drops: optional, and none of the optional ones has a
    lower priority. *)
Lemma lowest_spec sections :
  match lowestPriorityOptionalIndex sections with
  | None => Forall (fun s => ss_Required s = true) sections
  | Some idx => exists s, sections !! idx = Some s /\ ss_Required s = false /\
      forall s', s' ∈ sections -> ss_Required s' = false -> (ss_Priority s <= ss_Priority s')%Z
  end.
Proof.
  unfold lowestPriorityOptionalIndex.
  destruct (stable_sort _ _) as [|idx rest] eqn:E; simpl.
  - apply Forall_lookup. intros i s Hs. destruct (ss_Required s) eqn:Er; [done|].
    assert (i ∈ optional_indices 0 sections) as Hin.
    { apply optional_indices_spec. exists s. rewrite Nat.sub_0_r. split; [lia|done]. }
    apply (stable_sort_elem (index_less sections)) in Hin. rewrite E in Hin. inversion Hin.
  - assert (idx ∈ optional_indices 0 sections) as Hin
      by (apply (stable_sort_elem (index_less sections)); rewrite E; left).
    apply optional_indices_spec in Hin as (s & _ & Hs & Hr). rewrite Nat.sub_0_r in Hs.
    exists s. split; [done|]. split; [done|]. intros s' Hs' Hr'.
    apply list_elem_of_lookup in Hs' as [j Hj].
    assert (j ∈ optional_indices 0 sections) as Hjin.
    { apply optional_indices_spec. exists s'. rewrite Nat.sub_0_r. split; [lia|done]. }
    pose proof (stable_sort_head (index_less sections) _ _ _ E j Hjin) as Hless.
    unfold index_less, then_less, key_less, priority_at in Hless. rewrite Hj, Hs in Hless.
    simpl in Hless. destruct (Z.ltb_spec (ss_Priority s') (ss_Priority s)); [done | lia].
Qed.

Lemma delete_filter_required idx (sections : list SectionSpec) s :
  sections !! idx = Some s -> ss_Required s = false ->
  List.filter ss_Required (delete idx sections) = List.filter ss_Required sections.
Proof.
  revert idx. induction sections as [|x rest IH]; intros [|idx] Hl Hr; try done; simpl in *.
  - injection Hl as ->. by rewrite Hr.
  - by rewrite (IH idx).
Qed.

Lemma delete_total idx (sections : list SectionSpec) s :
  sections !! idx = Some s ->
  totalTokens sections = (estimateTokens (ss_Content s) + totalTokens (delete idx sections))%Z.
Proof.
  revert idx. induction sections as [|x rest IH]; intros [|idx] Hl; try done; simpl in *.
  - injection Hl as ->. by rewrite totalTokens_cons.
  - rewrite !totalTokens_cons, (IH idx) by done. lia.
Qed.

(** What a (partial) selection keeps of the sections it started from. *)
Record selection_of (sections : list SectionSpec) (sel : Selection) (dropped : list SectionSpec)
    : Prop := {
  so_sublist : sublist (sel_selected sel) sections;
  so_perm : sections ≡ₚ sel_selected sel ++ dropped;
  so_optional : Forall (fun s => ss_Required s = false) dropped;
  so_required : List.filter ss_Required (sel_selected sel) = List.filter ss_Required sections;
  so_omitted : sel_omitted sel = map metadataFor dropped;
  so_warnings : length (sel_warnings sel) = length dropped;
  so_priority : forall d s, d ∈ dropped -> s ∈ sel_selected sel -> ss_Required s = false ->
    (ss_Priority d <= ss_Priority s)%Z
}.

Lemma selection_step sections sel dropped idx s w :
  selection_of sections sel dropped ->
  sel_selected sel !! idx = Some s -> ss_Required s = false ->
  (forall s', s' ∈ sel_selected sel -> ss_Required s' = false -> (ss_Priority s <= ss_Priority s')%Z) ->
  selection_of sections
    (mkSelection (delete idx (sel_selected sel)) (sel_omitted sel ++ [metadataFor s])
       (sel_warnings sel ++ [w])) (dropped ++ [s]).
Proof.
  intros [Hsub Hperm Hopt Hreq Hom Hw Hpri] Hl Hr Hlow.
  assert (s ∈ sel_selected sel) as Hin by by eapply list_elem_of_lookup_2.
  assert (sel_selected sel ≡ₚ s :: delete idx (sel_selected sel)) as Hdel
    by by apply delete_Permutation.
  split; cbn.
  - etransitivity; [apply sublist_delete | done].
  - rewrite Hperm, Hdel at 1. rewrite (Permutation_app_comm dropped [s]).
    simpl. by rewrite Permutation_middle.
  - apply Forall_app. split; [done|]. by constructor.
  - by rewrite (delete_filter_required _ _ s).
  - by rewrite Hom, map_app.
  - rewrite !length_app, Hw. done.
  - intros d s' [Hd| ->%list_elem_of_singleton]%elem_of_app Hs' Hr'.
    + apply Hpri; try done. rewrite Hdel. by right.
    + apply Hlow; [|done]. rewrite Hdel. by right.
Qed.

Lemma filter_all (l : list SectionSpec) :
  Forall (fun s => ss_Required s = true) l -> List.filter ss_Required l = l.
Proof. induction 1 as [|s l Hs _ IH]; simpl; [done|]. by rewrite Hs, IH. Qed.

Lemma drop_loop_spec sections fuel max sel dropped :
  selection_of sections sel dropped -> (length (sel_selected sel) <= fuel)%nat ->
  (requiredTokens sections <= max)%Z -> (0 <= max)%Z ->
  exists sel' dropped', drop_loop fuel max sel = Some (Ok sel') /\
    selection_of sections sel' dropped' /\ (totalTokens (sel_selected sel') <= max)%Z /\
    ((dropped' = dropped /\ sel' = sel) \/ exists before last, dropped' = before ++ [last] /\
       (max < totalTokens (sel_selected sel') + estimateTokens (ss_Content last))%Z).
Proof.
  intros Hsel Hf Hreq Hmax. revert sel dropped Hsel Hf.
  induction fuel as [|fuel IH]; intros sel dropped Hsel Hf; simpl.
  - destruct (sel_selected sel) as [|] eqn:E; [|simpl in Hf; lia].
    change (totalTokens []) with 0%Z. destruct (Z.ltb_spec max 0); [lia|]. simpl.
    exists sel, dropped. rewrite E. split_and!; [done | done | done | by left].
  - destruct (Z.ltb_spec max (totalTokens (sel_selected sel))) as [Hlt|Hge]; simpl.
    2: { exists sel, dropped. split_and!; [done | done | done | by left]. }
    pose proof (lowest_spec (sel_selected sel)) as Hlow.
    destruct (lowestPriorityOptionalIndex (sel_selected sel)) as [idx|].
    + destruct Hlow as (s & Hl & Hr & Hlow). rewrite Hl.
      destruct (IH (mkSelection (delete idx (sel_selected sel)) (sel_omitted sel ++ [metadataFor s])
        (sel_warnings sel ++ ["omitted optional section " +:+ Quote (ss_Name s) +:+
          " due to token budget"])) (dropped ++ [s]))
        as (sel' & dropped' & E & Hs' & Ht & Hd).
      * by apply selection_step.
      * cbn. rewrite length_delete by eauto. lia.
      * exists sel', dropped'. split_and!; try done. right.
        destruct Hd as [[-> ->]|(b & l & -> & Hl')]; [|eauto].
        exists dropped, s. split; [done|]. cbn [sel_selected]. rewrite (delete_total _ _ _ Hl) in Hlt. lia.
    + exfalso. destruct Hsel as [_ _ _ Hsr _ _ _].
      rewrite requiredTokens_total, <- Hsr in Hreq.
      rewrite filter_all in Hreq by done. lia.
Qed.

Lemma selection_start sections : selection_of sections (mkSelection sections [] []) [].
Proof. split; cbn; try done; [by rewrite app_nil_r | intros d s Hx; inversion Hx]. Qed.

Lemma filter_nonblank_total l :
  (totalTokens (List.filter nonblank l) <= totalTokens l)%Z.
Proof.
  induction l as [|s l IH]; simpl; [done|].
  pose proof (estimateTokens_nonneg (ss_Content s)).
  destruct (nonblank s); rewrite !totalTokens_cons; lia.
Qed.

Lemma estimate_metadata l :
  foldl (fun total m => total + ps_Tokens m)%Z 0%Z (map metadataFor l) = totalTokens l.
Proof.
  unfold totalTokens. generalize 0%Z. induction l as [|s l IH]; intros n; simpl; [done|]. apply IH.
Qed.

(** C40: with a positive budget, section selection fails exactly when the required
    sections alone exceed it; otherwise the kept sections fit, in their original
    order, with every required one among them, and the dropped ones are optional
    and of no higher priority than any optional section kept. Nothing is dropped
    without need: with the last dropped section the prompt would not fit. The
    loop always ends. *)
Theorem selectSections_spec sections budget :
  (0 < tb_MaxTokens budget)%Z ->
  match selectSections sections budget with
  | None => False
  | Some (Err _) => (tb_MaxTokens budget < requiredTokens sections)%Z
  | Some (Ok sel) =>
      (requiredTokens sections <= tb_MaxTokens budget)%Z /\
      (totalTokens (sel_selected sel) <= tb_MaxTokens budget)%Z /\
      exists dropped, selection_of sections sel dropped /\
        (dropped = [] \/ exists before last, dropped = before ++ [last] /\
          (tb_MaxTokens budget < totalTokens (sel_selected sel) + estimateTokens (ss_Content last))%Z)
  end.
Proof.
  intros Hpos. unfold selectSections. destruct (Z.leb_spec (tb_MaxTokens budget) 0); [lia|].
  destruct (Z.ltb_spec (tb_MaxTokens budget) (requiredTokens sections)); [done|].
  destruct (drop_loop_spec sections (length sections) (tb_MaxTokens budget)
    (mkSelection sections [] []) [] (selection_start sections))
    as (sel' & dropped' & -> & Hs & Ht & Hd); [done | done | lia |].
  split; [done|]. split; [done|]. exists dropped'. split; [done|].
  destruct Hd as [[-> _]|?]; [by left | by right].
Qed.

Lemma selectSections_total sections budget : is_Some (selectSections sections budget).
Proof.
  unfold selectSections. destruct (Z.leb_spec (tb_MaxTokens budget) 0); [eauto|].
  destruct (Z.ltb_spec (tb_MaxTokens budget) (requiredTokens sections)); [eauto|].
  destruct (drop_loop_spec sections (length sections) (tb_MaxTokens budget)
    (mkSelection sections [] []) [] (selection_start sections)) as (sel & dropped & -> & _);
    [done | done | lia | eauto].
Qed.

Lemma BuildPrompt_total sections budget : is_Some (BuildPrompt sections budget).
Proof.
  unfold BuildPrompt. destruct (selectSections_total sections budget) as [[sel|err] ->]; eauto.
Qed.

Lemma BuildPrompt_unbounded sections budget :
  (tb_MaxTokens budget <= 0)%Z -> exists out, BuildPrompt sections budget = Some (Ok out).
Proof.
  intros Hb. unfold BuildPrompt, selectSections. apply Z.leb_le in Hb. rewrite Hb. eauto.
Qed.

(** A built prompt is the non-blank kept sections, trimmed and separated by
    blank lines; its token estimate counts exactly the sections it lists and
    respects a positive budget, and with no budget nothing is omitted. *)
Theorem BuildPrompt_spec sections budget out :
  BuildPrompt sections budget = Some (Ok out) ->
  exists kept, sublist kept sections /\ Forall (fun s => nonblank s = true) kept /\
    bo_SystemPrompt out =
      Join (map (fun s => TrimSpace (ss_Content s)) kept) (String "010" (String "010" "")) /\
    bo_Sections out = map metadataFor kept /\
    bo_TokenEstimate out = totalTokens kept /\
    ((0 < tb_MaxTokens budget)%Z -> (bo_TokenEstimate out <= tb_MaxTokens budget)%Z) /\
    ((tb_MaxTokens budget <= 0)%Z ->
       kept = List.filter nonblank sections /\ bo_OmittedSections out = []) /\
    (forall s, s ∈ sections -> ss_Required s = true -> nonblank s = true -> s ∈ kept).
Proof.
  unfold BuildPrompt. destruct (selectSections sections budget) as [[sel|]|] eqn:E; try done.
  intros [= <-]. exists (List.filter nonblank (sel_selected sel)). cbn [bo_SystemPrompt bo_Sections
    bo_TokenEstimate bo_OmittedSections]. rewrite estimate_metadata.
  assert (exists dropped, selection_of sections sel dropped /\
    ((0 < tb_MaxTokens budget)%Z -> (totalTokens (sel_selected sel) <= tb_MaxTokens budget)%Z) /\
    ((tb_MaxTokens budget <= 0)%Z -> sel = mkSelection sections [] []))
    as (dropped & Hs & Hpos & Hneg).
  { unfold selectSections in E. destruct (Z.leb_spec (tb_MaxTokens budget) 0).
    - injection E as <-. exists []. split; [apply selection_start|]. split; [lia | done].
    - destruct (Z.ltb_spec (tb_MaxTokens budget) (requiredTokens sections)); [done|].
      destruct (drop_loop_spec sections (length sections) (tb_MaxTokens budget)
        (mkSelection sections [] []) [] (selection_start sections))
        as (sel' & dropped' & E' & Hs & Ht & _); [done | done | lia |].
      rewrite E in E'. injection E' as ->. exists dropped'. split; [done|]. split; [done | lia]. }
  destruct Hs as [Hsub Hperm Hopt Hreq _ _ _].
  assert (forall l, sublist (List.filter nonblank l) l) as Hfil.
  { induction l as [|s l IH]; simpl; [done|]. destruct (nonblank s); by constructor. }
  split_and!; try done.
  - etransitivity; [apply Hfil | done].
  - apply Forall_forall. intros s Hin. apply list_elem_of_In, List.filter_In in Hin. apply Hin.
  - intros Hp. pose proof (filter_nonblank_total (sel_selected sel)). specialize (Hpos Hp). lia.
  - intros Hn. by rewrite (Hneg Hn).
  - intros s Hin Hr Hb. apply list_elem_of_In, List.filter_In. split; [|done].
    apply list_elem_of_In. rewrite Hperm in Hin. apply elem_of_app in Hin as [?|Hin]; [done|].
    rewrite Forall_forall in Hopt. by rewrite (Hopt _ Hin) in Hr.
Qed.

Lemma build_dynamic_fold {In} ctx (input : In) sections parts warnings :
  foldl (build_dynamic_step ctx input) (parts, warnings) sections =
    (parts ++ List.filter (fun p => p <>s "")
       (omap (fun s => match dyn_Build s ctx input with Ok c => Some (TrimSpace c) | Err _ => None end)
          sections),
     warnings ++ omap (fun s => match dyn_Build s ctx input with
        | Err e => Some ("section " +:+ dyn_Name s +:+ ": " +:+ Error e) | Ok _ => None end) sections).
Proof.
  revert parts warnings. induction sections as [|s rest IH]; intros parts warnings;
    cbn -[build_dynamic_step].
  { by rewrite !app_nil_r. }
  unfold build_dynamic_step at 2. destruct (dyn_Build s ctx input) as [c|e]; cbn.
  - destruct (TrimSpace c =s ""); cbn; rewrite IH; [done|]. by rewrite <- app_assoc.
  - rewrite IH. by rewrite <- app_assoc.
Qed.

Lemma StronglySorted_mono {A} (R R' : A -> A -> Prop) l :
  (forall a b, R a b -> R' a b) -> StronglySorted R l -> StronglySorted R' l.
Proof.
  intros HR. induction 1 as [|x l _ IH Hall]; constructor; [done|].
  eapply Forall_impl; [exact Hall | apply HR].
Qed.

(** The dynamic prompt is built from all sections in a stable order by
    priority: the non-empty trimmed texts of those that succeed, and one warning
    for each that fails, which never hides the others. *)
Theorem BuildDynamic_spec {In} ctx (sections : list (DynSection In)) input :
  exists sorted, sorted ≡ₚ sections /\
    StronglySorted (fun a b => (dyn_Priority a <= dyn_Priority b)%Z) sorted /\
    (forall s, filter (incomparable (key_less dyn_Priority) s) sorted =
               filter (incomparable (key_less dyn_Priority) s) sections) /\
    do_SystemPrompt (BuildDynamic ctx sections input) =
      Join (List.filter (fun p => p <>s "")
        (omap (fun s => match dyn_Build s ctx input with Ok c => Some (TrimSpace c) | Err _ => None end)
           sorted)) (String "010" (String "010" "")) /\
    do_Warnings (BuildDynamic ctx sections input) =
      omap (fun s => match dyn_Build s ctx input with
        | Err e => Some ("section " +:+ dyn_Name s +:+ ": " +:+ Error e) | Ok _ => None end) sorted.
Proof.
  exists (sort_sections sections). split; [apply stable_sort_perm|].
  split; [|split].
  - eapply StronglySorted_mono; [|apply (stable_sort_sorted (key_less dyn_Priority))].
    unfold key_less. intros a b Hab. simpl in Hab. by apply Z.ltb_ge.
  - intros s. apply stable_sort_stable. apply _.
  - unfold BuildDynamic. rewrite build_dynamic_fold. done.
Qed.
End tables.

(** ** Witnesses *)

Definition demo_sections : list SectionSpec :=
  [mkSectionSpec "id" "core" "you are omg" true 100;
   mkSectionSpec "fit" "agent" "use when lost" false 70;
   mkSectionSpec "rules" "project" "be kind to people" false 60].

Lemma selectSections_spec_witness :
  match selectSections (H := plain_tables) demo_sections (mkTokenBudget 6) with
  | Some (Ok sel) => (totalTokens (sel_selected sel) <= 6)%Z
  | _ => False
  end.
Proof.
  pose proof (selectSections_spec (H := plain_tables) demo_sections (mkTokenBudget 6) eq_refl) as Hs.
  destruct (selectSections (H := plain_tables) demo_sections (mkTokenBudget 6)) as [[sel|e]|] eqn:E.
  - exact (proj1 (proj2 Hs)).
  - vm_compute in E. discriminate E.
  - exact Hs.
Defined.

Lemma BuildPrompt_spec_witness :
  match BuildPrompt (H := plain_tables) demo_sections (mkTokenBudget 6) with
  | Some (Ok out) => (bo_TokenEstimate out <= 6)%Z
  | _ => False
  end.
Proof.
  destruct (BuildPrompt (H := plain_tables) demo_sections (mkTokenBudget 6)) as [[out|e]|] eqn:E.
  - destruct (BuildPrompt_spec (H := plain_tables) _ _ _ E)
      as (kept & _ & _ & _ & _ & _ & Hb & _). exact (Hb eq_refl).
  - vm_compute in E. discriminate E.
  - vm_compute in E. discriminate E.
Defined.
