(* ===== verification/Verify.v ===== *)
(** * internal/verify: running checks and recording the evidence

    [src/internal/verify/verify.go]: the plan runner, the evidence of one check, the
    runner that executes commands, and the events a verification records. The
    operating system's command execution is a parameter ([Exec]). *)

From S2P Require Import Prelude GoStrings GoValue GoTime Storage.

(** ** Data *)

Definition EvidenceCommand := "command".
Definition EvidenceManual := "manual".
Definition EvidenceArtifact := "artifact".

Record VerificationCheck := mkCheck {
  ck_ID : string;
  ck_Name : string;
  ck_Command : list string;
  ck_Shell : bool;
  ck_ShellCommand : string;
  ck_CWD : string;
  ck_Timeout : duration;
  ck_Claim : string;
  ck_Required : bool;
  ck_EvidenceKind : string;
  ck_Reason : string;
  ck_Artifacts : list string
}.

Record VerificationPlan := mkPlan { pl_Checks : list VerificationCheck }.

Record CheckEvidence := mkEvidence {
  ce_CheckID : string;
  ce_Kind : string;
  ce_Passed : bool;
  ce_Command : list string;
  ce_Shell : bool;
  ce_ExitCode : Z;
  ce_Stdout : string;
  ce_Stderr : string;
  ce_OutputTruncated : bool;
  ce_Artifacts : list string;
  ce_StartedAt : time;
  ce_Duration : duration;
  ce_Reason : string
}.

Record VerificationResult := mkResult {
  vr_Passed : bool;
  vr_Evidence : list CheckEvidence;
  vr_Summary : string
}.

Record CommandResult := mkCommandResult {
  cr_ExitCode : Z;
  cr_Stdout : string;
  cr_Stderr : string;
  cr_Duration : duration;
  cr_OutputTruncated : bool
}.

Record Runner (W : Type) := mkRunner {
  Run : context -> VerificationCheck -> W -> W * (CommandResult * option error)
}.
Arguments mkRunner {W} _.
Arguments Run {W} _ _ _ _.

Record Options (W : Type) := mkOptions {
  vo_Runner : option (Runner W);
  vo_StorageSink : option (Sink W);
  vo_RunID : string;
  vo_WorkID : string;
  vo_VerificationID : string;
  vo_ActorID : string;
  vo_ProjectRoot : string;
  vo_Now : option (W -> W * time)
}.
Arguments mkOptions {W} _ _ _ _ _ _ _ _.
Arguments vo_Runner {W} _.
Arguments vo_StorageSink {W} _.
Arguments vo_RunID {W} _.
Arguments vo_WorkID {W} _.
Arguments vo_VerificationID {W} _.
Arguments vo_ActorID {W} _.
Arguments vo_ProjectRoot {W} _.
Arguments vo_Now {W} _.

(** What [cmd.Output()] ends with: standard output and success, an exit code
    with the captured standard error, or another failure. *)
Inductive exec_outcome :=
| ExecSuccess
| ExecExit (code : Z) (stderr : string)
| ExecError (err : error).

(** [exec.CommandContext(ctx, argv[0], argv[1:]...)] run in a directory. *)
Class Exec (W : Type) :=
  cmd_Output : context -> list string -> string -> W -> W * (string * exec_outcome).

Section world.
Context {W : Type} `{Clock W} `{Exec W}.

(** ** Executing a command *)

Definition zero_command : CommandResult := mkCommandResult 0 "" "" 0 false.

(** The argument vector a check is executed with. *)
Definition command_argv (check : VerificationCheck) : list string :=
  if ck_Shell check then
    let command := if ck_ShellCommand check =s "" then Join (ck_Command check) " "
                   else ck_ShellCommand check in
    ["/bin/sh"; "-c"; command] ++
    (match ck_Command check with
     | _ :: _ => if ck_ShellCommand check <>s "" then "--" :: ck_Command check else []
     | [] => []
     end)
  else ck_Command check.

Definition ExecRunner_Run (ctx : context) (check : VerificationCheck) (w : W)
    : W * (CommandResult * option error) :=
  let '(w, start) := time_Now w in
  match command_argv check with
  | [] => (w, (zero_command, Some (errorf "command argv is required")))
  | argv =>
      let '(w, (stdout, outcome)) := cmd_Output ctx argv (ck_CWD check) w in
      let '(w, finish) := time_Now w in
      let result code stderr := mkCommandResult code stdout stderr (Sub finish start) false in
      match outcome with
      | ExecSuccess => (w, (result 0%Z "", None))
      | ExecExit code stderr => (w, (result code stderr, None))
      | ExecError err => (w, (result 0%Z "", Some err))
      end
  end.

Definition ExecRunner : Runner W := mkRunner ExecRunner_Run.

(** ** One check *)

Definition commandForEvidence (check : VerificationCheck) : list string :=
  if ck_Shell check then
    if ck_ShellCommand check <>s "" then [ck_ShellCommand check] else ck_Command check
  else ck_Command check.

Section tables.
Context `{UnicodeTables}.

Definition check_kind (check : VerificationCheck) : string :=
  if ck_EvidenceKind check =s "" then EvidenceCommand else ck_EvidenceKind check.

Definition runCheck (ctx : context) (check : VerificationCheck) (runner : Runner W) (w : W)
    : W * result CheckEvidence :=
  let kind := check_kind check in
  let '(w, started) := time_Now w in
  if kind =s EvidenceCommand then
    if bool_decide (ck_Command check = []) && negb (ck_Shell check) then
      (w, Err (errorf "command evidence requires command argv"))
    else
      let commandCtx := if (0 <? ck_Timeout check)%Z then WithTimeout ctx (ck_Timeout check)
                        else ctx in
      let '(w, (r, err)) := Run runner commandCtx check w in
      let passed := match err with None => (cr_ExitCode r =? 0)%Z | Some _ => false end in
      let stderr := match err with
                    | Some e => TrimSpace (Join [cr_Stderr r; Error e] " ")
                    | None => cr_Stderr r
                    end in
      (w, Ok (mkEvidence (ck_ID check) EvidenceCommand passed (commandForEvidence check)
                (ck_Shell check) (cr_ExitCode r) (cr_Stdout r) stderr (cr_OutputTruncated r) []
                started (cr_Duration r) ""))
  else if kind =s EvidenceManual then
    if ck_Reason check =s "" then (w, Err (errorf "manual evidence reason is required"))
    else
      let '(w, finish) := time_Now w in
      (w, Ok (mkEvidence (ck_ID check) EvidenceManual true [] false 0 "" "" false [] started
                (Sub finish started) (ck_Reason check)))
  else if kind =s EvidenceArtifact then
    if bool_decide (ck_Artifacts check = []) then
      (w, Err (errorf "artifact evidence requires artifact path"))
    else
      let '(w, finish) := time_Now w in
      (w, Ok (mkEvidence (ck_ID check) EvidenceArtifact true [] false 0 "" "" false
                (ck_Artifacts check) started (Sub finish started) ""))
  else (w, Err (errorf ("unsupported evidence kind " +:+ Quote kind))).

(** ** Recording *)

Definition evidenceStatus (evidence : CheckEvidence) : string :=
  if ce_Passed evidence then "passed" else "failed".

Definition verification_storage_event (result : VerificationResult) (o : Options W) : Event :=
  mkEvent "" (if vr_Passed result then EventVerificationPassed else EventVerificationFailed)
    (vo_RunID o) (vo_WorkID o) "" "" "" (vo_VerificationID o) "" "" "" "verifier" (vo_ActorID o)
    (if vr_Passed result then "passed" else "failed") "" (vo_ProjectRoot o)
    (Some {["summary" := vr_Summary result]}) time_zero.

Definition evidence_storage_event (evidence : CheckEvidence) (o : Options W) : Event :=
  mkEvent "" EventEvidenceCreated (vo_RunID o) (vo_WorkID o) "" "" "" (vo_VerificationID o) "" ""
    "" "verifier" (vo_ActorID o) (evidenceStatus evidence) "" (vo_ProjectRoot o)
    (Some {["check_id" := ce_CheckID evidence; "kind" := ce_Kind evidence]}) time_zero.

(** Events are recorded one after the other; the first failure ends it. *)
Fixpoint record_all (recorder : Recorder W) (ctx : context) (evs : list Event) (w : W)
    : W * option error :=
  match evs with
  | [] => (w, None)
  | e :: rest =>
      match Record_ recorder ctx e w with
      | (w, Some err) => (w, Some err)
      | (w, None) => record_all recorder ctx rest w
      end
  end.

Definition verification_events (result : VerificationResult) (o : Options W) : list Event :=
  verification_storage_event result o :: map (fun e => evidence_storage_event e o) (vr_Evidence result).

Definition recordVerificationStorage (ctx : context) (result : VerificationResult) (o : Options W)
    (w : W) : W * option error :=
  match vo_StorageSink o with
  | None => (w, None)
  | Some sink =>
      record_all (mkRecorder (Some sink) (vo_Now o) None) ctx (verification_events result o) w
  end.

(** ** The plan *)

Fixpoint run_checks (ctx : context) (checks : list VerificationCheck) (runner : Runner W)
    (acc : VerificationResult) (w : W) : W * result VerificationResult :=
  match checks with
  | [] => (w, Ok acc)
  | check :: rest =>
      match runCheck ctx check runner w with
      | (w, Err err) => (w, Err err)
      | (w, Ok evidence) =>
          run_checks ctx rest runner
            (mkResult (if ck_Required check && negb (ce_Passed evidence) then false
                       else vr_Passed acc)
               (vr_Evidence acc ++ [evidence]) (vr_Summary acc)) w
      end
  end.

Definition RunPlan (ctx : context) (plan : VerificationPlan) (o : Options W) (w : W)
    : W * result VerificationResult :=
  let runner := match vo_Runner o with Some r => r | None => ExecRunner end in
  match pl_Checks plan with
  | [] => (w, Ok (mkResult false [] "no evidence collected"))
  | checks =>
      match run_checks ctx checks runner (mkResult true [] "") w with
      | (w, Err err) => (w, Err err)
      | (w, Ok result) =>
          match vr_Evidence result with
          | [] => (w, Ok (mkResult false [] "no evidence collected"))
          | _ =>
              let result := mkResult (vr_Passed result) (vr_Evidence result)
                (if vr_Passed result then "verification passed with evidence"
                 else "verification failed with evidence") in
              match recordVerificationStorage ctx result o w with
              | (w, Some err) => (w, Err err)
              | (w, None) => (w, Ok result)
              end
          end
      end
  end.

(** ** Specification *)

(** The evidence belongs to the check, and has passed only for a reason: the
    command exited with 0, or the check names a reason or artifacts. *)
Definition evidence_for (check : VerificationCheck) (e : CheckEvidence) : Prop :=
  ce_CheckID e = ck_ID check /\ ce_Kind e = check_kind check /\
  (ce_Kind e = EvidenceCommand -> ce_Passed e = true -> ce_ExitCode e = 0%Z) /\
  (ce_Kind e = EvidenceManual -> ck_Reason check <> "") /\
  (ce_Kind e = EvidenceArtifact -> ck_Artifacts check <> []).

Definition required_passed (checks : list VerificationCheck) (es : list CheckEvidence) : bool :=
  forallb (fun '(c, e) => negb (ck_Required c) || ce_Passed e) (zip checks es).

Lemma runCheck_evidence ctx check runner w w' e :
  runCheck ctx check runner w = (w', Ok e) -> evidence_for check e.
Proof.
  unfold runCheck, evidence_for.
  destruct (time_Now w) as [w1 started]. destruct (check_kind check =s EvidenceCommand) eqn:E1.
  { destruct (_ && _); [done|]. destruct (Run _ _ _ _) as [w2 [r err]]. intros [= <- <-].
    str_simpl. cbn. rewrite E1. split_and!; try done.
    intros _. destruct err; [done|]. apply Z.eqb_eq. }
  destruct (check_kind check =s EvidenceManual) eqn:E2.
  { destruct (ck_Reason check =s "") eqn:Er; [done|]. destruct (time_Now w1) as [w2 finish].
    intros [= <- <-]. str_simpl. cbn. by rewrite E2. }
  destruct (check_kind check =s EvidenceArtifact) eqn:E3; [|done].
  case_bool_decide; [done|]. destruct (time_Now w1) as [w2 finish].
  intros [= <- <-]. str_simpl. cbn. by rewrite E3.
Qed.

Lemma run_checks_spec ctx checks runner acc w w' r :
  run_checks ctx checks runner acc w = (w', Ok r) ->
  exists es, vr_Evidence r = vr_Evidence acc ++ es /\ Forall2 evidence_for checks es /\
    vr_Passed r = vr_Passed acc && required_passed checks es.
Proof.
  revert acc w. induction checks as [|check rest IH]; intros acc w; simpl.
  { intros [= <- <-]. exists []. rewrite app_nil_r, andb_true_r. auto. }
  destruct (runCheck ctx check runner w) as [w1 [e|err]] eqn:E; [|done].
  apply runCheck_evidence in E. intros Hr. apply IH in Hr as (es & Hes & Hall & Hp). cbn in *.
  exists (e :: es). split; [by rewrite Hes, <- app_assoc|]. split; [by constructor|].
  rewrite Hp. unfold required_passed. cbn.
  destruct (ck_Required check), (ce_Passed e), (vr_Passed acc); cbn; done.
Qed.

Lemma RunPlan_evidence ctx plan o w w' r :
  RunPlan ctx plan o w = (w', Ok r) -> pl_Checks plan <> [] ->
  Forall2 evidence_for (pl_Checks plan) (vr_Evidence r) /\
  vr_Passed r = required_passed (pl_Checks plan) (vr_Evidence r).
Proof.
  unfold RunPlan. destruct (pl_Checks plan) as [|c cs] eqn:Ec; [done|].
  destruct (run_checks _ _ _ _ _) as [w1 [r1|err]] eqn:E; [|done].
  apply run_checks_spec in E as (es & Hes & Hall & Hp). cbn in Hes, Hp.
  destruct (vr_Evidence r1) as [|e1 es1] eqn:Ee.
  { subst es. inversion Hall. }
  destruct (recordVerificationStorage _ _ _ _) as [w2 [err|]]; [done|].
  intros [= <- <-] _. cbn. subst es. by rewrite Hp.
Qed.

(** How the command of a check ends: the exit code, or nothing when it could not
    be run. Without a runner of the caller's it is the process that is executed. *)
Definition exit_code (outcome : exec_outcome) : option Z :=
  match outcome with
  | ExecSuccess => Some 0%Z
  | ExecExit code _ => Some code
  | ExecError _ => None
  end.

Inductive command_ends (o : Options W) (ctx : context) (check : VerificationCheck) (w : W) : W -> option Z -> Prop :=
| ends_given runner w' r err :
    vo_Runner o = Some runner -> Run runner ctx check w = (w', (r, err)) ->
    command_ends o ctx check w w' (match err with None => Some (cr_ExitCode r) | Some _ => None end)
| ends_executed w1 w2 w3 start finish stdout outcome :
    vo_Runner o = None -> time_Now w = (w1, start) ->
    cmd_Output ctx (command_argv check) (ck_CWD check) w1 = (w2, (stdout, outcome)) ->
    time_Now w2 = (w3, finish) -> command_ends o ctx check w w3 (exit_code outcome).

Definition check_ctx (ctx : context) (check : VerificationCheck) : context :=
  if (0 <? ck_Timeout check)%Z then WithTimeout ctx (ck_Timeout check) else ctx.

(** The evidence of one check, and the world after it: a command was run, and
    passes when it ended with exit code 0; the others pass on what the check
    itself holds, and nothing is run. *)
Inductive gathers (o : Options W) (ctx : context) (check : VerificationCheck) (w : W) : CheckEvidence -> W -> Prop :=
| gathers_command w1 started w2 code e :
    check_kind check = EvidenceCommand -> time_Now w = (w1, started) ->
    command_ends o (check_ctx ctx check) check w1 w2 code ->
    ce_CheckID e = ck_ID check -> ce_Kind e = EvidenceCommand ->
    (ce_Passed e = true <-> code = Some 0%Z) -> gathers o ctx check w e w2
| gathers_manual w1 started w2 finish e :
    check_kind check = EvidenceManual -> time_Now w = (w1, started) -> time_Now w1 = (w2, finish) ->
    ce_CheckID e = ck_ID check -> ce_Kind e = EvidenceManual ->
    ck_Reason check <> "" -> ce_Reason e = ck_Reason check -> ce_Passed e = true -> gathers o ctx check w e w2
| gathers_artifact w1 started w2 finish e :
    check_kind check = EvidenceArtifact -> time_Now w = (w1, started) -> time_Now w1 = (w2, finish) ->
    ce_CheckID e = ck_ID check -> ce_Kind e = EvidenceArtifact ->
    ck_Artifacts check <> [] -> ce_Artifacts e = ck_Artifacts check -> ce_Passed e = true -> gathers o ctx check w e w2.

(** The checks of a plan one after the other. *)
Inductive gathers_all (o : Options W) (ctx : context) : list VerificationCheck -> W -> list CheckEvidence -> W -> Prop :=
| gathers_nil w : gathers_all o ctx [] w [] w
| gathers_cons check checks w e w1 es w2 :
    gathers o ctx check w e w1 -> gathers_all o ctx checks w1 es w2 ->
    gathers_all o ctx (check :: checks) w (e :: es) w2.

Definition runner_of (o : Options W) : Runner W := match vo_Runner o with Some r => r | None => ExecRunner end.

Lemma runner_ends o ctx check w w' r err :
  ck_Command check <> [] \/ ck_Shell check = true -> Run (runner_of o) ctx check w = (w', (r, err)) ->
  command_ends o ctx check w w' (match err with None => Some (cr_ExitCode r) | Some _ => None end).
Proof.
  intros Hc. unfold runner_of. destruct (vo_Runner o) as [runner|] eqn:Eo; [by eapply ends_given|].
  cbn [Run ExecRunner]. unfold ExecRunner_Run. destruct (time_Now w) as [w1 start] eqn:E1.
  assert (exists a argv, command_argv check = a :: argv) as (a & argv & Ea).
  { unfold command_argv. destruct (ck_Shell check); [by eexists _, _|]. destruct Hc as [Hc|]; [|done].
    destruct (ck_Command check); [done|]. by eexists _, _. }
  rewrite Ea, <- Ea. destruct (cmd_Output _ _ _ w1) as [w2 [stdout outcome]] eqn:E2.
  destruct (time_Now w2) as [w3 finish] eqn:E3. pose proof (ends_executed o ctx check w w1 w2 w3 start finish stdout
    outcome Eo E1 E2 E3) as He. by destruct outcome; intros [= <- <- <-].
Qed.

Lemma runCheck_gathers ctx check o w w' e :
  runCheck ctx check (runner_of o) w = (w', Ok e) -> gathers o ctx check w e w'.
Proof.
  unfold runCheck. destruct (time_Now w) as [w1 started] eqn:E0.
  destruct (check_kind check =s EvidenceCommand) eqn:E1; str_simpl.
  { destruct (bool_decide (ck_Command check = []) && negb (ck_Shell check)) eqn:Eb; [done|].
    destruct (Run _ _ _ _) as [w2 [r err]] eqn:Er. intros [= <- <-].
    eapply gathers_command; [done|exact E0| |done|done|].
    - eapply runner_ends; [|exact Er]. apply andb_false_iff in Eb as [?%bool_decide_eq_false|?%negb_false_iff]; auto.
    - cbn. destruct err; [done|]. rewrite Z.eqb_eq. split; congruence. }
  destruct (check_kind check =s EvidenceManual) eqn:E2; str_simpl.
  { destruct (ck_Reason check =s "") eqn:Er; [done|]. str_simpl. destruct (time_Now w1) as [w2 finish] eqn:Ef.
    intros [= <- <-]. by eapply gathers_manual. }
  destruct (check_kind check =s EvidenceArtifact) eqn:E3; str_simpl; [|done].
  case_bool_decide; [done|]. destruct (time_Now w1) as [w2 finish] eqn:Ef.
  intros [= <- <-]. by eapply gathers_artifact.
Qed.

Lemma run_checks_gathers ctx checks o acc w w' r :
  run_checks ctx checks (runner_of o) acc w = (w', Ok r) ->
  exists es, vr_Evidence r = vr_Evidence acc ++ es /\ gathers_all o ctx checks w es w'.
Proof.
  revert acc w. induction checks as [|check rest IH]; intros acc w; cbn [run_checks].
  { intros [= <- <-]. exists []. rewrite app_nil_r. split; [done|constructor]. }
  destruct (runCheck ctx check (runner_of o) w) as [w1 [e|err]] eqn:E; [|done].
  intros (es & Hes & Hall)%IH. exists (e :: es). split; [by rewrite Hes; cbn; rewrite <- app_assoc|].
  econstructor; [by apply runCheck_gathers|done].
Qed.

(** C38: a verification passes only on successful evidence. Every check of the plan
    leaves one piece of evidence, in order: a command is run in the world that the
    checks before it have left, with the check's timeout - by the runner of the
    caller, or as a process with the check's arguments and directory - and passes
    exactly when it has ended with exit code 0, not when it could not be run; manual
    and artifact checks pass on a reason or on artifacts. The verification passes
    exactly when every required check has, and is then recorded; an empty plan
    runs and records nothing and never passes. *)
Theorem RunPlan_spec ctx plan o w w' r :
  RunPlan ctx plan o w = (w', Ok r) ->
  (pl_Checks plan = [] -> w' = w /\ vr_Passed r = false /\ vr_Evidence r = []) /\
  (pl_Checks plan <> [] ->
     exists w1, gathers_all o ctx (pl_Checks plan) w (vr_Evidence r) w1 /\
       vr_Passed r = required_passed (pl_Checks plan) (vr_Evidence r) /\
       recordVerificationStorage ctx r o w1 = (w', None)).
Proof.
  intros E. split; [revert E; unfold RunPlan; destruct (pl_Checks plan); [|done]; by intros [= <- <-]|].
  intros Hne. pose proof (RunPlan_evidence ctx plan o w w' r E Hne) as [_ Hp]. revert E. unfold RunPlan.
  destruct (pl_Checks plan) as [|c cs] eqn:Ec; [done|]. fold (runner_of o).
  destruct (run_checks _ _ _ _ _) as [w1 [r1|err]] eqn:E; [|done].
  apply run_checks_gathers in E as (es & Hes & Hall). cbn [vr_Evidence app] in Hes.
  destruct (vr_Evidence r1) as [|e1 es1] eqn:Ee; [subst es; inversion Hall|].
  destruct (recordVerificationStorage _ _ _ _) as [w2 [err|]] eqn:Erec; [done|].
  intros [= <- <-]. subst es. exists w1. split_and!; [done|exact Hp|exact Erec].
Qed.

Lemma record_all_sink sink now ctx evs w :
  Forall (fun e => normalizeType (ev_Type e) <> "") evs ->
  (forall ctx e w, (RecordEvent sink ctx e w).2 = None) ->
  (record_all (mkRecorder (Some sink) now None) ctx evs w).2 = None.
Proof.
  intros Ht Hok. revert w. induction Ht as [|e evs He _ IH]; intros w; [done|]. cbn [record_all].
  unfold Record_ at 1. cbn [rec_Sink rec_NewID set_type ev_Type].
  apply eqb_false in He. cbn. rewrite He.
  destruct (if IsZero _ then _ else _) as [w1 e1].
  pose proof (Hok ctx e1 w1) as Hn. destruct (RecordEvent sink ctx e1 w1) as [w2 [err|]]; [done|].
  apply IH.
Qed.

(** A check the runner accepts at all. *)
Definition well_formed_check (check : VerificationCheck) : Prop :=
  check_kind check = EvidenceCommand /\ (ck_Command check <> [] \/ ck_Shell check = true) \/
  check_kind check = EvidenceManual /\ ck_Reason check <> "" \/
  check_kind check = EvidenceArtifact /\ ck_Artifacts check <> [].

Lemma runCheck_total ctx check runner w :
  is_ok (runCheck ctx check runner w).2 = true <-> well_formed_check check.
Proof.
  unfold runCheck, well_formed_check. destruct (time_Now w) as [w1 started].
  destruct (check_kind check =s EvidenceCommand) eqn:E1; str_simpl.
  { rewrite E1. destruct (Run _ _ _ _) as [w2 [r err]].
    destruct (bool_decide (ck_Command check = [])) eqn:Eb, (ck_Shell check) eqn:Es; cbn;
      (apply bool_decide_eq_true in Eb || apply bool_decide_eq_false in Eb); naive_solver. }
  destruct (check_kind check =s EvidenceManual) eqn:E2; str_simpl.
  { rewrite E2. destruct (time_Now w1). destruct (ck_Reason check =s "") eqn:Er; str_simpl; cbn;
      naive_solver. }
  destruct (check_kind check =s EvidenceArtifact) eqn:E3; str_simpl.
  { rewrite E3. destruct (time_Now w1). case_bool_decide; cbn; naive_solver. }
  cbn. naive_solver.
Qed.

Lemma run_checks_total ctx checks runner acc w :
  is_ok (run_checks ctx checks runner acc w).2 = true <-> Forall well_formed_check checks.
Proof.
  revert acc w. induction checks as [|check rest IH]; intros acc w; simpl; [done|].
  rewrite Forall_cons, <- (runCheck_total ctx check runner w).
  destruct (runCheck ctx check runner w) as [w1 [e|err]]; simpl; [|naive_solver].
  rewrite IH. naive_solver.
Qed.

(** A plan runs to a result exactly when all its checks are well formed: a
    command with arguments or a shell, a manual check with a reason, an artifact
    check with artifacts - given a storage that takes the events (or none).
    Failing commands are results, not errors. *)
Theorem RunPlan_total ctx plan o w :
  (forall sink, vo_StorageSink o = Some sink -> forall ctx e w, (RecordEvent sink ctx e w).2 = None) ->
  (is_ok (RunPlan ctx plan o w).2 = true <-> Forall well_formed_check (pl_Checks plan)).
Proof.
  intros Hsink. unfold RunPlan. destruct (pl_Checks plan) as [|c cs] eqn:Ec; [done|].
  set (runner := match vo_Runner o with Some r => r | None => ExecRunner end).
  rewrite <- (run_checks_total ctx (c :: cs) runner (mkResult true [] "") w).
  destruct (run_checks _ _ _ _ _) as [w1 [r1|err]]; [|done].
  destruct (vr_Evidence r1) as [|e1 es1]; [done|].
  set (r2 := mkResult _ _ _). unfold recordVerificationStorage.
  destruct (vo_StorageSink o) as [sink|]; [|done].
  assert ((record_all (mkRecorder (Some sink) (vo_Now o) None) ctx (verification_events r2 o) w1).2
    = None) as Hn.
  { apply record_all_sink; [|by apply Hsink]. unfold verification_events. constructor.
    - cbn. by destruct (vr_Passed r1).
    - apply Forall_forall. intros e He. apply list_elem_of_fmap in He as (x & -> & _). done. }
  destruct (record_all _ _ _ _) as [w2 [err|]]; done.
Qed.
End tables.
End world.

(** ** Witnesses: a world whose commands all exit with the length of argv minus 1 *)

Definition demo_clock : Clock nat := fun n => (S n, Z.of_nat n).
Definition demo_exec : Exec nat := fun _ argv _ n =>
  (n, ("", match argv with [_] => ExecSuccess | _ => ExecExit (Z.of_nat (length argv) - 1) "" end)).
Definition demo_check (argv : list string) (required : bool) : VerificationCheck :=
  mkCheck "c" "" argv false "" "" 0 "" required "" "" [].
Definition demo_vopts : Options nat := mkOptions None None "r" "w" "v" "" "" None.
Definition demo_plan : VerificationPlan :=
  mkPlan [demo_check ["true"] true; demo_check ["test"; "-f"] false].

Lemma RunPlan_spec_witness :
  match RunPlan (H := demo_clock) (H0 := demo_exec) (H1 := plain_tables) CtxRequest demo_plan demo_vopts 0 with
  | (_, Ok r) => exists w1, gathers_all (H := demo_clock) (H0 := demo_exec) demo_vopts CtxRequest
      (pl_Checks demo_plan) 0 (vr_Evidence r) w1 /\ vr_Passed r = true
  | _ => False
  end.
Proof.
  destruct (RunPlan (H := demo_clock) (H0 := demo_exec) (H1 := plain_tables) CtxRequest demo_plan
    demo_vopts 0) as [w' [r|e]] eqn:E.
  - destruct (RunPlan_spec (H := demo_clock) (H0 := demo_exec) (H1 := plain_tables) _ _ _ _ _ _ E)
      as [_ Hr].
    destruct (Hr ltac:(discriminate)) as (w1 & He & Hp & _). exists w1. split; [exact He|].
    rewrite Hp. vm_compute in E. injection E as _ <-. vm_compute. reflexivity.
  - vm_compute in E. discriminate E.
Defined.

Lemma RunPlan_total_witness :
  is_ok (RunPlan (H := demo_clock) (H0 := demo_exec) (H1 := plain_tables) CtxRequest demo_plan
    demo_vopts 0).2 = true.
Proof.
  apply (RunPlan_total (H := demo_clock) (H0 := demo_exec) (H1 := plain_tables) CtxRequest demo_plan
    demo_vopts 0).
  - intros sink E. discriminate E.
  - constructor; [|constructor; [|constructor]]; left; (split; [reflexivity | left; discriminate]).
Defined.
