(* ===== verification/Adapter.v ===== *)
(** * internal/adapter: hosts and workers

    [src/internal/adapter/]: the worker interface ([worker.go]) and its test double
    ([mockworker.go]), and the adapter that translates host events into protocol
    requests and responses into host messages ([exec.go], [adapter.go]), from
    and to JSON text. *)

From S2P Require Import Prelude GoStrings GoSort GoValue GoTime JsonText Json Protocol Wire.

(** ** Workers *)

Record WorkerSpec := mkWorkerSpec {
  wsp_Goal : string;
  wsp_ProjectDir : string;
  wsp_AllowTools : list string;
  wsp_Env : option (gmap string string)
}.

Record WorkerEvent := mkWorkerEvent {
  we_Kind : string;
  we_Timestamp : time;
  we_Message : string;
  we_ToolName : string;
  we_ToolArgs : object;
  we_Raw : string;
  we_Sequence : Z
}.

Record WorkerResult := mkWorkerResult {
  wr_ExitCode : Z;
  wr_Success : bool;
  wr_Reason : string
}.

(** One receive from the channel [Events()] returns: an event, or the channel is
    closed. *)
Inductive recv := Received (evt : WorkerEvent) | Closed.

Record Worker (W : Type) := mkWorker {
  Spawn : context -> WorkerSpec -> W -> W * option error;
  Receive : W -> W * recv;
  Wait : context -> W -> W * (WorkerResult * option error);
  Abort : context -> W -> W * option error
}.
Arguments mkWorker {W} _ _ _ _.
Arguments Spawn {W} _ _ _ _.
Arguments Receive {W} _ _.
Arguments Wait {W} _ _ _.
Arguments Abort {W} _ _ _.

(** The worker's stream ends after at most [n] receives from [w], whatever the
    other operations of the world ([step]) do in between. *)
Fixpoint closes_within {W} (worker : Worker W) (step : W -> W -> Prop) (n : nat) (w : W) : Prop :=
  match n with
  | O => False
  | S n =>
      match (Receive worker w).2 with
      | Closed => True
      | Received _ => forall w', step (Receive worker w).1 w' -> closes_within worker step n w'
      end
  end.

(** ** The mock worker *)

Record MockWorker := mkMock {
  mk_Events : list WorkerEvent;
  mk_Result : WorkerResult;
  mk_WaitErr : option error;
  mk_SpawnErr : option error;
  mk_SpawnCalls : Z;
  mk_SpawnedSpec : WorkerSpec;
  mk_AbortCalls : Z;
  mk_ch : option (list WorkerEvent)   (* the closed, buffered channel; [None] before Spawn *)
}.

Definition mock_Spawn (spec : WorkerSpec) (m : MockWorker) : MockWorker * option error :=
  let m' ch := mkMock (mk_Events m) (mk_Result m) (mk_WaitErr m) (mk_SpawnErr m)
                 (mk_SpawnCalls m + 1) spec (mk_AbortCalls m) ch in
  match mk_SpawnErr m with
  | Some err => (m' (mk_ch m), Some err)
  | None => (m' (Some (mk_Events m)), None)
  end.

(** A receive from the mock's channel; a nil channel would block for ever. *)
Definition mock_Receive (m : MockWorker) : option (MockWorker * recv) :=
  match mk_ch m with
  | None => None
  | Some [] => Some (m, Closed)
  | Some (evt :: rest) =>
      Some (mkMock (mk_Events m) (mk_Result m) (mk_WaitErr m) (mk_SpawnErr m) (mk_SpawnCalls m)
              (mk_SpawnedSpec m) (mk_AbortCalls m) (Some rest), Received evt)
  end.

Definition mock_Wait (m : MockWorker) : MockWorker * (WorkerResult * option error) :=
  (m, (mk_Result m, mk_WaitErr m)).

Definition mock_Abort (m : MockWorker) : MockWorker * option error :=
  (mkMock (mk_Events m) (mk_Result m) (mk_WaitErr m) (mk_SpawnErr m) (mk_SpawnCalls m)
     (mk_SpawnedSpec m) (mk_AbortCalls m + 1) (mk_ch m), None).

(** Draining the channel. *)
Fixpoint mock_drain (fuel : nat) (m : MockWorker) : option (list WorkerEvent) :=
  match fuel with
  | O => None
  | S fuel => match mock_Receive m with
              | Some (m', Received evt) => cons evt <$> mock_drain fuel m'
              | Some (_, Closed) => Some []
              | None => None
              end
  end.

(** ** Host adapters *)

Record HostCapabilities := mkHostCapabilities {
  SupportsSystemTransform : bool;
  SupportsExecHook : bool;
  MaxHookTimeout : duration;
  SupportsStreaming : bool
}.

Record HostStatus := mkHostStatus {
  hs_Name : string;
  hs_Connected : bool;
  hs_Degraded : bool;
  hs_Message : string
}.

Record ExecAdapter := mkExecAdapter {
  ea_name : string;
  ea_provider : string;
  ea_maxTimeout : duration
}.

Record ExecHostEvent := mkExecHostEvent {
  he_RequestID : string;
  he_Event : string;
  he_Prompt : string;
  he_Input : string;
  he_Project : string;
  he_CWD : string;
  he_SessionID : string;
  he_TimeoutMS : Z
}.

Definition NewExecAdapter (name provider : string) (maxTimeout : duration) : ExecAdapter :=
  mkExecAdapter name provider maxTimeout.

(** [adapters/claude] and [adapters/codex]: two exec adapters. *)
Definition claude_New : ExecAdapter := NewExecAdapter "claude" ProviderClaude (800 * Millisecond)%Z.
Definition codex_New : ExecAdapter := NewExecAdapter "codex" ProviderCodex (800 * Millisecond)%Z.

Definition Capabilities (a : ExecAdapter) : HostCapabilities :=
  mkHostCapabilities false true (ea_maxTimeout a) false.
Definition HealthCheck (a : ExecAdapter) : HostStatus := mkHostStatus (ea_name a) true false "".

Definition normalizeEvent (event : string) : string :=
  let has l := existsb (String.eqb event) l in
  if has ["UserPromptSubmit"; "on-submit"; ""] then EventOnSubmit
  else if has ["PreToolUse"; "tool.execute.before"; "on-tool-before"] then EventOnToolBefore
  else if has ["PostToolUse"; "tool.execute.after"; "on-tool-after"] then EventOnToolAfter
  else if event =s "on-error" then EventOnError
  else if event =s "on-compact" then EventOnCompact
  else if event =s "on-stop" then EventOnStop
  else event.

Section translate.
Context `{FloatText} `{JsonErrors}.

Definition zero_event : ExecHostEvent := mkExecHostEvent "" "" "" "" "" "" "" 0.
Definition event_fields : list (field ExecHostEvent) :=
  [("request_id", into_string (fun x '(mkExecHostEvent _ e p i pr c s t) => mkExecHostEvent x e p i pr c s t));
   ("event", into_string (fun x '(mkExecHostEvent r _ p i pr c s t) => mkExecHostEvent r x p i pr c s t));
   ("prompt", into_string (fun x '(mkExecHostEvent r e _ i pr c s t) => mkExecHostEvent r e x i pr c s t));
   ("input", into_string (fun x '(mkExecHostEvent r e p _ pr c s t) => mkExecHostEvent r e p x pr c s t));
   ("project", into_string (fun x '(mkExecHostEvent r e p i _ c s t) => mkExecHostEvent r e p i x c s t));
   ("cwd", into_string (fun x '(mkExecHostEvent r e p i pr _ s t) => mkExecHostEvent r e p i pr x s t));
   ("session_id", into_string (fun x '(mkExecHostEvent r e p i pr c _ t) => mkExecHostEvent r e p i pr c x t));
   ("timeout_ms", into_int (fun n '(mkExecHostEvent r e p i pr c s _) => mkExecHostEvent r e p i pr c s n))].

(** The two decodings of the same bytes: into a map and into the event's fields.
    The request is returned beside a validation error. *)
Definition decode_payload (raw : string) : result (option object) :=
  Unmarshal (into_map (fun m => m) (fun m _ => m)) None raw.
Definition decode_event (raw : string) : result ExecHostEvent :=
  Unmarshal (into_struct event_fields) zero_event raw.

Definition request_of (a : ExecAdapter) (payload : option object) (event : ExecHostEvent) : Request :=
  mkRequest Version (he_RequestID event) (ea_provider a) (normalizeEvent (he_Event event)) (he_Project event)
    (he_CWD event) (he_SessionID event) (he_TimeoutMS event) {["supports_exec_hook" := VBool true]}
    (default ∅ payload).

Definition TranslateEvent (a : ExecAdapter) (raw : string) : option Request * option error :=
  match decode_payload raw with
  | Err err => (None, Some (errorf ("decode " +:+ ea_name a +:+ " event: " +:+ Error err)))
  | Ok payload =>
      match decode_event raw with
      | Err err => (None, Some (errorf ("decode " +:+ ea_name a +:+ " event fields: " +:+ Error err)))
      | Ok event =>
          let request := request_of a payload event in
          match ValidateRequest (Some request) with
          | Some err => (Some request, Some (errorf (pe_Message err)))
          | None => (Some request, None)
          end
      end
  end.

(** The map that the host gets, with its values as they are written. *)
Definition host_message (resp : Response) : gmap string json :=
  let message := match resp_Error resp with
                 | Some e => if resp_Output resp =s "" then re_Message e else resp_Output resp
                 | None => resp_Output resp
                 end in
  let host : gmap string json :=
    <["ok" := JBool (resp_OK resp)]>
    (<["request_id" := JStr (resp_RequestID resp)]>
    (<["action" := JStr (resp_Action resp)]>
    (<["message" := JStr message]>
    {["warnings" := slice_tree JStr (resp_Warnings resp)]}))) in
  let host := if resp_Action resp =s ActionInjectPrompt
              then <["system_prompt" := JStr (resp_Output resp)]> host else host in
  match resp_Error resp with
  | Some e => <["error" := error_tree e]> host
  | None => host
  end.

Definition TranslateResponse (resp : Response) : string := print (JObj (members (host_message resp))).
End translate.

(** ** Theorems *)

Lemma mock_drain_S fuel m :
  mock_drain (S fuel) m =
    match mock_Receive m with
    | Some (m', Received evt) => cons evt <$> mock_drain fuel m'
    | Some (_, Closed) => Some []
    | None => None
    end.
Proof. done. Qed.

(** A spawned mock worker delivers exactly its configured events in order and
    then closes its channel; a failing spawn delivers nothing; every spawn and
    abort is counted. *)
Lemma mock_delivers spec m :
  let '(m', err) := mock_Spawn spec m in
  err = mk_SpawnErr m /\ mk_SpawnCalls m' = (mk_SpawnCalls m + 1)%Z /\
  mk_SpawnedSpec m' = spec /\ mk_AbortCalls (mock_Abort m').1 = (mk_AbortCalls m + 1)%Z /\
  (err = None -> mock_drain (S (length (mk_Events m))) m' = Some (mk_Events m)) /\
  (err <> None -> mk_ch m' = mk_ch m).
Proof.
  assert (forall evts m0, mk_ch m0 = Some evts -> mock_drain (S (length evts)) m0 = Some evts) as Hd.
  { induction evts as [|e evts IH]; intros m0 Hch; rewrite mock_drain_S; unfold mock_Receive;
      rewrite Hch; [done|].
    cbn [length]. by rewrite IH. }
  unfold mock_Spawn. destruct (mk_SpawnErr m) as [err|]; split_and!; try done.
  intros _. by apply Hd.
Qed.

(** Names of events are translated once and for all. *)
Lemma normalizeEvent_idempotent event : normalizeEvent (normalizeEvent event) = normalizeEvent event.
Proof.
  unfold normalizeEvent at 2 3. cbv zeta.
  repeat match goal with |- context [if ?b then _ else _] =>
    match b with context [normalizeEvent] => fail 1 | _ => destruct b eqn:?; [reflexivity|] end end.
  unfold normalizeEvent. cbv zeta.
  repeat match goal with Hb : ?b = false |- context [?b] => rewrite Hb end. done.
Qed.

Section translated.
Context `{FloatText} `{JsonErrors}.

(** Translating a host event names only events the protocol knows, or hands the
    unknown name on so that validation refuses it; the request is valid exactly
    when no error comes with it, carries the adapter's provider and the host's
    ids, and names of events are translated once and for all. *)
Lemma TranslateEvent_spec a raw :
  match TranslateEvent a raw with
  | (Some req, err) =>
      exists payload event, decode_payload raw = Ok payload /\ decode_event raw = Ok event /\
      (err = None <-> valid_request req) /\
      req_Provider req = ea_provider a /\ req_RequestID req = he_RequestID event /\
      req_SessionID req = he_SessionID event /\ req_Payload req = default ∅ payload /\
      req_Event req = normalizeEvent (he_Event event) /\
      normalizeEvent (req_Event req) = req_Event req
  | (None, err) => err <> None /\ (is_ok (decode_payload raw) = false \/ is_ok (decode_event raw) = false)
  end.
Proof.
  unfold TranslateEvent. destruct (decode_payload raw) as [payload|]; [|by split; [|left]].
  destruct (decode_event raw) as [event|]; [|by split; [|right]]. set (req := request_of a payload event).
  destruct (ValidateRequest (Some req)) as [e|] eqn:E; exists payload, event; (split; [done|]; split; [done|]);
    (split; [|split_and!; try done; apply normalizeEvent_idempotent]).
  - split; [done|]. intros Hv. apply request_valid in Hv. rewrite Hv in E. done.
  - split; [|done]. intros _. by apply request_valid.
Qed.
End translated.
