(* ===== verification/Host.v ===== *)
(** * The world the orchestrator acts on

    Everything the handlers of [src/internal/orchestrator] reach outside their
    arguments: the clock, the entropy of ids, command execution, configuration
    files, the files of the state store, and the cancellation of derived
    contexts. Sinks and workers act on the same world through their own records. *)

From S2P Require Import State.
From S2P Require Import Prelude GoStrings GoValue GoTime GoFS Storage.
From S2P Require Export Verify.

(** [os.ReadFile] on a configuration file *)
Class Files (W : Type) := os_ReadFile : W -> string -> result string.

(** The directory tree of the state store, and what one write of it meets. *)
Class StateFiles (W : Type) := {
  state_fs : W -> FS State.content;
  set_state_fs : FS State.content -> W -> W;
  write_env : W -> W * State.WriteEnv
}.

(** Calling the cancel function of a derived context. *)
Class Cancellation (W : Type) := cancel : context -> W -> W.

Section world.
Context {W : Type} `{Clock W} `{StateFiles W} `{UnicodeTables}.

(** [store.Transition] on the world's files. The clock is read only when the
    input has no time. The store's injected failure is a test hook that no
    caller outside its package can set, so the store value does not change. *)
Definition store_Transition (s : State.Store) (sessionID : string) (input : State.TransitionInput)
    (w : W) : W * result State.StateRecord :=
  let '(w, wall) := if IsZero (State.ti_Now input) then time_Now w else (w, time_zero) in
  let '(w, env) := write_env w in
  let '(fs, _, r) := State.Transition env wall (state_fs w) s sessionID input in
  (set_state_fs fs w, r).
End world.
