(* ===== verification/Hook.v ===== *)
(** * internal/hook and internal/agents: hook chains and the built-in agents

    [src/internal/hook/]: hooks are sorted by priority and applied in one slot; in
    the hard slots a failing or denying hook ends the chain. A hook works on the
    input it shares with its caller, so it returns the input it leaves behind.
    [src/internal/agents/]: the three agents registered from code and the hooks of
    two of them. *)

From S2P Require Import Prelude GoStrings GoSort GoValue GoTime Protocol Config Registry Adapter.

(** ** Hooks *)

Definition SlotInput := "input".
Definition SlotOutput := "output".
Definition SlotGuard := "guard".
Definition SlotLifecycle := "lifecycle".
Definition SlotFlow := "flow".

Record ToolCall := mkToolCall {
  tc_Name : string;
  tc_Args : object;
  tc_Result : value;
  tc_Phase : string
}.

Record SessionEvent := mkSessionEvent {
  se_Kind : string;
  se_SessionID : string;
  se_Reason : string
}.

Record FlowDecision := mkFlowDecision { fd_Continue : bool; fd_Reason : string }.

Record Input := mkInput {
  in_Slot : string;
  in_AgentName : string;
  in_Goal : string;
  in_Spec : option WorkerSpec;
  in_Event : option WorkerEvent;
  in_Request : option Request;
  in_ToolCall : option ToolCall;
  in_SessionEvent : option SessionEvent
}.

Record Output := mkOutput {
  ho_Warnings : list string;
  ho_Allow : bool;
  ho_Reason : string;
  ho_FlowDecision : option FlowDecision
}.

Record Hook := mkHook {
  hk_ID : string;
  hk_Slot : string;
  hk_Priority : Z;
  hk_Apply : context -> Input -> Input * result Output
}.

Definition NewFunc (id slot : string) (priority : Z)
    (fn : context -> Input -> Input * result Output) : Hook := mkHook id slot priority fn.

(** ** Chains *)

Definition Chain := list Hook.

Definition NewChain (hooks : list Hook) : Chain := stable_sort (key_less hk_Priority) hooks.

Definition hardSlots (slot : string) : bool := (slot =s SlotInput) || (slot =s SlotGuard).

(** The loop of [Chain.Apply]; the error comes with what is aggregated so far. *)
Fixpoint apply_hooks (ctx : context) (slot : string) (hooks : list Hook) (input : Input)
    (agg : Output) : Input * (Output * option error) :=
  match hooks with
  | [] => (input, (agg, None))
  | h :: rest =>
      if hk_Slot h <>s slot then apply_hooks ctx slot rest input agg
      else match hk_Apply h ctx input with
      | (input, Err err) =>
          if hardSlots slot then (input, (agg, Some err))
          else apply_hooks ctx slot rest input
                 (mkOutput (ho_Warnings agg ++ ["hook " +:+ hk_ID h +:+ " error: " +:+ Error err])
                    (ho_Allow agg) (ho_Reason agg) (ho_FlowDecision agg))
      | (input, Ok out) =>
          let warnings := ho_Warnings agg ++ ho_Warnings out in
          if hardSlots slot && negb (ho_Allow out) then
            (input, (mkOutput warnings false (ho_Reason out) (ho_FlowDecision agg), None))
          else
            apply_hooks ctx slot rest input
              (mkOutput warnings (ho_Allow agg) (ho_Reason agg)
                 (match ho_FlowDecision out with Some d => Some d | None => ho_FlowDecision agg end))
      end
  end.

Definition Apply (c : Chain) (ctx : context) (slot : string) (input : Input)
    : Input * (Output * option error) := apply_hooks ctx slot c input (mkOutput [] true "" None).

Definition Len (c : Chain) : nat := length c.
Definition Hooks_ (c : Chain) : list Hook := c.

(** ** The built-in agents *)

Definition sisyphusAgent : Agent :=
  mkAgent "sisyphus" "Orchestrator: dispatches sub-work to executors and verifies outcomes." None
    "orchestrator" "cautious" "expensive" "primary"
    (Some [mkModelCandidate "anthropic/claude-opus-4-7" "high" "" ∅])
    (mkToolPolicy ToolModeAllExcept None None) None None None "code:internal/agents/sisyphus.go".

Definition sisyphus_rules (ctx : context) (input : Input) : Input * result Output :=
  match in_Spec input with
  | None => (input, Ok (mkOutput [] true "" None))
  | Some spec =>
      let env := <["OMG_AGENT_ROLE" := "orchestrator"]> (default ∅ (wsp_Env spec)) in
      let spec := mkWorkerSpec ("[SISYPHUS] " +:+ wsp_Goal spec) (wsp_ProjectDir spec)
                    (wsp_AllowTools spec) (Some env) in
      (mkInput (in_Slot input) (in_AgentName input) (in_Goal input) (Some spec) (in_Event input)
         (in_Request input) (in_ToolCall input) (in_SessionEvent input),
       Ok (mkOutput ["sisyphus orchestrator rules applied"] true "" None))
  end.

Definition sisyphusOrchRulesHook : Hook := NewFunc "sisyphus.orch-rules" SlotInput 10 sisyphus_rules.

Definition oracleAgent : Agent :=
  mkAgent "oracle" "Read-only consultant: high-IQ reasoning for debugging and architecture." None
    "advisor" "cautious" "expensive" "subagent"
    (Some [mkModelCandidate "openai/gpt-5.5" "high" "" ∅])
    (mkToolPolicy ToolModeAllowlist (Some ["read"; "grep"; "glob"; "bash"]) None) None None None
    "code:internal/agents/oracle.go".

Definition denied (tool : string) : bool := existsb (String.eqb tool) ["write"; "edit"; "task"].

Definition oracle_deny (ctx : context) (input : Input) : Input * result Output :=
  (input, Ok match in_Spec input with
             | None => mkOutput [] true "" None
             | Some spec =>
                 match List.find denied (wsp_AllowTools spec) with
                 | Some t => mkOutput [] false ("oracle is read-only; tool denied: " +:+ t) None
                 | None => mkOutput [] true "" None
                 end
             end).

Definition oracleDenyWriteHook : Hook := NewFunc "oracle.deny-write" SlotInput 10 oracle_deny.

Definition hephaestusAgent : Agent :=
  mkAgent "hephaestus" "Autonomous executor: takes a goal and works it to completion." None
    "executor" "high" "medium" "all" (Some [mkModelCandidate "openai/gpt-5.5" "medium" "" ∅])
    (mkToolPolicy ToolModeAllExcept None None) None None None "code:internal/agents/hephaestus.go".

(** [agentHooksMap] *)
Abbreviation agent_hooks := (gmap string (list Hook)).

Definition registerHooks (agentName : string) (hooks : list Hook) (m : agent_hooks) : agent_hooks :=
  <[agentName := hooks]> m.
Definition Hooks (m : agent_hooks) (agentName : string) : slice Hook := m !! agentName.
(** in the random order of a [range] over the map *)
Definition AllAgents (m : agent_hooks) : gset string := dom m.

(** What the package's [init] functions leave behind, in any order. *)
Definition init_hooks : agent_hooks :=
  registerHooks "sisyphus" [sisyphusOrchRulesHook]
    (registerHooks "oracle" [oracleDenyWriteHook] ∅).

(** ** What a chain does *)

(** Applying hooks one after the other to the input they share. *)
Fixpoint thread (ctx : context) (hooks : list Hook) (input : Input) : Input * list (result Output) :=
  match hooks with
  | [] => (input, [])
  | h :: rest =>
      let '(input, r) := hk_Apply h ctx input in
      let '(input, rs) := thread ctx rest input in (input, r :: rs)
  end.

(** An outcome that ends a chain: only in a hard slot, an error or a denial. *)
Definition stops (slot : string) (r : result Output) : bool :=
  hardSlots slot && match r with Err _ => true | Ok out => negb (ho_Allow out) end.

Definition hook_warnings (h : Hook) (r : result Output) : list string :=
  match r with
  | Ok out => ho_Warnings out
  | Err err => ["hook " +:+ hk_ID h +:+ " error: " +:+ Error err]
  end.

Definition flow_of (r : result Output) : option FlowDecision :=
  match r with Ok out => ho_FlowDecision out | Err _ => None end.

(** The last decision wins; [before] is what was decided already. *)
Definition last_flow (before : option FlowDecision) (rs : list (result Output)) : option FlowDecision :=
  foldl (fun d r => match flow_of r with Some d' => Some d' | None => d end) before rs.

Definition in_slot (slot : string) (c : list Hook) : list Hook :=
  List.filter (fun h => hk_Slot h =s slot) c.

(** What the hooks of a slot make of [agg0]: all of them pass, or one stops the
    chain. *)
Inductive chain_end (slot : string) (agg0 : Output) (hs : list Hook) :
    list (result Output) -> Output * option error -> Prop :=
| AllPass good agg :
    Forall (fun r => stops slot r = false) good -> length good = length hs ->
    agg = mkOutput (ho_Warnings agg0 ++ concat (zip_with hook_warnings hs good)) (ho_Allow agg0)
            (ho_Reason agg0) (last_flow (ho_FlowDecision agg0) good) ->
    chain_end slot agg0 hs good (agg, None)
| Fails good err agg :
    Forall (fun r => stops slot r = false) good -> stops slot (Err err) = true ->
    length good < length hs ->
    agg = mkOutput (ho_Warnings agg0 ++ concat (zip_with hook_warnings hs good)) (ho_Allow agg0)
            (ho_Reason agg0) (last_flow (ho_FlowDecision agg0) good) ->
    chain_end slot agg0 hs (good ++ [Err err]) (agg, Some err)
| Denies good out agg :
    Forall (fun r => stops slot r = false) good -> stops slot (Ok out) = true ->
    length good < length hs ->
    agg = mkOutput (ho_Warnings agg0 ++ concat (zip_with hook_warnings hs good) ++ ho_Warnings out)
            false (ho_Reason out) (last_flow (ho_FlowDecision agg0) good) ->
    chain_end slot agg0 hs (good ++ [Ok out]) (agg, None).

Lemma chain_end_cons slot agg0 h hs r outs res :
  stops slot r = false ->
  chain_end slot (mkOutput (ho_Warnings agg0 ++ hook_warnings h r) (ho_Allow agg0) (ho_Reason agg0)
                    (match flow_of r with Some d => Some d | None => ho_FlowDecision agg0 end)) hs outs res ->
  chain_end slot agg0 (h :: hs) (r :: outs) res.
Proof.
  intros Hr. inversion 1 as [good agg Hg Hl E | good err agg Hg Hs Hl E | good out agg Hg Hs Hl E]; subst;
    cbn [ho_Warnings ho_Allow ho_Reason ho_FlowDecision].
  - apply AllPass; [by constructor | cbn; lia |]. cbn. by rewrite <- app_assoc.
  - apply (Fails _ _ _ (r :: good)); [by constructor | done | cbn; lia |]. cbn. by rewrite <- app_assoc.
  - apply (Denies _ _ _ (r :: good)); [by constructor | done | cbn; lia |]. cbn. by rewrite <- !app_assoc.
Qed.

Lemma apply_hooks_spec ctx slot hooks input agg :
  exists ran rest outs input',
    in_slot slot hooks = ran ++ rest /\ thread ctx ran input = (input', outs) /\
    (apply_hooks ctx slot hooks input agg).1 = input' /\
    chain_end slot agg (in_slot slot hooks) outs (apply_hooks ctx slot hooks input agg).2.
Proof.
  revert input agg. induction hooks as [|h hooks IH]; intros input agg; cbn [apply_hooks in_slot List.filter].
  { exists [], [], [], input. split_and!; [done..|]. apply AllPass; [constructor | done |]. cbn.
    rewrite app_nil_r. by destruct agg. }
  destruct (hk_Slot h =s slot) eqn:Es; cbn [negb]; [|apply IH].
  destruct (hk_Apply h ctx input) as [input1 r] eqn:Ea.
  assert (stops slot r = false -> forall agg1,
    agg1 = mkOutput (ho_Warnings agg ++ hook_warnings h r) (ho_Allow agg) (ho_Reason agg)
             (match flow_of r with Some d => Some d | None => ho_FlowDecision agg end) ->
    exists ran rest outs input', h :: in_slot slot hooks = ran ++ rest /\
      thread ctx ran input = (input', outs) /\
      (apply_hooks ctx slot hooks input1 agg1).1 = input' /\
      chain_end slot agg (h :: in_slot slot hooks) outs (apply_hooks ctx slot hooks input1 agg1).2) as Hgo.
  { intros Hr agg1 ->.
    match goal with |- context [apply_hooks _ _ _ _ ?a] => destruct (IH input1 a)
      as (ran & rest & outs & input' & E1 & E2 & E3 & E4) end.
    exists (h :: ran), rest, (r :: outs), input'. split_and!; [by cbn; rewrite E1 | | done |].
    - cbn. by rewrite Ea, E2.
    - by apply chain_end_cons. }
  assert (stops slot r = true -> exists ran rest outs input', h :: in_slot slot hooks = ran ++ rest /\
      thread ctx ran input = (input', outs) /\ input1 = input' /\ outs = [r]) as Hend.
  { intros _. exists [h], (in_slot slot hooks), [r], input1. cbn. by rewrite Ea. }
  destruct r as [out|err]; cbn [stops] in *; unfold stops in *.
  - destruct (hardSlots slot && negb (ho_Allow out)) eqn:Eh.
    + destruct (Hend eq_refl) as (ran & rest & outs & input' & E1 & E2 & -> & ->).
      exists ran, rest, [Ok out], input'. split_and!; [done..|].
      apply (Denies _ _ _ []); [done | done | cbn; lia |]. done.
    + apply Hgo; [done|]. done.
  - rewrite andb_true_r in *. destruct (hardSlots slot) eqn:Eh.
    + destruct (Hend eq_refl) as (ran & rest & outs & input' & E1 & E2 & -> & ->).
      exists ran, rest, [Err err], input'. split_and!; [done..|].
      apply (Fails _ _ _ []); [done | by unfold stops; rewrite Eh | cbn; lia |]. cbn.
      rewrite app_nil_r. by destruct agg.
    + apply Hgo; [done|]. done.
Qed.

Lemma NewChain_sorted hooks :
  NewChain hooks ≡ₚ hooks /\
  StronglySorted (fun h1 h2 => (hk_Priority h1 <= hk_Priority h2)%Z) (NewChain hooks).
Proof.
  split; [apply stable_sort_perm|].
  pose proof (stable_sort_sorted (key_less hk_Priority) hooks) as Hs. unfold NewChain.
  induction Hs as [|h l _ IH Hh]; constructor; [exact IH|].
  eapply Forall_impl; [exact Hh|]. intros x. unfold key_less. cbn.
  destruct (Z.ltb_spec (hk_Priority x) (hk_Priority h)); [done | lia].
Qed.

(** C33: a chain applies the hooks of the slot, and no others, in order of priority,
    hooks of equal priority in the order they were given, each to the input the
    earlier ones left. In the soft slots every hook runs
    and an error is only a warning; in the hard slots the first error or denial
    ends the chain, and no later hook runs. Warnings are gathered in order, and
    the last flow decision wins. *)
Theorem Apply_spec hooks ctx slot input :
  let c := NewChain hooks in
  c ≡ₚ hooks /\ StronglySorted (fun h1 h2 => (hk_Priority h1 <= hk_Priority h2)%Z) c /\
  (forall h, filter (incomparable (key_less hk_Priority) h) c
             = filter (incomparable (key_less hk_Priority) h) hooks) /\
  (exists ran rest outs input',
    in_slot slot c = ran ++ rest /\ thread ctx ran input = (input', outs) /\
    (Apply c ctx slot input).1 = input' /\
    chain_end slot (mkOutput [] true "" None) (in_slot slot c) outs (Apply c ctx slot input).2) /\
  (slot ∉ [SlotInput; SlotGuard] -> (Apply c ctx slot input).2.2 = None /\
     ho_Allow (Apply c ctx slot input).2.1 = true).
Proof.
  intros c. destruct (NewChain_sorted hooks) as [Hp Hs]. split; [exact Hp|]. split; [exact Hs|].
  split; [intros h; apply (stable_sort_stable (key_less hk_Priority))|].
  destruct (apply_hooks_spec ctx slot c input (mkOutput [] true "" None))
    as (ran & rest & outs & input' & E1 & E2 & E3 & E4). fold (Apply c ctx slot input) in E3, E4.
  split; [by exists ran, rest, outs, input'|]. intros Hsoft.
  assert (forall r, stops slot r = false) as Hno.
  { intros r. unfold stops, hardSlots. destruct (slot =s SlotInput) eqn:Q1; str_simpl.
    { exfalso. apply Hsoft. subst. in_list. }
    destruct (slot =s SlotGuard) eqn:Q2; str_simpl; [exfalso; apply Hsoft; subst; in_list | done]. }
  inversion E4 as [good agg Hg Hl E | good err agg Hg Hst Hl E | good out agg Hg Hst Hl E];
    [by subst | by rewrite Hno in Hst | by rewrite Hno in Hst].
Qed.

(** The oracle's hook denies exactly the specifications that allow one of the tools
    [write], [edit] and [task], spelled so. *)
Lemma oracle_alone ctx input spec :
  in_Spec input = Some spec ->
  ho_Allow (Apply (NewChain (elems (Hooks init_hooks "oracle"))) ctx SlotInput input).2.1 =
    negb (existsb denied (wsp_AllowTools spec)).
Proof.
  intros E. unfold Hooks. replace (init_hooks !! "oracle") with (Some [oracleDenyWriteHook])
    by (vm_compute; reflexivity).
  cbn. rewrite E. induction (wsp_AllowTools spec) as [|t l IH]; [done|]. cbn [List.find existsb].
  by destruct (denied t).
Qed.
