(* ===== verification/Skills.v ===== *)
(** * internal/skills: skill files and the skill registry

    [src/internal/skills/]: reading one skill directory ([skills.go]) and
    collecting the skills of the configured scopes ([registry.go]). Reading files
    and directories is the operating system's, decoding a skill file is
    [yaml.v3]'s: both are parameters. *)

From S2P Require Import Prelude GoStrings GoValue GoPath GoSort.
From stdpp Require Import sorting.

(** ** Data *)

Definition SkillFilename : string := "skill.yaml".

Record Trigger := mkTrigger { tr_Pattern : string; tr_Priority : Z }.
Record MCP := mkMCP { mcp_Server : string; mcp_Tools : slice string; mcp_EnvInherit : slice string }.

Record Skill := mkSkill {
  sk_Name : string;
  sk_Description : string;
  sk_Triggers : slice Trigger;
  sk_PromptPath : string;
  sk_PromptText : string;
  sk_MCP : option MCP
}.

Record skillFile := mkSkillFile {
  sf_Name : string;
  sf_Description : string;
  sf_Triggers : slice Trigger;
  sf_Prompt : string;
  sf_MCP : option MCP;
  sf_Agent : string;
  sf_Model : string
}.

(** [Scope] is an [int]: a smaller scope wins. *)
Definition ScopeProject : Z := 0.
Definition ScopeOpencode : Z := 1.
Definition ScopeUser : Z := 2.
Definition ScopeBuiltin : Z := 3.

Record ScopePath := mkScopePath { sp_Scope : Z; sp_Dir : string }.

Abbreviation Registry := (gmap string Skill).

(** ** Operations *)

Section load.
Context (os_ReadFile : string -> result string) (yaml_Unmarshal : string -> result skillFile).
(** [os.ReadDir]: names in order, and whether the entry itself is a directory *)
Context (os_ReadDir : string -> result (list (string * bool))).

Definition Load (dir : string) : result Skill :=
  data ← os_ReadFile (JoinPath [dir; SkillFilename]);
  file ← yaml_Unmarshal data;
  if (sf_Agent file <>s "") || (sf_Model file <>s "") then
    Err (errorf "skill schema rejected agent/model fields in v1")
  else if sf_Name file =s "" then Err (errorf "skill name is required")
  else if sf_Description file =s "" then Err (errorf "skill description is required")
  else
    let skill text := mkSkill (sf_Name file) (sf_Description file) (sf_Triggers file) (sf_Prompt file)
                        text (sf_MCP file) in
    if sf_Prompt file <>s "" then
      prompt ← os_ReadFile (JoinPath [dir; sf_Prompt file]);
      Ok (skill prompt)
    else Ok (skill "").

Definition load_entry (dir : string) (skills : Registry) (entry : string * bool) : Registry :=
  if negb entry.2 then skills
  else match Load (JoinPath [dir; entry.1]) with
       | Err _ => skills
       | Ok skill =>
           match skills !! sk_Name skill with
           | Some _ => skills
           | None => <[sk_Name skill := skill]> skills
           end
       end.

(** The loop of [LoadAll] over the scopes, which [sort.Slice] has sorted. *)
Fixpoint load_scopes (scopes : list ScopePath) (skills : Registry) : result Registry :=
  match scopes with
  | [] => Ok skills
  | sp :: rest =>
      match os_ReadDir (sp_Dir sp) with
      | Err err => if is_not_exist err then load_scopes rest skills else Err err
      | Ok entries => load_scopes rest (foldl (load_entry (sp_Dir sp)) skills entries)
      end
  end.

(** [sort.Slice] is not stable: [sorted] is the order it leaves the scopes in. *)
Definition LoadAll (sorted : list ScopePath) : result Registry := load_scopes sorted ∅.
End load.

(** What [sort.Slice] promises of the scopes. *)
Definition scopes_sorted (scopes sorted : list ScopePath) : Prop :=
  sorted ≡ₚ scopes /\ StronglySorted (fun x y => (sp_Scope x <= sp_Scope y)%Z) sorted.

Definition Get (r : Registry) (name : string) : option Skill := r !! name.

(** The names are the keys of the map, so that no two skills compare equal. *)
Definition All (r : Registry) : list Skill := stable_sort (key_str_less sk_Name) (map snd (map_to_list r)).

(** ** Theorems *)

Section theorems.
Context (os_ReadFile : string -> result string) (yaml_Unmarshal : string -> result skillFile).
Context (os_ReadDir : string -> result (list (string * bool))).

Abbreviation Load := (Load os_ReadFile yaml_Unmarshal).
Abbreviation LoadAll := (LoadAll os_ReadFile yaml_Unmarshal os_ReadDir).
Abbreviation load_scopes := (load_scopes os_ReadFile yaml_Unmarshal os_ReadDir).
Abbreviation load_entry := (load_entry os_ReadFile yaml_Unmarshal).

(** [sp] offers [skill]: one of its subdirectories loads as it. *)
Definition offers (sp : ScopePath) (skill : Skill) : Prop :=
  exists entries entry, os_ReadDir (sp_Dir sp) = Ok entries /\ (entry, true) ∈ entries /\
    Load (JoinPath [sp_Dir sp; entry]) = Ok skill.

Lemma load_entry_lookup dir skills entry name :
  load_entry dir skills entry !! name =
  match skills !! name with
  | Some s => Some s
  | None =>
      if entry.2 then
        match Load (JoinPath [dir; entry.1]) with
        | Ok s => if sk_Name s =s name then Some s else None
        | Err _ => None
        end
      else None
  end.
Proof.
  unfold Skills.load_entry. destruct entry.2; cbn [negb]; [|by destruct (skills !! name)].
  destruct (Load _) as [s|]; [|by destruct (skills !! name)].
  destruct (sk_Name s =s name) eqn:E; str_simpl.
  - subst. destruct (skills !! sk_Name s) eqn:Hs; [by rewrite Hs|by rewrite lookup_insert_eq].
  - destruct (skills !! sk_Name s); [by destruct (skills !! name)|].
    rewrite lookup_insert_ne by done. by destruct (skills !! name).
Qed.

(** A registered skill stays; a new one comes from an entry of the directory. *)
Lemma load_entries_lookup dir entries skills name :
  match foldl (load_entry dir) skills entries !! name with
  | Some s => skills !! name = Some s \/ skills !! name = None /\ sk_Name s = name /\
      exists entry, (entry, true) ∈ entries /\ Load (JoinPath [dir; entry]) = Ok s
  | None => skills !! name = None /\
      forall entry s, (entry, true) ∈ entries -> Load (JoinPath [dir; entry]) = Ok s -> sk_Name s <> name
  end.
Proof.
  revert skills. induction entries as [|[e b] entries IH]; intros skills; cbn [foldl].
  { destruct (skills !! name); [by left|]. split; [done|]. by intros ? ? ?%elem_of_nil. }
  specialize (IH (load_entry dir skills (e, b))). rewrite load_entry_lookup in IH. cbn [fst snd] in IH.
  destruct (foldl _ _ _ !! name) as [s|].
  - destruct (skills !! name) as [s'|].
    { destruct IH as [IH|[IH _]]; [by left|done]. }
    right. split; [done|]. destruct b.
    + destruct (Load (JoinPath [dir; e])) as [s'|] eqn:El.
      * destruct (sk_Name s' =s name) eqn:En; str_simpl.
        { destruct IH as [IH|[IH _]]; [|done]. injection IH as <-. split; [done|]. exists e. set_solver. }
        { destruct IH as [|(_ & Hn & e' & He & Hl)]; [done|]. split; [done|]. exists e'. set_solver. }
      * destruct IH as [|(_ & Hn & e' & He & Hl)]; [done|]. split; [done|]. exists e'. set_solver.
    + destruct IH as [|(_ & Hn & e' & He & Hl)]; [done|]. split; [done|]. exists e'. set_solver.
  - destruct (skills !! name) as [s'|]; [by destruct IH|]. split; [done|].
    intros e' s' [[= -> <-]|He]%elem_of_cons Hl; [|by destruct IH as [_ IH]; apply (IH e')].
    intros Hx. rewrite Hl, Hx, String.eqb_refl in IH. by destruct IH.
Qed.

(** What is registered when the loop ends was there before it, or is offered by
    the first scope that offers its name. *)
Lemma load_scopes_lookup scopes skills reg name :
  load_scopes scopes skills = Ok reg ->
  match reg !! name with
  | Some s => skills !! name = Some s \/ skills !! name = None /\ sk_Name s = name /\
      exists l1 sp l2, scopes = l1 ++ sp :: l2 /\ offers sp s /\
        forall sp' s', sp' ∈ l1 -> offers sp' s' -> sk_Name s' <> name
  | None => skills !! name = None /\ forall sp s, sp ∈ scopes -> offers sp s -> sk_Name s <> name
  end.
Proof.
  revert skills. induction scopes as [|sp scopes IH]; intros skills; cbn [Skills.load_scopes].
  { intros [= <-]. destruct (skills !! name); [by left|]. split; [done|]. by intros ? ? ?%elem_of_nil. }
  assert (forall skills', load_scopes scopes skills' = Ok reg ->
    (skills' !! name = skills !! name \/ skills !! name = None /\ exists s, skills' !! name = Some s /\
      sk_Name s = name /\ offers sp s) ->
    (skills' !! name = None -> forall s, offers sp s -> sk_Name s <> name) ->
    match reg !! name with
    | Some s => skills !! name = Some s \/ skills !! name = None /\ sk_Name s = name /\
        exists l1 sp0 l2, sp :: scopes = l1 ++ sp0 :: l2 /\ offers sp0 s /\
          forall sp' s', sp' ∈ l1 -> offers sp' s' -> sk_Name s' <> name
    | None => skills !! name = None /\ forall sp0 s, sp0 ∈ sp :: scopes -> offers sp0 s -> sk_Name s <> name
    end) as Hstep.
  { intros skills' Hl Hs Hno. specialize (IH skills' Hl). destruct (reg !! name) as [s|].
    - destruct IH as [IH|(Hn & Hname & l1 & sp0 & l2 & -> & Ho & Hb)].
      + destruct Hs as [Hs|(Hn & s' & Hs & Hname & Ho)]; [left; congruence|]. right. split; [done|].
        assert (s' = s) as -> by congruence. split; [done|]. exists [], sp, scopes.
        split_and!; try done. by intros ? ? ?%elem_of_nil.
      + right. destruct Hs as [Hs|(_ & s' & Hs & _)]; [|congruence].
        split_and!; [congruence|done|]. exists (sp :: l1), sp0, l2. split_and!; try done.
        intros sp' s' [->|Hin]%elem_of_cons; [by apply Hno|by apply Hb].
    - destruct IH as [Hn IH]. destruct Hs as [Hs|(_ & s' & Hs & _)]; [|congruence].
      split; [congruence|]. intros sp0 s [->|Hin]%elem_of_cons; [by apply Hno|by apply IH]. }
  destruct (os_ReadDir (sp_Dir sp)) as [entries|err] eqn:Er.
  - intros Hl. apply (Hstep _ Hl); pose proof (load_entries_lookup (sp_Dir sp) entries skills name) as He.
    + destruct (foldl _ _ _ !! name) as [s|]; [|left; by destruct He].
      destruct He as [He|(Hn & Hname & e & Hin & Hload)]; [by left|]. right. split; [done|].
      exists s. split_and!; try done. by exists entries, e.
    + intros Hn. rewrite Hn in He. destruct He as [_ He]. intros s (entries' & e & Hr & Hin & Hload).
      rewrite Er in Hr. injection Hr as <-. by apply (He e).
  - destruct (is_not_exist err); [|done]. intros Hl. apply (Hstep _ Hl); [by left|].
    intros _ s (entries' & e & Hr & _). congruence.
Qed.

(** A skill that loads comes from a file with a name, a description and no
    agent or model, and carries the text of the prompt file it names; every
    failure of the two reads and of the decoding, and each missing or rejected
    field, is an error. *)
Theorem Load_ok dir s :
  Load dir = Ok s <->
  exists data file,
    os_ReadFile (JoinPath [dir; SkillFilename]) = Ok data /\ yaml_Unmarshal data = Ok file /\
    sf_Agent file = "" /\ sf_Model file = "" /\ sf_Name file <> "" /\ sf_Description file <> "" /\
    (if decide (sf_Prompt file = "") then sk_PromptText s = ""
     else os_ReadFile (JoinPath [dir; sf_Prompt file]) = Ok (sk_PromptText s)) /\
    s = mkSkill (sf_Name file) (sf_Description file) (sf_Triggers file) (sf_Prompt file)
          (sk_PromptText s) (sf_MCP file).
Proof.
  unfold Skills.Load. rewrite bind_ok. split.
  - intros (data & Hd & H). apply bind_ok in H as (file & Hf & H). exists data, file.
    destruct (sf_Agent file =s "") eqn:E1; [|done]. destruct (sf_Model file =s "") eqn:E2; [|done]. cbn in H.
    destruct (sf_Name file =s "") eqn:E3; [done|]. destruct (sf_Description file =s "") eqn:E4; [done|].
    str_simpl. destruct (decide (sf_Prompt file = "")) as [Hp|Hp].
    + rewrite Hp in H. cbn in H. injection H as <-. rewrite Hp. by split_and!.
    + apply eqb_false in Hp. rewrite Hp in H. cbn [negb] in H. apply bind_ok in H as (p & Hr & H).
      injection H as <-. split_and!; try done. cbn. by rewrite Hp.
  - intros (data & file & Hd & Hf & E1 & E2 & E3 & E4 & Hp & Hs). exists data. split; [done|].
    rewrite Hf. cbn. rewrite E1, E2. apply eqb_false in E3, E4. cbn. rewrite E3, E4.
    remember (sk_PromptText s) as text eqn:Et. clear Et. subst s.
    destruct (decide (sf_Prompt file = "")) as [Hn|Hn].
    + rewrite Hn, Hp. done.
    + apply eqb_false in Hn. rewrite Hn. cbn in Hp |- *. rewrite Hn in Hp. by rewrite Hp.
Qed.

(** Of the skills of one name the registry holds one from the smallest scope
    that offers the name, whatever the order the unstable sort leaves scopes of
    equal rank in, and a name that no scope offers is absent. *)
Theorem LoadAll_precedence scopes sorted reg
    (Hsorted : scopes_sorted scopes sorted) (Hok : LoadAll sorted = Ok reg) name :
  match Get reg name with
  | Some s => sk_Name s = name /\ exists sp, sp ∈ scopes /\ offers sp s /\
      forall sp' s', sp' ∈ scopes -> offers sp' s' -> sk_Name s' = name -> (sp_Scope sp <= sp_Scope sp')%Z
  | None => forall sp s, sp ∈ scopes -> offers sp s -> sk_Name s <> name
  end.
Proof.
  destruct Hsorted as [Hp Hs]. unfold Get. pose proof (load_scopes_lookup _ _ _ name Hok) as H.
  destruct (reg !! name) as [s|].
  - destruct H as [|(_ & Hn & l1 & sp & l2 & -> & Ho & Hb)]; [done|]. split; [done|]. exists sp.
    split_and!; [rewrite <- Hp; set_solver|done|]. intros sp' s' Hin Ho' Hn'. rewrite <- Hp in Hin.
    apply elem_of_app in Hin as [Hin|[->|Hin]%elem_of_cons]; [by destruct (Hb _ _ Hin Ho')|lia|].
    apply StronglySorted_app_1_r in Hs. apply StronglySorted_inv in Hs as [_ Hs].
    by apply (proj1 (Forall_forall _ _) Hs).
  - destruct H as [_ H]. intros sp s0 Hin. apply H. by rewrite Hp.
Qed.

(** Loading fails exactly when some scope's directory exists and cannot be
    read: a directory that is missing and a skill that does not load are skipped. *)
Theorem LoadAll_fails_iff scopes :
  (exists err, LoadAll scopes = Err err) <->
  (exists sp err, sp ∈ scopes /\ os_ReadDir (sp_Dir sp) = Err err /\ is_not_exist err = false).
Proof.
  unfold Skills.LoadAll. generalize (∅ : Registry). induction scopes as [|sp scopes IH]; intros skills; cbn.
  { split; [by intros [? [=]]|by intros (? & ? & ?%elem_of_nil & _)]. }
  destruct (os_ReadDir (sp_Dir sp)) as [entries|err] eqn:E; [|destruct (is_not_exist err) eqn:Ei].
  1,2: rewrite IH; split; [intros (sp' & e & Hin & H); exists sp', e; split; [by right|done]|];
    intros (sp' & e & [->|Hin]%elem_of_cons & Hr & Hi); [congruence|by exists sp', e].
  split; [|by eexists]. intros _. exists sp, err. split_and!; [by left|done|done].
Qed.
End theorems.

(** Listing a registry whose keys are the names of its skills gives every skill
    once, in the order of the names, whatever order Go's [range] meets them in. *)
Lemma All_sorted (r : Registry) (met : list Skill)
    (Hkeys : forall name s, r !! name = Some s -> sk_Name s = name)
    (Hmet : met ≡ₚ map snd (map_to_list r)) :
  stable_sort (key_str_less sk_Name) met = All r.
Proof.
  symmetry. apply stable_sort_perm_inv; [apply _| |by symmetry]. intros x y Hx Hy Hi.
  apply list_elem_of_fmap in Hx as ((nx & x') & -> & Hx), Hy as ((ny & y') & -> & Hy).
  apply elem_of_map_to_list in Hx, Hy. cbn in *.
  assert (sk_Name x' = sk_Name y') as Hn by (apply str_less_total; exact Hi).
  rewrite (Hkeys _ _ Hx), (Hkeys _ _ Hy) in Hn. congruence.
Qed.

(** ** A project and a user scope with a skill of one name *)

Definition demo_ReadFile (path : string) : result string :=
  if path =s "/p/refactor/skill.yaml" then Ok "project"
  else if path =s "/u/mine/skill.yaml" then Ok "user"
  else Err (mkError KNotExist "no such file or directory").
Definition demo_Unmarshal (data : string) : result skillFile :=
  Ok (mkSkillFile "refactor" data None "" None "" "").
Definition demo_ReadDir (dir : string) : result (list (string * bool)) :=
  if dir =s "/p" then Ok [("notes.txt", false); ("refactor", true)]
  else if dir =s "/u" then Ok [("broken", true); ("mine", true)]
  else Err (mkError KNotExist "no such file or directory").
Definition demo_scopes : list ScopePath :=
  [mkScopePath ScopeBuiltin "/b"; mkScopePath ScopeUser "/u"; mkScopePath ScopeProject "/p"].

Lemma LoadAll_precedence_witness :
  exists reg s, LoadAll demo_ReadFile demo_Unmarshal demo_ReadDir (rev demo_scopes) = Ok reg /\
    Get reg "refactor" = Some s /\ sk_Description s = "project" /\
    exists sp, sp ∈ demo_scopes /\ offers demo_ReadFile demo_Unmarshal demo_ReadDir sp s /\
      forall sp' s', sp' ∈ demo_scopes -> offers demo_ReadFile demo_Unmarshal demo_ReadDir sp' s' ->
        sk_Name s' = "refactor" -> (sp_Scope sp <= sp_Scope sp')%Z.
Proof.
  pose (s := mkSkill "refactor" "project" None "" "" None).
  exists (<["refactor" := s]> ∅), s. split; [vm_compute; reflexivity|].
  split; [reflexivity|]. split; [reflexivity|].
  refine (proj2 (LoadAll_precedence demo_ReadFile demo_Unmarshal demo_ReadDir demo_scopes (rev demo_scopes)
    (<["refactor" := s]> ∅) _ _ "refactor")).
  - split; [symmetry; apply Permutation_rev|].
    repeat constructor; unfold ScopeProject, ScopeUser, ScopeBuiltin; cbn; lia.
  - vm_compute; reflexivity.
Defined.
