(* ===== verification/Mcp.v ===== *)
(** * internal/mcp: server processes and the router of tool calls

    [src/internal/mcp/]: the manager keeps one process per session and server
    ([manager.go]), the router one client ([client.go]). Processes, the starter
    and clients are interface values of the source: records of their methods over
    a world [W]. A loop over a Go map takes the order it meets the entries in. *)

From S2P Require Import Prelude GoStrings GoValue GoTime.

Record ServerConfig := mkServerConfig {
  sc_Name : string;
  sc_Command : list string;
  sc_Tools : list string;
  sc_EnvInherit : list string
}.

Record Process (W : Type) := mkProcess {
  PID : Z;
  Alive : W -> W * bool;
  Stop : W -> W * option error
}.
Arguments mkProcess {W} _ _ _.
Arguments PID {W} _.
Arguments Alive {W} _ _.
Arguments Stop {W} _ _.

Abbreviation env := (gmap string string).
Abbreviation Starter W := (ServerConfig -> env -> W -> W * result (Process W)).

Record managedProcess (W : Type) := mkManaged { mp_process : Process W; mp_lastUsedAt : time }.
Arguments mkManaged {W} _ _.
Arguments mp_process {W} _.
Arguments mp_lastUsedAt {W} _.

Record Options (W : Type) := mkOptions {
  op_Starter : option (Starter W);
  op_IdleTimeout : duration;
  op_Env : option env
}.
Arguments mkOptions {W} _ _ _.
Arguments op_Starter {W} _.
Arguments op_IdleTimeout {W} _.
Arguments op_Env {W} _.

Record Manager (W : Type) := mkManager {
  m_starter : option (Starter W);
  m_idleTimeout : duration;
  m_env : env;
  m_clients : gmap string (managedProcess W)
}.
Arguments mkManager {W} _ _ _ _.
Arguments m_starter {W} _.
Arguments m_idleTimeout {W} _.
Arguments m_env {W} _.
Arguments m_clients {W} _.

Definition set_clients {W} (clients : gmap string (managedProcess W)) (m : Manager W) : Manager W :=
  mkManager (m_starter m) (m_idleTimeout m) (m_env m) clients.

Definition clientKey (sessionID serverName : string) : string := Join [sessionID; serverName] ":".

Definition cloneMap (values : option env) : env := default ∅ values.

Definition NewManager {W} (options : Options W) : Manager W :=
  mkManager (op_Starter options)
    (if (op_IdleTimeout options =? 0)%Z then (5 * Minute)%Z else op_IdleTimeout options)
    (cloneMap (op_Env options)) ∅.

Definition allowlistedEnv {W} (m : Manager W) (names : list string) : env :=
  foldl (fun out name => match m_env m !! name with
                         | Some value => <[name := value]> out
                         | None => out
                         end) ∅ names.

Section world.
Context {W : Type} `{Clock W}.
Implicit Types (m : Manager W) (w : W).

Definition now_or_clock (now : time) w : W * time :=
  if IsZero now then time_Now w else (w, now).

(** The second half of [Use]: no live process is at hand. *)
Definition start_process m (key : string) (config : ServerConfig) (now : time) w
    : W * Manager W * result (Process W) :=
  match m_starter m with
  | None => (w, m, Err (errorf "mcp starter is required"))
  | Some start =>
      match start config (allowlistedEnv m (sc_EnvInherit config)) w with
      | (w, Err err) => (w, m, Err err)
      | (w, Ok process) =>
          (w, set_clients (<[key := mkManaged process now]> (m_clients m)) m, Ok process)
      end
  end.

Definition Use m (sessionID : string) (config : ServerConfig) (now : time) w
    : W * Manager W * result (Process W) :=
  let '(w, now) := now_or_clock now w in
  let key := clientKey sessionID (sc_Name config) in
  match m_clients m !! key with
  | None => start_process m key config now w
  | Some managed =>
      let '(w, alive) := Alive (mp_process managed) w in
      if alive then
        (w, set_clients (<[key := mkManaged (mp_process managed) now]> (m_clients m)) m,
         Ok (mp_process managed))
      else start_process m key config now w
  end.

(** [entries] are those of the table, in the order the loop meets them. *)
Definition CleanupIdle (entries : list (string * managedProcess W)) m (now : time) w
    : W * Manager W * Z :=
  let '(w, now) := now_or_clock now w in
  let '(w, clients, removed) :=
    foldl (fun '(w, clients, removed) '(key, managed) =>
             if (Sub now (mp_lastUsedAt managed) <=? m_idleTimeout m)%Z then (w, clients, removed)
             else let '(w, _) := Stop (mp_process managed) w in
                  (w, delete key clients, (removed + 1)%Z))
      (w, m_clients m, 0%Z) entries in
  (w, set_clients clients m, removed).

Definition CleanupZombies (entries : list (string * managedProcess W)) m w : W * Manager W * Z :=
  let '(w, clients, removed) :=
    foldl (fun '(w, clients, removed) '(key, managed) =>
             let '(w, alive) := Alive (mp_process managed) w in
             if alive : bool then (w, clients, removed)
             else (w, delete key clients, (removed + 1)%Z))
      (w, m_clients m, 0%Z) entries in
  (w, set_clients clients m, removed).

Definition ActiveCount m : Z := Z.of_nat (size (m_clients m)).
End world.

(** ** The router *)

Record ToolResult := mkToolResult { tres_Content : string; tres_IsError : bool }.

Record Client (W : Type) := mkClient {
  cl_CallTool : context -> string -> object -> W -> W * result ToolResult;
  cl_ListTools : context -> W -> W * result (list string);
  cl_Close : W -> W * option error
}.
Arguments mkClient {W} _ _ _.
Arguments cl_CallTool {W} _ _ _ _ _.
Arguments cl_ListTools {W} _ _ _.
Arguments cl_Close {W} _ _.

Record CallRequest := mkCallRequest {
  cr_SessionID : string;
  cr_ServerName : string;
  cr_ToolName : string;
  cr_Args : object
}.

(** The router's manager is never used; it is left out. *)
Abbreviation Router W := (gmap string (Client W)).

Section router.
Context {W : Type} `{UnicodeTables}.
Implicit Types (r : Router W) (w : W).

Definition NewRouter : Router W := ∅.

Definition ErrServerNotFound (sessionID serverName : string) : error :=
  errorf ("mcp server " +:+ Quote serverName +:+ " not connected for session " +:+ Quote sessionID).

Definition Register r (sessionID serverName : string) (client : Client W) : Router W :=
  <[clientKey sessionID serverName := client]> r.

Definition Call r (ctx : context) (req : CallRequest) w : W * result ToolResult :=
  match r !! clientKey (cr_SessionID req) (cr_ServerName req) with
  | None => (w, Err (ErrServerNotFound (cr_SessionID req) (cr_ServerName req)))
  | Some c => cl_CallTool c ctx (cr_ToolName req) (cr_Args req) w
  end.

Definition ListTools r (ctx : context) (sessionID serverName : string) w : W * result (list string) :=
  match r !! clientKey sessionID serverName with
  | None => (w, Err (ErrServerNotFound sessionID serverName))
  | Some c => cl_ListTools c ctx w
  end.

(** [len(key) > len(prefix) && key[:len(prefix)] == prefix] *)
Definition extends (key prefix : string) : bool :=
  Nat.ltb (String.length prefix) (String.length key)
  && (str_take (String.length prefix) key =s prefix).

Definition Disconnect (entries : list (string * Client W)) r (sessionID : string) w : W * Router W :=
  foldl (fun '(w, r) '(key, c) =>
           if extends key sessionID then
             let '(w, _) := cl_Close c w in (w, delete key r)
           else (w, r)) (w, r) entries.

(** in the order the loop meets the keys *)
Definition ConnectedServers (keys : list string) (sessionID : string) : list string :=
  let prefix := sessionID +:+ ":" in
  omap (fun key => if extends key prefix then Some (str_drop (String.length prefix) key) else None) keys.
End router.

(** ** Theorems *)

Lemma clientKey_eq s n : clientKey s n = s +:+ ":" +:+ n.
Proof. reflexivity. Qed.

Lemma clientKey_inj s1 n1 s2 n2 :
  Contains s1 ":" = false -> Contains s2 ":" = false ->
  clientKey s1 n1 = clientKey s2 n2 -> s1 = s2 /\ n1 = n2.
Proof.
  rewrite !clientKey_eq. intros H1 H2 E.
  assert (cut_byte ":" (s1 +:+ ":" +:+ n1) = Some (s1, n1)) as C1 by (by apply cut_byte_app).
  assert (cut_byte ":" (s2 +:+ ":" +:+ n2) = Some (s2, n2)) as C2 by (by apply cut_byte_app).
  rewrite E in C1. naive_solver.
Qed.

Lemma extends_spec key prefix :
  extends key prefix = true <-> exists c rest, key = prefix +:+ String c rest.
Proof.
  unfold extends. rewrite andb_true_iff, Nat.ltb_lt, String.eqb_eq. split.
  - intros [Hl Ht]. rewrite <- (str_take_drop (String.length prefix) key), Ht.
    destruct (str_drop (String.length prefix) key) as [|c rest] eqn:E; [|eauto].
    exfalso. pose proof (str_take_drop (String.length prefix) key) as Hk.
    rewrite Ht, E, str_app_nil_r in Hk. rewrite <- Hk in Hl. lia.
  - intros (c & rest & ->). rewrite str_length_app. cbn [String.length].
    split; [lia | apply str_take_app].
Qed.

(** A loop over a map that deletes the entries it dislikes. *)
Definition deletes {A} (P : string * A -> bool) (entries : list (string * A)) (m : gmap string A)
    : gmap string A := foldl (fun m kv => if P kv then delete kv.1 m else m) m entries.

Lemma deletes_lookup {A} (P : string * A -> bool) entries m k :
  deletes P entries m !! k =
    if existsb (fun kv => (kv.1 =s k) && P kv) entries then None else m !! k.
Proof.
  revert m. induction entries as [|[k' v] entries IH]; intros m; [done|]. 
  change (deletes P entries (if P (k', v) then delete k' m else m) !! k =
    if (k' =s k) && P (k', v) || existsb (fun kv => (kv.1 =s k) && P kv) entries then None
    else m !! k).
  rewrite IH.
  destruct (existsb _ entries); [by rewrite orb_true_r|]. rewrite orb_false_r.
  destruct (P (k', v)); [|by rewrite andb_false_r]. rewrite andb_true_r.
  destruct (k' =s k) eqn:E; str_simpl; [subst; apply lookup_delete_eq | by apply lookup_delete_ne].
Qed.

Lemma deletes_filter {A} (P : string * A -> bool) entries (m : gmap string A) :
  entries ≡ₚ map_to_list m -> deletes P entries m = filter (fun kv => P kv = false) m.
Proof.
  intros He. apply map_eq. intros k. rewrite deletes_lookup.
  destruct (existsb _ entries) eqn:E.
  - symmetry. apply map_lookup_filter_None. right. intros v Hv.
    apply existsb_exists in E as ([k' v'] & Hin & Hb). cbn in Hb.
    apply andb_true_iff in Hb as [Hk HP]. str_simpl. subst k'.
    apply list_elem_of_In in Hin. rewrite He in Hin. apply elem_of_map_to_list in Hin.
    assert (v' = v) as -> by congruence. by rewrite HP.
  - destruct (m !! k) as [v|] eqn:Ev; symmetry.
    + apply map_lookup_filter_Some. split; [done|].
      destruct (P (k, v)) eqn:EP; [|done]. exfalso.
      assert (existsb (fun kv => (kv.1 =s k) && P kv) entries = true) as Hx; [|congruence].
      apply existsb_exists. exists (k, v). rewrite <- list_elem_of_In, He, elem_of_map_to_list.
      split; [done|]. cbn. by rewrite String.eqb_refl, EP.
    + apply map_lookup_filter_None. by left.
Qed.

Lemma size_filter {A} (P : string * A -> bool) entries (m : gmap string A) :
  entries ≡ₚ map_to_list m ->
  size (filter (fun kv => P kv = false) m) + length (List.filter P entries) = size m.
Proof.
  intros He. rewrite map_filter_alt, map_size_list_to_map.
  - rewrite <- length_map_to_list. rewrite <- He. clear.
    induction entries as [|kv l IH]; [done|]. cbn [List.filter]. rewrite filter_cons.
    destruct (P kv); case_decide; try done; cbn [length]; lia.
  - apply (sublist_NoDup _ ((map_to_list m).*1)); [apply NoDup_fst_map_to_list|].
    apply fmap_sublist, sublist_filter.
Qed.

Section specs.
Context {W : Type} `{Clock W}.
Implicit Types (m : Manager W) (w : W).

Lemma allowlistedEnv_lookup m names k :
  allowlistedEnv m names !! k = if decide (k ∈ names) then m_env m !! k else None.
Proof.
  unfold allowlistedEnv.
  assert (forall out : env, foldl (fun out name => match m_env m !! name with
      | Some value => <[name := value]> out | None => out end) out names !! k =
    if decide (k ∈ names) then (match m_env m !! k with Some v => Some v | None => out !! k end)
    else out !! k) as Hf.
  { induction names as [|name names IH]; intros out; cbn [foldl]; [done|]. rewrite IH.
    destruct (decide (k ∈ names)) as [Hin|Hnin].
    - rewrite decide_True by (by right). destruct (m_env m !! k) eqn:Ek; [done|].
      destruct (m_env m !! name) eqn:En; [|done]. rewrite lookup_insert_ne; [done|]. congruence.
    - destruct (decide (k = name)) as [->|Hne].
      + rewrite decide_True by (by left). destruct (m_env m !! name); [|done].
        by rewrite lookup_insert_eq.
      + rewrite decide_False by (intros [|]%elem_of_cons; done).
        destruct (m_env m !! name); [|done]. by rewrite lookup_insert_ne. }
  rewrite Hf. destruct (decide _); [|apply lookup_empty]. by destruct (m_env m !! k).
Qed.

(** The process the manager has for a key, if it says that it is alive. *)
Definition at_hand m (key : string) w : W * option (Process W) :=
  match m_clients m !! key with
  | None => (w, None)
  | Some managed =>
      let '(w, alive) := Alive (mp_process managed) w in
      (w, if alive : bool then Some (mp_process managed) else None)
  end.

Lemma Use_at_hand m sessionID config now w :
  let '(w1, t) := now_or_clock now w in
  let key := clientKey sessionID (sc_Name config) in
  Use m sessionID config now w =
    match at_hand m key w1 with
    | (w2, Some p) => (w2, set_clients (<[key := mkManaged p t]> (m_clients m)) m, Ok p)
    | (w2, None) => start_process m key config t w2
    end.
Proof.
  unfold Use, at_hand. destruct (now_or_clock now w) as [w1 t]. cbv zeta.
  destruct (m_clients m !! _) as [managed|]; [|done].
  by destruct (Alive (mp_process managed) w1) as [w2 [|]].
Qed.

(** C34: using a server gives the session's process: the one the manager has, which
    is asked once whether it is alive, and only if there is none alive a freshly
    started one - started once, after that question, with the variables of the
    manager's environment that the configuration names, and no others. The entry is
    stamped with the time of use; no other entry changes, and without a starter or
    when the start fails nothing does. A process that is still alive at the
    session's next use of the server is the one that is used, whatever else the
    configuration says by then. *)
Theorem Use_spec m sessionID config now w :
  let key := clientKey sessionID (sc_Name config) in
  let '(w1, t) := now_or_clock now w in
  let '(w', m', r) := Use m sessionID config now w in
  (forall k, k <> key -> m_clients m' !! k = m_clients m !! k) /\
  m_starter m' = m_starter m /\ m_idleTimeout m' = m_idleTimeout m /\ m_env m' = m_env m /\
  match at_hand m key w1 with
  | (w2, Some p) => w' = w2 /\ r = Ok p
  | (w2, None) =>
      match m_starter m with
      | None => w' = w2 /\ r = Err (errorf "mcp starter is required")
      | Some start => exists e, start config e w2 = (w', r) /\
          forall k, e !! k = if decide (k ∈ sc_EnvInherit config) then m_env m !! k else None
      end
  end /\
  match r with
  | Err _ => m' = m
  | Ok p => m_clients m' !! key = Some (mkManaged p t) /\
      forall config' now' w3, sc_Name config' = sc_Name config ->
        let w4 := (now_or_clock now' w3).1 in
        (Alive p w4).2 = true ->
        exists m'', Use m' sessionID config' now' w3 = ((Alive p w4).1, m'', Ok p)
  end.
Proof.
  cbv zeta. set (key := clientKey _ _). pose proof (Use_at_hand m sessionID config now w) as E.
  destruct (now_or_clock now w) as [w1 t]. cbv zeta in E. fold key in E. rewrite E. clear E.
  assert (forall p, let m' := set_clients (<[key := mkManaged p t]> (m_clients m)) m in
    m_clients m' !! key = Some (mkManaged p t) /\
    forall config' now' w3, sc_Name config' = sc_Name config ->
      let w4 := (now_or_clock now' w3).1 in
      (Alive p w4).2 = true -> exists m'', Use m' sessionID config' now' w3 = ((Alive p w4).1, m'', Ok p)) as Hnext.
  { intros p. cbv zeta. split; [apply lookup_insert_eq|]. intros config' now' w3 Hn Ha.
    pose proof (Use_at_hand (set_clients (<[key := mkManaged p t]> (m_clients m)) m) sessionID config' now' w3) as E.
    destruct (now_or_clock now' w3) as [w4 t']. cbn [fst] in *. cbv zeta in E. rewrite Hn in E. fold key in E.
    rewrite E. unfold at_hand. cbn [m_clients set_clients]. rewrite lookup_insert_eq. cbn [mp_process].
    destruct (Alive p w4) as [w5 alive]. cbn in *. subst alive. by eexists. }
  destruct (at_hand m key w1) as [w2 [p|]].
  - split_and!; try done; [intros k Hk; by apply lookup_insert_ne|by apply Hnext..].
  - unfold start_process. destruct (m_starter m) as [start|] eqn:Es; [|done].
    destruct (start config _ w2) as [w3 [p|err]] eqn:Ep; split_and!; try done.
    + intros k Hk. by apply lookup_insert_ne.
    + eexists. split; [exact Ep|]. intros k. apply allowlistedEnv_lookup.
    + by apply Hnext.
    + by apply Hnext.
    + eexists. split; [exact Ep|]. intros k. apply allowlistedEnv_lookup.
Qed.

(** Unused for longer than the manager allows. *)
Definition idle m (now : time) (kv : string * managedProcess W) : bool :=
  negb (Sub now (mp_lastUsedAt kv.2) <=? m_idleTimeout m)%Z.

(** Cleaning up removes exactly the processes that have been idle for longer
    than the timeout and counts them, in whatever order the table is walked. *)
Theorem CleanupIdle_spec entries m now w :
  now <> time_zero -> entries ≡ₚ map_to_list (m_clients m) ->
  let '(w', m', removed) := CleanupIdle entries m now w in
  m_clients m' = filter (fun kv => idle m now kv = false) (m_clients m) /\
  removed = (ActiveCount m - ActiveCount m')%Z.
Proof.
  intros Hnow He. unfold CleanupIdle, now_or_clock, IsZero. apply Z.eqb_neq in Hnow.
  change time_zero with 0%Z in Hnow. rewrite Hnow.
  assert (forall w clients n,
    let '(w', clients', n') := foldl (fun '(w, clients, removed) '(key, managed) =>
      if (Sub now (mp_lastUsedAt managed) <=? m_idleTimeout m)%Z then (w, clients, removed)
      else let '(w, _) := Stop (mp_process managed) w in (w, delete key clients, (removed + 1)%Z))
      (w, clients, n) entries in
    clients' = deletes (idle m now) entries clients /\
    n' = (n + Z.of_nat (length (List.filter (idle m now) entries)))%Z) as Hf.
  { clear He. induction entries as [|[k v] entries IH]; intros w0 clients n; cbn [foldl deletes List.filter].
    { cbn. split; [done | lia]. }
    unfold idle at 2 3. cbn [fst snd].
    destruct (Sub now (mp_lastUsedAt v) <=? m_idleTimeout m)%Z; cbn [negb].
    - specialize (IH w0 clients n). destruct (foldl _ _ entries) as [[w1 c1] n1]. exact IH.
    - destruct (Stop (mp_process v) w0) as [w1 err]. specialize (IH w1 (delete k clients) (n + 1)%Z).
      destruct (foldl _ _ entries) as [[w2 c2] n2]. destruct IH as [-> ->].
      split; [done|]. cbn [length]. lia. }
  specialize (Hf w (m_clients m) 0%Z). destruct (foldl _ _ entries) as [[w1 clients] n].
  destruct Hf as [-> ->]. cbn [m_clients set_clients]. rewrite deletes_filter by done. split; [done|].
  unfold ActiveCount. cbn [m_clients set_clients].
  pose proof (size_filter (idle m now) entries (m_clients m) He). lia.
Qed.

(** Disconnecting a session closes exactly the clients whose key extends the
    session's id, in whatever order the table is walked. The id is compared
    without the colon that ends it in a key: the clients of every session whose
    id begins with the same characters are closed and forgotten as well. *)
Theorem Disconnect_overreach entries (r : Router W) sessionID w :
  entries ≡ₚ map_to_list r ->
  (Disconnect entries r sessionID w).2 = filter (fun kv => extends kv.1 sessionID = false) r /\
  (forall suffix server, (Disconnect entries r sessionID w).2 !! clientKey (sessionID +:+ suffix) server
     = None) /\
  (forall other server, HasPrefix (clientKey other server) sessionID = false ->
     (Disconnect entries r sessionID w).2 !! clientKey other server = r !! clientKey other server).
Proof.
  intros He.
  assert ((Disconnect entries r sessionID w).2 = filter (fun kv => extends kv.1 sessionID = false) r) as Hd.
  { rewrite <- (deletes_filter (fun kv => extends kv.1 sessionID) entries r He). clear He.
    unfold Disconnect. revert r w.
    induction entries as [|[k c] entries IH]; intros r w; cbn [foldl deletes]; [done|]. cbn [fst].
    destruct (extends k sessionID); [|apply IH]. destruct (cl_Close c w). apply IH. }
  rewrite Hd. split; [done|]. split.
  - intros suffix server. apply map_lookup_filter_None. right. intros c _. cbn [fst].
    rewrite not_false_iff_true. apply extends_spec. rewrite clientKey_eq, str_app_assoc.
    destruct suffix as [|a suffix]; eexists _, _; reflexivity.
  - intros other server Hp. destruct (r !! clientKey other server) as [c|] eqn:Ec.
    + apply map_lookup_filter_Some. split; [done|]. cbn [fst].
      destruct (extends _ _) eqn:Ee; [|done]. apply extends_spec in Ee as (a & rest & Ee).
      rewrite Ee, HasPrefix_app in Hp. done.
    + apply map_lookup_filter_None. by left.
Qed.
End specs.

(** ** Witnesses *)

#[local] Instance nat_clock : Clock nat := fun n => (S n, Z.of_nat n).

Definition demo_process : Process nat := mkProcess 7 (fun n => (n, true)) (fun n => (S n, None)).
Definition demo_options : Options nat :=
  mkOptions (Some (fun _ _ n => (n, Ok demo_process))) 0
    (Some (<["TOKEN" := "t"]> {["SECRET" := "s"]})).
Definition demo_server : ServerConfig := mkServerConfig "git" ["mcp-git"] [] ["TOKEN"; "HOME"].
Definition demo_used := Use (NewManager demo_options) "s1" demo_server 100 0.

(** A second use, with another command, gets the process of the first. *)
Definition demo_again : ServerConfig := mkServerConfig "git" ["other"] [] [].
Lemma Use_spec_witness :
  match demo_used with
  | (_, m, Ok p) => PID p = 7%Z /\ exists m'', Use m "s1" demo_again 200 5 = (5, m'', Ok p)
  | _ => False
  end.
Proof.
  pose proof (Use_spec (NewManager demo_options) "s1" demo_server 100 0) as Hs. unfold demo_used.
  cbv zeta in Hs. destruct (now_or_clock 100 0) as [w1 t]. destruct (Use _ _ _ _ _) as [[w m] r] eqn:E.
  destruct Hs as (_ & _ & _ & _ & _ & Hr). vm_compute in E. injection E as _ _ <-. split; [reflexivity|].
  exact (proj2 Hr demo_again 200%Z 5 eq_refl eq_refl).
Defined.

Definition demo_manager : Manager nat := demo_used.1.2.
Lemma CleanupIdle_spec_witness :
  match CleanupIdle (map_to_list (m_clients demo_manager)) demo_manager (400 * Second) 0 with
  | (_, m, removed) => m_clients m = filter (fun kv => idle demo_manager (400 * Second) kv = false)
      (m_clients demo_manager) /\ removed = 1%Z
  end.
Proof.
  pose proof (CleanupIdle_spec (map_to_list (m_clients demo_manager)) demo_manager (400 * Second) 0) as Hc.
  destruct (CleanupIdle _ _ _ _) as [[w m] n] eqn:E.
  destruct Hc as [Hm _]; [discriminate | reflexivity |].
  split; [exact Hm|]. vm_compute in E. injection E as _ _ <-. reflexivity.
Defined.

Definition demo_client : Client nat :=
  mkClient (fun _ _ _ n => (n, Ok (mkToolResult "" false))) (fun _ n => (n, Ok [])) (fun n => (S n, None)).
Definition demo_router : Router nat := Register (Register ∅ "s1" "git" demo_client) "s12" "git" demo_client.

Lemma Disconnect_overreach_witness :
  (Disconnect (map_to_list demo_router) demo_router "s1" 0).2 !! clientKey "s12" "git" = None.
Proof.
  destruct (Disconnect_overreach (map_to_list demo_router) demo_router "s1" 0 (Permutation_refl _))
    as (_ & Hs & _).
  exact (Hs "2" "git").
Defined.
