(* ===== verification/Daemon.v ===== *)
(** * internal/daemon: the socket server

    [src/internal/daemon/daemon.go]: timeouts per event, the handling of one
    connection, and the life of the server's lock and socket files. Sockets,
    goroutines and signals are the environment's: a connection is the outcome of
    decoding its request and of the race between the handler and the timeout, and
    the calls that can fail are listed in [StartEnv]. *)

From S2P Require Import Prelude GoStrings GoValue GoTime GoPath GoFS Protocol.

(** ** Timeouts *)

Record TimeoutTiers := mkTiers {
  OnSubmit : duration;
  OnToolBefore : duration;
  OnToolAfter : duration;
  OnError : duration;
  OnCompact : duration;
  OnStop : duration
}.

Definition withDefaultTimeouts (t : TimeoutTiers) : TimeoutTiers :=
  let or_ms (d : duration) (ms : Z) := if (d =? 0)%Z then (ms * Millisecond)%Z else d in
  mkTiers (or_ms (OnSubmit t) 500%Z) (or_ms (OnToolBefore t) 200%Z) (or_ms (OnToolAfter t) 200%Z)
    (or_ms (OnError t) 200%Z) (or_ms (OnCompact t) 500%Z) (or_ms (OnStop t) 200%Z).

Definition forEvent (t : TimeoutTiers) (event : string) : duration :=
  if event =s EventOnSubmit then OnSubmit t
  else if event =s EventOnToolBefore then OnToolBefore t
  else if event =s EventOnToolAfter then OnToolAfter t
  else if event =s EventOnCompact then OnCompact t
  else if event =s EventOnStop then OnStop t
  else OnError t.

(** [time.Duration(ms) * time.Millisecond] wraps around. *)
Definition timeoutFor (t : TimeoutTiers) (req : option Request) : duration :=
  match req with
  | None => OnError t
  | Some req =>
      let requested := wrap64 (req_TimeoutMS req * Millisecond) in
      if (0 <? req_TimeoutMS req)%Z && (requested <? forEvent t (req_Event req))%Z then requested
      else forEvent t (req_Event req)
  end.

(** ** Connections *)

Abbreviation Handler W := (context -> Request -> W -> W * Response).

Definition default_handler {W} : Handler W :=
  fun _ req w => (w, OKResponse (Some req) ActionNone "" None).

(** What the [select] of [handleConnection] sees first. *)
Inductive race := HandlerFirst | TimedOut.

(** The response written to the connection. The handler runs on even when the
    timeout answers for it. *)
Definition handleConnection {W} (t : TimeoutTiers) (handler : Handler W) (parent : context)
    (decoded : result Request) (r : race) (w : W) : W * Response :=
  match ReadRequest decoded with
  | (req, Some perr) => (w, WriteResponse (ErrorResponse req ActionWarn (Some perr) None))
  | (None, None) => (w, WriteResponse (ErrorResponse None ActionWarn None None))  (* cannot happen *)
  | (Some req, None) =>
      let '(w, resp) := handler (WithTimeout parent (timeoutFor t (Some req))) req w in
      match r with
      | HandlerFirst => (w, WriteResponse resp)
      | TimedOut =>
          (w, WriteResponse (ErrorResponse (Some req) ActionWarn
                (Some (NewProtocolError ErrorTimeout "daemon request timed out" true)) None))
      end
  end.

(** ** The server *)

Record Options := mkOptions { SocketPath : string; LockPath : string }.

Record Server := mkServer {
  s_options : Options;
  s_listener : bool;    (* the server has a listener *)
  s_lockFile : bool;    (* the server holds the lock file *)
  s_closed : bool
}.

Definition NewServer (options : Options) : Server := mkServer options false false false.

Definition ErrAlreadyRunning : error := errorf "omg daemon already running".

Record StartEnv := mkStartEnv {
  se_pid : string;                      (* the line written to the lock file *)
  se_mkdir_socket : option error;
  se_mkdir_lock : option error;
  se_open : option error;               (* other than that the file exists *)
  se_write_pid : option error;
  se_remove_socket : option error;      (* other than that there is none *)
  se_listen : option error
}.

Definition remove (path : string) (fs : FS string) : FS string := apply_op fs (OpRemove path).

(** The socket appears as a file when the listener binds it. *)
Definition Start (env : StartEnv) (s : Server) (fs : FS string) : Server * FS string * option error :=
  let o := s_options s in
  if SocketPath o =s "" then (s, fs, Some (errorf "socket path is required"))
  else if LockPath o =s "" then (s, fs, Some (errorf "lock path is required"))
  else match se_mkdir_socket env with
  | Some err => (s, fs, Some err)
  | None =>
  let fs := apply_op fs (OpMkdirAll (ancestors (Dir (SocketPath o)))) in
  match se_mkdir_lock env with
  | Some err => (s, fs, Some err)
  | None =>
  let fs := apply_op fs (OpMkdirAll (ancestors (Dir (LockPath o)))) in
  match fs_files fs !! LockPath o with
  | Some _ => (s, fs, Some ErrAlreadyRunning)
  | None =>
  match se_open env with
  | Some err => (s, fs, Some err)
  | None =>
  let fs := apply_op fs (OpWrite (LockPath o) "") in
  match se_write_pid env with
  | Some err => (s, remove (LockPath o) fs, Some err)
  | None =>
  let fs := apply_op fs (OpWrite (LockPath o) (se_pid env)) in
  match se_remove_socket env with
  | Some err => (s, remove (LockPath o) fs, Some err)
  | None =>
  let fs := remove (SocketPath o) fs in
  match se_listen env with
  | Some err => (s, remove (LockPath o) fs, Some err)
  | None =>
      (mkServer o true true (s_closed s), apply_op fs (OpWrite (SocketPath o) "socket"), None)
  end end end end end end end.

(** Closing removes both files by their names; it happens once. *)
Definition Close (s : Server) (fs : FS string) : Server * FS string :=
  if s_closed s then (s, fs)
  else
    let o := s_options s in
    let fs := remove (LockPath o) (remove (SocketPath o) fs) in
    (mkServer o (s_listener s) (s_lockFile s) true, fs).

(** What ends or continues the accept loop. *)
Inductive accepted := Connected (decoded : result Request) (r : race) | AcceptFails | ContextDone.

(** The accept loop: every connection is answered on its own - here its handler is
    one step -, and the end of the context, like a failing [Accept], closes the
    server and ends the loop. *)
Fixpoint serve {W} (t : TimeoutTiers) (handler : Handler W) (ctx : context) (s : Server)
    (next : list accepted) (fs : FS string) (w : W) : Server * FS string * W * list Response :=
  match next with
  | [] => (s, fs, w, [])
  | Connected decoded r :: next =>
      let '(w, resp) := handleConnection t handler ctx decoded r w in
      let '(s, fs, w, l) := serve t handler ctx s next fs w in
      (s, fs, w, resp :: l)
  | AcceptFails :: _ | ContextDone :: _ => let '(s, fs) := Close s fs in (s, fs, w, [])
  end.

(** ** Theorems *)

(** Does the loop end? *)
Definition ends (a : accepted) : bool := match a with Connected _ _ => false | _ => true end.

(** One response for each connection until the loop ends; a loop that ends leaves
    neither the lock file nor the socket of a server that was open. *)
Lemma serve_spec {W} t (handler : Handler W) ctx s next fs w :
  let '(s', fs', w', l) := serve t handler ctx s next fs w in
  (length l <= length next)%nat /\
  if existsb ends next then
    s_closed s' = true /\
    (s_closed s = false -> fs_files fs' !! LockPath (s_options s) = None /\
                           fs_files fs' !! SocketPath (s_options s) = None)
  else s' = s /\ fs' = fs /\ length l = length next.
Proof.
  assert (forall s' fs', Close s fs = (s', fs') -> s_closed s' = true /\
    (s_closed s = false -> fs_files fs' !! LockPath (s_options s) = None /\
                           fs_files fs' !! SocketPath (s_options s) = None)) as Hclose.
  { unfold Close. intros s' fs'. destruct (s_closed s) eqn:E; intros [= <- <-]; split; try done.
    intros _. cbn. split; [apply lookup_delete_eq|].
    destruct (decide (LockPath (s_options s) = SocketPath (s_options s))) as [->|Hne];
      [apply lookup_delete_eq|]. rewrite lookup_delete_ne by done. apply lookup_delete_eq. }
  revert w. induction next as [|[decoded r| |] next IH]; intros w; cbn [serve existsb ends orb];
    try (destruct (Close s fs) as [s' fs'] eqn:E; split; [cbn; lia|by apply Hclose]); [done|].
  destruct (handleConnection t handler ctx decoded r w) as [w1 resp]. specialize (IH w1).
  destruct (serve t handler ctx s next fs w1) as [[[s' fs'] w'] l]. destruct IH as [Hl Hr].
  split; [cbn; lia|]. destruct (existsb ends next); [exact Hr|]. destruct Hr as (-> & -> & Hn).
  split_and!; [done..|cbn; by rewrite Hn].
Qed.

(** C30: a request can only shorten its timeout: it is the number of milliseconds it
    asks for, if that is positive and below the tier of its event, and the tier
    otherwise - as long as the product fits 64 bits. Runs have no tier of their
    own and get the one for errors. *)
Theorem timeoutFor_spec t req :
  (timeoutFor t (Some req) <= forEvent t (req_Event req))%Z /\
  ((0 < req_TimeoutMS req)%Z -> (req_TimeoutMS req * Millisecond <= max_int64)%Z ->
   timeoutFor t (Some req) = Z.min (req_TimeoutMS req * Millisecond) (forEvent t (req_Event req))) /\
  ((req_TimeoutMS req <= 0)%Z -> timeoutFor t (Some req) = forEvent t (req_Event req)) /\
  (req_Event req = EventOnRun -> forEvent t (req_Event req) = OnError t) /\
  (* the product wraps around: the request is timed out before it starts *)
  (req_TimeoutMS req = 9223372036855%Z -> (0 <= forEvent t (req_Event req))%Z ->
   (timeoutFor t (Some req) < 0)%Z).
Proof.
  unfold timeoutFor. set (tier := forEvent t (req_Event req)).
  destruct (Z.ltb_spec 0 (req_TimeoutMS req)) as [Hpos|Hpos]; cbn [andb].
  - destruct (Z.ltb_spec (wrap64 (req_TimeoutMS req * Millisecond)) tier) as [Hlt|Hge]; split_and!;
      try lia.
    + intros _ Hmax. rewrite wrap64_id in * by (unfold min_int64, Millisecond in *; lia). lia.
    + unfold tier. by intros ->.
    + intros E _. rewrite E. reflexivity.
    + intros _ Hmax. rewrite wrap64_id in * by (unfold min_int64, Millisecond in *; lia). lia.
    + unfold tier. by intros ->.
    + intros E Htier. rewrite E in Hge. exfalso.
      change (wrap64 (9223372036855 * Millisecond)) with (-9223372036854551616)%Z in Hge. lia.
  - split_and!; try lia. unfold tier. by intros ->.
Qed.

(** Every connection gets one response under the request's own id: the decode or
    validation error, the handler's answer, or a retryable timeout; it is well
    formed if the handler's answers are. *)
Theorem handleConnection_answers {W} t (handler : Handler W) parent decoded r w :
  (forall ctx req w, well_formed_response (WriteResponse (handler ctx req w).2) /\
     resp_RequestID (handler ctx req w).2 = req_RequestID req) ->
  let resp := (handleConnection t handler parent decoded r w).2 in
  well_formed_response resp /\
  match decoded with
  | Err _ => (handleConnection t handler parent decoded r w).1 = w /\ resp_RequestID resp = ""
  | Ok req => resp_RequestID resp = req_RequestID req /\
      (ValidateRequest (Some req) <> None -> (handleConnection t handler parent decoded r w).1 = w) /\
      (ValidateRequest (Some req) = None -> r = TimedOut -> resp_OK resp = false /\
         resp_Error resp = Some (mkResponseError ErrorTimeout "daemon request timed out" true))
  end.
Proof.
  intros Hh. unfold handleConnection, ReadRequest.
  assert (forall req perr, pe_Class perr <> "" -> pe_Message perr <> "" -> well_formed_response
    (WriteResponse (ErrorResponse req ActionWarn (Some perr) None))) as He by done.
  destruct decoded as [req|err]; cbv zeta.
  - destruct (ValidateRequest (Some req)) as [perr|] eqn:E; cbn [snd fst].
    + assert (pe_Class perr <> "" /\ pe_Message perr <> "") as [Hc Hm].
      { apply ValidateRequest_error in E as (-> & ? & _). done. }
      split; [by apply He|]. done.
    + destruct (handler _ req w) as [w1 resp] eqn:Er.
      destruct (Hh (WithTimeout parent (timeoutFor t (Some req))) req w) as [Hw Hid].
      rewrite Er in Hw, Hid. destruct r; cbn [snd fst]; (split; [done|]); done.
  - split; [|done]. apply He; apply NewProtocolError_nonempty.
Qed.

(** The two files of a server are different, named files. *)
Definition apart_paths (o : Options) : Prop :=
  SocketPath o <> "" /\ LockPath o <> "" /\ SocketPath o <> LockPath o.

(** A start that no call fails. *)
Definition no_faults (env : StartEnv) : Prop :=
  se_mkdir_socket env = None /\ se_mkdir_lock env = None /\ se_open env = None /\
  se_write_pid env = None /\ se_remove_socket env = None /\ se_listen env = None.

Lemma Start_lock env s fs s' fs' err :
  apart_paths (s_options s) -> Start env s fs = (s', fs', err) ->
  s_options s' = s_options s /\
  match err with
  | None => fs_files fs !! LockPath (s_options s) = None /\
      fs_files fs' !! LockPath (s_options s) = Some (se_pid env)
  | Some _ => s' = s /\ fs_files fs' !! LockPath (s_options s) = fs_files fs !! LockPath (s_options s)
  end.
Proof.
  intros (Hs & Hl & Hne). unfold Start. apply eqb_false in Hs as Hs'. apply eqb_false in Hl as Hl'.
  rewrite Hs', Hl'. destruct (se_mkdir_socket env); [by intros [= <- <- <-]|].
  destruct (se_mkdir_lock env); [by intros [= <- <- <-]|]. cbn [fs_files apply_op].
  destruct (fs_files fs !! LockPath (s_options s)) as [l|] eqn:El.
  { intros [= <- <- <-]. cbn. by rewrite El. }
  destruct (se_open env); [intros [= <- <- <-]; cbn; by rewrite El|].
  destruct (se_write_pid env); [intros [= <- <- <-]; cbn; by rewrite lookup_delete_eq|].
  destruct (se_remove_socket env); [intros [= <- <- <-]; cbn; by rewrite lookup_delete_eq|].
  destruct (se_listen env); [intros [= <- <- <-]; cbn; by rewrite lookup_delete_eq|].
  intros [= <- <- <-]. cbn. split_and!; [done..|].
  rewrite lookup_insert_ne, lookup_delete_ne by done. apply lookup_insert_eq.
Qed.

Lemma Start_refused env s fs l :
  apart_paths (s_options s) -> no_faults env -> fs_files fs !! LockPath (s_options s) = Some l ->
  (Start env s fs).2 = Some ErrAlreadyRunning /\
  fs_files (Start env s fs).1.2 = fs_files fs /\ (Start env s fs).1.1 = s.
Proof.
  intros (Hs & Hl & _) (E1 & E2 & _) El. unfold Start.
  apply eqb_false in Hs, Hl. rewrite Hs, Hl, E1, E2. cbn [fs_files apply_op]. by rewrite El.
Qed.

Lemma Start_free env s fs :
  apart_paths (s_options s) -> no_faults env -> fs_files fs !! LockPath (s_options s) = None ->
  (Start env s fs).2 = None.
Proof.
  intros (Hs & Hl & _) (E1 & E2 & E3 & E4 & E5 & E6) El. unfold Start.
  apply eqb_false in Hs, Hl. rewrite Hs, Hl, E1, E2. cbn [fs_files apply_op].
  by rewrite El, E3, E4, E5, E6.
Qed.

(** The lock file admits one server: a start succeeds only when no lock file is
    there and then leaves its own; while it is there every other start is refused
    and changes no file; a start that fails leaves no lock behind, and closing
    frees it. The files are however removed by name: closing a server whose start
    was refused frees the lock of the server that runs, and a third one can start
    beside it. *)
Theorem lock_admits_one env1 env2 env3 s1 s2 fs fs1 o :
  apart_paths o -> no_faults env2 -> no_faults env3 ->
  s_options s1 = o -> s_options s2 = o -> s_closed s2 = false ->
  Start env1 s1 fs = (mkServer o true true (s_closed s1), fs1, None) ->
  fs_files fs !! LockPath o = None /\
  (let '(s2', fs2, err) := Start env2 s2 fs1 in
   err = Some ErrAlreadyRunning /\ fs_files fs2 = fs_files fs1 /\
   let '(_, fs3) := Close s2' fs2 in
   fs_files fs3 !! LockPath o = None /\ forall s3, s_options s3 = o -> (Start env3 s3 fs3).2 = None) /\
  (s_closed s1 = false ->
   let '(s1', fs2) := Close (mkServer o true true false) fs1 in
   fs_files fs2 !! LockPath o = None /\ Close s1' fs2 = (s1', fs2)).
Proof.
  intros Ho H2 H3 E1 E2 Hc Hs. subst o. rewrite <- E2 in *.
  assert (apart_paths (s_options s1)) as Ho1 by (by rewrite <- E2).
  destruct (Start_lock env1 s1 fs _ _ _ Ho1 Hs) as (_ & Hfree & Hheld).
  rewrite <- E2 in Hfree, Hheld. split; [done|]. split.
  - destruct (Start_refused env2 s2 fs1 _ Ho H2 Hheld) as (He & Hf & Hs').
    destruct (Start env2 s2 fs1) as [[s2' fs2] err]. cbn in He, Hf, Hs'. subst s2' err.
    split; [done|]. split; [done|]. unfold Close. rewrite Hc. cbn [remove apply_op fs_files].
    assert (delete (LockPath (s_options s2)) (delete (SocketPath (s_options s2)) (fs_files fs2))
      !! LockPath (s_options s2) = None) as Hl by apply lookup_delete_eq.
    split; [done|]. intros s3 Es3. apply Start_free; [by rewrite Es3 | done | by rewrite Es3].
  - intros _. unfold Close. cbn. split; [apply lookup_delete_eq | done].
Qed.

(** ** Witnesses *)

Definition demo_env : StartEnv := mkStartEnv "42" None None None None None None.
Definition demo_options : Options := mkOptions "/tmp/omg.sock" "/tmp/omg.lock".
Definition demo_server : Server := NewServer demo_options.
Definition demo_started : FS string := (Start demo_env demo_server (mkFS ∅ ∅)).1.2.

Lemma lock_admits_one_witness :
  (Start demo_env demo_server demo_started).2 = Some ErrAlreadyRunning.
Proof.
  destruct (lock_admits_one demo_env demo_env demo_env demo_server demo_server (mkFS ∅ ∅) demo_started
    demo_options) as (_ & Hr & _).
  - split; [discriminate|]. split; discriminate.
  - repeat split.
  - repeat split.
  - reflexivity.
  - reflexivity.
  - reflexivity.
  - vm_compute. reflexivity.
  - destruct (Start demo_env demo_server demo_started) as [[s fs] err]. exact (proj1 Hr).
Defined.

Lemma handleConnection_answers_witness :
  resp_RequestID (handleConnection (mkTiers 0 0 0 0 0 0) (default_handler (W := nat)) CtxRequest
    (Ok (mkRequest 1 "r1" "direct" "on-stop" "" "" "" 0 ∅ ∅)) TimedOut 0).2 = "r1".
Proof.
  pose proof (handleConnection_answers (mkTiers 0 0 0 0 0 0) (default_handler (W := nat)) CtxRequest
    (Ok (mkRequest 1 "r1" "direct" "on-stop" "" "" "" 0 ∅ ∅)) TimedOut 0) as Hc.
  cbv zeta in Hc. destruct Hc as (_ & Hid & _); [|exact Hid].
  intros ctx req w. split; [|reflexivity]. repeat split; discriminate.
Defined.
