(* ===== verification/Servers.v ===== *)
(** * internal/daemon: several servers on one pair of files

    [Start] and [Close] of [src/internal/daemon/daemon.go], call by call: servers
    of several processes share a lock file and a socket file, and their calls
    interleave in any order. A process can fail at every call and can be killed
    between any two. [Daemon.Start] and [Daemon.Close] run the calls of one server
    without interruption: they are executions of the step relation below. *)

From stdpp Require Import relations.
From S2P Require Import Prelude GoStrings GoValue GoTime GoPath GoFS Protocol Daemon.

(** ** One server *)

(** Where the process of a server is. *)
Inductive phase :=
| Idle                     (* [Start] is not called *)
| Ready                    (* the directories are there *)
| Locked                   (* it has created the lock file *)
| Wrote                    (* it has written its process id into the lock file *)
| Unlinked                 (* it has removed a stale socket *)
| Listening                (* [Start] has returned nil *)
| Undo                     (* a call of [Start] failed, the lock file is to be removed *)
| Refused                  (* [Start] has returned an error *)
| ClosedListener           (* [Close]: closing the listener has removed the socket *)
| RemovedSocket            (* [Close]: the socket has been removed by name *)
| Stopped                  (* [Close] has returned *)
| Crashed (holding : bool) (* the process was killed, or failed to remove its lock file *).

(** Does a process in this phase count on the lock file being its own? *)
Definition holds (p : phase) : bool :=
  match p with
  | Locked | Wrote | Unlinked | Listening | Undo | ClosedListener | RemovedSocket => true
  | Crashed holding => holding
  | Idle | Ready | Refused | Stopped => false
  end.

Section server.
Context (o : Options).

Definition write (path content : string) (fs : FS string) : FS string :=
  apply_op fs (OpWrite path content).
Definition mkdirs (path : string) (fs : FS string) : FS string :=
  apply_op fs (OpMkdirAll (ancestors (Dir path))).

(** One call of one server; every call may fail. The last rule is only there when
    [Close] may be called on a server that was refused. *)
Inductive call (careless : bool) : phase -> FS string -> phase -> FS string -> Prop :=
| call_no_path fs : SocketPath o = "" \/ LockPath o = "" -> call careless Idle fs Refused fs
| call_mkdir_fails fs : call careless Idle fs Refused fs
| call_mkdir2_fails fs : call careless Idle fs Refused (mkdirs (SocketPath o) fs)
| call_mkdirs fs :
    SocketPath o <> "" -> LockPath o <> "" ->
    call careless Idle fs Ready (mkdirs (LockPath o) (mkdirs (SocketPath o) fs))
| call_already_running fs l : fs_files fs !! LockPath o = Some l -> call careless Ready fs Refused fs
| call_open_fails fs : call careless Ready fs Refused fs
| call_open fs : fs_files fs !! LockPath o = None -> call careless Ready fs Locked (write (LockPath o) "" fs)
| call_write_fails fs : call careless Locked fs Undo fs
| call_write fs pid : call careless Locked fs Wrote (write (LockPath o) pid fs)
| call_unlink_fails fs : call careless Wrote fs Undo fs
| call_unlink fs : call careless Wrote fs Unlinked (remove (SocketPath o) fs)
| call_listen_fails fs : call careless Unlinked fs Undo fs
| call_listen fs : call careless Unlinked fs Listening (write (SocketPath o) "socket" fs)
| call_undo fs : call careless Undo fs Refused (remove (LockPath o) fs)
| call_undo_fails fs : call careless Undo fs (Crashed true) fs
| call_close fs : call careless Listening fs ClosedListener (remove (SocketPath o) fs)
| call_close_socket fs : call careless ClosedListener fs RemovedSocket (remove (SocketPath o) fs)
| call_close_lock fs : call careless RemovedSocket fs Stopped (remove (LockPath o) fs)
| call_close_fails fs : call careless Listening fs ClosedListener fs
| call_close_socket_fails fs : call careless ClosedListener fs RemovedSocket fs
| call_close_lock_fails fs : call careless RemovedSocket fs (Crashed true) fs
| call_kill p fs : p <> Stopped -> p <> Refused -> (forall h, p <> Crashed h) ->
    call careless p fs (Crashed (holds p)) fs
| call_close_refused fs : careless = true ->
    call careless Refused fs Stopped (remove (LockPath o) (remove (SocketPath o) fs)).

(** ** Many servers *)

Record system := mkSystem { sy_fs : FS string; sy_phases : gmap nat phase }.

Definition phase_of (s : system) (i : nat) : phase := default Idle (sy_phases s !! i).
Definition move (s : system) (i : nat) (p : phase) (fs : FS string) : system :=
  mkSystem fs (<[i := p]> (sy_phases s)).

Definition step (careless : bool) (s s' : system) : Prop :=
  exists i p fs, call careless (phase_of s i) (sy_fs s) p fs /\ s' = move s i p fs.

(** No server yet, and no lock file; a stale socket may be there. *)
Definition initial (s : system) : Prop :=
  sy_phases s = ∅ /\ fs_files (sy_fs s) !! LockPath o = None.

Definition reachable (careless : bool) (s : system) : Prop :=
  exists s0, initial s0 /\ rtc (step careless) s0 s.

(** ** The invariant *)

Record lock_inv (s : system) : Prop := {
  li_lock : forall i, holds (phase_of s i) = true -> is_Some (fs_files (sy_fs s) !! LockPath o);
  li_held : is_Some (fs_files (sy_fs s) !! LockPath o) -> exists i, holds (phase_of s i) = true;
  li_one : forall i j, holds (phase_of s i) = true -> holds (phase_of s j) = true -> i = j;
  li_socket : forall i, phase_of s i = Listening -> fs_files (sy_fs s) !! SocketPath o = Some "socket"
}.

Lemma phase_of_move s i p fs j :
  phase_of (move s i p fs) j = if decide (j = i) then p else phase_of s j.
Proof.
  unfold phase_of, move. cbn. case_decide as E; [subst; by rewrite lookup_insert_eq|].
  by rewrite lookup_insert_ne.
Qed.

(** What a call of a server that does not hold the lock, and stays so, may do. *)
Lemma lock_inv_bystander s i p fs :
  lock_inv s -> holds (phase_of s i) = false -> holds p = false ->
  fs_files fs = fs_files (sy_fs s) -> lock_inv (move s i p fs).
Proof.
  intros [H1 H2 H3 H4] Hi Hp Hf.
  split; cbn [sy_fs move]; rewrite ?Hf; setoid_rewrite phase_of_move.
  - intros j. case_decide; [congruence|apply H1].
  - intros Hl. destruct (H2 Hl) as [j Hj]. exists j. case_decide; congruence.
  - intros j k. repeat case_decide; try congruence. apply H3.
  - intros j. case_decide; [intros ->; done|apply H4].
Qed.

(** The holder moves on: only its own files change, and it is the only one that
    can be listening. *)
Lemma lock_inv_holder s i p fs :
  lock_inv s -> holds (phase_of s i) = true -> holds p = true ->
  (is_Some (fs_files (sy_fs s) !! LockPath o) -> is_Some (fs_files fs !! LockPath o)) ->
  (p = Listening -> fs_files fs !! SocketPath o = Some "socket") ->
  lock_inv (move s i p fs).
Proof.
  intros [H1 H2 H3 H4] Hi Hp Hl Hs. split; cbn [sy_fs move]; setoid_rewrite phase_of_move.
  - intros j. intros _. apply Hl, (H1 i Hi).
  - intros _. exists i. by case_decide.
  - assert (forall j, holds (if decide (j = i) then p else phase_of s j) = true -> j = i) as Hone.
    { intros j. case_decide; [done|]. intros Hj. by apply H3. }
    intros j k ->%Hone ->%Hone. done.
  - intros j. case_decide as E; [done|]. intros Hj. destruct E. apply H3; [by rewrite Hj|done].
Qed.

(** The holder gives the lock back. *)
Lemma lock_inv_release s i p :
  lock_inv s -> holds (phase_of s i) = true -> holds p = false ->
  lock_inv (move s i p (remove (LockPath o) (sy_fs s))).
Proof.
  intros [H1 H2 H3 H4] Hi Hp. split; cbn [sy_fs move]; setoid_rewrite phase_of_move.
  - intros j. case_decide as E; [congruence|]. intros Hj. destruct E. by apply H3.
  - cbn. rewrite lookup_delete_eq. by intros [].
  - intros j k. case_decide as E; [congruence|]. intros Hj. destruct E. by apply H3.
  - intros j. case_decide as E; [intros ->; done|]. intros Hj. destruct E. apply H3; [by rewrite Hj|done].
Qed.

(** A server creates the lock file where there was none. *)
Lemma lock_inv_acquire s i :
  lock_inv s -> LockPath o <> SocketPath o -> fs_files (sy_fs s) !! LockPath o = None ->
  lock_inv (move s i Locked (write (LockPath o) "" (sy_fs s))).
Proof.
  intros [H1 H2 H3 H4] Hne Hfree.
  assert (forall j, holds (phase_of s j) = false) as Hno.
  { intros j. destruct (holds (phase_of s j)) eqn:E; [|done]. apply H1 in E as [? E]. congruence. }
  split; cbn [sy_fs move]; setoid_rewrite phase_of_move.
  - intros j _. cbn. rewrite lookup_insert_eq. done.
  - intros _. exists i. by case_decide.
  - intros j k. repeat case_decide; try congruence; rewrite Hno; done.
  - intros j. case_decide as E; [done|]. intros Hj. specialize (Hno j). by rewrite Hj in Hno.
Qed.

Lemma step_lock_inv s s' :
  apart_paths o -> step false s s' -> lock_inv s -> lock_inv s'.
Proof.
  intros (_ & _ & Hne) (i & p & fs & Hc & ->) Hi.
  remember (phase_of s i) as q eqn:Eq. remember (sy_fs s) as fs0 eqn:Ef.
  assert (holds (phase_of s i) = holds q) as Hq by by rewrite Eq. clear Eq. revert Ef Hq.
  destruct Hc; intros -> Hq; cbn [holds] in Hq;
    try (apply lock_inv_bystander; done);
    try (apply lock_inv_release; done);
    try (apply lock_inv_holder; [done..| |done]; cbn; rewrite ?lookup_delete_ne by done; done).
  - by apply lock_inv_acquire.
  - apply lock_inv_holder; [done..| |done]. cbn. by rewrite lookup_insert_eq.
  - apply lock_inv_holder; [done..| |].
    + cbn. by rewrite lookup_insert_ne by done.
    + intros _. cbn. apply lookup_insert_eq.
  - destruct (holds p) eqn:Hp.
    + by apply lock_inv_holder.
    + by apply lock_inv_bystander.
Qed.

Lemma reachable_lock_inv s : apart_paths o -> reachable false s -> lock_inv s.
Proof.
  intros Ho (s0 & [Hp Hl] & Hr). assert (lock_inv s0) as H0.
  { assert (forall i, phase_of s0 i = Idle) as Hidle by (intros i; unfold phase_of; by rewrite Hp).
    split; setoid_rewrite Hidle; try done. rewrite Hl. by intros []. }
  clear Hp Hl. induction Hr as [|s0 s1 s2 Hs _ IH]; [done|]. apply IH. by apply (step_lock_inv s0).
Qed.

(** C20: when only servers that have started are closed - the command line's daemon
    does no more - at most one of any number of servers is up in every
    interleaving of their calls, failures and kills, and while it is up its lock
    and its socket are there: no other server's start or shutdown removes them. *)
Theorem at_most_one_server s :
  apart_paths o -> reachable false s ->
  (forall i j, phase_of s i = Listening -> holds (phase_of s j) = true -> i = j) /\
  (forall i, phase_of s i = Listening ->
     is_Some (fs_files (sy_fs s) !! LockPath o) /\ fs_files (sy_fs s) !! SocketPath o = Some "socket").
Proof.
  intros Ho Hr. pose proof (reachable_lock_inv s Ho Hr) as [H1 _ H3 H4]. split.
  - intros i j Hi Hj. apply H3; [by rewrite Hi|done].
  - intros i Hi. split; [apply (H1 i); by rewrite Hi|by apply (H4 i)].
Qed.

Lemma crashed_stays s s' i :
  rtc (step false) s s' -> phase_of s i = Crashed true -> phase_of s' i = Crashed true.
Proof.
  induction 1 as [|s0 s1 s2 (j & p & fs & Hc & ->) _ IH]; [done|]. intros Hi. apply IH.
  rewrite phase_of_move. case_decide as E; [|done]. subst. rewrite Hi in Hc.
  remember (Crashed true) as q eqn:Eq. destruct Hc; try discriminate. subst. naive_solver.
Qed.

(** A server that is killed leaves its lock file, which nobody reads: from then
    on no server ever starts, until the file is removed by hand. *)
Theorem killed_server_blocks_all s s' i j :
  apart_paths o -> reachable false s -> phase_of s i = Crashed true ->
  rtc (step false) s s' ->
  is_Some (fs_files (sy_fs s') !! LockPath o) /\
  (holds (phase_of s' j) = true -> j = i).
Proof.
  intros Ho (s0 & H0 & Hr) Hi Hs. pose proof (crashed_stays _ _ _ Hs Hi) as Hi'.
  assert (reachable false s') as Hr' by (exists s0; split; [done|by etrans]).
  destruct (reachable_lock_inv s' Ho Hr') as [H1 _ H3 _]. split.
  - apply (H1 i). by rewrite Hi'.
  - intros Hj. apply H3; [done|by rewrite Hi'].
Qed.

(** ** [Daemon.Start] and [Daemon.Close] are executions *)

Lemma step_move careless s i p fs :
  call careless (phase_of s i) (sy_fs s) p fs -> step careless s (move s i p fs).
Proof. intros H. by exists i, p, fs. Qed.

Lemma move_move s i p fs p' fs' : move (move s i p fs) i p' fs' = move s i p' fs'.
Proof. unfold move. cbn. by rewrite insert_insert_eq. Qed.

(** The next call of the server that has just moved. *)
Lemma steps_next careless s i p fs p' fs' s' :
  call careless p fs p' fs' -> rtc (step careless) (move s i p' fs') s' ->
  rtc (step careless) (move s i p fs) s'.
Proof.
  intros Hc Hr. rewrite <- (move_move s i p fs p' fs') in Hr. eapply rtc_l; [|exact Hr].
  apply step_move. rewrite phase_of_move. by rewrite decide_True.
Qed.

Lemma steps_last careless s i p fs p' fs' :
  call careless p fs p' fs' -> rtc (step careless) (move s i p fs) (move s i p' fs').
Proof. intros Hc. eapply steps_next; [exact Hc|reflexivity]. Qed.

Lemma move_same s i : phase_of s i = Idle -> sy_phases s !! i = Some Idle ->
  move s i Idle (sy_fs s) = s.
Proof. destruct s as [fs m]. unfold move. cbn. intros _ Hi. by rewrite insert_id. Qed.

Lemma first_step careless s i p fs s' :
  call careless (phase_of s i) (sy_fs s) p fs -> rtc (step careless) (move s i p fs) s' ->
  rtc (step careless) s s'.
Proof. intros Hc Hr. eapply rtc_l; [by apply step_move|exact Hr]. Qed.

(** The phase of a server that [Daemon.Start] has left. *)
Definition outcome (err : option error) : phase :=
  match err with None => Listening | Some _ => Refused end.

(** C21: [Start] as one uninterrupted call - with any of its calls failing - is an
    execution of the step relation: its result is the phase the server reaches
    and the files are the ones the calls leave. *)
Theorem Start_refines careless env srv fs s i
    (Hsrv : s_options srv = o) (Hidle : phase_of s i = Idle) (Hfs : sy_fs s = fs) :
  let '(_, fs', err) := Start env srv fs in
  rtc (step careless) s (move s i (outcome err) fs').
Proof.
  unfold Start. rewrite Hsrv. subst fs.
  assert (forall p fs s', call careless Idle (sy_fs s) p fs -> rtc (step careless) (move s i p fs) s' ->
    rtc (step careless) s s') as Hfirst by (intros p fs s'; rewrite <- Hidle; apply first_step).
  destruct (SocketPath o =s "") eqn:E1; str_simpl.
  { eapply Hfirst; [by apply call_no_path; left|reflexivity]. }
  destruct (LockPath o =s "") eqn:E2; str_simpl.
  { eapply Hfirst; [by apply call_no_path; right|reflexivity]. }
  destruct (se_mkdir_socket env); [eapply Hfirst; [apply call_mkdir_fails|reflexivity]|].
  destruct (se_mkdir_lock env); [eapply Hfirst; [apply call_mkdir2_fails|reflexivity]|].
  destruct (fs_files _ !! LockPath o) as [l|] eqn:El.
  { eapply Hfirst; [by apply call_mkdirs|]. by apply steps_last, (call_already_running _ _ l). }
  destruct (se_open env).
  { eapply Hfirst; [by apply call_mkdirs|]. apply steps_last, call_open_fails. }
  assert (forall s', rtc (step careless) (move s i Locked (write (LockPath o) ""
      (mkdirs (LockPath o) (mkdirs (SocketPath o) (sy_fs s))))) s' -> rtc (step careless) s s') as Hlocked.
  { intros s' Hr. eapply Hfirst; [by apply call_mkdirs|]. eapply steps_next; [by apply call_open|exact Hr]. }
  destruct (se_write_pid env).
  { apply Hlocked. eapply steps_next; [apply call_write_fails|]. apply steps_last, call_undo. }
  destruct (se_remove_socket env).
  { apply Hlocked. eapply steps_next; [apply (call_write _ _ (se_pid env))|].
    eapply steps_next; [apply call_unlink_fails|]. apply steps_last, call_undo. }
  destruct (se_listen env); apply Hlocked; (eapply steps_next; [apply (call_write _ _ (se_pid env))|]);
    (eapply steps_next; [apply call_unlink|]).
  - eapply steps_next; [apply call_listen_fails|]. apply steps_last, call_undo.
  - apply steps_last, call_listen.
Qed.

(** [Close] of a server that is up is an execution as well. *)
Lemma Close_refines careless srv s i :
  s_options srv = o -> s_closed srv = false -> phase_of s i = Listening ->
  rtc (step careless) s (move s i Stopped (Close srv (sy_fs s)).2).
Proof.
  intros Ho Hc Hl. unfold Close. rewrite Hc, Ho. cbn [snd].
  eapply first_step; [rewrite Hl; apply call_close|].
  eapply steps_next; [apply call_close_socket|].
  assert (remove (SocketPath o) (remove (SocketPath o) (sy_fs s)) = remove (SocketPath o) (sy_fs s)) as ->.
  { unfold remove, apply_op. cbn. f_equal. by rewrite delete_delete_eq. }
  apply steps_last, call_close_lock.
Qed.
End server.

(** ** Two servers *)

Definition demo_system : system := mkSystem (mkFS ∅ ∅) ∅.
Definition demo_up : system :=
  move demo_system 0 Listening (Start demo_env demo_server (mkFS ∅ ∅)).1.2.

Lemma Start_refines_witness :
  rtc (step demo_options false) demo_system demo_up.
Proof.
  exact (Start_refines demo_options false demo_env demo_server (mkFS ∅ ∅) demo_system 0 eq_refl eq_refl eq_refl).
Defined.

Lemma demo_apart : apart_paths demo_options.
Proof. split_and!; discriminate. Qed.

Lemma demo_up_reachable : reachable demo_options false demo_up.
Proof.
  exists demo_system. split; [split; reflexivity|].
  eapply first_step; [by apply call_mkdirs|]. eapply steps_next; [by apply call_open|].
  eapply steps_next; [apply (call_write _ _ _ "42")|]. eapply steps_next; [apply call_unlink|].
  apply steps_last, call_listen.
Qed.

Lemma at_most_one_server_witness :
  fs_files (sy_fs demo_up) !! "/tmp/omg.sock" = Some "socket" /\
  forall j, holds (phase_of demo_up j) = true -> 0 = j.
Proof.
  destruct (at_most_one_server demo_options demo_up demo_apart demo_up_reachable) as [H1 H2].
  split; [exact (proj2 (H2 0 eq_refl))|]. intros j. exact (H1 0 j eq_refl).
Defined.

(** The same server, killed. *)
Definition demo_killed : system := move demo_up 0 (Crashed true) (sy_fs demo_up).

Lemma demo_killed_reachable : reachable demo_options false demo_killed.
Proof.
  destruct demo_up_reachable as (s0 & H0 & Hr). exists s0. split; [exact H0|]. etrans; [exact Hr|].
  apply rtc_once, step_move. by apply (call_kill _ _ Listening).
Qed.

Lemma killed_server_blocks_all_witness :
  is_Some (fs_files (sy_fs demo_killed) !! "/tmp/omg.lock") /\
  (holds (phase_of demo_killed 1) = true -> 1 = 0).
Proof.
  exact (killed_server_blocks_all demo_options demo_killed demo_killed 0 1 demo_apart
    demo_killed_reachable eq_refl (rtc_refl _ _)).
Defined.
