(* ===== verification/Pi.v ===== *)
(** * adapters/pi: the worker that runs the pi binary

    [src/adapters/pi/]: the parser of its event lines ([parser.go]), the discovery
    of the binary ([discovery.go]), and of the driver ([pi.go]) the command line,
    the scanner of the standard output with its bounded channel, and the result of
    the process. Starting and reaping the process is the operating system's; the
    scanner and the consumer of the channel are interleaved step by step. *)

From S2P Require Import Prelude GoStrings GoSort GoValue GoTime JsonText Json Rfc3339 Config Adapter.

(** ** Parsing a line *)

Record probe := mkProbe {
  pb_Type : string;
  pb_Timestamp : string;
  pb_ToolCallID : string;
  pb_ToolName : string;
  pb_Args : object;
  pb_Result : object;
  pb_Message : option object
}.

Definition zero_probe : probe := mkProbe "" "" "" "" ∅ ∅ None.

(** [json.Unmarshal(line, &probe)] *)
Section probe.
Context `{FloatText} `{JsonErrors}.

Definition probe_fields : list (field probe) :=
  [("type", into_string (fun x '(mkProbe _ ts id n a r m) => mkProbe x ts id n a r m));
   ("timestamp", into_string (fun x '(mkProbe t _ id n a r m) => mkProbe t x id n a r m));
   ("toolCallId", into_string (fun x '(mkProbe t ts _ n a r m) => mkProbe t ts x n a r m));
   ("toolName", into_string (fun x '(mkProbe t ts id _ a r m) => mkProbe t ts id x a r m));
   ("args", into_map (fun p => Some (pb_Args p))
      (fun x '(mkProbe t ts id n _ r m) => mkProbe t ts id n (default ∅ x) r m));
   ("result", into_map (fun p => Some (pb_Result p))
      (fun x '(mkProbe t ts id n a _ m) => mkProbe t ts id n a (default ∅ x) m));
   ("message", into_map pb_Message (fun x '(mkProbe t ts id n a r _) => mkProbe t ts id n a r x))].

Definition Unmarshal_probe (line : string) : result probe :=
  Json.Unmarshal (into_struct probe_fields) zero_probe line.
End probe.

(** [%v] of a decoded value. *)
Class PiCodec := { Sprintf_v : value -> string }.

Definition ErrSkipLine : error := mkError KSkipLine "skip line".

Definition TrimRight_cr (s : string) : string := str_rev (trim_left_byte "013" (str_rev s)).

Section parser.
Context {FT : FloatText} {JE : JsonErrors} {TT : TimeText} `{PiCodec}.
Context {W : Type} `{Clock W}.

(** The event of a decoded line; the clock is read when the line has no usable
    time. *)
Definition event_of (p : probe) (raw : string) (sequence : Z) (w : W) : W * WorkerEvent :=
  let ts := if pb_Timestamp p <>s "" then
              match time_Parse (pb_Timestamp p) with Ok t => t | Err _ => time_zero end
            else time_zero in
  let '(w, ts) := if IsZero ts then time_Now w else (w, ts) in
  let among l := existsb (String.eqb (pb_Type p)) l in
  let tool := among ["tool_execution_start"; "tool_execution_update"; "tool_execution_end"] in
  let message :=
    if among ["message_start"; "message_update"; "message_end"] then
      match pb_Message p with
      | Some m => match m !! "content" with Some content => Sprintf_v content | None => "" end
      | None => ""
      end
    else "" in
  (w, mkWorkerEvent (pb_Type p) ts message (if tool then pb_ToolName p else "")
        (if among ["tool_execution_start"; "tool_execution_update"] then pb_Args p
         else if among ["tool_execution_end"] then pb_Result p else ∅)
        raw sequence).

Definition ParseLine (line : string) (sequence : Z) (w : W) : W * result WorkerEvent :=
  let trimmed := TrimRight_cr line in
  if TrimSpace trimmed =s "" then (w, Err ErrSkipLine)
  else match Unmarshal_probe trimmed with
  | Err err => (w, Err (errorf ("parse pi event: " +:+ Error err)))
  | Ok p =>
      if pb_Type p =s "" then (w, Err (errorf "pi event missing type"))
      else if pb_Type p =s "session" then (w, Err ErrSkipLine)
      else let '(w, evt) := event_of p trimmed sequence w in (w, Ok evt)
  end.

(** ** The scanner and the channel *)

Definition channel_capacity : nat := 64.
Definition max_line : nat := Nat.pow 2 20.

(** [bufio.ScanLines]: a final line without a newline is a line unless it is
    empty; one carriage return before the newline is dropped. *)
Definition drop_cr (s : string) : string := TrimSuffix s (String "013" "").
Fixpoint drop_last_empty (parts : list string) : list string :=
  match parts with
  | [] | [""] => []
  | p :: rest => p :: drop_last_empty rest
  end.
(** Scanning stops at the first line that does not fit the buffer. *)
Fixpoint fitting (parts : list string) : list string :=
  match parts with
  | [] => []
  | p :: rest => if Nat.ltb (String.length p) max_line then p :: fitting rest else []
  end.
Definition scan_lines (output : string) : list string :=
  map drop_cr (fitting (drop_last_empty (Split output "010"))).

Record scan := mkScan {
  sc_seq : Z;                        (* lines scanned *)
  sc_ch : list WorkerEvent;          (* buffered in the channel *)
  sc_received : list WorkerEvent;    (* taken from the channel *)
  sc_stderr : string                 (* the diagnostics buffer *)
}.

Definition nl : string := String "010" "".
Definition parse_error_note (seq : Z) (err : error) : string :=
  "[pi-parse-error seq=" +:+ Itoa seq +:+ "] " +:+ Error err +:+ nl.
Definition dropped_note (seq : Z) (kind : string) : string :=
  "[pi-event-dropped seq=" +:+ Itoa seq +:+ " kind=" +:+ kind +:+ "] events channel full" +:+ nl.

(** The body of the loop of [scanStdout]. *)
Definition scan_line (line : string) (s : scan) (w : W) : W * scan :=
  let seq := (sc_seq s + 1)%Z in
  match ParseLine line seq w with
  | (w, Err err) =>
      if bool_decide (err_kind_of err = KSkipLine) then
        (w, mkScan seq (sc_ch s) (sc_received s) (sc_stderr s))
      else (w, mkScan seq (sc_ch s) (sc_received s) (sc_stderr s +:+ parse_error_note seq err))
  | (w, Ok evt) =>
      if Nat.ltb (length (sc_ch s)) channel_capacity then
        (w, mkScan seq (sc_ch s ++ [evt]) (sc_received s) (sc_stderr s))
      else (w, mkScan seq (sc_ch s) (sc_received s) (sc_stderr s +:+ dropped_note seq (we_Kind evt)))
  end.

(** What can happen while the process runs: the scanner takes the next line, the
    consumer receives (or finds the channel empty), the process writes to its
    standard error. *)
Inductive action := ALine (line : string) | AReceive | AStderr (text : string).

Definition act (a : action) (sw : scan * W) : scan * W :=
  let '(s, w) := sw in
  match a with
  | ALine line => let '(w, s) := scan_line line s w in (s, w)
  | AReceive =>
      match sc_ch s with
      | [] => (s, w)
      | e :: rest => (mkScan (sc_seq s) rest (sc_received s ++ [e]) (sc_stderr s), w)
      end
  | AStderr text => (mkScan (sc_seq s) (sc_ch s) (sc_received s) (sc_stderr s +:+ text), w)
  end.

Definition scanStdout (actions : list action) (w : W) : scan * W :=
  foldl (fun sw a => act a sw) (mkScan 0 [] [] "", w) actions.

(** The lines of a run of the driver. *)
Definition lines_of (actions : list action) : list string :=
  omap (fun a => match a with ALine l => Some l | _ => None end) actions.
End parser.

(** ** The process *)

(** What [cmd.Wait] reports: nothing, an exit status ([-1] when a signal ended the
    process), or another error. *)
Inductive cmd_error := ExitError (code : Z) (err : error) | OtherError (err : error).

Definition publishResult (cmdErr : option cmd_error) (stderr : string) : WorkerResult * option error :=
  match cmdErr with
  | None => (mkWorkerResult 0 true "", None)
  | Some e =>
      let '(code, err) := match e with ExitError code err => (code, err) | OtherError err => ((-1)%Z, err) end in
      (mkWorkerResult code false (TrimSpace stderr), if (code =? -1)%Z then Some err else None)
  end.

Record Driver := mkDriver {
  d_binaryPath : string;
  d_provider : string;
  d_model : string;
  d_apiKey : string
}.

(** [environ] is the process environment. *)
Definition apiKeyForSpawn (d : Driver) (spec : WorkerSpec) (environ : gmap string string) : string :=
  first_non_empty
    [TrimSpace (default "" (default ∅ (wsp_Env spec) !! "ANTHROPIC_API_KEY"));
     TrimSpace (d_apiKey d);
     TrimSpace (default "" (environ !! "ANTHROPIC_API_KEY"))].

Definition spawn_args (d : Driver) (spec : WorkerSpec) (environ : gmap string string) : list string :=
  let apiKey := apiKeyForSpawn d spec environ in
  ["--mode"; "json"; "--provider"; d_provider d; "--model"; d_model d; "--no-session"]
  ++ (if apiKey <>s "" then ["--api-key"; apiKey] else [])
  ++ (match wsp_AllowTools spec with [] => [] | tools => ["--tools"; Join tools ","] end)
  ++ [wsp_Goal spec].

(** ** Discovery *)

Section discovery.
Context `{UnicodeTables}.

Inductive file_info := IsDir | NotDir.

(** [getenv] reads [PI_BIN], [stat] is [os.Stat], [lookPath] is
    [exec.LookPath("pi")]. *)
Definition DiscoverBinary (override : string) (environ : gmap string string)
    (stat : string -> result file_info) (lookPath : result string) : result string :=
  let '(candidate, source) :=
    if override =s "" then (default "" (environ !! "PI_BIN"), "PI_BIN env var")
    else (override, "config override") in
  let prefix := "pi binary from " +:+ source +:+ " (" +:+ Quote candidate +:+ "): " in
  if candidate <>s "" then
    match stat candidate with
    | Err err => Err (mkError (err_kind_of err) (prefix +:+ Error err))
    | Ok IsDir => Err (errorf (prefix +:+ "is a directory"))
    | Ok NotDir => Ok candidate
    end
  else match lookPath with
       | Err err => Err (mkError KGeneric ("pi binary not found: " +:+ Error err))
       | Ok path => Ok path
       end.

Definition New (cfg : WorkerConfig) (environ : gmap string string)
    (stat : string -> result file_info) (lookPath : result string) : result Driver :=
  match DiscoverBinary (wc_BinaryPath cfg) environ stat lookPath with
  | Err err => Err (mkError (err_kind_of err) ("pi worker: " +:+ Error err))
  | Ok path => Ok (mkDriver path "anthropic" "claude-3-5-sonnet-20241022"
                     (default "" (environ !! "ANTHROPIC_API_KEY")))
  end.
End discovery.

(** ** Theorems *)

Section theorems.
Context {FT : FloatText} {JE : JsonErrors} {TT : TimeText} `{PiCodec}.
Context {W : Type} `{Clock W}.

Lemma ParseLine_event line seq (w w' : W) e :
  ParseLine line seq w = (w', Ok e) -> we_Sequence e = seq /\ we_Raw e = TrimRight_cr line.
Proof.
  unfold ParseLine. destruct (TrimSpace _ =s ""); [done|].
  destruct (Unmarshal_probe _) as [p|]; [|done]. destruct (pb_Type p =s ""); [done|].
  destruct (pb_Type p =s "session"); [done|]. unfold event_of.
  destruct (if IsZero _ then _ else _) as [w1 ts]. by intros [= _ <-].
Qed.

(** The events the consumer has or will get. *)
Definition delivered (s : scan) : list WorkerEvent := sc_received s ++ sc_ch s.

(** Line number [n] has left a trace: its event, a note in the diagnostics, or it
    was a line to skip. *)
Definition accounted (lines : list string) (s : scan) (n : nat) : Prop :=
  (exists e, e ∈ delivered s /\ we_Sequence e = Z.of_nat n) \/
  (exists err, Contains (sc_stderr s) (parse_error_note (Z.of_nat n) err) = true) \/
  (exists kind, Contains (sc_stderr s) (dropped_note (Z.of_nat n) kind) = true) \/
  (exists line (w : W), nth_error lines (n - 1) = Some line /\
     (ParseLine line (Z.of_nat n) w).2 = Err ErrSkipLine).

Record scan_ok (lines : list string) (s : scan) : Prop := {
  so_seq : sc_seq s = Z.of_nat (length lines);
  so_capacity : length (sc_ch s) <= channel_capacity;
  so_sorted : StronglySorted Z.lt (map we_Sequence (delivered s));
  so_bound : Forall (fun e => (1 <= we_Sequence e <= sc_seq s)%Z /\
    exists line, nth_error lines (Z.to_nat (we_Sequence e) - 1) = Some line /\
      we_Raw e = TrimRight_cr line) (delivered s);
  so_accounted : forall n, 1 <= n <= length lines -> accounted lines s n
}.

Lemma Contains_app_l a b sub : Contains a sub = true -> Contains (a +:+ b) sub = true.
Proof.
  rewrite !Contains_spec. intros (x & y & ->). exists x, (y +:+ b).
  by rewrite !str_app_assoc.
Qed.
Lemma Contains_end a sub : Contains (a +:+ sub) sub = true.
Proof. apply Contains_spec. exists a, "". by rewrite str_app_nil_r. Qed.

Lemma accounted_mono lines line s s' n :
  1 <= n <= length lines ->
  (forall e, e ∈ delivered s -> e ∈ delivered s') ->
  (exists t, sc_stderr s' = sc_stderr s +:+ t) ->
  accounted lines s n -> accounted (lines ++ line) s' n.
Proof.
  intros Hn Hd [t Ht]. unfold accounted. rewrite Ht.
  intros [(e & He & Hs)|[(err & Hc)|[(kind & Hc)|(l & w & Hl & Hp)]]].
  - left. eauto.
  - right. left. exists err. by apply Contains_app_l.
  - right. right. left. exists kind. by apply Contains_app_l.
  - right. right. right. exists l, w. split; [|done]. rewrite nth_error_app1; [done|lia].
Qed.

Lemma StronglySorted_snoc {A} (R : A -> A -> Prop) l a :
  StronglySorted R l -> Forall (fun x => R x a) l -> StronglySorted R (l ++ [a]).
Proof.
  induction 1 as [|x l _ IH Hx]; intros Ha; [repeat constructor|].
  apply Forall_cons in Ha as [Hxa Ha]. cbn. constructor; [by apply IH|].
  apply Forall_app. by repeat constructor.
Qed.

(** One more line, which adds [evts] (none or its event) and [note]. *)
Lemma scan_ok_line lines line s evts note :
  scan_ok lines s -> length (sc_ch s ++ evts) <= channel_capacity ->
  (evts = [] \/ exists e, evts = [e] /\ we_Sequence e = (sc_seq s + 1)%Z /\ we_Raw e = TrimRight_cr line) ->
  let s' := mkScan (sc_seq s + 1) (sc_ch s ++ evts) (sc_received s) (sc_stderr s +:+ note) in
  accounted (lines ++ [line]) s' (S (length lines)) -> scan_ok (lines ++ [line]) s'.
Proof.
  intros [Hq Hcap Hso Hb Hacc] Hcap' Hev s' Hlast.
  assert (delivered s' = delivered s ++ evts) as Hd by (unfold delivered; cbn; by rewrite app_assoc).
  assert (nth_error (lines ++ [line]) (length lines) = Some line) as Hnth
    by (rewrite nth_error_app2 by lia; by rewrite Nat.sub_diag).
  constructor; try done.
  - cbn. rewrite length_app, Hq. cbn. lia.
  - rewrite Hd, map_app. destruct Hev as [->|(e & -> & He & _)]; [by rewrite app_nil_r|].
    apply StronglySorted_snoc; [done|]. apply Forall_map.
    eapply Forall_impl; [exact Hb|]. intros x [Hx _]. cbn. lia.
  - rewrite Hd, Forall_app. split.
    + eapply Forall_impl; [exact Hb|]. intros e (Hr & l & Hl & Hraw). split; [cbn; lia|].
      exists l. split; [|done]. rewrite nth_error_app1; [done|].
      apply nth_error_Some. congruence.
    + destruct Hev as [->|(e & -> & He & Hraw)]; [constructor|]. constructor; [|constructor].
      split; [cbn; lia|]. exists line. split; [|done].
      replace (Z.to_nat (we_Sequence e) - 1) with (length lines) by lia. exact Hnth.
  - intros n Hn. rewrite length_app in Hn. cbn in Hn.
    destruct (decide (n = S (length lines))) as [->|]; [done|].
    apply (accounted_mono lines [line] s); [lia | | by exists note | apply Hacc; lia].
    intros e. rewrite Hd, elem_of_app. by left.
Qed.

Lemma act_ok a lines s (w : W) :
  scan_ok lines s -> scan_ok (lines ++ lines_of [a]) (act a (s, w)).1.
Proof.
  intros Hok. destruct a as [line| |text]; cbn [act lines_of omap list_omap].
  - unfold scan_line. pose proof (so_seq _ _ Hok) as Hq.
    assert (Z.of_nat (S (length lines)) = (sc_seq s + 1)%Z) as Hs by lia.
    assert (nth_error (lines ++ [line]) (S (length lines) - 1) = Some line) as Hnth
      by (cbn; rewrite Nat.sub_0_r, nth_error_app2 by lia; by rewrite Nat.sub_diag).
    destruct (ParseLine line (sc_seq s + 1) w) as [w1 [e|err]] eqn:Ep.
    + apply ParseLine_event in Ep as [He Hraw].
      destruct (Nat.ltb_spec (length (sc_ch s)) channel_capacity) as [Hlt|Hge]; cbn [fst].
      * pose proof (scan_ok_line lines line s [e] "" Hok) as Hl. cbv zeta in Hl.
        rewrite str_app_nil_r in Hl. apply Hl.
        -- rewrite length_app. cbn. lia.
        -- right. by exists e.
        -- left. exists e. split; [|congruence]. unfold delivered. cbn. rewrite !elem_of_app.
           right. right. by left.
      * pose proof (scan_ok_line lines line s [] (dropped_note (sc_seq s + 1) (we_Kind e)) Hok) as Hl.
        cbv zeta in Hl. rewrite app_nil_r in Hl. apply Hl; [apply Hok | by left |].
        right. right. left. exists (we_Kind e). rewrite Hs. apply Contains_end.
    + case_bool_decide as Hk; cbn [fst].
      * pose proof (scan_ok_line lines line s [] "" Hok) as Hl. cbv zeta in Hl.
        rewrite app_nil_r, str_app_nil_r in Hl. apply Hl; [apply Hok | by left |].
        right. right. right. exists line, w. split; [done|]. rewrite Hs, Ep. cbn.
        revert Ep Hk. unfold ParseLine. destruct (TrimSpace _ =s ""); [by intros [= _ <-]|].
        destruct (Unmarshal_probe _) as [p|]; [|by intros [= _ <-]].
        destruct (pb_Type p =s ""); [by intros [= _ <-]|].
        destruct (pb_Type p =s "session"); [by intros [= _ <-]|]. by destruct (event_of _ _ _ _).
      * pose proof (scan_ok_line lines line s [] (parse_error_note (sc_seq s + 1) err) Hok) as Hl.
        cbv zeta in Hl. rewrite app_nil_r in Hl. apply Hl; [apply Hok | by left |].
        right. left. exists err. rewrite Hs. apply Contains_end.
  - rewrite app_nil_r. destruct (sc_ch s) as [|e rest] eqn:Ech; [done|]. cbn [fst].
    set (s' := mkScan _ _ _ _).
    assert (delivered s' = delivered s) as Hd
      by (unfold delivered, s'; cbn; by rewrite Ech, <- app_assoc).
    destruct Hok as [Hq Hcap Hso Hb Hacc]. constructor; try done; rewrite ?Hd; try done.
    + rewrite Ech in Hcap. cbn in Hcap |- *. lia.
    + intros n Hn. specialize (Hacc n Hn). unfold accounted in *. by rewrite Hd.
  - rewrite app_nil_r. cbn [fst]. destruct Hok as [Hq Hcap Hso Hb Hacc]. constructor; try done.
    intros n Hn. specialize (Hacc n Hn). rewrite <- (app_nil_r lines).
    apply (accounted_mono lines [] s); [done | done | by exists text | done].
Qed.

(** The scanner of the worker's output loses nothing silently, however the
    consumer and the process interleave with it: it never holds more than the
    channel takes; the events are delivered in the order of their lines, each
    with its line's number and text; and every line scanned has left its event,
    a note in the diagnostics that names its number, or was blank or the session
    header. *)
Theorem scanStdout_accounts actions (w : W) :
  let s := (scanStdout actions w).1 in
  scan_ok (lines_of actions) s.
Proof.
  cbv zeta. unfold scanStdout.
  assert (forall lines s w0, scan_ok lines s ->
    scan_ok (lines ++ lines_of actions) (foldl (fun sw a => act a sw) (s, w0) actions).1) as Hf.
  { induction actions as [|a actions IH]; intros lines s w0 Hok; cbn [foldl].
    { cbn. by rewrite app_nil_r. }
    pose proof (act_ok a lines s w0 Hok) as Ha. destruct (act a (s, w0)) as [s1 w1]. cbn [fst] in Ha.
    apply (IH _ _ w1) in Ha. rewrite <- app_assoc in Ha.
    replace (lines_of (a :: actions)) with (lines_of [a] ++ lines_of actions); [exact Ha|].
    by destruct a. }
  apply (Hf []). constructor; cbn; try done; [unfold channel_capacity; lia | constructor | lia].
Qed.
End theorems.
