(* ===== verification/PiDriver.v ===== *)
(** * adapters/pi: the life of a driver

    [Spawn], [Wait] and [Abort] of [src/adapters/pi/pi.go] as a step relation: the
    process, the scanner of its standard output, the copier of its standard error,
    the goroutine that reaps it and the consumer of the events run side by side.
    The pipes are queues of lines and chunks. The writing end of each is inherited:
    the process may close it early, and a process it has started may keep it open,
    and write, after the process itself has ended. A reader sees the end of a pipe
    when the pipe is empty and nobody holds its writing end any more. *)

From stdpp Require Import relations.
From S2P Require Import Prelude GoStrings GoSort GoValue GoTime JsonText Json Rfc3339 Config Adapter Pi.

Section driver.
Context {FT : FloatText} {JE : JsonErrors} {TT : TimeText} `{PiCodec}.
Context {W : Type} `{Clock W}.

(** ** The driver and its process *)

Record driver := mkDrv {
  dv_spawned : bool;
  dv_started : bool;                  (* [cmd] is set: the process has started *)
  dv_stdout : list string;            (* lines in the pipe *)
  dv_stderr : list string;            (* chunks in the pipe *)
  dv_out_open : bool;                 (* somebody holds the writing end of [stdout] *)
  dv_err_open : bool;                 (* and of [stderr] *)
  dv_exit : option (option cmd_error); (* what [cmd.Wait] will report *)
  dv_scan : scan;                     (* the scanner, the channel, the consumer *)
  dv_scanned : list string;           (* the lines scanned so far *)
  dv_closed : bool;                   (* the scanner is done, [events] is closed *)
  dv_copied : bool;                   (* the copier is done *)
  dv_done : option (WorkerResult * option error);  (* [done] is closed *)
  dv_world : W
}.

Definition new_driver (w : W) : driver :=
  mkDrv false false [] [] false false None (mkScan 0 [] [] "") [] false false None w.

Definition set_spawned (started : bool) (d : driver) : driver :=
  mkDrv true started (dv_stdout d) (dv_stderr d) started started (dv_exit d) (dv_scan d) (dv_scanned d)
    (dv_closed d) (dv_copied d) (dv_done d) (dv_world d).
Definition set_pipes (out err : list string) (d : driver) : driver :=
  mkDrv (dv_spawned d) (dv_started d) out err (dv_out_open d) (dv_err_open d) (dv_exit d) (dv_scan d) (dv_scanned d)
    (dv_closed d) (dv_copied d) (dv_done d) (dv_world d).
Definition set_open (out err : bool) (d : driver) : driver :=
  mkDrv (dv_spawned d) (dv_started d) (dv_stdout d) (dv_stderr d) out err (dv_exit d) (dv_scan d)
    (dv_scanned d) (dv_closed d) (dv_copied d) (dv_done d) (dv_world d).
Definition set_exit (e : option cmd_error) (d : driver) : driver :=
  mkDrv (dv_spawned d) (dv_started d) (dv_stdout d) (dv_stderr d) (dv_out_open d) (dv_err_open d) (Some e)
    (dv_scan d) (dv_scanned d) (dv_closed d) (dv_copied d) (dv_done d) (dv_world d).
Definition set_scan (s : scan) (scanned : list string) (w : W) (d : driver) : driver :=
  mkDrv (dv_spawned d) (dv_started d) (dv_stdout d) (dv_stderr d) (dv_out_open d) (dv_err_open d) (dv_exit d)
    s scanned (dv_closed d) (dv_copied d) (dv_done d) w.
Definition set_ends (closed copied : bool) (done : option (WorkerResult * option error)) (d : driver)
    : driver :=
  mkDrv (dv_spawned d) (dv_started d) (dv_stdout d) (dv_stderr d) (dv_out_open d) (dv_err_open d) (dv_exit d)
    (dv_scan d) (dv_scanned d) closed copied done (dv_world d).

Definition running (d : driver) : Prop := dv_started d = true /\ dv_exit d = None.
Definition fits (line : string) : bool := Nat.ltb (String.length line) max_line.

(** [Spawn] on a driver that has been spawned: an error, and nothing else. *)
Definition ErrSpawned : error := errorf "pi driver: already spawned".

(** One step of one of the parties. *)
Inductive drive : driver -> driver -> Prop :=
| drive_spawn d started :  (* a pipe or the start may fail *)
    dv_spawned d = false -> drive d (set_spawned started d)
| drive_write d line :  (* by the process, or by one that has inherited the pipe *)
    dv_out_open d = true -> drive d (set_pipes (dv_stdout d ++ [line]) (dv_stderr d) d)
| drive_complain d text :
    dv_err_open d = true -> drive d (set_pipes (dv_stdout d) (dv_stderr d ++ [text]) d)
| drive_close_out d :  (* the last holder lets go of it: before the exit, with it or after it *)
    dv_out_open d = true -> drive d (set_open false (dv_err_open d) d)
| drive_close_err d :
    dv_err_open d = true -> drive d (set_open (dv_out_open d) false d)
| drive_exit d e : running d -> drive d (set_exit e d)
| drive_scan d line rest s w :
    dv_closed d = false -> dv_stdout d = line :: rest -> fits line = true ->
    scan_line (drop_cr line) (dv_scan d) (dv_world d) = (w, s) ->
    drive d (set_scan s (dv_scanned d ++ [drop_cr line]) w (set_pipes rest (dv_stderr d) d))
| drive_scan_long d line rest :  (* the scanner gives up *)
    dv_closed d = false -> dv_stdout d = line :: rest -> fits line = false ->
    drive d (set_ends true (dv_copied d) (dv_done d) d)
| drive_eof d :
    dv_started d = true -> dv_closed d = false -> dv_stdout d = [] -> dv_out_open d = false ->
    drive d (set_ends true (dv_copied d) (dv_done d) d)
| drive_copy d text rest :
    dv_copied d = false -> dv_stderr d = text :: rest ->
    drive d (set_scan (act (AStderr text) (dv_scan d, dv_world d)).1 (dv_scanned d) (dv_world d)
               (set_pipes (dv_stdout d) rest d))
| drive_copied d :
    dv_started d = true -> dv_copied d = false -> dv_stderr d = [] -> dv_err_open d = false ->
    drive d (set_ends (dv_closed d) true (dv_done d) d)
| drive_reap d e :
    dv_closed d = true -> dv_copied d = true -> dv_exit d = Some e -> dv_done d = None ->
    drive d (set_ends true true (Some (publishResult e (sc_stderr (dv_scan d)))) d)
| drive_receive d :
    drive d (set_scan (act AReceive (dv_scan d, dv_world d)).1 (dv_scanned d) (dv_world d) d).

(** [Abort]: kill the process, if there is one that runs. *)
Definition Abort_ (d : driver) : driver :=
  if dv_started d then
    match dv_exit d with
    | None => set_exit (Some (ExitError (-1) (errorf "signal: killed"))) d
    | Some _ => d
    end
  else d.

Lemma Abort_drive d : Abort_ d = d \/ drive d (Abort_ d).
Proof.
  unfold Abort_. destruct (dv_started d) eqn:Es; [|by left]. destruct (dv_exit d) eqn:Ee; [by left|].
  right. by apply drive_exit.
Qed.

(** What [Wait] can return: the published result once [done] is closed, the
    context's error once the context is. *)
Inductive waits (ctx_err : option error) (d : driver) : WorkerResult * option error -> Prop :=
| waits_done r : dv_done d = Some r -> waits ctx_err d r
| waits_ctx err : ctx_err = Some err -> waits ctx_err d (mkWorkerResult 0 false "", Some err).

Definition reached (w : W) (d : driver) : Prop := rtc drive (new_driver w) d.

(** ** What holds in every state *)

Record driver_inv (d : driver) : Prop := {
  di_scan : scan_ok (W := W) (dv_scanned d) (dv_scan d);
  di_unspawned : dv_spawned d = false -> dv_started d = false;
  di_idle : dv_started d = false ->
    dv_stdout d = [] /\ dv_stderr d = [] /\ dv_exit d = None /\ dv_scanned d = [] /\
    dv_out_open d = false /\ dv_err_open d = false /\ dv_closed d = false /\ dv_copied d = false;
  di_closed : dv_closed d = true ->
    dv_stdout d = [] /\ dv_out_open d = false \/ exists line, line ∈ dv_stdout d /\ fits line = false;
  di_copied : dv_copied d = true -> dv_stderr d = [] /\ dv_err_open d = false;
  di_done : match dv_done d with
            | Some r => dv_closed d = true /\ dv_copied d = true /\
                exists e, dv_exit d = Some e /\ r = publishResult e (sc_stderr (dv_scan d))
            | None => True
            end
}.

Lemma scan_line_ok lines line s w w' s' :
  scan_ok (W := W) lines s -> scan_line line s w = (w', s') -> scan_ok (W := W) (lines ++ [line]) s'.
Proof.
  intros Hok E. pose proof (act_ok (ALine line) lines s w Hok) as Ha. cbn [act lines_of omap list_omap] in Ha.
  by rewrite E in Ha.
Qed.

Lemma silent_act_ok a lines s w :
  lines_of [a] = [] -> scan_ok (W := W) lines s -> scan_ok (W := W) lines (act a (s, w)).1.
Proof. intros Hl Hok. rewrite <- (app_nil_r lines), <- Hl. by apply act_ok. Qed.

Lemma receive_stderr s w : sc_stderr (act AReceive (s, w)).1 = sc_stderr s.
Proof. cbn. by destruct (sc_ch s). Qed.

#[local] Opaque fits.

Lemma not_done d : driver_inv d -> dv_closed d = false \/ dv_copied d = false -> dv_done d = None.
Proof.
  intros [_ _ _ _ _ H5] Hor. destruct (dv_done d); [|done]. destruct H5 as (Hc & Hcp & _).
  destruct Hor; congruence.
Qed.

Lemma started_out d line : driver_inv d -> line ∈ dv_stdout d -> dv_started d = true.
Proof.
  intros Hi Hin. destruct (dv_started d) eqn:E; [done|]. destruct (di_idle _ Hi E) as (Ho & _).
  rewrite Ho in Hin. by apply elem_of_nil in Hin.
Qed.

Lemma open_started d : driver_inv d -> dv_out_open d = true \/ dv_err_open d = true -> dv_started d = true.
Proof.
  intros Hi Hor. destruct (dv_started d) eqn:E; [done|].
  destruct (di_idle _ Hi E) as (_ & _ & _ & _ & Ho & He & _). destruct Hor; congruence.
Qed.

Lemma running_undone d : driver_inv d -> running d -> dv_done d = None.
Proof.
  intros Hi [_ He]. pose proof (di_done _ Hi) as H5. destruct (dv_done d); [|done].
  destruct H5 as (_ & _ & e & Hx & _). congruence.
Qed.

(** The goals of [drive_inv] that only the fields a step sets decide. *)
#[local] Ltac fields :=
  split; cbn [dv_scan dv_scanned dv_spawned dv_started dv_stdout dv_stderr dv_out_open dv_err_open dv_exit
    dv_closed dv_copied dv_done dv_world set_spawned set_scan set_pipes set_open set_exit set_ends];
  try done; try (intros ?; congruence).

Lemma drive_inv d d' : drive d d' -> driver_inv d -> driver_inv d'.
Proof.
  intros Hd Hi. pose proof Hi as [H1 Hu H2 H3 H4 H5].
  destruct Hd as [d started Hs|d line Hr|d text Hr|d Hr|d Hr|d e Hr|d line rest s w Hc Ho Hf Hl|d line rest Hc Ho Hf
    |d Hst Hc Ho He|d text rest Hc Ho|d Hst Hc Ho He|d e Hc Hcp He Hn|d].
  - destruct (H2 (Hu Hs)) as (Ho & He & Hx & Hsc & Hoo & Heo & Hc & Hcp). fields.
  - pose proof (open_started _ Hi (or_introl Hr)) as Hst. fields. intros Hc.
    destruct (H3 Hc) as [[_ ?]|(l & Hin & Hl)]; [congruence|]. right. exists l. split; [|done].
    apply elem_of_app. by left.
  - pose proof (open_started _ Hi (or_intror Hr)) as Hst. fields. intros Hc. destruct (H4 Hc). congruence.
  - pose proof (open_started _ Hi (or_introl Hr)) as Hst. fields. intros Hc.
    destruct (H3 Hc) as [[? ?]|?]; [by left|by right].
  - pose proof (open_started _ Hi (or_intror Hr)) as Hst. fields. intros Hc. by destruct (H4 Hc).
  - pose proof (running_undone _ Hi Hr) as Hdn. destruct Hr as [Hst He]. fields. by rewrite Hdn.
  - assert (dv_started d = true) as Hst by (apply (started_out d line Hi); rewrite Ho; left).
    assert (dv_done d = None) as Hdn by (apply not_done; auto).
    fields; [by eapply scan_line_ok|by rewrite Hdn].
  - assert (dv_started d = true) as Hst by (apply (started_out d line Hi); rewrite Ho; left).
    assert (dv_done d = None) as Hdn by (apply not_done; auto).
    fields; [|by rewrite Hdn]. intros _. right. exists line. rewrite Ho. split; [left|done].
  - assert (dv_done d = None) as Hdn by (apply not_done; auto).
    fields; [|by rewrite Hdn]. intros _. by left.
  - assert (dv_done d = None) as Hdn by (apply not_done; auto).
    assert (dv_started d = true) as Hst.
    { destruct (dv_started d) eqn:E; [done|]. destruct (H2 eq_refl) as (_ & Hz & _). congruence. }
    fields; [by apply silent_act_ok|by rewrite Hdn].
  - assert (dv_done d = None) as Hdn by (apply not_done; auto). fields. by rewrite Hdn.
  - assert (dv_started d = true) as Hst.
    { destruct (dv_started d) eqn:E; [done|]. destruct (H2 eq_refl) as (_ & _ & Hz & _). congruence. }
    fields; [by intros _; apply H3|by intros _; apply H4|]. split_and!; [done..|]. by exists e.
  - fields; [by apply silent_act_ok|by rewrite receive_stderr].
Qed.

Lemma reached_inv w d : reached w d -> driver_inv d.
Proof.
  unfold reached. intros Hr. remember (new_driver w) as d0 eqn:E0. assert (driver_inv d0) as Hz0.
  { subst. split; cbn; try done. constructor; cbn; try done; [unfold channel_capacity; lia|constructor|lia]. }
  clear E0. induction Hr as [|d1 d2 d3 Hs _ IH]; [done|]. apply IH. by apply (drive_inv d1).
Qed.

(** ** [Wait] *)

Lemma done_stays d d' r : driver_inv d -> rtc drive d d' -> dv_done d = Some r ->
  dv_done d' = Some r /\ dv_scanned d' = dv_scanned d /\ sc_stderr (dv_scan d') = sc_stderr (dv_scan d).
Proof.
  intros Hi Hr. revert Hi. induction Hr as [|d d1 d2 Hs _ IH]; intros Hi Hd; [done|].
  assert (dv_done d1 = Some r /\ dv_scanned d1 = dv_scanned d /\ sc_stderr (dv_scan d1) = sc_stderr (dv_scan d))
    as (Hd1 & Hsc & He).
  { pose proof (di_done _ Hi) as H5. rewrite Hd in H5. destruct H5 as (Hc & Hcp & e & Hex & _).
    destruct Hs; cbn [dv_done dv_scanned dv_scan set_spawned set_pipes set_open set_exit set_scan set_ends]; try done;
      try congruence. by rewrite receive_stderr. }
  destruct (IH (drive_inv _ _ Hs Hi) Hd1) as (? & ? & ?). split_and!; congruence.
Qed.

(** C22: what [Wait] returns when the process has ended is final and complete: the
    result of the exit status with all of the diagnostics - those of the process
    and every note of the scanner - since the scanner and the copier are done;
    every line the scanner took is accounted for, and all lines are taken unless
    one of them does not fit the scanner's buffer. *)
Theorem Wait_final w d r
    (Hr : reached w d) (Hw : waits None d r) :
  (exists e, dv_exit d = Some e /\ r = publishResult e (sc_stderr (dv_scan d))) /\
  dv_closed d = true /\ dv_stderr d = [] /\ scan_ok (W := W) (dv_scanned d) (dv_scan d) /\
  (dv_stdout d = [] \/ exists line, line ∈ dv_stdout d /\ fits line = false) /\
  forall d', rtc drive d d' ->
    waits None d' r /\ dv_scanned d' = dv_scanned d /\ sc_stderr (dv_scan d') = sc_stderr (dv_scan d).
Proof.
  inversion Hw as [r' Hd|err Herr]; subst; [|done]. pose proof (reached_inv _ _ Hr) as Hi.
  pose proof Hi as [H1 _ _ H3 H4 H5]. rewrite Hd in H5. destruct H5 as (Hc & Hcp & e & He & Hr').
  split; [by exists e|]. split; [done|]. split; [by apply H4|]. split; [done|].
  split; [destruct (H3 Hc) as [[? _]|?]; [by left|by right]|].
  intros d' Hs. destruct (done_stays _ _ _ Hi Hs Hd) as (? & ? & ?). split_and!; [by constructor|done|done].
Qed.

(** The reaper waits for both readers, and so for everybody who holds a pipe: a
    process that has ended, or was killed, is not reported while one that it has
    started keeps its standard output or its standard error. *)
Lemma held_pipe_waits w d
    (Hr : reached w d)
    (Hh : dv_out_open d = true /\ (forall line, line ∈ dv_stdout d -> fits line = true) \/
          dv_err_open d = true) :
  forall r, ~ waits None d r.
Proof.
  intros r Hw. inversion Hw as [r' Hd|err Herr]; subst; [|done].
  pose proof (reached_inv _ _ Hr) as Hi. pose proof (di_done _ Hi) as H5. rewrite Hd in H5.
  destruct H5 as (Hc & Hcp & _). destruct Hh as [[Ho Hf]|He].
  - destruct (di_closed _ Hi Hc) as [[_ ?]|(l & Hin & Hl)]; [congruence|]. rewrite (Hf _ Hin) in Hl. done.
  - destruct (di_copied _ Hi Hcp) as [_ ?]. congruence.
Qed.

(** A driver whose [Spawn] failed never closes [done]: only the context ends a
    [Wait] on it, and it can not be spawned again. *)
Lemma failed_spawn_waits w d d' :
  reached w d -> dv_spawned d = true -> dv_started d = false -> rtc drive d d' ->
  dv_started d' = false /\ forall r, ~ waits None d' r.
Proof.
  intros Hr Hsp Hst Hs. pose proof (reached_inv _ _ Hr) as Hi.
  assert (dv_spawned d' = true /\ dv_started d' = false) as [_ Hst'].
  { clear Hr Hi. induction Hs as [|d d1 d2 Hd _ IH]; [done|].
    apply IH; destruct Hd; cbn [dv_spawned dv_started set_spawned set_pipes set_open set_exit set_scan set_ends]; try done; congruence. }
  split; [done|]. assert (driver_inv d') as Hi' by (apply (reached_inv w); unfold reached in *; by etrans).
  intros r Hw. inversion Hw as [r' Hd|err Herr]; subst; [|done].
  pose proof (di_done _ Hi') as H5. rewrite Hd in H5. destruct H5 as (_ & _ & e & He & _).
  destruct (di_idle _ Hi' Hst') as (_ & _ & Hn & _). congruence.
Qed.
End driver.

(** ** A process that prints one event and exits with 3 *)

Definition demo_codec : PiCodec := {| Sprintf_v _ := "" |}.
Definition demo_clock : Clock nat := fun n => (n, 1%Z).
#[local] Existing Instances demo_codec demo_clock plain_floats plain_errors plain_times.

Definition demo_exit : option cmd_error := Some (ExitError 3 (errorf "exit status 3")).
Definition demo_line : string := Eval vm_compute in print (JObj [("type", JStr "turn_end")]).
Definition demo_done : driver (W := nat) :=
  let d := set_spawned true (new_driver 0) in
  let d := set_pipes (dv_stdout d ++ [demo_line]) (dv_stderr d) d in
  let d := set_pipes (dv_stdout d) (dv_stderr d ++ [" oops"]) d in
  let d := set_exit demo_exit d in
  let d := set_open false (dv_err_open d) d in
  let d := set_open (dv_out_open d) false d in
  let '(w, s) := scan_line demo_line (dv_scan d) (dv_world d) in
  let d := set_scan s [demo_line] w (set_pipes [] (dv_stderr d) d) in
  let d := set_ends true (dv_copied d) (dv_done d) d in
  let d := set_scan (act (AStderr " oops") (dv_scan d, dv_world d)).1 (dv_scanned d) (dv_world d)
             (set_pipes (dv_stdout d) [] d) in
  let d := set_ends (dv_closed d) true (dv_done d) d in
  set_ends true true (Some (publishResult demo_exit (sc_stderr (dv_scan d)))) d.

Lemma demo_fits : fits demo_line = true.
Proof. apply Nat.ltb_lt. unfold max_line. change (String.length demo_line) with 19. apply (Nat.lt_le_trans _ (2 ^ 5)); [cbn; lia|].
  apply Nat.pow_le_mono_r; lia. Qed.

#[local] Opaque fits max_line.

Lemma rtc_eq {A} (R : A -> A -> Prop) x y : x = y -> rtc R x y.
Proof. by intros ->. Qed.

Lemma demo_reached : reached 0 demo_done.
Proof.
  unfold reached.
  eapply rtc_l; [by apply (drive_spawn _ true)|].
  eapply rtc_l; [by apply (drive_write _ demo_line)|].
  eapply rtc_l; [by apply (drive_complain _ " oops")|].
  eapply rtc_l; [by apply (drive_exit _ demo_exit)|].
  eapply rtc_l; [by apply drive_close_out|].
  eapply rtc_l; [by apply drive_close_err|].
  eapply rtc_l; [by eapply (drive_scan _ demo_line); [| |exact demo_fits|]|].
  eapply rtc_l; [by apply drive_eof|].
  eapply rtc_l; [by eapply (drive_copy _ " oops")|].
  eapply rtc_l; [by apply drive_copied|].
  eapply rtc_l; [by apply (drive_reap _ demo_exit)|]. apply rtc_eq. vm_compute. reflexivity.
Qed.

Lemma Wait_final_witness :
  waits None demo_done (mkWorkerResult 3 false "oops", None) /\ dv_stderr demo_done = [].
Proof.
  assert (waits None demo_done (mkWorkerResult 3 false "oops", None)) as Hw
    by (constructor; vm_compute; reflexivity).
  split; [exact Hw|]. exact (proj1 (proj2 (proj2 (Wait_final 0 demo_done _ demo_reached Hw)))).
Defined.

(** A worker is killed while a process it has started holds its pipes:
    the kill is done, and [Wait] goes on waiting. *)
Example killed_and_held :
  let d := Abort_ (set_spawned true (new_driver 0)) in
  reached 0 d /\ dv_exit d = Some (Some (ExitError (-1) (errorf "signal: killed"))) /\
  forall r, ~ waits None d r.
Proof.
  assert (reached 0 (Abort_ (set_spawned true (new_driver 0)))) as Hr.
  { unfold reached. eapply rtc_l; [by apply (drive_spawn _ true)|]. apply rtc_once.
    destruct (Abort_drive (set_spawned true (new_driver 0))) as [E|E]; [discriminate E|exact E]. }
  split; [exact Hr|]. split; [reflexivity|]. apply (held_pipe_waits 0 _ Hr). by right.
Qed.
