(* ===== verification/Orchestrator.v ===== *)
(** * internal/orchestrator: the request handlers

    [src/internal/orchestrator/orchestrator.go]: dependencies, the helpers the
    handlers share, and the handlers of submitted prompts, tool calls and state
    transitions. The handlers thread the world they act on. *)

From S2P Require Import State.
From S2P Require Import Prelude GoStrings GoValue GoTime GoPath Protocol Config Registry Route.
From S2P Require Import Prompt Guard Adapter Storage Host.

(** ** Dependencies

    [Flags] and [ContextSnapshot] are handed to the prompt builder, which does
    not look at them; they are left out. *)
Record Dependencies (W : Type) := mkDeps {
  dep_ConfigOptions : Config.Options;
  dep_RegistryOptions : RegOptions;
  dep_GuardRules : list Rule;
  dep_GuardSuppressions : list Suppression;
  dep_StateStore : option State.Store;
  dep_StorageSink : option (Sink W);
  dep_PromptSections : list SectionSpec;
  dep_PromptBudget : TokenBudget;
  dep_ProjectContext : ProjectContext;
  dep_OwnerID : string;
  dep_Now : option (W -> W * time);
  dep_WorkerFactory : option (context -> WorkerConfig -> W -> W * result (Worker W))
}.
Arguments mkDeps {W} _ _ _ _ _ _ _ _ _ _ _ _.
Arguments dep_ConfigOptions {W} _.
Arguments dep_RegistryOptions {W} _.
Arguments dep_GuardRules {W} _.
Arguments dep_GuardSuppressions {W} _.
Arguments dep_StateStore {W} _.
Arguments dep_StorageSink {W} _.
Arguments dep_PromptSections {W} _.
Arguments dep_PromptBudget {W} _.
Arguments dep_ProjectContext {W} _.
Arguments dep_OwnerID {W} _.
Arguments dep_Now {W} _.
Arguments dep_WorkerFactory {W} _.

(** ** Reading a request *)

Definition stringValue (values : object) (key : string) : string :=
  default "" (as_string (values !! key)).

Definition pv (req : Request) (key : string) : string := stringValue (req_Payload req) key.

Definition payloadText (req : Request) : string :=
  first_non_empty [pv req "input"; pv req "prompt"; pv req "text"].

Definition guardInput (req : Request) : GuardInput :=
  mkGuardInput (req_RequestID req) (req_Project req) (req_CWD req) (pv req "tool")
    (default ∅ (as_map (req_Payload req !! "args"))) (pv req "agent") (pv req "autonomy")
    (req_SessionID req).

Definition lifecycleForError (req : Request) : string :=
  if (pv req "blocked_reason" <>s "") || (pv req "error_class" =s "policy_blocked")
  then State.LifecycleBlocked else State.LifecycleFailed.

Definition blockedReason (req : Request) : string :=
  if req_Event req <>s EventOnError then "" else pv req "blocked_reason".

Definition errorSummary (req : Request) : option State.OmgErrorSummary :=
  if req_Event req <>s EventOnError then None
  else Some (State.mkSummary (pv req "error_class") (pv req "error_domain") (pv req "error_code")
               (pv req "error_message")).

(** ** Attributes *)

Definition payload_keys : list string :=
  ["tool"; "agent"; "path"; "command"; "error"; "error_class"; "error_code"; "error_message";
   "blocked_reason"].

(** [attrs[key] = value] unless the value is empty *)
Definition put (key value : string) (attrs : attributes) : attributes :=
  if value <>s "" then <[key := value]> attrs else attrs.

(** The loop over [extra] sets each key once, so its order does not matter. *)
Definition storageAttributes (req : Request) (extra : attributes) : option attributes :=
  let attrs := foldl (fun m key => put key (pv req key) m) ∅ payload_keys in
  let attrs := match as_map (req_Payload req !! "args") with
               | Some args => foldl (fun m key => put ("arg_" +:+ key) (stringValue args key) m)
                                attrs ["path"; "command"]
               | None => attrs
               end in
  let attrs := filter (fun kv => kv.2 <> "") extra ∪ attrs in
  if decide (attrs = ∅) then None else Some attrs.

Definition storageWarning (err : error) : string := "storage event not recorded: " +:+ Error err.

(** ** Prompt texts *)

Definition nl : string := String "010" "".

Definition toolPolicyText (policy : ToolPolicy) : string :=
  if tp_Mode policy =s ToolModeAllowlist then
    "Tool policy: allowlist" +:+ nl +:+ "Use only these listed tools: "
    +:+ Join (elems (tp_Allow policy)) ", "
  else if tp_Mode policy =s ToolModeAllExcept then
    "Tool policy: all_except" +:+ nl
    +:+ "You may use available tools except these listed tools: "
    +:+ Join (elems (tp_Except policy)) ", "
  else "Tool policy: default" +:+ nl +:+ "Use the host LLM's default tool policy.".

Definition autonomyText (level : string) : string :=
  let level := TrimSpace level in
  let level := if level =s "" then "unspecified" else level in
  let content := "Autonomy: " +:+ level in
  if EqualFold level "cautious" then
    content +:+ nl +:+ "Ask for confirmation before risky, destructive, external, credential-gated, or production-impacting actions."
  else content.

Definition roleFitText (useWhen avoidWhen : list string) : string :=
  let part title l := match l with
                      | [] => []
                      | _ => [title +:+ nl +:+ "- " +:+ Join l (nl +:+ "- ")]
                      end in
  Join (part "Use when:" useWhen ++ part "Avoid when:" avoidWhen) nl.

Definition guardrailsText : string :=
  Join ["Guardrails:"; "- Stay aware of token and time budget.";
        "- Do not repeat the same approach more than 3 times; report when blocked.";
        "- When uncertain, report evidence and remaining risks."] nl.

Definition modelInfo (agent : Agent) : ModelInfo :=
  match elems (agt_Models agent) with
  | [] => mkModelInfo "" ""
  | m :: _ => mkModelInfo (mc_Model m) (mc_Variant m)
  end.

Definition routeWarning (r : RouteResult) : string :=
  "route: procedure=" +:+ rt_Procedure r +:+ " domain=" +:+ rt_Domain r +:+ " agent="
  +:+ rt_Agent r +:+ " confidence=" +:+ rt_Confidence r.

Definition optional_section (name source content : string) (priority : Z) : list SectionSpec :=
  if TrimSpace content <>s "" then [mkSectionSpec name source content false priority] else [].

Definition defaultPromptSections (agent : Agent) (r : RouteResult) (project : ProjectContext)
    : list SectionSpec :=
  let agentName := if agt_Name agent =s "" then "omg" else agt_Name agent in
  let identity := "Agent: " +:+ agentName +:+ nl +:+ "Procedure: " +:+ rt_Procedure r +:+ nl
    +:+ "Domain: " +:+ rt_Domain r +:+ nl +:+ "Confidence: " +:+ rt_Confidence r in
  let fit := roleFitText (elems (agt_UseWhen agent)) (elems (agt_AvoidWhen agent)) in
  [mkSectionSpec "route/identity" "internal/orchestrator" identity true 100;
   mkSectionSpec "guardrails" "internal/orchestrator" guardrailsText true 95;
   mkSectionSpec "tool-policy" "internal/orchestrator" (toolPolicyText (agt_Tools agent)) true 90;
   mkSectionSpec "autonomy" "internal/orchestrator" (autonomyText (agt_Autonomy agent)) true 85]
  ++ optional_section "agent-description" (agt_Source agent) (agt_Description agent) 80
  ++ (if fit <>s "" then [mkSectionSpec "role-fit" (agt_Source agent) fit false 70] else [])
  ++ optional_section "project-rules" "project" (pc_Rules project) 60.

Section handlers.
Context {W : Type} `{Clock W} `{Exec W} `{Files W} `{StateFiles W} `{UnicodeTables} `{YAML}.
Implicit Types (deps : Dependencies W) (w : W).

Definition now deps w : W * time :=
  match dep_Now deps with Some f => f w | None => time_Now w end.

Definition configOptions (req : Request) deps : Config.Options :=
  let o := dep_ConfigOptions deps in
  if (opt_ProjectDir o =s "") && (req_Project req <>s "") then
    Config.mkOptions (opt_BuiltInDir o) (opt_UserDir o) (JoinPath [req_Project req; ".omg"])
  else o.

(** ** Recording *)

(** The event with everything the request and the dependencies add to it, but
    its time. *)
Definition fill_event (req : Request) deps (event : Event) : Event :=
  mkEvent (ev_ID event) (ev_Type event)
    (first_non_empty [ev_RunID event; pv req "run_id"; req_RequestID req])
    (first_non_empty [ev_WorkID event; pv req "work_id"])
    (first_non_empty [ev_AgentSessionID event; req_SessionID req; pv req "agent_session_id"])
    (first_non_empty [ev_EvidenceID event; pv req "evidence_id"])
    (first_non_empty [ev_ToolCallID event; pv req "tool_call_id"])
    (first_non_empty [ev_VerificationID event; pv req "verification_id"])
    (first_non_empty [ev_RequestID event; req_RequestID req])
    (first_non_empty [ev_Provider event; req_Provider req])
    (first_non_empty [ev_HostEvent event; req_Event req])
    (ev_ActorType event)
    (if ev_ActorID event =s "" then first_non_empty [dep_OwnerID deps; req_SessionID req]
     else ev_ActorID event)
    (ev_Status event) (ev_Lifecycle event)
    (first_non_empty [ev_ProjectRoot event; req_Project req])
    (ev_Attributes event) (ev_Timestamp event).

Definition recordStorageEvent (ctx : context) (req : Request) deps (event : Event) w
    : W * option error :=
  match dep_StorageSink deps with
  | None => (w, None)
  | Some sink =>
      let event := fill_event req deps event in
      let '(w, event) := if IsZero (ev_Timestamp event) then
          let '(w, t) := now deps w in (w, set_timestamp t event)
        else (w, event) in
      Record_ (mkRecorder (Some sink) (dep_Now deps) None) ctx event w
  end.

(** An event literal of the source: the fields it names, the others zero. *)
Definition event_literal (type run work session provider actorType actorID status lifecycle : string)
    (attrs : option attributes) : Event :=
  mkEvent "" type run work session "" "" "" "" provider "" actorType actorID status lifecycle ""
    attrs time_zero.

Definition warn_of (err : option error) : list string :=
  match err with Some err => [storageWarning err] | None => [] end.

(** ** Handlers *)

Definition config_failure (req : Request) (err : error) (warnings : slice string) : Response :=
  ErrorResponse (Some req) ActionWarn (Some (NewProtocolError ErrorInvalidConfig (Error err) false))
    warnings.

Definition handleSubmit (ctx : context) (req : Request) deps w : W * Response :=
  match Config.Load (os_ReadFile w) (configOptions req deps) with
  | Err err => (w, config_failure req err None)
  | Ok cfg =>
      match Build cfg (dep_RegistryOptions deps) with
      | Err err => (w, config_failure req err None)
      | Ok reg =>
          let result := Route (payloadText req) reg in
          let agent := default zero_regagent (Agent_ reg (rt_Agent result)) in
          let sections := match dep_PromptSections deps with
                          | [] => defaultPromptSections agent result (dep_ProjectContext deps)
                          | l => l
                          end in
          match BuildPrompt sections (dep_PromptBudget deps) with
          | None => (w, config_failure req (errorf "unreachable") None)
          | Some (Err err) =>
              (w, config_failure req err (Some (reg_Warnings reg ++ [routeWarning result])))
          | Some (Ok out) =>
              let warnings := reg_Warnings reg ++ bo_Warnings out ++ [routeWarning result] in
              let '(w, err) := recordStorageEvent ctx req deps
                (event_literal EventRunCreated "" "" "" "" "user" "" "scoped" "" None) w in
              (w, OKResponse (Some req) ActionInjectPrompt (bo_SystemPrompt out)
                    (Some (warnings ++ warn_of err)))
          end
      end
  end.

(** The action a guard verdict maps to. *)
Definition guard_action (decision : GuardDecision) : string :=
  if gd_Action decision =s GuardBlock then ActionBlock
  else if gd_Action decision =s GuardWarn then ActionWarn
  else ActionNone.

Definition handleToolBefore (ctx : context) (req : Request) deps w : W * Response :=
  let input := guardInput req in
  let result := Evaluate input (dep_GuardRules deps) (dep_GuardSuppressions deps) in
  let decision := gr_Decision result in
  let action := guard_action decision in
  let warnings := gr_Warnings result ++
    (if (action =s ActionWarn) && (gd_Reason decision <>s "") then [gd_Reason decision] else []) in
  let '(eventType, status) :=
    if action =s ActionBlock then (EventToolCallBlocked, "blocked")
    else if action =s ActionWarn then (EventToolCallStarted, "warned")
    else (EventToolCallStarted, "allowed") in
  let '(w, err) := recordStorageEvent ctx req deps
    (event_literal eventType "" "" "" "" "tool" "" status ""
       (storageAttributes req {["decision_reason" := gd_Reason decision]})) w in
  (w, OKResponse (Some req) action (gd_Reason decision) (Some (warnings ++ warn_of err))).

Definition handleToolAfter (ctx : context) (req : Request) deps w : W * Response :=
  let '(eventType, status) :=
    if (pv req "error_message" <>s "") || (pv req "error" <>s "")
    then (EventToolCallFailed, "failed") else (EventToolCallCompleted, "completed") in
  let '(w, err) := recordStorageEvent ctx req deps
    (event_literal eventType "" "" "" "" "tool" "" status "" (storageAttributes req ∅)) w in
  (w, OKResponse (Some req) ActionNone "" (Some (warn_of err))).

Definition handleStateTransition (ctx : context) (req : Request) deps (to contextName : string) w
    : W * Response :=
  match dep_StateStore deps, (req_Project req =s "") || (req_SessionID req =s "") with
  | None, true => (w, OKResponse (Some req) ActionNone "" None)
  | given, _ =>
      let store := match given with
                   | Some store => store
                   | None => State.NewStore (req_Project req) (State.mkOptions 0)
                   end in
      if req_SessionID req =s "" then
        (w, OKResponse (Some req) ActionNone ""
              (Some ["state transition skipped: session_id is required"]))
      else
        let '(w, t) := now deps w in
        match store_Transition store (req_SessionID req)
          (State.mkInput to contextName (dep_OwnerID deps) (req_RequestID req) (blockedReason req)
             (errorSummary req) None t) w with
        | (w, Err err) =>
            (w, ErrorResponse (Some req) ActionWarn
                  (Some (NewProtocolError ErrorUnknown (Error err) false)) None)
        | (w, Ok record) =>
            let '(w, err) := recordStorageEvent ctx req deps
              (event_literal EventRunStatusChanged "" "" "" "" "run_core" (dep_OwnerID deps)
                 (State.sr_Lifecycle record) (State.sr_Lifecycle record) None) w in
            match err with
            | Some err => (w, OKResponse (Some req) ActionWarn "" (Some [storageWarning err]))
            | None => (w, OKResponse (Some req) ActionNone "" None)
            end
        end
  end.
End handlers.
