(* ===== verification/Checks.v ===== *)
(** * internal/orchestrator: verification checks of a run

    [src/internal/orchestrator/verification.go]: the user's check specifications
    become verification checks. All untrusted text goes through here. *)

From S2P Require Import Prelude GoStrings GoValue GoTime Storage Verify.

Definition non_empty (s : string) : bool := s <>s "".

(** [payload["checks"]]: nil when the key is missing or holds another type. *)
Definition parseChecks (payload : object) : slice string :=
  match payload !! "checks" with
  | Some (VStrings v) => Some (List.filter non_empty v)
  | Some (VSlice v) => Some (List.filter non_empty (omap (fun item => as_string (Some item)) v))
  | _ => None
  end.

Definition colon : ascii := ":".

(** The shell script of a content check: the path and the expected text are its
    positional parameters. *)
Definition content_script : string :=
  "[ " +:+ String "034" "$(cat -- " +:+ String "034" "$1" +:+ String "034" ")"
  +:+ String "034" " = " +:+ String "034" "$2" +:+ String "034" " ]".

Section tables.
Context `{UnicodeTables}.

Definition check_of (cwd : string) (idx : Z) (name : string) (command : list string) (shell : bool)
    (script claim : string) : VerificationCheck :=
  mkCheck ("check_" +:+ Itoa idx) name command shell script cwd (10 * Second) claim true
    EvidenceCommand "" [].

Definition buildVerificationCheck (spec cwd : string) (idx : Z) : VerificationCheck :=
  let base := check_of cwd idx in
  match SplitN spec colon 3 with
  | kind :: path :: rest =>
      if kind =s "file_exists" then
        base ("file_exists:" +:+ path) ["test"; "-f"; path] false ""
          ("file " +:+ Quote path +:+ " exists")
      else if kind =s "file_content" then
        match rest with
        | [] => base "file_content:malformed" ["false"] false ""
                  ("file_content needs expected value (spec=" +:+ Quote spec +:+ ")")
        | expected :: _ =>
            base ("file_content:" +:+ path) [path; expected] true content_script
              ("file " +:+ Quote path +:+ " content == " +:+ Quote expected)
        end
      else if kind =s "bash" then
        let bashCmd := match rest with [] => path | more :: _ => path +:+ ":" +:+ more end in
        base ("bash:" +:+ bashCmd) [] true bashCmd ("shell " +:+ Quote bashCmd +:+ " exits 0")
      else
        base ("unknown:" +:+ kind) ["false"] false ""
          ("unknown check kind " +:+ Quote kind +:+ " in spec " +:+ Quote spec)
  | _ => base spec ["false"] false ""
           ("malformed check spec " +:+ Quote spec +:+ " (missing colon)")
  end.

Fixpoint build_checks (checks : list string) (cwd : string) (i : Z) : list VerificationCheck :=
  match checks with
  | [] => []
  | spec :: rest => buildVerificationCheck spec cwd i :: build_checks rest cwd (i + 1)
  end.

Definition buildVerificationPlan (checks : list string) (cwd : string) : VerificationPlan :=
  mkPlan (build_checks checks cwd 0).
End tables.

(** ** What a specification executes *)

Definition no_colon (s : string) : Prop := Contains s ":" = false.

Section tables'.
Context `{UnicodeTables}.

Lemma SplitN_3 spec :
  match SplitN spec colon 3 with
  | [whole] => whole = spec /\ no_colon spec
  | [kind; rest] => no_colon kind /\ no_colon rest /\ spec = kind +:+ ":" +:+ rest
  | [kind; path; more] =>
      no_colon kind /\ no_colon path /\ spec = kind +:+ ":" +:+ path +:+ ":" +:+ more
  | _ => False
  end.
Proof.
  unfold SplitN, no_colon, colon. destruct (cut_byte _ spec) as [[kind rest]|] eqn:E1.
  - apply cut_byte_spec in E1 as [-> Hk].
    destruct (cut_byte _ rest) as [[path more]|] eqn:E2.
    + apply cut_byte_spec in E2 as [-> Hp]. done.
    + apply cut_byte_None in E2. done.
  - apply cut_byte_None in E1. done.
Qed.

(** The text of a check reaches a shell as a script only for the kind [bash]; a
    file check passes its path and expected text as arguments of a fixed command
    line, whatever characters they hold, and anything else runs [false]. Every
    check is required, well formed, and counts as command evidence. A colon in
    the path of a [file_exists] check ends the path: only the part before it is
    tested. *)
Theorem buildVerificationCheck_argv spec cwd idx :
  let c := buildVerificationCheck spec cwd idx in
  ck_Required c = true /\ well_formed_check c /\ check_kind c = EvidenceCommand /\ ck_CWD c = cwd /\
  (command_argv c = ["false"] \/
   (exists path rest, no_colon path /\ command_argv c = ["test"; "-f"; path] /\
      spec = "file_exists:" +:+ path +:+ rest /\ (rest = "" \/ HasPrefix rest ":" = true)) \/
   (exists path expected, no_colon path /\ spec = "file_content:" +:+ path +:+ ":" +:+ expected /\
      command_argv c = ["/bin/sh"; "-c"; content_script; "--"; path; expected]) \/
   (exists cmd, spec = "bash:" +:+ cmd /\ command_argv c = ["/bin/sh"; "-c"; cmd])).
Proof.
  cbv zeta. unfold buildVerificationCheck. pose proof (SplitN_3 spec) as Hs.
  assert (forall n cmd sh scr cl, cmd <> [] \/ sh = true ->
    well_formed_check (check_of cwd idx n cmd sh scr cl)) as Hwf by (intros; left; split; done).
  destruct (SplitN spec colon 3) as [|kind [|path rest]]; [done | |].
  { split_and!; try done; [apply Hwf; by left | by left]. }
  destruct (kind =s "file_exists") eqn:E1; str_simpl; subst.
  { split_and!; try done; [apply Hwf; by left|]. right. left. exists path.
    destruct rest as [|more [|]]; [| |done].
    - destruct Hs as (_ & Hp & ->). exists "". rewrite str_app_nil_r. repeat split; by try left.
    - destruct Hs as (_ & Hp & ->). exists (":" +:+ more). repeat split; [done|]. right.
      apply HasPrefix_spec. eauto. }
  destruct (kind =s "file_content") eqn:E2; str_simpl; subst.
  { destruct rest as [|more [|]]; [| |done].
    - split_and!; try done; [apply Hwf; by left | by left].
    - destruct Hs as (_ & Hp & ->). split_and!; try done; [apply Hwf; by left|].
      right. right. left. exists path, more. done. }
  destruct (kind =s "bash") eqn:E3; str_simpl; subst.
  { split_and!; try done; [apply Hwf; by right|]. right. right. right.
    destruct rest as [|more [|]]; [| |done].
    - destruct Hs as (_ & Hp & ->). exists path. split; [done|].
      unfold command_argv. cbn. by destruct (path =s "") eqn:Ep; str_simpl; subst.
    - destruct Hs as (_ & Hp & ->). exists (path +:+ ":" +:+ more). split; [done|].
      unfold command_argv. cbn [ck_Shell ck_ShellCommand ck_Command check_of].
      destruct (path +:+ ":" +:+ more =s "") eqn:Ep; [|done]. str_simpl.
      apply str_app_nil in Ep as [_ Ep]. done. }
  split_and!; try done; [apply Hwf; by left | by left].
Qed.

Lemma build_checks_well_formed checks cwd i :
  Forall (fun c => well_formed_check c /\ ck_Required c = true) (build_checks checks cwd i).
Proof.
  revert i. induction checks as [|spec rest IH]; intros i; cbn; constructor; [|apply IH].
  unfold buildVerificationCheck.
  repeat match goal with |- context [match ?x with _ => _ end] => destruct x end;
    (split; [left; split; [done | (by left) || (by right)] | done]).
Qed.

Lemma build_checks_length checks cwd i : length (build_checks checks cwd i) = length checks.
Proof. revert i. induction checks; intros i; cbn; congruence. Qed.
End tables'.
