(* ===== verification/Observer.v ===== *)
(** * remote/internal/observer: the read-only project scanner

    [src/remote/internal/observer/]: the state of a project as [git] reports it
    ([scanner.go], [types.go]), the commands that are run for it, and the check
    that a report is not written into the project it reports on. Running [git],
    [os.Stat] and [filepath.EvalSymlinks] are the operating system's. *)

From S2P Require Import Prelude GoStrings GoValue GoTime GoPath.

(** ** Data *)

Definition SchemaVersion : Z := 1.

Record GitState := mkGitState {
  gs_Available : bool;
  gs_InsideWorkTree : bool;
  gs_Branch : string;
  gs_Dirty : bool;
  gs_StatusPorcelain : string;
  gs_DiffStat : string;
  gs_ChangedFiles : list string
}.

Record Card := mkCard { cd_Kind : string; cd_Title : string; cd_Body : string; cd_Tone : string }.
Record SuggestedCommand := mkSuggested { sg_Target : string; sg_Text : string }.

Record State := mkState {
  os_SchemaVersion : Z;
  os_GeneratedAt : time;
  os_ProjectPath : string;
  os_Git : GitState;
  os_Cards : list Card;
  os_Risks : slice string;
  os_SuggestedCommands : slice SuggestedCommand;
  os_Warnings : list string
}.

(** ** Paths *)

(** [filepath.Abs]: [cwd] is what [os.Getwd] answers. *)
Definition Abs (cwd : result string) (path : string) : result string :=
  if is_rooted path then Ok (Clean path)
  else match cwd with
       | Ok wd => Ok (JoinPath [wd; path])
       | Err err => Err err
       end.

Definition after_last_slash (s : string) : string := List.last (Split s slash) "".
(** [filepath.Base] *)
Definition Base (path : string) : string :=
  if path =s "" then "."
  else
    let p := str_rev (trim_left_byte slash (str_rev path)) in
    if p =s "" then "/" else after_last_slash p.

(** The components of an absolute path. *)
Definition comps (path : string) : list string := rev (clean_stack true (Split path slash) []).

Fixpoint strip_common (b t : list string) : list string * list string :=
  match b, t with
  | x :: b', y :: t' => if x =s y then strip_common b' t' else (b, t)
  | _, _ => (b, t)
  end.

(** [filepath.Rel] of two absolute paths: it never fails on them. *)
Definition Rel (basepath targpath : string) : string :=
  match strip_common (comps basepath) (comps targpath) with
  | ([], []) => "."
  | ([], rest) => Join rest "/"
  | (up, rest) => Join (repeat ".." (length up) ++ rest) "/"
  end.

(** The relative path leaves the base, or is the base. *)
Definition leaves (rel : string) : bool := (rel =s "..") || HasPrefix rel "../" || (rel =s ".").

Definition ErrInside : error := errorf "output directory must be outside project".

Definition ResolveOutput (cwd : result string) (tmp : string) (EvalSymlinks : string -> result string)
    (project out : string) : result string :=
  absProject ← Abs cwd project;
  let out := if out =s "" then JoinPath [tmp; "remote-observer"; Base absProject] else out in
  absOut ← Abs cwd out;
  realProject ← EvalSymlinks absProject;
  realOut ← match EvalSymlinks absOut with
            | Ok evaluated => Ok evaluated
            | Err err => if is_not_exist err then Ok absOut else Err err
            end;
  if negb (leaves (Rel absProject absOut)) then Err ErrInside
  else if negb (leaves (Rel realProject realOut)) then Err ErrInside
  else if realOut =s realProject then Err ErrInside
  else Ok absOut.

(** ** Scanning *)

Definition splitLines (s : string) : list string :=
  List.filter (fun line => line <>s "") (map TrimSpace (Split s "010")).

Definition emptyDefault (value fallback : string) : string :=
  if TrimSpace value =s "" then fallback else value.

Definition degradedCards (body : string) : list Card := [mkCard "status" "Status" body "warn"].

Definition cardsFor (git : GitState) : list Card :=
  let '(status, tone) :=
    if gs_Dirty git then
      ("Dirty workspace: " +:+ Itoa (Z.of_nat (length (gs_ChangedFiles git))) +:+ " changed files", "warn")
    else ("Clean", "calm") in
  [mkCard "status" "Status" status tone;
   mkCard "branch" "Branch" (emptyDefault (gs_Branch git) "unknown") "neutral";
   mkCard "files" "Changed Files"
     (emptyDefault (Join (gs_ChangedFiles git) (String "010" "")) "No changed files") tone;
   mkCard "diff" "Diff Summary" (emptyDefault (gs_DiffStat git) "No diff stat") tone].

Definition risksFor (git : GitState) : list string :=
  if gs_Dirty git then ["workspace has uncommitted changes"; "tests may need to be run"] else [].

Definition suggestionsFor (git : GitState) : list SuggestedCommand :=
  if gs_Dirty git then [mkSuggested "dev" "run the relevant tests and summarize failures";
                        mkSuggested "observer" "review current diff risk"]
  else [mkSuggested "dev" "continue implementation or choose next task"].

Definition git_args : list (list string) :=
  [["rev-parse"; "--is-inside-work-tree"]; ["branch"; "--show-current"]; ["status"; "--porcelain"];
   ["diff"; "--stat"]; ["diff"; "--name-only"]].

Definition PlannedGitCommands (cwd : result string) (project : string) : result (list (list string)) :=
  abs ← Abs cwd project;
  Ok (map (fun args => "git" :: "-C" :: abs :: args) git_args).

Inductive stat_info := Dir | File.

Section scan.
Context {W : Type}.
(** Running an argument vector under the scanner's timeout: the combined output
    and the error. *)
Context (git_run : list string -> W -> W * (string * option error)).
Context (stat : string -> W -> result stat_info) (git_found : bool).

Definition git (project : string) (args : list string) (w : W) : W * (string * option error) :=
  git_run ("git" :: "-C" :: project :: args) w.

Definition Scan (cwd : result string) (now : W -> W * time) (project : string) (w : W)
    : W * result State :=
  match Abs cwd project with
  | Err err => (w, Err err)
  | Ok abs =>
  match stat abs w with
  | Err err => (w, Err err)
  | Ok File => (w, Err (errorf "project must be a directory"))
  | Ok Dir =>
  let '(w, t) := now w in
  if negb git_found then
    (w, Ok (mkState SchemaVersion t abs (mkGitState false false "" false "" "" [])
              (degradedCards "Git unavailable") None None ["git binary not found"]))
  else
    let '(w, (inside, err)) := git abs ["rev-parse"; "--is-inside-work-tree"] w in
    if bool_decide (err <> None) || (TrimSpace inside <>s "true") then
      (w, Ok (mkState SchemaVersion t abs (mkGitState true false "" false "" "" [])
                (degradedCards "Not a git repository") None None ["project is not a git work tree"]))
    else
      let '(w, (branch, err1)) := git abs ["branch"; "--show-current"] w in
      let '(w, (status, err2)) := git abs ["status"; "--porcelain"] w in
      let '(w, (diffStat, err3)) := git abs ["diff"; "--stat"] w in
      let '(w, (changed, err4)) := git abs ["diff"; "--name-only"] w in
      let ok (err : option error) (s : string) := match err with None => s | Some _ => "" end in
      let warn (what : string) (err : option error) :=
        match err with None => [] | Some e => [what +:+ Error e] end in
      let status := ok err2 status in
      let g := mkGitState true true (ok err1 (TrimSpace branch)) (TrimSpace status <>s "") status
                 (ok err3 diffStat) (match err4 with None => splitLines changed | Some _ => [] end) in
      (w, Ok (mkState SchemaVersion t abs g (cardsFor g) (Some (risksFor g)) (Some (suggestionsFor g))
                (warn "git branch scan failed: " err1 ++ warn "git status scan failed: " err2
                 ++ warn "git diff stat scan failed: " err3
                 ++ warn "git changed-files scan failed: " err4)))
  end end.
End scan.

(** ** Theorems *)

Lemma comps_plain path : Forall plain (comps path).
Proof.
  unfold comps. assert (clean_stack_ok true (clean_stack true (Split path slash) [])) as Hs.
  { apply clean_stack_inv; [|done]. apply Forall_forall. intros c. apply Split_no_sep. }
  apply Forall_rev. induction (clean_stack true (Split path slash) []) as [|c rest IH]; [constructor|].
  destruct Hs as ((H1 & H2 & H3) & Hrest & Hdots). constructor; [|by apply IH].
  split_and!; try done. intros ->. by destruct (Hdots eq_refl).
Qed.

Lemma strip_common_spec b t :
  let '(b', t') := strip_common b t in
  exists c, b = c ++ b' /\ t = c ++ t' /\
    match b', t' with x :: _, y :: _ => x <> y | _, _ => True end.
Proof.
  revert t. induction b as [|x b IH]; intros t; cbn [strip_common].
  { exists []. done. }
  destruct t as [|y t]; [by exists []|]. destruct (x =s y) eqn:E; str_simpl.
  - subst. specialize (IH t). destruct (strip_common b t) as [b' t'].
    destruct IH as (c & -> & -> & Hd). by exists (y :: c).
  - by exists [].
Qed.

(** A component that has no separator in it and is not ["."] or [".."] does not
    make a relative path leave its base. *)
Lemma leaves_plain c rest : Forall plain (c :: rest) -> leaves (Join (c :: rest) "/") = false.
Proof.
  intros Hp. apply Forall_cons in Hp as [(H1 & H2 & H3 & H4) _]. unfold leaves.
  assert (forall s, HasPrefix s "../" = true -> exists t, cut_byte slash s = Some ("..", t)) as Hcut.
  { intros s [r ->]%HasPrefix_spec. exists r. exact (cut_byte_app slash ".." r eq_refl). }
  destruct rest as [|d rest].
  - cbn [Join]. apply eqb_false in H2, H3. rewrite H2, H3.
    destruct (HasPrefix c "../") eqn:E; [|done]. apply Hcut in E as [t E].
    apply (cut_byte_None slash) in H4. congruence.
  - rewrite Join_cons by done. remember (Join (d :: rest) "/") as r eqn:Er. clear Er.
    assert (cut_byte slash (c +:+ "/" +:+ r) = Some (c, r)) as Hc by exact (cut_byte_app slash c r H4).
    destruct (c +:+ "/" +:+ r =s "..") eqn:E1; str_simpl; [by rewrite E1 in Hc|].
    destruct (c +:+ "/" +:+ r =s ".") eqn:E2; str_simpl; [by rewrite E2 in Hc|].
    destruct (HasPrefix (c +:+ "/" +:+ r) "../") eqn:E3; [|done]. apply Hcut in E3 as [t E3]. congruence.
Qed.

(** [path] names something strictly below [dir]. *)
Definition below (dir path : string) : Prop := exists c rest, comps path = comps dir ++ c :: rest.

Lemma leaves_up {A} rest (l : list A) : leaves (Join (repeat ".." (S (length l)) ++ rest) "/") = true.
Proof.
  cbn [length repeat app]. destruct (repeat ".." (length l) ++ rest) as [|d r]; [done|].
  rewrite Join_cons by done. unfold leaves. apply orb_true_iff. left. apply orb_true_iff. right.
  exact (HasPrefix_app "../" _).
Qed.

Lemma Rel_below dir path : leaves (Rel dir path) = true <-> ~ below dir path.
Proof.
  unfold Rel, below. pose proof (strip_common_spec (comps dir) (comps path)) as Hs.
  destruct (strip_common (comps dir) (comps path)) as [b t].
  destruct Hs as (c & -> & Ht & Hd). rewrite Ht. destruct b as [|x b], t as [|y t].
  - split; [|done]. intros _ (d & rest & H). rewrite <- !app_assoc in H.
    by apply app_inv_head in H.
  - rewrite leaves_plain; [split; [done|]|].
    + intros Hn. destruct Hn. exists y, t. by rewrite <- app_assoc.
    + pose proof (comps_plain path) as Hp. rewrite Ht in Hp. by apply Forall_app in Hp as [_ Hp].
  - split; [|intros _].
    + intros _ (d & rest & H). rewrite <- app_assoc in H. by apply app_inv_head in H.
    + apply (leaves_up [] b).
  - split; [|intros _].
    + intros _ (d & rest & H). rewrite <- app_assoc in H. apply app_inv_head in H. by injection H as ->.
    + apply (leaves_up (y :: t) b).
Qed.

(** What [ResolveOutput] checked when it accepts an output. *)
Lemma ResolveOutput_ok cwd tmp EvalSymlinks project out o :
  ResolveOutput cwd tmp EvalSymlinks project out = Ok o ->
  exists absProject realProject,
    Abs cwd project = Ok absProject /\ EvalSymlinks absProject = Ok realProject /\
    (exists name, Abs cwd name = Ok o) /\ ~ below absProject o /\
    match EvalSymlinks o with
    | Ok realOut => realOut <> realProject /\ ~ below realProject realOut
    | Err err => is_not_exist err = true /\ o <> realProject /\ ~ below realProject o
    end.
Proof.
  intros Hok. unfold ResolveOutput in Hok. apply bind_ok in Hok as (absP & HP & Hok).
  apply bind_ok in Hok as (absO & HO & Hok). apply bind_ok in Hok as (realP & HrP & Hok).
  apply bind_ok in Hok as (realO & HrO & Hok).
  destruct (leaves (Rel absP absO)) eqn:E1; [|done]. destruct (leaves (Rel realP realO)) eqn:E2; [|done].
  destruct (realO =s realP) eqn:E3; [done|]. injection Hok as ->. str_simpl.
  exists absP, realP. rewrite Rel_below in E1, E2. split_and!; try done; [by eexists|].
  destruct (EvalSymlinks o) as [r|err]; [by injection HrO as ->|].
  destruct (is_not_exist err); [by injection HrO as ->|done].
Qed.

(** C36: an output directory that is accepted is absolute, is not below the
    project by name, and, when it exists, neither it nor what its symbolic links
    resolve to is the project or lies below the project's resolved path. *)
Theorem ResolveOutput_outside cwd tmp EvalSymlinks project out o
    (Hok : ResolveOutput cwd tmp EvalSymlinks project out = Ok o) :
  exists absProject realProject,
    Abs cwd project = Ok absProject /\ EvalSymlinks absProject = Ok realProject /\
    ~ below absProject o /\
    match EvalSymlinks o with
    | Ok realOut => realOut <> realProject /\ ~ below realProject realOut
    | Err err => is_not_exist err = true /\ o <> realProject /\ ~ below realProject o
    end.
Proof. destruct (ResolveOutput_ok _ _ _ _ _ _ Hok) as (p & r & ? & ? & _ & ? & ?). by exists p, r. Qed.

(** The file system of a project [/p], a directory [/data], and a link [/alias]
    to [/p]. *)
Definition links (path : string) : result string :=
  if path =s "/p" then Ok "/p"
  else if path =s "/data" then Ok "/data"
  else if path =s "/alias" then Ok "/p"
  else Err (mkError KNotExist ("lstat " +:+ path +:+ ": no such file or directory")).

Lemma ResolveOutput_outside_witness :
  ResolveOutput (Ok "/p") "/tmp" links "." "../data" = Ok "/data" /\
  ~ below "/p" "/data".
Proof.
  assert (ResolveOutput (Ok "/p") "/tmp" links "." "../data" = Ok "/data") as H by reflexivity.
  split; [exact H|]. destruct (ResolveOutput_outside _ _ _ _ _ _ H) as (p & r & Hp & _ & Hb & _).
  injection Hp as <-. exact Hb.
Defined.

(** An output that does not exist yet is compared by name only: below a link to
    the project it is accepted, and what is written there lands in the project. *)
Lemma new_output_through_link :
  ResolveOutput (Ok "/") "/tmp" links "/p" "/alias" = Err ErrInside /\
  ResolveOutput (Ok "/") "/tmp" links "/p" "/alias/report" = Ok "/alias/report".
Proof. done. Qed.

(** ** What a scan runs *)

Section scan_theorems.
Context {W : Type} (git_run : list string -> W -> W * (string * option error)).
Context (stat : string -> W -> result stat_info) (git_found : bool) (now : W -> W * time).
Context (cwd : result string) (project : string).

(** A scan changes the world only by reading the clock and running the
    planned git commands, in that any preorder they respect relates the world
    before it to the world after it. It fails only when the path cannot be made
    absolute or is not a directory: a [git] that is missing or fails gives a
    state, with a warning. *)
Theorem Scan_planned (R : W -> W -> Prop) `{!PreOrder R} w
    (Hnow : forall w, R w (now w).1)
    (Hgit : forall cmds argv w, PlannedGitCommands cwd project = Ok cmds -> argv ∈ cmds ->
      R w (git_run argv w).1) :
  let '(w', r) := Scan git_run stat git_found cwd now project w in
  R w w' /\
  match r with
  | Err err => w' = w /\
      (Abs cwd project = Err err \/ exists abs, Abs cwd project = Ok abs /\
        (stat abs w = Err err \/ stat abs w = Ok File /\ err = errorf "project must be a directory"))
  | Ok s => exists abs, Abs cwd project = Ok abs /\ stat abs w = Ok Dir /\ os_ProjectPath s = abs /\
      (gs_InsideWorkTree (os_Git s) = false -> os_Warnings s <> []) /\
      (gs_InsideWorkTree (os_Git s) = true ->
        os_Cards s = cardsFor (os_Git s) /\ os_Risks s = Some (risksFor (os_Git s)) /\
        os_SuggestedCommands s = Some (suggestionsFor (os_Git s)))
  end.
Proof.
  unfold Scan. destruct (Abs cwd project) as [abs|err] eqn:Ea; [|split; [reflexivity|eauto]].
  destruct (stat abs w) as [[]|err] eqn:Es; [| |]; cycle 1.
  { split; [reflexivity|eauto 10]. } { split; [reflexivity|eauto 10]. }
  pose proof (Hnow w) as Ht. destruct (now w) as [w1 t]. cbn [fst] in Ht.
  assert (forall args w, args ∈ git_args -> R w (git git_run abs args w).1) as Hg.
  { intros args v Hin. apply (Hgit (map (fun args => "git" :: "-C" :: abs :: args) git_args)).
    - unfold PlannedGitCommands. by rewrite Ea.
    - by apply (list_elem_of_fmap_2 (fun args => "git" :: "-C" :: abs :: args)). }
  destruct git_found; cbn [negb]; [|split; [done|by exists abs]].
  pose proof (Hg ["rev-parse"; "--is-inside-work-tree"] w1 ltac:(set_solver)) as H1.
  destruct (git git_run abs _ w1) as [w2 [inside err]]. cbn [fst] in H1.
  destruct (_ || _); [split; [by transitivity w1|by exists abs]|].
  pose proof (Hg ["branch"; "--show-current"] w2 ltac:(set_solver)) as H2.
  destruct (git git_run abs _ w2) as [w3 [branch err1]].
  pose proof (Hg ["status"; "--porcelain"] w3 ltac:(set_solver)) as H3.
  destruct (git git_run abs _ w3) as [w4 [status err2]].
  pose proof (Hg ["diff"; "--stat"] w4 ltac:(set_solver)) as H4.
  destruct (git git_run abs _ w4) as [w5 [diffStat err3]].
  pose proof (Hg ["diff"; "--name-only"] w5 ltac:(set_solver)) as H5.
  destruct (git git_run abs _ w5) as [w6 [changed err4]].
  cbn [fst] in *. cbv beta iota zeta. split; [transitivity w1; [done|]; transitivity w2; [done|]; transitivity w3; [done|]; transitivity w4; [done|]; by transitivity w5|].
  exists abs. by split_and!.
Qed.
End scan_theorems.

(** A world that logs what is run: [git] answers every query with one line. *)
Definition logged_run (argv : list string) (w : list (list string)) : list (list string) * (string * option error) :=
  (w ++ [argv], (if bool_decide (argv = ["git"; "-C"; "/p"; "rev-parse"; "--is-inside-work-tree"])
                 then "true" else "M a.go", None)).

Lemma Scan_planned_witness :
  let '(w', r) := Scan logged_run (fun _ _ => Ok Dir) true (Ok "/") (fun w => (w, time_zero)) "p" [] in
  (forall argv, argv ∈ w' -> exists args, args ∈ git_args /\ argv = "git" :: "-C" :: "/p" :: args) /\
  exists s, r = Ok s /\ gs_Dirty (os_Git s) = true /\ gs_ChangedFiles (os_Git s) = ["M a.go"].
Proof.
  pose (R := fun w w' : list (list string) => forall cmds argv,
    PlannedGitCommands (Ok "/") "p" = Ok cmds -> argv ∈ w' -> argv ∈ w \/ argv ∈ cmds).
  assert (PreOrder R) as HR.
  { split; [by left|]. intros a b c Hab Hbc cmds argv Hc Hin.
    destruct (Hbc _ _ Hc Hin); [|by right]. by apply (Hab cmds). }
  pose proof (Scan_planned logged_run (fun _ _ => Ok Dir) true (fun w => (w, time_zero)) (Ok "/") "p" R []) as H.
  destruct (Scan _ _ _ _ _ _ _) as [w' r] eqn:E.
  destruct H as [H _].
  - by left.
  - intros cmds argv w Hc Hin cmds' argv' Hc' Hin'. cbn in Hin'.
    apply elem_of_app in Hin' as [?|Hin']; [by left|].
    apply list_elem_of_singleton in Hin' as ->. right. congruence.
  - split.
    + clear E. intros argv Hin.
      assert (PlannedGitCommands (Ok "/") "p" = Ok (map (fun args => "git" :: "-C" :: "/p" :: args) git_args)) as Hp
        by (vm_compute; reflexivity).
      destruct (H _ argv Hp Hin) as [Hin'%elem_of_nil|Hin']; [destruct Hin'|]. clear H Hp Hin.
      apply (list_elem_of_fmap _ git_args) in Hin' as (args & -> & Ha). exists args. split; [exact Ha|reflexivity].
    + vm_compute in E. injection E as <- <-. by eexists.
Defined.
