(* ===== verification/Flags.v ===== *)
(** * Go's flag package, and the flags of remote observe

    [flag.FlagSet.Parse] for the kinds of flag the program defines, and the options
    of [src/remote/cmd/remote/main.go]. Reading a number and a duration are
    [strconv.ParseInt] and [time.ParseDuration]: parameters. *)

From S2P Require Import Prelude GoStrings GoValue.

(** ** The parser *)

Inductive flag_value := FStr (s : string) | FBool (b : bool) | FInt (n : Z) | FDuration (d : duration).
Abbreviation flags := (gmap string flag_value).

Class FlagNumbers := {
  ParseInt : string -> result Z;       (* base 0, 64 bits; errors as [flag] reports them *)
  ParseDuration : string -> result duration
}.

(** [strconv.ParseBool] *)
Definition ParseBool (s : string) : result bool :=
  if existsb (String.eqb s) ["1"; "t"; "T"; "true"; "TRUE"; "True"] then Ok true
  else if existsb (String.eqb s) ["0"; "f"; "F"; "false"; "FALSE"; "False"] then Ok false
  else Err (errorf "parse error").

(** The [Set] method of a flag: it keeps the flag's kind. *)
Definition Set_ `{FlagNumbers} (old : flag_value) (s : string) : result flag_value :=
  match old with
  | FStr _ => Ok (FStr s)
  | FBool _ => b ← ParseBool s; Ok (FBool b)
  | FInt _ => n ← ParseInt s; Ok (FInt n)
  | FDuration _ =>
      match ParseDuration s with Ok d => Ok (FDuration d) | Err _ => Err (errorf "parse error") end
  end.

(** The name of a flag argument, and its value after an equals sign that is not
    the first byte. *)
Definition split_flag (name : string) : string * option string :=
  match name with
  | EmptyString => (name, None)
  | String c rest =>
      match cut_byte "=" rest with
      | Some (a, b) => (String c a, Some b)
      | None => (name, None)
      end
  end.

(** What an argument is: a flag's text, the end of the flags (and whether it is
    consumed), or an error. *)
Inductive arg_class := AFlag (name : string) | AStop (consume : bool) | ABad.
Definition classify (s : string) : arg_class :=
  match s with
  | String "-" EmptyString | EmptyString => AStop false
  | String "-" (String "-" EmptyString) => AStop true
  | String "-" rest =>
      let name := match rest with String "-" r => r | _ => rest end in
      match name with
      | EmptyString | String "-" _ | String "=" _ => ABad
      | _ => AFlag name
      end
  | _ => AStop false
  end.

Section parse.
Context `{FlagNumbers} `{UnicodeTables}.

Definition ErrHelp : error := errorf "flag: help requested".

(** [Parse]: the flags and the arguments that are left, or the first error. *)
Fixpoint Parse (args : list string) (fs : flags) : result (flags * list string) :=
  match args with
  | [] => Ok (fs, [])
  | s :: rest =>
      match classify s with
      | AStop consume => Ok (fs, if consume then rest else args)
      | ABad => Err (errorf ("bad flag syntax: " +:+ s))
      | AFlag text =>
          let '(name, given) := split_flag text in
          match fs !! name with
          | None =>
              if (name =s "help") || (name =s "h") then Err ErrHelp
              else Err (errorf ("flag provided but not defined: -" +:+ name))
          | Some (FBool b) =>
              match given with
              | None => Parse rest (<[name := FBool true]> fs)
              | Some v =>
                  match Set_ (FBool b) v with
                  | Ok x => Parse rest (<[name := x]> fs)
                  | Err err => Err (errorf ("invalid boolean value " +:+ Quote v +:+ " for -" +:+ name
                                     +:+ ": " +:+ Error err))
                  end
              end
          | Some old =>
              let bad v err := Err (errorf ("invalid value " +:+ Quote v +:+ " for flag -" +:+ name
                                      +:+ ": " +:+ Error err)) in
              match given, rest with
              | Some v, _ =>
                  match Set_ old v with Ok x => Parse rest (<[name := x]> fs) | Err err => bad v err end
              | None, v :: rest' =>
                  match Set_ old v with Ok x => Parse rest' (<[name := x]> fs) | Err err => bad v err end
              | None, [] => Err (errorf ("flag needs an argument: -" +:+ name))
              end
          end
      end
  end.
End parse.

(** ** The options of remote observe *)

Record observeOptions := mkObserve {
  ob_project : string;
  ob_out : string;
  ob_once : bool;
  ob_serve : bool;
  ob_host : string;
  ob_port : Z;
  ob_refresh : duration;
  ob_json : bool
}.

Definition observe_flags : flags :=
  <["project" := FStr ""]> (<["out" := FStr ""]> (<["once" := FBool false]> (<["serve" := FBool false]>
  (<["host" := FStr "127.0.0.1"]> (<["port" := FInt 8787]> (<["refresh" := FDuration (5 * Second)]>
  {["json" := FBool false]})))))).

Definition str_flag (fs : flags) (name : string) : string :=
  match fs !! name with Some (FStr s) => s | _ => "" end.
Definition bool_flag (fs : flags) (name : string) : bool :=
  match fs !! name with Some (FBool b) => b | _ => false end.
Definition z_flag (fs : flags) (name : string) : Z :=
  match fs !! name with Some (FInt n) | Some (FDuration n) => n | _ => 0%Z end.

Definition options_of (fs : flags) : observeOptions :=
  mkObserve (str_flag fs "project") (str_flag fs "out") (bool_flag fs "once") (bool_flag fs "serve")
    (str_flag fs "host") (z_flag fs "port") (z_flag fs "refresh") (bool_flag fs "json").

(** ** Theorems *)

Section theorems.
Context `{FlagNumbers} `{UnicodeTables}.

(** A flag as it is written on a command line: [-name=value], [--name=value], or
    [-name value] and [--name value], which a boolean flag does not take. *)
Inductive style := OneJoined | TwoJoined | OneApart | TwoApart.
Record setting := mkSetting { se_style : style; se_name : string; se_value : string }.

Definition dashes (st : style) : string := match st with OneJoined | OneApart => "-" | _ => "--" end.
Definition apart_style (st : style) : bool := match st with OneApart | TwoApart => true | _ => false end.
Definition render_setting (s : setting) : list string :=
  if apart_style (se_style s) then [dashes (se_style s) +:+ se_name s; se_value s]
  else [dashes (se_style s) +:+ se_name s +:+ "=" +:+ se_value s].
Definition render_settings (l : list setting) : list string := concat (map render_setting l).

(** A name that can be written: not empty, no equals sign, no leading dash. *)
Definition flag_name (name : string) : Prop :=
  exists c rest, name = String c rest /\ c <> "-"%char /\ Contains name "=" = false.

(** Setting the flags one after the other. *)
Definition apply_setting (fs : flags) (s : setting) : result flags :=
  match fs !! se_name s with
  | None => Err (errorf "no such flag")
  | Some (FBool b) =>
      if apart_style (se_style s) then Err (errorf "a boolean flag takes no argument")
      else x ← Set_ (FBool b) (se_value s); Ok (<[se_name s := x]> fs)
  | Some old => x ← Set_ old (se_value s); Ok (<[se_name s := x]> fs)
  end.
Fixpoint apply_settings (fs : flags) (l : list setting) : result flags :=
  match l with
  | [] => Ok fs
  | s :: rest => fs ← apply_setting fs s; apply_settings fs rest
  end.

Lemma classify_flag c rest :
  c <> "-"%char -> c <> "="%char ->
  classify (String "-" (String c rest)) = AFlag (String c rest) /\
  classify (String "-" (String "-" (String c rest))) = AFlag (String c rest).
Proof.
  intros H1 H2. destruct c as [[] [] [] [] [] [] [] []]; try (by destruct H1); try (by destruct H2); done.
Qed.

Lemma classify_dashes st name rest :
  flag_name name -> classify (dashes st +:+ name +:+ rest) = AFlag (name +:+ rest).
Proof.
  intros (c & n & -> & Hc & Hno). rewrite Contains_byte_cons in Hno. apply orb_false_iff in Hno as [Heq _].
  apply Ascii.eqb_neq in Heq. destruct (classify_flag c (n +:+ rest) Hc Heq) as [H1 H2].
  by destruct st.
Qed.

Lemma split_flag_none name : flag_name name -> split_flag name = (name, None).
Proof.
  intros (c & n & -> & _ & Hno). rewrite Contains_byte_cons in Hno. apply orb_false_iff in Hno as [_ Hn].
  unfold split_flag. by rewrite (proj2 (cut_byte_None "=" n) Hn).
Qed.

Lemma split_flag_value name v : flag_name name -> split_flag (name +:+ "=" +:+ v) = (name, Some v).
Proof.
  intros (c & n & -> & _ & Hno). rewrite Contains_byte_cons in Hno. apply orb_false_iff in Hno as [_ Hn].
  assert (cut_byte "=" (n +:+ "=" +:+ v) = Some (n, v)) as Hc by exact (cut_byte_app "=" n v Hn).
  change (String c n +:+ "=" +:+ v) with (String c (n +:+ "=" +:+ v)). unfold split_flag. by rewrite Hc.
Qed.

Lemma Parse_setting s fs fs' rest :
  flag_name (se_name s) -> apply_setting fs s = Ok fs' ->
  Parse (render_setting s ++ rest) fs = Parse rest fs'.
Proof.
  intros Hn Ha. unfold apply_setting in Ha. unfold render_setting.
  destruct (fs !! se_name s) as [old|] eqn:El; [|done].
  destruct (apart_style (se_style s)) eqn:Est; cbn [app Parse].
  - rewrite <- (str_app_nil_r (se_name s)) at 1. rewrite classify_dashes, str_app_nil_r, split_flag_none, El by done.
    destruct old; try done; apply bind_ok in Ha as (x & Hx & [= <-]); by rewrite Hx.
  - rewrite classify_dashes, split_flag_value, El by done.
    destruct old; apply bind_ok in Ha as (x & Hx & [= <-]); by rewrite Hx.
Qed.

(** Parsing a command line whose flags are written in any of the four styles
    sets each flag to the value that was written, later ones over earlier ones,
    and goes on with the rest of the arguments. *)
Theorem Parse_render l fs fs' rest
    (Hnames : Forall (fun s => flag_name (se_name s)) l) (Happly : apply_settings fs l = Ok fs') :
  Parse (render_settings l ++ rest) fs = Parse rest fs'.
Proof.
  revert fs Happly. induction Hnames as [|s l Hn _ IH]; intros fs; cbn [apply_settings].
  { by intros [= <-]. }
  intros (fs1 & Ha & Hl)%bind_ok. unfold render_settings in *. cbn [map concat].
  rewrite <- app_assoc, (Parse_setting s fs fs1) by done. by apply IH.
Qed.
End theorems.

(** Numbers as [strconv.ParseInt] and [time.ParseDuration] read them, for the
    texts the examples use. *)
#[export] Instance plain_numbers : FlagNumbers := {|
  ParseInt s := if s =s "9000" then Ok 9000%Z else Err (errorf "parse error");
  ParseDuration s := if s =s "500ms" then Ok (500 * Millisecond)%Z
                     else if s =s "2s" then Ok (2 * Second)%Z else Err (errorf "parse error")
|}.

Definition demo_settings : list setting :=
  [mkSetting TwoApart "project" "/p"; mkSetting OneJoined "once" "F";
   mkSetting OneJoined "port" "9000"; mkSetting TwoJoined "once" "true"].
#[local] Existing Instance plain_tables.
Definition demo_flags : flags :=
  match apply_settings observe_flags demo_settings with Ok fs => fs | Err _ => ∅ end.

Lemma Parse_render_witness :
  Parse (["--project"; "/p"; "-once=F"; "-port=9000"; "--once=true"] ++ ["rest"]) observe_flags
    = Ok (demo_flags, ["rest"]) /\
  options_of demo_flags = mkObserve "/p" "" true false "127.0.0.1" 9000 (5 * Second) false.
Proof.
  split; [|vm_compute; reflexivity].
  apply (Parse_render demo_settings observe_flags demo_flags ["rest"]).
  - repeat constructor; eexists _, _; split_and!; done.
  - vm_compute. reflexivity.
Defined.
