(* ===== verification/Report.v ===== *)
(** * remote/internal/report: what a report says

    The two texts that [src/remote/internal/report/report.go] writes of the state
    of a project: [state.json], by the tags of
    [src/remote/internal/observer/types.go], and [index.html], by its template. A
    template is executed as [html/template] does it for values in element content,
    which is where all of this one's are. *)

From S2P Require Import Prelude GoStrings GoValue GoTime JsonText Json Rfc3339 Observer.

(** ** state.json *)

Definition strings_tree (l : list string) : json := JArr (map JStr l).
Definition git_tree (g : GitState) : json :=
  JObj ([("available", JBool (gs_Available g)); ("inside_work_tree", JBool (gs_InsideWorkTree g))]
        ++ unless_empty (gs_Branch g =s "") "branch" (JStr (gs_Branch g))
        ++ [("dirty", JBool (gs_Dirty g))]
        ++ unless_empty (gs_StatusPorcelain g =s "") "status_porcelain" (JStr (gs_StatusPorcelain g))
        ++ unless_empty (gs_DiffStat g =s "") "diff_stat" (JStr (gs_DiffStat g))
        ++ [("changed_files", strings_tree (gs_ChangedFiles g))]).

Definition card_tree (c : Card) : json :=
  JObj [("kind", JStr (cd_Kind c)); ("title", JStr (cd_Title c)); ("body", JStr (cd_Body c));
        ("tone", JStr (cd_Tone c))].
Definition command_tree (c : SuggestedCommand) : json :=
  JObj [("target", JStr (sg_Target c)); ("text", JStr (sg_Text c))].

Definition state_tree (s : State) : json :=
  JObj [("schema_version", JNum (Itoa (os_SchemaVersion s))); ("generated_at", time_tree (os_GeneratedAt s));
        ("project_path", JStr (os_ProjectPath s)); ("git", git_tree (os_Git s));
        ("cards", JArr (map card_tree (os_Cards s))); ("risks", slice_tree JStr (os_Risks s));
        ("suggested_commands", slice_tree command_tree (os_SuggestedCommands s));
        ("warnings", strings_tree (os_Warnings s))].

Definition MarshalIndent (s : State) : result string :=
  if time_encodable (os_GeneratedAt s) then Ok (print_indent (state_tree s)) else Err year_error.

(** ** index.html *)

(** [html/template]'s escaper of a value in element content. *)
Definition html_escape (c : ascii) : string :=
  if Ascii.eqb c "000" then encode_rune RuneError
  else if Ascii.eqb c dq then "&#34;"
  else if Ascii.eqb c "&" then "&amp;"
  else if Ascii.eqb c "'" then "&#39;"
  else if Ascii.eqb c "+" then "&#43;"
  else if Ascii.eqb c "<" then "&lt;"
  else if Ascii.eqb c ">" then "&gt;"
  else String c "".
Fixpoint htmlReplacer (s : string) : string :=
  match s with
  | EmptyString => ""
  | String c s => html_escape c +:+ htmlReplacer s
  end.

(** A template with its fields filled in: its own text, and values. *)
Inductive part := Text (s : string) | Field (s : string).
Definition Execute (ps : list part) : string :=
  foldr (fun p acc => match p with Text s => s | Field s => htmlReplacer s end +:+ acc) "" ps.

(** The source of the template is a raw string, in which there can be no
    backquote; it stands for the quotation mark here. *)
Definition markup (s : string) : part := Text (str_map (fun c => if Ascii.eqb c "`" then dq else c) s).

Definition page_head : part := markup
"<!doctype html>
<html lang=`en`><head><meta charset=`utf-8`><meta name=`viewport` content=`width=device-width, initial-scale=1`>
<title>Remote Observer</title><style>
:root{color-scheme:dark;--bg:#07111f;--panel:#101a2e;--ink:#e7f4ff;--muted:#8ba4b8;--accent:#38bdf8;--warn:#f59e0b}
body{margin:0;background:linear-gradient(135deg,#07111f,#102033);color:var(--ink);font-family:Inter,system-ui,sans-serif}main{max-width:1120px;margin:auto;padding:22px}.hero{display:flex;justify-content:space-between;gap:16px;align-items:flex-start}.grid{display:grid;grid-template-columns:repeat(auto-fit,minmax(240px,1fr));gap:14px}.card{background:rgba(16,26,46,.88);border:1px solid #23445f;border-radius:20px;padding:16px}pre{white-space:pre-wrap;color:var(--muted)}.muted{color:var(--muted)}@media(max-width:760px){main{padding:14px}.hero{display:block}}
</style></head><body><main><section class=`hero`><div><h1>Remote Observer</h1><p class=`muted`>Read-only report for ".
Definition page_script : part := markup
"</ul></section><script>setInterval(()=>fetch('state.json',{cache:'no-store'}).then(()=>location.reload()).catch(()=>{}),5000)</script></main></body></html>".

Definition card_parts (c : Card) : list part :=
  [markup "<article class=`card`><h2>"; Field (cd_Title c); markup "</h2><pre>"; Field (cd_Body c);
   markup "</pre></article>"].
Definition risk_parts (risk : string) : list part := [markup "<li>"; Field risk; markup "</li>"].
Definition risks_parts (risks : list string) : list part :=
  match risks with
  | [] => [markup "<p class=`muted`>No immediate risks detected.</p>"]
  | _ => [markup "<ul>"] ++ flat_map risk_parts risks ++ [markup "</ul>"]
  end.
Definition command_parts (c : SuggestedCommand) : list part :=
  [markup "<li><b>"; Field (sg_Target c); markup "</b>: "; Field (sg_Text c); markup "</li>"].

Definition page_parts (s : State) : list part :=
  [page_head; Field (os_ProjectPath s);
   markup "</p></div><p class=`muted`>state.json</p></section><section class=`grid`>"]
  ++ flat_map card_parts (os_Cards s)
  ++ [markup "</section><section class=`card`><h2>Risks</h2>"]
  ++ risks_parts (default [] (os_Risks s))
  ++ [markup "</section><section class=`card`><h2>Suggested Commands</h2><ul>"]
  ++ flat_map command_parts (default [] (os_SuggestedCommands s))
  ++ [page_script].

Definition page (s : State) : string := Execute (page_parts s).

(** ** How a page is read

    The tags of a page and the characters between them, references resolved. The
    page's style and script hold neither [<] nor [&], so that they need no rule of
    their own. *)

Inductive token := Tag (s : string) | Char (c : ascii).
Inductive mode := Content | InTag (seen : string) | InReference (seen : string).

Definition chars (s : string) : list token := map Char (String.list_ascii_of_string s).

Definition reference (name : string) : string :=
  if name =s "#34" then String dq ""
  else if name =s "#39" then "'"
  else if name =s "#43" then "+"
  else if name =s "amp" then "&"
  else if name =s "lt" then "<"
  else if name =s "gt" then ">"
  else "&" +:+ name +:+ ";".

Definition put_before (ts : list token) (r : list token * mode) : list token * mode := (ts ++ r.1, r.2).

Definition read_char (m : mode) (c : ascii) : list token * mode :=
  match m with
  | Content => if Ascii.eqb c "<" then ([], InTag "")
               else if Ascii.eqb c "&" then ([], InReference "")
               else ([Char c], Content)
  | InTag seen => if Ascii.eqb c ">" then ([Tag seen], Content) else ([], InTag (seen +:+ String c ""))
  | InReference seen => if Ascii.eqb c ";" then (chars (reference seen), Content)
                        else ([], InReference (seen +:+ String c ""))
  end.
Fixpoint read_html (m : mode) (s : string) : list token * mode :=
  match s with
  | EmptyString => ([], m)
  | String c s => put_before (read_char m c).1 (read_html (read_char m c).2 s)
  end.

Definition tokens (s : string) : list token := (read_html Content s).1.
Definition tags (s : string) : list string :=
  omap (fun t => match t with Tag s => Some s | Char _ => None end) (tokens s).

(** A value as a reader of the page sees it: there is no NUL in a page. *)
Definition shown (s : string) : list token :=
  flat_map (fun c => chars (if Ascii.eqb c "000" then encode_rune RuneError else String c "")) (String.list_ascii_of_string s).

(** The same state with every value that the page shows emptied. *)
Definition erased (s : State) : State :=
  mkState (os_SchemaVersion s) (os_GeneratedAt s) "" (os_Git s)
    (map (fun c => mkCard (cd_Kind c) "" "" (cd_Tone c)) (os_Cards s))
    (fmap (map (fun _ => "")) (os_Risks s))
    (fmap (map (fun _ => mkSuggested "" "")) (os_SuggestedCommands s)) (os_Warnings s).

(** ** Theorems *)

(** *** state.json *)

Lemma state_tree_fits s : fits 3 (state_tree s).
Proof.
  assert (forall d, fits d (JNum (Itoa (os_SchemaVersion s)))) by (intros; apply fits_leaf; [apply Itoa_number|done]).
  assert (forall c, fits 1 (card_tree c)) by (intros c; unfold card_tree; auto 10 with trees).
  assert (forall c, fits 1 (command_tree c)) by (intros c; unfold command_tree; auto 10 with trees).
  assert (fits 2 (git_tree (os_Git s))) by (unfold git_tree, strings_tree; auto 20 with trees).
  unfold state_tree, strings_tree. auto 20 with trees.
Qed.

(** What a reader of [state.json] gets. *)
Lemma state_json_reads s data rest :
  MarshalIndent s = Ok data -> parse (data +:+ rest) = Some (json_tree (state_tree s), rest).
Proof.
  unfold MarshalIndent. destruct (time_encodable _); [|done]. intros [= <-].
  destruct (state_tree_fits s) as [Hl Hd].
  apply parse_value_indent; [done|etransitivity; [exact Hd|by apply Nat.leb_le]|done].
Qed.

(** *** index.html *)

Lemma read_html_app m a b :
  read_html m (a +:+ b) = ((read_html m a).1 ++ (read_html (read_html m a).2 b).1, (read_html (read_html m a).2 b).2).
Proof.
  revert m. induction a as [|c a IH]; intros m.
  { change ("" +:+ b) with b. cbn [read_html fst snd app]. by destruct (read_html m b). }
  change (String c a +:+ b) with (String c (a +:+ b)). cbn [read_html]. rewrite IH. unfold put_before. cbn [fst snd].
  by rewrite app_assoc.
Qed.

(** A text that ends between two tags and in no reference. *)
Definition closed (s : string) : Prop := (read_html Content s).2 = Content.

Lemma tokens_app a b : closed a -> tokens (a +:+ b) = tokens a ++ tokens b.
Proof. unfold tokens, closed. intros Ha. by rewrite read_html_app, Ha. Qed.

(** An escaped value is read as its characters. *)
Lemma html_escape_read c :
  read_html Content (html_escape c) = (chars (if Ascii.eqb c "000" then encode_rune RuneError else String c ""), Content).
Proof. by destruct c as [[] [] [] [] [] [] [] []]. Qed.

Lemma htmlReplacer_read s : read_html Content (htmlReplacer s) = (shown s, Content).
Proof.
  induction s as [|c s IH]; [done|]. cbn [htmlReplacer]. rewrite read_html_app, html_escape_read. cbn [fst snd].
  by rewrite IH.
Qed.

(** What a part is read as, and what is its own text. *)
Definition part_tokens (p : part) : list token := match p with Text s => tokens s | Field s => shown s end.
Definition part_closed (p : part) : Prop := match p with Text s => closed s | Field _ => True end.
Definition erase_part (p : part) : part := match p with Text s => Text s | Field _ => Field "" end.

Lemma Execute_tokens ps : Forall part_closed ps -> tokens (Execute ps) = flat_map part_tokens ps.
Proof.
  induction 1 as [|p ps Hp _ IH]; [done|]. cbn [Execute foldr flat_map]. fold (Execute ps).
  rewrite <- IH. destruct p as [s|s]; cbn [part_tokens]; [by apply tokens_app|].
  rewrite tokens_app by (unfold closed; by rewrite htmlReplacer_read). unfold tokens at 1. by rewrite htmlReplacer_read.
Qed.

(** The tags are those of the template's own text. *)
Definition tags_of (ts : list token) : list string :=
  omap (fun t => match t with Tag s => Some s | Char _ => None end) ts.

Lemma tags_shown s : tags_of (shown s) = [].
Proof.
  assert (forall x, tags_of (chars x) = []) as Hc by (intros x; unfold chars; by induction (String.list_ascii_of_string x)).
  unfold shown. induction (String.list_ascii_of_string s) as [|c l IH]; [done|].
  cbn [flat_map]. unfold tags_of in *. by rewrite omap_app, Hc, IH.
Qed.

Lemma tags_erased ps : tags_of (flat_map part_tokens (map erase_part ps)) = tags_of (flat_map part_tokens ps).
Proof.
  induction ps as [|p ps IH]; [done|]. cbn [map flat_map]. unfold tags_of in *. rewrite !omap_app, IH. f_equal.
  destruct p as [s|s]; [done|]. cbn [erase_part part_tokens]. fold (tags_of (shown "")) (tags_of (shown s)).
  by rewrite !tags_shown.
Qed.

Lemma flat_map_closed {A} (f : A -> list part) l : (forall x, Forall part_closed (f x)) -> Forall part_closed (flat_map f l).
Proof. intros Hf. induction l as [|x l IH]; [constructor|]. by apply Forall_app_2. Qed.

Lemma flat_map_erased {A} (f : A -> list part) (g : A -> A) l :
  (forall x, f (g x) = map erase_part (f x)) -> flat_map f (map g l) = map erase_part (flat_map f l).
Proof. intros Hf. induction l as [|x l IH]; [done|]. cbn [map flat_map]. by rewrite map_app, IH, Hf. Qed.

Lemma page_closed s : Forall part_closed (page_parts s).
Proof.
  assert (forall risks, Forall part_closed (risks_parts risks)) as Hr.
  { intros [|r l]; [by repeat constructor|]. apply Forall_app_2; [by repeat constructor|].
    apply Forall_app_2; [|by repeat constructor]. apply flat_map_closed. intros x. by repeat constructor. }
  unfold page_parts. repeat apply Forall_app_2; try apply flat_map_closed; try apply Hr; try intros x;
    repeat (constructor; [vm_compute; reflexivity || exact I|]); constructor.
Qed.

Lemma page_parts_erased s : page_parts (erased s) = map erase_part (page_parts s).
Proof.
  destruct s as [v t p g cards risks cmds warns]. unfold page_parts, erased.
  cbn [os_ProjectPath os_Cards os_Risks os_SuggestedCommands]. rewrite !map_app.
  rewrite flat_map_erased by done. f_equal. f_equal. f_equal. f_equal.
  - destruct risks as [[|r l]|]; [done| |done]. cbn [fmap option_fmap option_map default id map].
    pose proof (flat_map_erased risk_parts (fun _ => "") (r :: l) (fun _ => eq_refl)) as Hr.
    unfold risks_parts. rewrite !map_app, <- Hr. done.
  - f_equal. f_equal. destruct cmds as [l|]; [|done]. by apply flat_map_erased.
Qed.

(** C27: nothing that a repository holds becomes markup on the page: a branch name, a
    path, a line of [git diff] is read from [index.html] as the characters that it
    has, NUL apart, in its place in the template; so the tags of the page are those
    of the page of the same state with all its texts emptied. *)
Theorem page_inert s :
  tokens (page s) = flat_map part_tokens (page_parts s) /\ tags (page s) = tags (page (erased s)).
Proof.
  unfold tags, page. rewrite !Execute_tokens by apply page_closed. split; [done|].
  rewrite page_parts_erased. symmetry. apply tags_erased.
Qed.

(** ** A hostile repository *)

Definition demo_state : State :=
  mkState 1 0 "/p" (mkGitState true true "a" true "M x" "" ["<i>"; "a&b"])
    [mkCard "branch" "Branch" "<script>alert('x')</script>" "neutral"] (Some ["tests may need to be run"]) None [].

Example hostile_page :
  Contains (page demo_state) "<pre>&lt;script&gt;alert(&#39;x&#39;)&lt;/script&gt;</pre>" = true /\
  tags (page demo_state) = tags (page (erased demo_state)) /\
  chars "<script>alert('x')</script>" = shown "<script>alert('x')</script>".
Proof. vm_compute. split_and!; reflexivity. Qed.
