(* ===== verification/Remote.v ===== *)
(** * remote: the report, the report server and the observe command

    [src/remote/internal/report/report.go], [src/remote/internal/reportserver/server.go]
    and [src/remote/cmd/remote/main.go] over the file system of GoFS. A call of
    package [os] can fail, with or without part of its work done, as [fault]
    says. [page.Execute] writes the page in pieces to the open file; here they are one
    write after the truncation, of which a failure can leave any beginning.
    [net/http]'s file serving and the socket are parameters. *)

From S2P Require Import Prelude GoStrings GoValue GoTime GoPath GoFS JsonText Json Observer Report Flags.

(** ** Data *)

Definition MethodPost : string := "POST".
Record request := mkRequest { rq_Method : string; rq_Path : string }.
Record response := mkResponse { rs_Code : Z; rs_ContentType : string; rs_Body : string }.

Record observeInfo := mkInfo { in_Project : string; in_Out : string; in_Served : bool; in_URL : string }.

(** [json.NewEncoder(stdout).Encode(info)], less the newline *)
Definition encode_info (info : observeInfo) : string :=
  print (JObj ([("project", JStr (in_Project info)); ("out", JStr (in_Out info)); ("served", JBool (in_Served info))]
               ++ unless_empty (in_URL info =s "") "url" (JStr (in_URL info)))).

(** What the process leaves: the exit code, what it printed, what it answered. *)
Record ran := mkRan { ra_code : Z; ra_stdout : list string; ra_stderr : list string; ra_responses : list response }.

Definition nl : string := String "010" "".
Definition failed (lines : list string) : ran := mkRan 1 [] lines [].

(** The part of a call that was done before it failed. *)
Definition partial (n : nat) (op : fs_op string) : fs_op string :=
  match op with
  | OpMkdirAll ds => OpMkdirAll (take n ds)
  | OpWrite p d => OpWrite p (str_take n d)
  | _ => op
  end.

(** The path as [http.ServeMux] normalises it: clean, with its trailing slash. A
    request for another spelling is redirected; the body of that response here is
    where to. *)
Definition cleanPath (p : string) : string :=
  if p =s "" then "/"
  else
    let p := if HasPrefix p "/" then p else "/" +:+ p in
    let np := Clean p in
    if HasPrefix (str_rev p) "/" && (np <>s "/") then np +:+ "/" else np.

(** While it serves, the program is driven by its ticker and by requests. *)
Inductive event := Tick | Request (r : request).

Section remote.
Context {X : Type}.
Abbreviation W := (FS string * X)%type.
Context (fault : fs_op string -> FS string -> option (error * option nat)).

Definition perform (op : fs_op string) (fs : FS string) : FS string * option error :=
  match fault op fs with
  | None => (apply_op fs op, None)
  | Some (err, None) => (fs, Some err)
  | Some (err, Some n) => (apply_op fs (partial n op), Some err)
  end.

(** *** report *)

Definition state_json (out : string) : string := JoinPath [out; "state.json"].
Definition index_html (out : string) : string := JoinPath [out; "index.html"].

Definition Write (out : string) (state : State) (fs : FS string) : FS string * option error :=
  let '(fs, err) := perform (OpMkdirAll (ancestors out)) fs in
  if err is Some _ then (fs, err) else
  match MarshalIndent state with
  | Err err => (fs, Some err)
  | Ok data =>
      let '(fs, err) := perform (OpWrite (state_json out) (data +:+ nl)) fs in
      if err is Some _ then (fs, err) else
      let '(fs, err) := perform (OpWrite (index_html out) "") fs in
      if err is Some _ then (fs, err) else
      perform (OpWrite (index_html out) (page state)) fs
  end.

(** *** reportserver *)

Context (ServeFile : string -> request -> FS string -> response).
Context (FileServer : string -> request -> FS string -> response).

Record Server := mkServer { sv_dir : string; sv_refresh : option (W -> W * option error) }.
Definition New (dir : string) : Server := mkServer dir None.
Definition NewWithRefresh (dir : string) (refresh : W -> W * option error) : Server :=
  mkServer dir (Some refresh).

Definition http_Error (message : string) (code : Z) : response :=
  mkResponse code "text/plain; charset=utf-8" (message +:+ nl).

Definition Handler (s : Server) (r : request) (w : W) : W * response :=
  if (rq_Method r <>s "CONNECT") && (cleanPath (rq_Path r) <>s rq_Path r) then
    (w, mkResponse 301 "text/html; charset=utf-8" (cleanPath (rq_Path r)))
  else if rq_Path r =s "/refresh" then
    if rq_Method r <>s MethodPost then (w, http_Error "POST required" 405)
    else
      let ok := mkResponse 200 "application/json" ("{" +:+ String "034" "ok" +:+ String "034" ":true}") in
      match sv_refresh s with
      | None => (w, ok)
      | Some refresh =>
          match refresh w with
          | (w, Some err) => (w, http_Error (Error err) 500)
          | (w, None) => (w, ok)
          end
      end
  else if rq_Path r =s "/" then (w, ServeFile (sv_dir s +:+ "/index.html") r (fst w))
  else (w, FileServer (sv_dir s) r (fst w)).

(** One turn of [RefreshLoop]; without a refresh it only waits. *)
Definition RefreshLoop_tick (s : Server) (w : W) : W :=
  match sv_refresh s with
  | None => w
  | Some refresh => fst (refresh w)
  end.

Fixpoint serving (s : Server) (events : list event) (w : W) : W * list response :=
  match events with
  | [] => (w, [])
  | Tick :: events => serving s events (RefreshLoop_tick s w)
  | Request r :: events =>
      let '(w, a) := Handler s r w in
      let '(w, l) := serving s events w in
      (w, a :: l)
  end.

(** *** cmd/remote *)

Context (cwd : result string) (tmp : string) (EvalSymlinks : string -> FS string -> result string).
Context (git_run : list string -> W -> W * (string * option error)) (git_found : bool) (now : W -> W * time).
Context (usage : string) (listen : string -> W -> W * result Z).
Context `{FlagNumbers} `{UnicodeTables}.

Definition Stat (path : string) (w : W) : result stat_info :=
  if decide (path ∈ fs_dirs (fst w)) then Ok Dir
  else match fs_files (fst w) !! path with
       | Some _ => Ok File
       | None => Err (not_exist "stat" path)
       end.

Definition scanAndWrite (absProject resolvedOut : string) (w : W) : W * option error :=
  match Scan git_run Stat git_found cwd now absProject w with
  | (w, Err err) => (w, Some err)
  | (w, Ok state) => let '(fs, err) := Write resolvedOut state (fst w) in ((fs, snd w), err)
  end.

Definition writeInfo (info : observeInfo) (printJSON : bool) : list string :=
  if printJSON then [encode_info info +:+ nl]
  else ("Remote Observer" +:+ nl +:+ "Project: " +:+ in_Project info +:+ nl +:+ "Out: " +:+ in_Out info +:+ nl)
       :: (if in_Served info then ["URL: " +:+ in_URL info +:+ nl] else []).

(** [events] are what happens while the program serves, [served] how
    [http.Server.Serve] ends ([None] for [ErrServerClosed]). *)
Definition runObserve (args : list string) (events : list event) (served : option error) (w : W) : W * ran :=
  match Parse args observe_flags with
  | Err err =>
      (w, failed ((if Error err =s Error ErrHelp then [] else [Error err +:+ nl]) ++ [usage; Error err +:+ nl]))
  | Ok (fs, _) =>
  let o := options_of fs in
  if ob_project o =s "" then (w, failed ["--project is required" +:+ nl])
  else if ob_once o && ob_serve o then (w, failed ["--once and --serve are mutually exclusive" +:+ nl])
  else if ob_serve o && (ob_refresh o <? Second)%Z then (w, failed ["--refresh must be at least 1s" +:+ nl])
  else
  match Abs cwd (ob_project o) with
  | Err err => (w, failed [Error err +:+ nl])
  | Ok absProject =>
  match Stat absProject w with
  | Err _ | Ok File =>
      (w, failed ["project does not exist or is not a directory: " +:+ absProject +:+ nl])
  | Ok Dir =>
  match ResolveOutput cwd tmp (fun p => EvalSymlinks p (fst w)) absProject (ob_out o) with
  | Err err => (w, failed [Error err +:+ nl])
  | Ok resolvedOut =>
  match scanAndWrite absProject resolvedOut w with
  | (w, Some err) => (w, failed [Error err +:+ nl])
  | (w, None) =>
  if negb (ob_serve o) then
    (w, mkRan 0 (writeInfo (mkInfo absProject resolvedOut false "") (ob_json o)) [] [])
  else
  match listen (ob_host o +:+ ":" +:+ Itoa (ob_port o)) w with
  | (w, Err err) => (w, failed ["serve failed: " +:+ Error err +:+ nl])
  | (w, Ok port) =>
  let url := "http://" +:+ ob_host o +:+ ":" +:+ Itoa port in
  let out := writeInfo (mkInfo absProject resolvedOut true url) (ob_json o) in
  let reportSrv := NewWithRefresh resolvedOut (scanAndWrite absProject resolvedOut) in
  let '(w, responses) := serving reportSrv events w in
  match served with
  | Some err => (w, mkRan 1 out ["serve failed: " +:+ Error err +:+ nl] responses)
  | None => (w, mkRan 0 out [] responses)
  end
  end end end end end end.

Definition run (args : list string) (events : list event) (served : option error) (w : W) : W * ran :=
  match args with
  | [] => (w, failed ["missing command: use observe" +:+ nl])
  | cmd :: rest =>
      if cmd =s "observe" then runObserve rest events served w
      else if cmd =s "version" then (w, mkRan 0 ["remote dev" +:+ nl] [] [])
      else (w, failed ["unknown command " +:+ Quote cmd +:+ nl])
  end.
End remote.

(** ** Theorems *)

(** *** Paths below a cleaned path *)

(** An absolute path as [Clean] leaves it. *)
Definition clean_abs (p : string) : Prop :=
  exists cs, Forall plain cs /\ p = render_path true cs.

Lemma rooted_stack_plain stack : clean_stack_ok true stack -> Forall plain stack.
Proof.
  induction stack as [|c rest IH]; [constructor|]. intros ((H1 & H2 & H3) & Hrest & Hd).
  constructor; [|by apply IH]. split_and!; try done. intros ->. by destruct (Hd eq_refl).
Qed.

Lemma Clean_abs p : is_rooted p = true -> clean_abs (Clean p).
Proof.
  intros Hr. destruct (Clean_stack p) as (st & Hok & ->). rewrite Hr in *.
  exists (rev st). split; [|done]. by apply Forall_rev, rooted_stack_plain.
Qed.

Lemma plain_no_slash cs : Forall plain cs -> Forall (fun c => Contains c "/" = false) cs.
Proof. intros H. by apply clean_comp_no_slash, plain_clean_comp. Qed.

Lemma comps_render cs : Forall plain cs -> comps (render_path true cs) = cs.
Proof.
  intros Hp. unfold comps. destruct cs as [|c cs]; [done|].
  rewrite Split_render by auto using plain_no_slash. rewrite clean_stack_app.
  replace (clean_stack true [""] []) with (@nil string) by done.
  by rewrite clean_stack_plain, app_nil_r, rev_involutive.
Qed.

Lemma clean_abs_inj p q : clean_abs p -> clean_abs q -> comps p = comps q -> p = q.
Proof. intros (a & Ha & ->) (b & Hb & ->). rewrite !comps_render by done. by intros ->. Qed.

(** A file that is put into a directory has one more component. *)
Lemma comps_child o f : clean_abs o -> plain f -> comps (JoinPath [o; f]) = comps o ++ [f].
Proof.
  intros (cs & Hcs & ->) Hf. rewrite comps_render by done.
  assert (JoinPath [render_path true cs; f] = render_path true (cs ++ [f])) as ->;
    [|apply comps_render, Forall_app_2; [done|by constructor]].
  destruct cs as [|c cs].
  - assert (Split (String slash (String slash f)) slash = [""; ""; f]) as Hs.
    { transitivity (Split "" slash ++ Split "" slash ++ Split f slash).
      - rewrite <- (Split_app slash "" f). exact (Split_app slash "" (String slash f)).
      - by rewrite (Split_none slash f) by apply Hf. }
    change (JoinPath [render_path true []; f]) with (Clean (String slash (String slash f))).
    unfold Clean. rewrite Hs. change (is_rooted _) with true. unfold clean_stack. cbn [foldl].
    rewrite (clean_step_plain true _ f) by done. done.
  - pose proof (Forall_rev Hcs) as Hr.
    assert (clean_stack_ok true (rev (c :: cs))) as Hok.
    { rewrite <- (app_nil_r (rev _)), <- (clean_stack_plain true) by done.
      apply clean_stack_inv; [by apply plain_no_slash|done]. }
    pose proof (JoinPath_clean true (rev (c :: cs)) [f] Hok) as H.
    rewrite rev_involutive in H. apply H; [by apply rev_nonempty|by constructor|done].
Qed.

Lemma Split_nonempty s c : Split s c <> [].
Proof.
  unfold Split. generalize "". induction s as [|a s IH]; intros cur; cbn; [done|].
  by destruct (Ascii.eqb a c).
Qed.

Lemma get_drop i p :
  match String.get i p with
  | Some c => exists r, str_drop i p = String c r
  | None => str_drop i p = ""
  end.
Proof. revert i. induction p as [|c p IH]; intros [|i]; cbn; eauto. apply IH. Qed.

Lemma ancestors_split p d : d ∈ ancestors p -> d = p \/ exists r, p = d +:+ String slash r.
Proof.
  unfold ancestors. intros (i & _ & Hd)%list_elem_of_omap.
  pose proof (get_drop i p) as Hg. pose proof (str_take_drop i p) as Hp.
  destruct (String.get i p) as [c|].
  - destruct (decide (c = slash)) as [->|Hc].
    + injection Hd as <-. destruct Hg as [r Hr]. right. exists r. by rewrite <- Hr.
    + exfalso. destruct c as [[] [] [] [] [] [] [] []]; by try destruct Hc.
  - injection Hd as <-. left. by rewrite Hg, str_app_nil_r in Hp.
Qed.

(** What is below a project and above an output would put the output below the
    project. *)
Lemma below_ancestor P o d :
  clean_abs o -> d ∈ ancestors o -> below P d -> below P o.
Proof.
  intros (cs & Hcs & ->) [->|[r Hr]]%ancestors_split (c & rest & Hb); [by exists c, rest|].
  assert (cs <> []) as Hne.
  { intros ->. destruct d as [|a d]; [|by destruct d].
    change (comps "") with (@nil string) in Hb. by destruct (comps P). }
  pose proof (Split_render true cs Hne (plain_no_slash _ Hcs)) as Hs.
  rewrite Hr, Split_app in Hs. cbn [app] in Hs.
  destruct (Split d slash) as [|x l] eqn:Ed; [by destruct (Split_nonempty d slash)|].
  injection Hs as -> Hs. assert (Forall plain l) as Hl by (rewrite <- Hs in Hcs; by apply Forall_app in Hcs as [? _]).
  assert (comps d = l) as Hd.
  { unfold comps. rewrite Ed. change (clean_stack true ("" :: l) []) with (clean_stack true l []).
    by rewrite clean_stack_plain, app_nil_r, rev_involutive. }
  rewrite Hd in Hb. unfold below. rewrite comps_render by done. rewrite <- Hs, Hb.
  exists c, (rest ++ Split r slash). by rewrite <- app_assoc.
Qed.

(** *** The working directory and the paths made from it *)

Lemma Clean_clean_abs p : clean_abs p -> Clean p = p.
Proof.
  intros (cs & Hcs & ->). unfold Clean.
  assert (is_rooted (render_path true cs) = true) as -> by apply (HasPrefix_app "/").
  f_equal. by rewrite <- (comps_render cs Hcs) at 2.
Qed.

Lemma Abs_clean cwd p a :
  (forall wd, cwd = Ok wd -> is_rooted wd = true) -> Abs cwd p = Ok a -> clean_abs a.
Proof.
  intros Hcwd. unfold Abs. destruct (is_rooted p) eqn:Er; [intros [= <-]; by apply Clean_abs|].
  destruct cwd as [wd|]; [|done]. intros [= <-]. specialize (Hcwd _ eq_refl).
  destruct (wd =s "") eqn:E; str_simpl; [by subst|].
  cbn [JoinPath Join]. apply Clean_abs.
  by rewrite is_rooted_app.
Qed.

Lemma Abs_abs cwd a : clean_abs a -> Abs cwd a = Ok a.
Proof.
  intros Ha. unfold Abs. rewrite (Clean_clean_abs a Ha). destruct Ha as (cs & _ & ->).
  by assert (is_rooted (render_path true cs) = true) as -> by apply (HasPrefix_app "/").
Qed.

(** The files of a report, its directory and what is above it are not below the
    project when the directory is neither the project nor below it. *)
Lemma report_paths P o q :
  clean_abs P -> clean_abs o -> o <> P -> ~ below P o -> below P q ->
  q ∉ ancestors o /\ state_json o <> q /\ index_html o <> q.
Proof.
  intros HP Ho Hne Hb Hq.
  assert (forall f, plain f -> JoinPath [o; f] <> q) as Hf.
  { intros f Hf <-. destruct Hq as (c & rest & E). rewrite comps_child in E by done.
    destruct rest as [|d rest] using rev_ind.
    - apply app_inj_tail in E as [E _]. by apply Hne, clean_abs_inj.
    - rewrite app_comm_cons, app_assoc in E. apply app_inj_tail in E as [E _].
      apply Hb. by exists c, rest. }
  split; [intros Ha; by apply Hb, (below_ancestor P o q)|].
  split; apply Hf; by apply (bool_decide_unpack _).
Qed.

(** *** What a run changes *)

Section theorems.
Context {X : Type}.
Abbreviation W := (FS string * X)%type.
Context (fault : fs_op string -> FS string -> option (error * option nat)).
Context (ServeFile FileServer : string -> request -> FS string -> response).
Context (cwd : result string) (tmp : string) (EvalSymlinks : string -> FS string -> result string).
Context (git_run : list string -> W -> W * (string * option error)) (git_found : bool) (now : W -> W * time).
Context (usage : string) (listen : string -> W -> W * result Z).
Context `{FlagNumbers} `{UnicodeTables}.

Lemma perform_avoids op fs q :
  avoids q op -> ReadFile (perform fault op fs).1 q = ReadFile fs q.
Proof.
  intros Ha. unfold perform. destruct (fault op fs) as [[err [n|]]|]; [|done|by apply apply_op_avoids].
  apply apply_op_avoids. destruct op as [ds| | |]; [|done..].
  cbn in *. intros Hq. apply Ha. by apply elem_of_take in Hq as (i & Hi%list_elem_of_lookup_2 & _).
Qed.

Lemma Write_avoids out s fs q :
  q ∉ ancestors out -> state_json out <> q -> index_html out <> q ->
  ReadFile (Write fault out s fs).1 q = ReadFile fs q.
Proof.
  intros H1 H2 H3. unfold Write.
  pose proof (perform_avoids (OpMkdirAll (ancestors out)) fs q H1) as E1.
  destruct (perform fault (OpMkdirAll _) fs) as [fs1 [err|]]; [exact E1|].
  destruct (MarshalIndent s) as [data|]; [|exact E1]. rewrite <- E1. cbn [fst]. clear E1.
  pose proof (perform_avoids (OpWrite (state_json out) (data +:+ nl)) fs1 q H2) as E2.
  destruct (perform fault (OpWrite (state_json out) _) fs1) as [fs2 [err|]]; [exact E2|].
  rewrite <- E2. cbn [fst]. clear E2.
  pose proof (perform_avoids (OpWrite (index_html out) "") fs2 q H3) as E3.
  destruct (perform fault (OpWrite (index_html out) "") fs2) as [fs3 [err|]]; [exact E3|].
  rewrite <- E3. by apply perform_avoids.
Qed.

Lemma perform_ok op fs fs' : perform fault op fs = (fs', None) -> fs' = apply_op fs op.
Proof. unfold perform. destruct (fault op fs) as [[err [n|]]|]; [done|done|]. by intros [= <-]. Qed.

(** A report that was written without an error is there. *)
Lemma Write_files o s fs fs' :
  clean_abs o -> Write fault o s fs = (fs', None) ->
  exists data, MarshalIndent s = Ok data /\ fs_files fs' !! state_json o = Some (data +:+ nl) /\
    fs_files fs' !! index_html o = Some (page s).
Proof.
  intros Ho. assert (state_json o <> index_html o) as Hne.
  { intros E. apply (f_equal comps) in E. unfold state_json, index_html in E.
    rewrite !comps_child in E by (done || by apply (bool_decide_unpack _)).
    by apply app_inj_tail in E as [_ E]. }
  unfold Write. destruct (perform fault (OpMkdirAll _) fs) as [fs1 [|]]; [done|].
  destruct (MarshalIndent s) as [data|]; [|done].
  destruct (perform fault (OpWrite (state_json o) _) fs1) as [fs2 [|]] eqn:E2; [done|].
  destruct (perform fault (OpWrite (index_html o) "") fs2) as [fs3 [|]] eqn:E3; [done|].
  intros E4. apply perform_ok in E2 as ->, E3 as ->, E4 as ->. exists data. split; [done|]. cbn.
  split; [|apply lookup_insert_eq]. by rewrite !lookup_insert_ne, lookup_insert_eq by done.
Qed.

(** The requests and turns of the ticker that run a refresh. *)
Definition refreshing (e : event) : bool :=
  match e with
  | Tick => true
  | Request r => (rq_Method r =s MethodPost) && (rq_Path r =s "/refresh")
  end.

Lemma Handler_world dir refresh r (w : W) :
  (Handler ServeFile FileServer (NewWithRefresh dir refresh) r w).1 =
  if refreshing (Request r) then (refresh w).1 else w.
Proof.
  unfold Handler, refreshing. destruct r as [m p]. cbn [rq_Method rq_Path sv_refresh NewWithRefresh sv_dir].
  destruct (m =s MethodPost) eqn:Em; str_simpl; subst; cbn [andb].
  - destruct (p =s "/refresh") eqn:Ep; str_simpl; subst.
    + change (cleanPath "/refresh" <>s "/refresh") with false. cbn [andb].
      by destruct (refresh w) as [w' [err|]].
    + by repeat case_match.
  - destruct (negb _ && negb _); [done|]. destruct (p =s "/refresh"); [done|]. by destruct (p =s "/").
Qed.

(** Serving changes the world only by refreshes: one for each turn of the ticker
    and each [POST /refresh], in that order. *)
Lemma serving_world dir refresh events (w : W) :
  (serving ServeFile FileServer (NewWithRefresh dir refresh) events w).1 =
  Nat.iter (length (List.filter refreshing events)) (fun w => (refresh w).1) w.
Proof.
  revert w. induction events as [|e events IH]; intros w; [done|]. cbn [serving List.filter].
  destruct e as [|r].
  - cbn [refreshing length]. unfold RefreshLoop_tick. cbn [sv_refresh NewWithRefresh].
    rewrite IH. symmetry; apply (Nat.iter_succ_r _ _ (fun w => (refresh w).1)).
  - pose proof (Handler_world dir refresh r w) as Hw.
    destruct (Handler _ _ _ r w) as [w1 a]. cbn [fst] in Hw. specialize (IH w1).
    destruct (serving _ _ _ events w1) as [w2 l]. cbn [fst] in *. rewrite IH.
    destruct (refreshing (Request r)); rewrite Hw; [symmetry; apply (Nat.iter_succ_r _ _ (fun w => (refresh w).1))|done].
Qed.

Lemma iter_keeps {A} (R : A -> A -> Prop) `{!PreOrder R} (f : A -> A) n w :
  (forall w, R w (f w)) -> R w (Nat.iter n f w).
Proof. intros Hf. induction n as [|n IH]; cbn; [reflexivity|]. by transitivity (Nat.iter n f w). Qed.

(** The file at [q] reads the same before and after. *)
Definition keeps (q : string) (w w' : W) : Prop := ReadFile (fst w') q = ReadFile (fst w) q.
#[local] Instance keeps_preorder q : PreOrder (keeps q).
Proof. unfold keeps. split; [done|]. intros a b c H1 H2. by rewrite H2. Qed.

Lemma scanAndWrite_keeps P o q w :
  Abs cwd P = Ok P -> (forall w, keeps q w (now w).1) ->
  (forall cmds argv w, PlannedGitCommands cwd P = Ok cmds -> argv ∈ cmds -> keeps q w (git_run argv w).1) ->
  q ∉ ancestors o -> state_json o <> q -> index_html o <> q ->
  keeps q w (scanAndWrite fault cwd git_run git_found now P o w).1.
Proof.
  intros HP Hnow Hgit H1 H2 H3.
  pose proof (Scan_planned git_run (@Stat X) git_found now cwd P (keeps q) w Hnow Hgit) as Hs.
  unfold scanAndWrite. destruct (Scan _ _ _ _ _ P w) as [w1 [s|err]]; [|apply Hs].
  destruct Hs as [Hs _]. pose proof (Write_avoids o s (fst w1) q H1 H2 H3) as Hw.
  destruct (Write _ o s (fst w1)) as [fs err]. cbn [fst] in *. by transitivity w1.
Qed.

Hypothesis Getwd_abs : forall wd, cwd = Ok wd -> is_rooted wd = true.
(** [filepath.EvalSymlinks] gives an absolute path cleaned. *)
Hypothesis Real_abs : forall p fs r, EvalSymlinks p fs = Ok r -> clean_abs p -> clean_abs r.

Abbreviation observe args events served w :=
  (run fault ServeFile FileServer cwd tmp EvalSymlinks
    git_run git_found now usage listen ("observe" :: args) events served w).

(** C28: the only files that [remote observe] writes are the two of its report, and
    the only directories that it makes are those above them; none of them is in the
    project. For all arguments and however the file system's calls fail, whatever is
    asked of the server and however often the report is refreshed: what is read at
    [q] afterwards is what was read before, or [q] is one of these paths for the
    output directory that was accepted. That directory is not below the project by
    name; when it exists, symbolic links do not lead it into the project either - its
    resolved path and that of its files are outside the project's resolved path -; and
    when it does not exist yet, its own name is compared with the project's resolved
    path, so a link above it can still lead into the project
    ([new_output_through_link]). The clock, the socket and the planned git queries
    are assumed to leave [q] alone: git itself may refresh [.git/index]. *)
Theorem observe_keeps_project args events served w fs rest P q
    (Hparse : Parse args observe_flags = Ok (fs, rest)) (HP : Abs cwd (ob_project (options_of fs)) = Ok P)
    (Hnow : forall w, keeps q w (now w).1) (Hlisten : forall a w, keeps q w (listen a w).1)
    (Hgit : forall cmds argv w, PlannedGitCommands cwd P = Ok cmds -> argv ∈ cmds -> keeps q w (git_run argv w).1) :
  ReadFile (fst (observe args events served w).1) q = ReadFile (fst w) q \/
  exists R o, EvalSymlinks P (fst w) = Ok R /\
    ResolveOutput cwd tmp (fun p => EvalSymlinks p (fst w)) P (ob_out (options_of fs)) = Ok o /\
    (q ∈ ancestors o \/ q = state_json o \/ q = index_html o) /\ ~ below P q /\
    match EvalSymlinks o (fst w) with
    | Ok realOut => realOut <> R /\ ~ below R realOut /\
        ~ below R (state_json realOut) /\ ~ below R (index_html realOut)
    | Err err => is_not_exist err = true /\ ~ below R q
    end.
Proof.
  change (ReadFile _ q = _) with (keeps q w (observe args events served w).1).
  unfold run. change ("observe" =s "observe") with true. cbv beta iota. unfold runObserve.
  rewrite Hparse. cbv beta iota zeta. repeat (case_match; [by left|]).
  rewrite HP. destruct (Stat P w) as [[]|]; [|by left..].
  destruct (ResolveOutput _ _ _ _ _) as [o|] eqn:Er; [|by left].
  pose proof (Abs_clean cwd _ P Getwd_abs HP) as HPc. pose proof (Abs_abs cwd P HPc) as HPa.
  apply ResolveOutput_ok in Er as Hr. destruct Hr as (P' & R & HP' & HR & (n & Hn) & Hb & Ho).
  assert (P' = P) as -> by congruence. apply (Abs_clean cwd n o Getwd_abs) in Hn.
  destruct (decide (q ∈ ancestors o \/ q = state_json o \/ q = index_html o)) as [Hq|Hq].
  - right. exists R, o. split_and!; [done..| |].
    + intros Hbq. destruct (report_paths P o q HPc Hn) as (N1 & N2 & N3); [|done..|naive_solver].
      intros ->. rewrite HR in Ho. by destruct Ho.
    + pose proof (Real_abs _ _ _ HR HPc) as HRc. destruct (EvalSymlinks o (fst w)) as [real|err] eqn:Eo.
      * destruct Ho as [Hne Hbr]. pose proof (Real_abs _ _ _ Eo Hn) as Hrc.
        split_and!; [done..| |]; intros Hbq; by apply (report_paths R real _ HRc Hrc Hne Hbr) in Hbq as (_ & ? & ?).
      * destruct Ho as (He & Hne & Hbr). split; [done|]. intros Hbq.
        destruct (report_paths R o q HRc Hn Hne Hbr Hbq) as (? & ? & ?). naive_solver.
  - left. assert (q ∉ ancestors o /\ state_json o <> q /\ index_html o <> q) as (Hpa & Hpj & Hpi) by naive_solver.
    assert (forall w, keeps q w (scanAndWrite fault cwd git_run git_found now P o w).1) as Hk
      by (intros v; by apply scanAndWrite_keeps).
    pose proof (Hk w) as Hw. destruct (scanAndWrite _ _ _ _ _ P o w) as [w1 [err|]]; [exact Hw|].
    destruct (negb _); [exact Hw|].
    pose proof (Hlisten (ob_host (options_of fs) +:+ ":" +:+ Itoa (ob_port (options_of fs))) w1) as Hl.
    destruct (listen _ w1) as [w2 [port|err]]; [|by transitivity w1].
    pose proof (serving_world o (scanAndWrite fault cwd git_run git_found now P o) events w2) as Hs.
    destruct (serving _ _ _ events w2) as [w3 l].
    assert (keeps q w2 w3) by (cbn [fst] in Hs; rewrite Hs; by apply iter_keeps; [apply _|]).
    transitivity w1; [done|]. transitivity w2; [done|]. by destruct served.
Qed.

(** C29: a run of [remote observe] that does not serve ends in one of two ways.
    Either it exits with 0, and then the output directory holds the state the
    scan found, as JSON, and the page made from it, and no error was printed; or
    it exits with 1 and prints why, and nothing else. *)
Theorem observe_once_report args events served w fs rest
    (Hparse : Parse args observe_flags = Ok (fs, rest)) (Hserve : ob_serve (options_of fs) = false) :
  let '(w', r) := observe args events served w in
  (ra_code r = 0%Z /\ ra_stderr r = [] /\ ra_stdout r <> [] /\
    exists P o s data w1,
      Abs cwd (ob_project (options_of fs)) = Ok P /\
      ResolveOutput cwd tmp (fun p => EvalSymlinks p (fst w)) P (ob_out (options_of fs)) = Ok o /\
      Scan git_run Stat git_found cwd now P w = (w1, Ok s) /\ MarshalIndent s = Ok data /\
      fs_files (fst w') !! state_json o = Some (data +:+ nl) /\
      fs_files (fst w') !! index_html o = Some (page s)) \/
  (ra_code r = 1%Z /\ ra_stderr r <> [] /\ ra_stdout r = []).
Proof.
  unfold run. change ("observe" =s "observe") with true. cbv beta iota. unfold runObserve.
  rewrite Hparse. cbv beta iota zeta. rewrite Hserve, andb_false_r. cbn [andb negb].
  destruct (ob_project _ =s ""); [by right|].
  destruct (Abs cwd _) as [P|] eqn:HP; [|by right]. destruct (Stat P w) as [[]|]; [|by right..].
  destruct (ResolveOutput _ _ _ _ _) as [o|] eqn:Er; [|by right].
  destruct (scanAndWrite _ _ _ _ _ P o w) as [w1 [err|]] eqn:Es; [by right|].
  left. split_and!; [done..|by unfold writeInfo; case_match|].
  apply ResolveOutput_ok in Er as Hr. destruct Hr as (_ & _ & _ & _ & (n & Hn) & _).
  apply (Abs_clean cwd n o Getwd_abs) in Hn.
  unfold scanAndWrite in Es. destruct (Scan _ _ _ _ _ P w) as [w2 [s|]] eqn:Esc; [|done].
  destruct (Write _ o s (fst w2)) as [fs2 e] eqn:Ew. injection Es as <- ->.
  apply Write_files in Ew as (data & Hd & H1 & H2); [|done]. by exists P, o, s, data, w2.
Qed.
End theorems.

(** ** Examples

    A project [/p] and a directory [/tmp]; the world beside the files is the log
    of the commands that were run. *)

Module Demo.
#[export] Existing Instance plain_tables.
Definition demo_world : FS string * list (list string) :=
  (mkFS {["/p/a.go" := "package a"]} {["/p"; "/tmp"]}, []).
Definition no_fault (op : fs_op string) (fs : FS string) : option (error * option nat) := None.
(** The disk is full when the page is written. *)
Definition full_disk (op : fs_op string) (fs : FS string) : option (error * option nat) :=
  match op with
  | OpWrite p _ => if p =s "/tmp/r/index.html" then Some (errorf "no space left on device", Some 3%nat) else None
  | _ => None
  end.
Definition links (p : string) (fs : FS string) : result string :=
  if decide (p ∈ fs_dirs fs) then Ok p else Err (not_exist "lstat" p).
Definition git (argv : list string) (w : FS string * list (list string)) :=
  let '(fs, log) := logged_run argv (snd w) in ((fst w, fs), log).
Definition clock (w : FS string * list (list string)) := (w, time_zero).
Definition socket (addr : string) (w : FS string * list (list string)) : _ * result Z := (w, Ok 8787%Z).
Definition files (what : string) (r : request) (fs : FS string) : response :=
  match ReadFile fs (if rq_Path r =s "/" then what else what +:+ rq_Path r) with
  | Ok data => mkResponse 200 "" data
  | Err _ => mkResponse 404 "" ""
  end.

Abbreviation demo fault args events :=
  (run fault files files (Ok "/p") "/tmp" links git true clock "usage" socket
    ("observe" :: args) events None demo_world).

Lemma git_keeps q argv w : keeps q w (git argv w).1.
Proof. done. Qed.
Lemma getwd_abs wd : Ok "/p" = Ok wd -> is_rooted wd = true.
Proof. by intros [= <-]. Qed.
Lemma links_abs p fs r : links p fs = Ok r -> clean_abs p -> clean_abs r.
Proof. unfold links. case_decide; [by intros [= <-]|done]. Qed.

Definition serve_args : list string := ["--project"; "."; "--out=../tmp/r"; "-serve"; "--refresh=2s"].
Definition once_args : list string := ["--project"; "."; "--out=../tmp/r"].
Definition serve_events : list event :=
  [Tick; Request (mkRequest "GET" "/refresh"); Request (mkRequest "POST" "/refresh");
   Request (mkRequest "GET" "/"); Request (mkRequest "GET" "/state.json")].

(** The state that a scan of the project finds, and its text. *)
Definition found : State :=
  match Scan git (@Stat _) true (Ok "/p") clock "/p" demo_world with
  | (_, Ok s) => s
  | (_, Err _) => mkState 0 0 "" (mkGitState false false "" false "" "" []) [] None None []
  end.
Definition found_text : string := match MarshalIndent found with Ok data => data +:+ nl | Err _ => "" end.

Definition parsed (args : list string) : flags :=
  match Parse args observe_flags with Ok (fs, _) => fs | Err _ => ∅ end.

End Demo.
Import Demo.

Lemma observe_keeps_project_witness :
  ReadFile (fst (demo no_fault serve_args serve_events).1) "/p/a.go" = Ok "package a".
Proof.
  assert (Parse serve_args observe_flags = Ok (parsed serve_args, [])) as E by (vm_compute; reflexivity).
  destruct (observe_keeps_project no_fault files files (Ok "/p") "/tmp" links git true clock
    "usage" socket getwd_abs links_abs serve_args serve_events None demo_world (parsed serve_args) [] "/p" "/p/a.go")
    as [H|(R & o & _ & _ & _ & Hb & _)]; [exact E| |done|done|done|exact H|].
  - vm_compute. reflexivity.
  - exfalso. apply Hb. by exists "a.go", [].
Defined.

(** What the report's files are found to be: the second case. *)
Lemma observe_writes_report :
  ReadFile (fst (demo no_fault once_args []).1) "/tmp/r/state.json" <> ReadFile (fst demo_world) "/tmp/r/state.json".
Proof. vm_compute. discriminate. Qed.

(** A link that leads into the project is refused as an output. *)
Definition alias (p : string) (fs : FS string) : result string := if p =s "/tmp" then Ok "/p" else links p fs.
Example linked_output_refused :
  (run no_fault files files (Ok "/p") "/tmp" alias git true clock "usage" socket
    ["observe"; "--project"; "."; "--out=/tmp"] [] None demo_world) =
  (demo_world, failed [Error ErrInside +:+ nl]).
Proof. vm_compute. reflexivity. Qed.

Lemma observe_once_report_witness :
  let '(w, r) := demo no_fault once_args [] in
  ra_code r = 0%Z /\ exists o s data, MarshalIndent s = Ok data /\
    fs_files (fst w) !! state_json o = Some (data +:+ nl) /\ fs_files (fst w) !! index_html o = Some (page s).
Proof.
  assert (Parse once_args observe_flags = Ok (parsed once_args, [])) as E by (vm_compute; reflexivity).
  assert (ob_serve (options_of (parsed once_args)) = false) as Hs by (vm_compute; reflexivity).
  pose proof (observe_once_report no_fault files files (Ok "/p") "/tmp" links git true clock
    "usage" socket getwd_abs once_args [] None demo_world (parsed once_args) [] E Hs) as H.
  assert (ra_code (demo no_fault once_args []).2 = 0%Z) as Hc by (vm_compute; reflexivity).
  destruct (demo no_fault once_args []) as [w r]. cbn [snd] in Hc.
  destruct H as [(_ & _ & _ & P & o & s & data & w1 & _ & _ & _ & H)|(H & _)]; [|congruence].
  split; [exact Hc|]. by exists o, s, data.
Defined.

Example once_run :
  let fs := fst (demo no_fault once_args []).1 in
  fs_files fs !! "/tmp/r/state.json" = Some found_text /\
  fs_files fs !! "/tmp/r/index.html" = Some (page found) /\
  Contains found_text ("M a.go") = true /\ Contains (page found) "<pre>M a.go</pre>" = true.
Proof. vm_compute. split_and!; reflexivity. Qed.

(** What a served run answers, and what a full disk leaves. *)
Example served_run :
  (demo no_fault serve_args serve_events).2 =
  mkRan 0 (writeInfo (mkInfo "/p" "/tmp/r" true "http://127.0.0.1:8787") false) []
    [mkResponse 405 "text/plain; charset=utf-8" ("POST required" +:+ nl);
     mkResponse 200 "application/json" ("{" +:+ String "034" "ok" +:+ String "034" ":true}");
     mkResponse 200 "" (page found); mkResponse 200 "" found_text].
Proof. vm_compute. reflexivity. Qed.

Example full_disk_run :
  let '(w, r) := demo full_disk once_args [] in
  r = failed ["no space left on device" +:+ nl] /\ fs_files (fst w) !! "/tmp/r/state.json" = Some found_text /\
  fs_files (fst w) !! "/tmp/r/index.html" = Some "".
Proof. vm_compute. split_and!; reflexivity. Qed.

(** The ticker's refresh and one that a request asks for are not kept apart: their
    calls can interleave, and leave the state of one scan beside the page of the
    other. *)
Definition report_ops (out data html : string) : list (fs_op string) :=
  [OpMkdirAll (ancestors out); OpWrite (state_json out) data; OpWrite (index_html out) "";
   OpWrite (index_html out) html].
Example refreshes_interleave :
  let a := report_ops "/r" "A" "<A>" in
  let b := report_ops "/r" "B" "<B>" in
  let ops := take 2 a ++ b ++ drop 2 a in
  let fs := apply_ops (mkFS ∅ ∅) ops in
  fs_files fs !! "/r/state.json" = Some "B" /\ fs_files fs !! "/r/index.html" = Some "<A>".
Proof. vm_compute. done. Qed.
