(* ===== verification/Run.v ===== *)
(** * internal/orchestrator: the run pipeline

    [src/internal/orchestrator/phases.go] and [run.go]: a run is prepared
    ([preWorker], which may still bail out), then its worker's events are drained
    and the run is brought to its terminal events ([runWithWorker]). The state the
    phases share in the source is the argument and result of their functions
    here; the warnings and the world are threaded. *)

From S2P Require Import State.
From S2P Require Import Prelude GoStrings GoValue GoTime Protocol Config Adapter Storage Host.
From S2P Require Import Orchestrator Checks.

(** ** Helpers *)

Definition truncate (s : string) (max : nat) : string :=
  if Nat.leb (String.length s) max then s else slice_to s max +:+ "...".

(** A worker event as a storage event: tool executions get their own types, the
    rest are heartbeats. *)
Definition workerEventToStorage (evt : WorkerEvent) (runID workID sessionID : string) : Event :=
  let attrs : attributes := {["kind" := we_Kind evt]} in
  let attrs := if we_ToolName evt <>s "" then <["tool" := we_ToolName evt]> attrs else attrs in
  let attrs := if we_Message evt <>s "" then <["message" := truncate (we_Message evt) 500]> attrs
               else attrs in
  let '(type, status) :=
    if we_Kind evt =s "tool_execution_start" then (EventToolCallStarted, "started")
    else if we_Kind evt =s "tool_execution_end" then (EventToolCallCompleted, "completed")
    else (EventAgentHeartbeat, "running") in
  set_timestamp (we_Timestamp evt)
    (event_literal type runID workID sessionID "" "worker" "" status "" (Some attrs)).

(** What a run carries between its phases. *)
Record prepared (W : Type) := mkPrepared {
  pr_Goal : string;
  pr_WorkerCfg : WorkerConfig;
  pr_RunID : string;
  pr_WorkID : string;
  pr_SessionID : string;
  pr_Worker : Worker W;
  pr_StateStore : option State.Store
}.
Arguments mkPrepared {W} _ _ _ _ _ _ _.
Arguments pr_Goal {W} _.
Arguments pr_WorkerCfg {W} _.
Arguments pr_RunID {W} _.
Arguments pr_WorkID {W} _.
Arguments pr_SessionID {W} _.
Arguments pr_Worker {W} _.
Arguments pr_StateStore {W} _.

Record run_outcome := mkOutcome {
  out_WorkerResult : WorkerResult;
  out_WorkerWaitErr : option error;
  out_WorkerSuccess : bool;
  out_WorkerEventCount : Z;
  out_VerifyResult : option VerificationResult;
  out_Success : bool;
  out_FinalLifecycle : string
}.

(** [preWorkerErr]: a bail-out with its protocol class. *)
Record preWorkerErr := mkBail { bail_class : string; bail_msg : string }.

Definition term_ctx (ctx : context) : context := WithTimeout (WithoutCancel ctx) (5 * Second)%Z.
Definition spawn_ctx (ctx : context) : context := WithCancel ctx.

(** ** The events of a run *)

Section events.
Context (runID workID sessionID : string).

Definition ev_run_created (goal : string) : Event :=
  event_literal EventRunCreated runID "" "" "" "user" "" "created" ""
    (Some {["goal" := truncate goal 500]}).
Definition ev_work_created (goal : string) : Event :=
  event_literal EventWorkCreated runID workID "" "" "run_core" "" "ready" ""
    (Some {["goal" := truncate goal 500; "role" := "executor"; "title" := truncate goal 80]}).
Definition ev_agent_spawned (kind : string) : Event :=
  event_literal EventAgentSpawned runID workID sessionID kind "run_core" "" "spawning" ""
    (Some {["role" := "executor"]}).
Definition ev_agent_failed (err : error) : Event :=
  event_literal EventAgentFailed runID "" sessionID "" "run_core" "" "failed" ""
    (Some {["error_message" := Error err]}).
Definition ev_status_executing : Event :=
  event_literal EventRunStatusChanged runID "" sessionID "" "run_core" "" "executing"
    State.LifecycleRunning None.
Definition ev_work_started : Event :=
  event_literal EventWorkStarted runID workID "" "" "run_core" "" "running" "" None.
Definition ev_work_completed : Event :=
  event_literal EventWorkCompleted runID workID "" "" "run_core" "" "completed" "" None.
Definition ev_work_failed : Event :=
  event_literal EventWorkFailed runID workID "" "" "run_core" "" "failed" "" None.
Definition ev_status_final (status lifecycle : string) (attrs : option attributes) : Event :=
  event_literal EventRunStatusChanged runID "" sessionID "" "run_core" "" status lifecycle attrs.
Definition ev_agent_stopped (status lifecycle : string) : Event :=
  event_literal EventAgentStopped runID "" sessionID "" "run_core" "" status lifecycle None.
Definition ev_diagnosed (failureType reason : string) : Event :=
  event_literal EventFailureDiagnosed runID workID "" "" "run_core" "" "diagnosed" ""
    (Some {["failure_type" := failureType; "reason" := truncate reason 500]}).
End events.

Section run.
Context {W : Type} `{Clock W} `{Exec W} `{Files W} `{StateFiles W} `{Entropy W} `{Cancellation W}.
Context `{UnicodeTables} `{YAML}.
Implicit Types (deps : Dependencies W) (w : W).

Definition generateID (prefix : string) w : W * string :=
  let '(w, r) := rand_Read 12 w in
  match r with
  | Err _ => (w, prefix +:+ "_unknown")
  | Ok b => (w, prefix +:+ "_" +:+ EncodeToString b)
  end.

(** The warnings of the run and the world. *)
Abbreviation st := (W * list string)%type.

Definition emit (ctx : context) (req : Request) deps (ev : Event) (s : st) : st :=
  let '(w, ws) := s in
  let '(w, err) := recordStorageEvent ctx req deps ev w in
  (w, ws ++ warn_of err).

Definition emits (ctx : context) (req : Request) deps (evs : list Event) (s : st) : st :=
  foldl (fun s ev => emit ctx req deps ev s) s evs.

(** [rc.recordRunFailure]; the ids are the run's own, so none is empty. *)
Definition failure_events (runID workID sessionID failureType reason : string) : list Event :=
  (if workID <>s "" then [ev_work_failed runID workID] else [])
  ++ [ev_status_final runID sessionID "failed" State.LifecycleFailed None]
  ++ (if sessionID <>s "" then [ev_agent_stopped runID sessionID "failed" State.LifecycleFailed]
      else [])
  ++ [ev_diagnosed runID workID failureType reason].

Definition recordRunFailure (ctx : context) (req : Request) deps
    (runID workID sessionID failureType reason : string) (s : st) : st :=
  let '(w, ws) := emits (term_ctx ctx) req deps
    (failure_events runID workID sessionID failureType reason) s in
  (cancel (term_ctx ctx) w, ws).

(** A state transition of the run: an error becomes a warning. *)
Definition run_transition (store : option State.Store) (deps : Dependencies W) (req : Request)
    (sessionID to contextName label : string) (s : st) : st :=
  match store with
  | None => s
  | Some store =>
      let '(w, ws) := s in
      let '(w, t) := now deps w in
      let '(w, r) := store_Transition store sessionID
        (State.mkInput to contextName (dep_OwnerID deps) (req_RequestID req) "" None None t) w in
      (w, ws ++ match r with
                | Ok _ => []
                | Err err => ["state transition (" +:+ label +:+ ") skipped: " +:+ Error err]
                end)
  end.

(** ** preWorker *)

Definition worker_config (cfg : Config) : WorkerConfig :=
  match cfg_Workers cfg !! "pi" with Some c => c | None => mkWorkerConfig "pi" "" end.

Definition worker_spec (req : Request) (goal : string) : WorkerSpec :=
  mkWorkerSpec goal (req_CWD req) ["read"; "bash"; "edit"; "write"] None.

Definition preWorker (ctx : context) (req : Request) deps (s : st)
    : st * (preWorkerErr + prepared W) :=
  let goal := pv req "goal" in
  if TrimSpace goal =s "" then (s, inl (mkBail ErrorInvalidConfig "goal is required"))
  else match dep_WorkerFactory deps with
  | None => (s, inl (mkBail ErrorInvalidConfig "WorkerFactory is required"))
  | Some factory =>
      let '(w, ws) := s in
      match Config.Load (os_ReadFile w) (configOptions req deps) with
      | Err err => (s, inl (mkBail ErrorInvalidConfig (Error err)))
      | Ok cfg =>
          let workerCfg := worker_config cfg in
          let '(w, runID) := generateID "run" w in
          let '(w, sessionID) := generateID "session" w in
          let '(w, workID) := generateID "work" w in
          let '(w, ws) := emits ctx req deps
            [ev_run_created runID goal; ev_work_created runID workID goal;
             ev_agent_spawned runID workID sessionID (wc_Kind workerCfg)] (w, ws) in
          let '(w, made) := factory ctx workerCfg w in
          match made with
          | Err err =>
              let s := emit ctx req deps (ev_agent_failed runID sessionID err) (w, ws) in
              let s := recordRunFailure ctx req deps runID workID sessionID "tool_failure"
                         ("worker factory: " +:+ Error err) s in
              (s, inl (mkBail ErrorUnknown ("worker factory: " +:+ Error err)))
          | Ok worker =>
              let store := match dep_StateStore deps with
                           | Some store => Some store
                           | None => if req_Project req <>s ""
                                     then Some (State.NewStore (req_Project req) (State.mkOptions 0))
                                     else None
                           end in
              let s := run_transition store deps req sessionID State.LifecycleRunning
                         "run_execute" "running" (w, ws) in
              let '(w, ws) := emits ctx req deps
                [ev_status_executing runID sessionID; ev_work_started runID workID] s in
              let '(w, err) := Spawn worker (spawn_ctx ctx) (worker_spec req goal) w in
              match err with
              | Some err =>
                  let w := cancel (spawn_ctx ctx) w in
                  let s := emit ctx req deps (ev_agent_failed runID sessionID err) (w, ws) in
                  let s := recordRunFailure ctx req deps runID workID sessionID "tool_failure"
                             ("worker spawn: " +:+ Error err) s in
                  (s, inl (mkBail ErrorUnknown ("worker spawn: " +:+ Error err)))
              | None => ((w, ws), inr (mkPrepared goal workerCfg runID workID sessionID worker store))
              end
          end
      end
  end.

(** ** runWithWorker *)

(** Draining the worker's channel; [None] when the fuel runs out before the
    channel is closed. *)
Fixpoint drain (fuel : nat) (ctx : context) (req : Request) deps (p : prepared W) (n : Z) (s : st)
    : option (st * Z) :=
  match fuel with
  | O => None
  | S fuel =>
      let '(w, ws) := s in
      let '(w, r) := Receive (pr_Worker p) w in
      match r with
      | Closed => Some ((w, ws), n)
      | Received evt =>
          drain fuel ctx req deps p (n + 1)
            (emit ctx req deps
               (workerEventToStorage evt (pr_RunID p) (pr_WorkID p) (pr_SessionID p)) (w, ws))
      end
  end.

Definition verify_options (req : Request) deps (p : prepared W) (verificationID : string)
    : Verify.Options W :=
  Verify.mkOptions None (dep_StorageSink deps) (pr_RunID p) (pr_WorkID p) verificationID
    (dep_OwnerID deps) (req_Project req) (dep_Now deps).

(** The verification of a successful worker, if the request declares checks. *)
Definition run_verification (ctx : context) (req : Request) deps (p : prepared W) (ok : bool)
    (s : st) : st * option VerificationResult :=
  let checks := elems (parseChecks (req_Payload req)) in
  match ok, checks with
  | true, _ :: _ =>
      let '(w, ws) := s in
      let '(w, verificationID) := generateID "verification" w in
      let plan := buildVerificationPlan checks (req_CWD req) in
      match RunPlan (term_ctx ctx) plan (verify_options req deps p verificationID) w with
      | (w, Ok vr) => ((w, ws), Some vr)
      | (w, Err err) =>
          let text := "verification execution error: " +:+ Error err in
          ((w, ws ++ [text]), Some (Verify.mkResult false [] text))
      end
  | _, _ => (s, None)
  end.

Definition verdict (worker_ok : bool) (vr : option VerificationResult) : bool :=
  match vr with
  | Some vr => if vr_Passed vr then worker_ok else false
  | None => worker_ok
  end.

(** The failure type and reason of a run that did not succeed. *)
Definition diagnosis (worker_ok : bool) (result : WorkerResult) (wait_err : option error)
    (vr : option VerificationResult) : string * string :=
  if negb worker_ok then
    ("tool_failure",
     match wait_err with
     | Some err => "worker wait error: " +:+ Error err
     | None => if wr_Reason result <>s "" then wr_Reason result
               else "worker reported failure with no detail"
     end)
  else match vr with
       | Some vr => if negb (vr_Passed vr) then ("bad_exit_criteria", vr_Summary vr)
                    else ("unknown", "")
       | None => ("unknown", "")
       end.

(** The terminal events, after the work item's own. *)
Definition final_events (p : prepared W) (o : run_outcome) : list Event :=
  let status := if out_Success o then "completed" else "failed" in
  [ev_status_final (pr_RunID p) (pr_SessionID p) status (out_FinalLifecycle o)
     (Some {["exit_code" := Itoa (wr_ExitCode (out_WorkerResult o))]});
   ev_agent_stopped (pr_RunID p) (pr_SessionID p) status (out_FinalLifecycle o)]
  ++ (if out_Success o then []
      else let '(failureType, reason) := diagnosis (out_WorkerSuccess o) (out_WorkerResult o)
             (out_WorkerWaitErr o) (out_VerifyResult o) in
           [ev_diagnosed (pr_RunID p) (pr_WorkID p) failureType reason]).

Definition work_event (p : prepared W) (ok : bool) : Event :=
  if ok then ev_work_completed (pr_RunID p) (pr_WorkID p) else ev_work_failed (pr_RunID p) (pr_WorkID p).

Definition runWithWorker (fuel : nat) (ctx : context) (req : Request) deps (p : prepared W) (s : st)
    : option (st * run_outcome) :=
  '((w, ws), count) ← drain fuel ctx req deps p 0 s;
  let '(w, (result, waitErr)) := Wait (pr_Worker p) ctx w in
  let workerSuccess := match waitErr with None => wr_Success result | Some _ => false end in
  let s := emit (term_ctx ctx) req deps (work_event p workerSuccess) (w, ws) in
  let '(s, vr) := run_verification ctx req deps p workerSuccess s in
  let success := verdict workerSuccess vr in
  let lifecycle := if success then State.LifecycleFinished else State.LifecycleFailed in
  let s := run_transition (pr_StateStore p) deps req (pr_SessionID p) lifecycle "run_terminate"
             "terminal" s in
  let o := mkOutcome result waitErr workerSuccess count vr success lifecycle in
  let '(w, ws) := emits (term_ctx ctx) req deps (final_events p o) s in
  Some ((cancel (spawn_ctx ctx) (cancel (term_ctx ctx) w), ws), o).

(** ** The response *)

Definition verification_label (vr : option VerificationResult) : string :=
  match vr with
  | None => "skipped"
  | Some vr => if vr_Passed vr then "verified" else "failed"
  end.

Definition buildRunResponse (req : Request) (p : prepared W) (o : run_outcome) (ws : list string)
    : Response :=
  let summary := "run_id=" +:+ pr_RunID p +:+ " work_id=" +:+ pr_WorkID p +:+ " session_id="
    +:+ pr_SessionID p +:+ " status=" +:+ out_FinalLifecycle o +:+ " events="
    +:+ Itoa (out_WorkerEventCount o) +:+ " verification="
    +:+ verification_label (out_VerifyResult o) in
  if out_Success o then OKResponse (Some req) ActionNone summary (Some ws)
  else
    let errMsg := match out_WorkerWaitErr o with
                  | Some err => summary +:+ " err=" +:+ Error err
                  | None => summary
                  end in
    let failWarn := if wr_Reason (out_WorkerResult o) <>s ""
                    then "run failed: " +:+ wr_Reason (out_WorkerResult o) else "run failed" in
    OKResponse (Some req) ActionWarn errMsg (Some (ws ++ [failWarn])).

Definition handleRun (fuel : nat) (ctx : context) (req : Request) deps w : option (W * Response) :=
  match preWorker ctx req deps (w, []) with
  | ((w, ws), inl bail) =>
      Some (w, ErrorResponse (Some req) ActionWarn
                 (Some (NewProtocolError (bail_class bail) (bail_msg bail) false)) (Some ws))
  | (s, inr p) =>
      '((w, ws), o) ← runWithWorker fuel ctx req deps p s;
      Some (w, buildRunResponse req p o ws)
  end.

(** ** Dispatch: [orchestrator.Handle] *)

Definition Handle (fuel : nat) (ctx : context) (req : option Request) deps w
    : option (W * Response) :=
  match req with
  | None => Some (w, ErrorResponse None ActionWarn
      (Some (NewProtocolError ErrorInvalidConfig "request is required" false)) None)
  | Some req =>
      let is_event e := req_Event req =s e in
      if is_event EventOnSubmit then Some (handleSubmit ctx req deps w)
      else if is_event EventOnToolBefore then Some (handleToolBefore ctx req deps w)
      else if is_event EventOnError then
        Some (handleStateTransition ctx req deps (lifecycleForError req) "error" w)
      else if is_event EventOnStop then
        Some (handleStateTransition ctx req deps State.LifecycleCancelled "stop" w)
      else if is_event EventOnToolAfter then Some (handleToolAfter ctx req deps w)
      else if is_event EventOnCompact then Some (w, OKResponse (Some req) ActionNone "" None)
      else if is_event EventOnRun then handleRun fuel ctx req deps w
      else Some (w, OKResponse (Some req) ActionNone "" None)
  end.
End run.
