(* ===== verification/Cli.v ===== *)
(** * cmd/omg: the command line

    [src/cmd/omg/main.go]: the commands, the argument parser of [omg run], the
    fallbacks when no daemon answers, and the daemon's handler. The socket client,
    the server, the opening of the store and process exit are the environment's:
    [CliDeps] has them as operations on the world. *)

From S2P Require Import Prelude GoStrings GoValue GoTime GoPath Protocol.
From S2P Require Import Config Registry Route Prompt Guard Adapter Storage Host.
From S2P Require Import Orchestrator Checks Run.

(** What a command writes to its standard output. *)
Inductive output := OutText (s : string) | OutResponse (resp : Response).

(** [stdout], [stderr] and the exit code *)
Record finished := mkFinished { f_stdout : list output; f_stderr : list string; f_code : Z }.

Record CliDeps (W : Type) := mkCliDeps {
  cli_cwd : string;
  cli_home : string;
  cli_RoundTrip : context -> Request -> W -> W * result Response;
  (* [starter.Start] runs the server with a handler until it stops *)
  cli_Start : context -> (context -> option Request -> W -> option (W * Response)) -> W ->
              option (W * option error);
  (* [newSink(ctx, cwd, path)]: a store may come with an error *)
  cli_newSink : context -> string -> string -> W -> W * (option (Sink W) * option error);
  cli_Shutdown : W -> W;
  cli_workerFactory : context -> WorkerConfig -> W -> W * result (Worker W);
  cli_stderrDiag : bool
}.
Arguments mkCliDeps {W} _ _ _ _ _ _ _ _.
Arguments cli_cwd {W} _.
Arguments cli_home {W} _.
Arguments cli_RoundTrip {W} _ _ _ _.
Arguments cli_Start {W} _ _ _ _.
Arguments cli_newSink {W} _ _ _ _ _.
Arguments cli_Shutdown {W} _ _.
Arguments cli_workerFactory {W} _ _ _ _.
Arguments cli_stderrDiag {W} _.

(** ** Arguments of [omg run] *)

(** The checks and the words of the goal. *)
Fixpoint parse_run_args (args : list string) : list string * list string :=
  match args with
  | [] => ([], [])
  | a :: rest =>
      if a =s "--check" then
        match rest with
        | c :: rest => let '(checks, goal) := parse_run_args rest in (c :: checks, goal)
        | [] => ([], [a])
        end
      else let '(checks, goal) := parse_run_args rest in (checks, a :: goal)
  end.

(** [payloadText] of this package: the first key that holds a string. *)
Definition cli_payloadText (req : Request) : string :=
  let get key := as_string (req_Payload req !! key) in
  match get "input", get "prompt", get "text" with
  | Some s, _, _ | None, Some s, _ | None, None, Some s => s
  | None, None, None => ""
  end.

Definition error_response (class message : string) : Response :=
  ErrorResponse None ActionWarn (Some (NewProtocolError class message false)) None.

(** [writeResponse] *)
Definition out_response (resp : Response) : output := OutResponse (WriteResponse resp).

Section cli.
Context {W : Type} `{Clock W} `{Exec W} `{Files W} `{StateFiles W} `{Entropy W} `{Cancellation W}.
Context `{UnicodeTables} `{YAML}.
Implicit Types (deps : CliDeps W) (w : W).

Definition cli_configOptions deps : Config.Options :=
  Config.mkOptions "" (JoinPath [cli_home deps; ".omg"]) (JoinPath [cli_cwd deps; ".omg"]).

Definition newRequestID w : W * string :=
  let '(w, r) := rand_Read 8 w in
  (w, match r with Err _ => "req-fallback" | Ok b => "req-" +:+ EncodeToString b end).

Definition buildStorageSink (ctx : context) (cfg : Config) deps w
    : W * (option (Sink W) * option error) :=
  cli_newSink deps ctx (cli_cwd deps) (cfg_StoragePath cfg) w.

(** The orchestrator's dependencies, as the two callers fill them. *)
Definition orchestrator_deps deps (sink : option (Sink W))
    (factory : option (context -> WorkerConfig -> W -> W * result (Worker W))) : Dependencies W :=
  mkDeps (cli_configOptions deps) (mkRegOptions false) [] [] None sink [] (mkTokenBudget 0)
    (mkProjectContext "") "" None factory.

Definition diag deps (err : error) : list string :=
  if cli_stderrDiag deps then ["socket unavailable: " +:+ Error err] else [].

Definition exit_of (resp : Response) : Z := if resp_OK resp then 0 else 1.

(** ** Commands *)

Definition inlineSubmitFallback (req : Request) deps (socketErr : error) w : Response :=
  let socket := "socket unavailable: " +:+ Error socketErr in
  let refuse err := ErrorResponse (Some req) ActionWarn
    (Some (NewProtocolError ErrorInvalidConfig (Error err) false)) (Some [socket]) in
  match Config.Load (os_ReadFile w) (cli_configOptions deps) with
  | Err err => refuse err
  | Ok cfg =>
      match Build cfg (mkRegOptions false) with
      | Err err => refuse err
      | Ok reg =>
          let r := Route (cli_payloadText req) reg in
          let warning := "inline fallback: procedure=" +:+ rt_Procedure r +:+ " domain=" +:+ rt_Domain r
            +:+ " agent=" +:+ rt_Agent r +:+ " confidence=" +:+ rt_Confidence r in
          OKResponse (Some req) ActionWarn "" (Some [socket; warning])
      end
  end.

(** A hook command: the daemon's answer, or a fallback. *)
Definition hook_command (fallback : Request -> error -> W -> Response) (ctx : context)
    (decoded : result Request) deps w : W * finished :=
  match ReadRequest decoded with
  | (Some req, None) =>
      match cli_RoundTrip deps ctx req w with
      | (w, Ok resp) => (w, mkFinished [out_response resp] [] 0)
      | (w, Err err) => (w, mkFinished [out_response (fallback req err w)] (diag deps err) 0)
      end
  | (req, perr) => (w, mkFinished [out_response (ErrorResponse req ActionWarn perr None)] [] 0)
  end.

Definition runOnSubmit (ctx : context) (decoded : result Request) deps w : W * finished :=
  hook_command (fun req err w => inlineSubmitFallback req deps err w) ctx decoded deps w.

Definition runOnToolBefore (ctx : context) (decoded : result Request) deps w : W * finished :=
  hook_command (fun req err _ => OKResponse (Some req) ActionWarn ""
      (Some ["socket unavailable: " +:+ Error err; "on-tool-before stub fallback"])) ctx decoded deps w.

Definition runInlineFallback (fuel : nat) (ctx : context) (req : Request) deps w
    : option (W * finished) :=
  match Config.Load (os_ReadFile w) (cli_configOptions deps) with
  | Err err =>
      Some (w, mkFinished [out_response (ErrorResponse (Some req) ActionWarn
        (Some (NewProtocolError ErrorInvalidConfig (Error err) false)) None)] [] 1)
  | Ok cfg =>
      let '(w, (sink, storageErr)) := buildStorageSink ctx cfg deps w in
      let stderr := match storageErr with
                    | Some err => if cli_stderrDiag deps then ["storage unavailable: " +:+ Error err] else []
                    | None => []
                    end in
      '(w, resp) ← Handle fuel ctx (Some req)
        (orchestrator_deps deps sink (Some (cli_workerFactory deps))) w;
      let w := match sink with Some _ => cli_Shutdown deps w | None => w end in
      Some (w, mkFinished [out_response resp] stderr (exit_of resp))
  end.

(** The request of [omg run]. *)
Definition run_request (id : string) (checks goalParts : list string) deps : Request :=
  let payload : object := {["goal" := VString (Join goalParts " ")]} in
  let payload := match checks with [] => payload | _ => <["checks" := VStrings checks]> payload end in
  mkRequest Version id ProviderDirect EventOnRun (cli_cwd deps) (cli_cwd deps) "" 0 ∅ payload.

Definition runRun (fuel : nat) (ctx : context) (args : list string) deps w : option (W * finished) :=
  let '(checks, goalParts) := parse_run_args args in
  match goalParts with
  | [] => Some (w, mkFinished [out_response (error_response ErrorInvalidConfig
      ("missing goal: usage: omg run " +:+ String "034" "<goal>" +:+ String "034"
         " [--check <kind>:<arg>[:<expected>]]"))] [] 1)
  | _ =>
      let '(w, id) := newRequestID w in
      let req := run_request id checks goalParts deps in
      match cli_RoundTrip deps ctx req w with
      | (w, Ok resp) => Some (w, mkFinished [out_response resp] [] (exit_of resp))
      | (w, Err err) =>
          '(w, f) ← runInlineFallback fuel ctx req deps w;
          Some (w, mkFinished (f_stdout f) (diag deps err ++ f_stderr f) (f_code f))
      end
  end.

Definition runDaemonStop (ctx : context) deps w : W * finished :=
  let req := mkRequest Version "daemon-stop" ProviderDirect EventOnStop (cli_cwd deps) (cli_cwd deps)
    "" 300 ∅ ∅ in
  match cli_RoundTrip deps ctx req w with
  | (w, Ok resp) => (w, mkFinished [out_response resp] [] 0)
  | (w, Err err) =>
      (w, mkFinished [out_response (ErrorResponse (Some req) ActionWarn
        (Some (NewProtocolError ErrorSocketUnavailable (Error err) false)) None)] [] 0)
  end.

(** The handler the daemon runs; a stop event also cancels the daemon's context. *)
Definition daemon_handler (fuel : nat) (stopCtx : context) (sink : option (Sink W)) deps
    (ctx : context) (req : option Request) w : option (W * Response) :=
  '(w, resp) ← Handle fuel ctx req (orchestrator_deps deps sink None) w;
  let w := match req with
           | Some r => if req_Event r =s EventOnStop then cancel stopCtx w else w
           | None => w
           end in
  Some (w, resp).

Definition runDaemonStart (fuel : nat) (ctx : context) deps w : option (W * finished) :=
  let fail what err w := Some (w, mkFinished [] [what +:+ Error err] 1) in
  match Config.Load (os_ReadFile w) (cli_configOptions deps) with
  | Err err => fail "config validation failed: " err w
  | Ok cfg =>
      match Build cfg (mkRegOptions false) with
      | Err err => fail "registry validation failed: " err w
      | Ok _ =>
          (* [context.Background()] *)
          let '(w, (sink, storageErr)) := buildStorageSink (WithoutCancel CtxRequest) cfg deps w in
          match storageErr with
          | Some err => fail "storage validation failed: " err w
          | None =>
              let stopCtx := WithCancel ctx in
              '(w, err) ← cli_Start deps stopCtx (daemon_handler fuel stopCtx sink deps) w;
              let w := cancel stopCtx w in
              let w := match sink with Some _ => cli_Shutdown deps w | None => w end in
              match err with
              | Some err => fail "daemon start failed: " err w
              | None => Some (w, mkFinished [] [] 0)
              end
          end
      end
  end.

Definition reload_response : Response :=
  mkResponse true "" ActionNone "" (Some ["reload is a v1 stub"]) None.

Definition run (fuel : nat) (ctx : context) (args : list string) (decoded : result Request) deps w
    : option (W * finished) :=
  let refuse message := Some (w, mkFinished [out_response (error_response ErrorInvalidConfig message)] [] 0) in
  match args with
  | [] => refuse "missing command"
  | cmd :: rest =>
      if cmd =s "version" then Some (w, mkFinished [OutText "omg dev"] [] 0)
      else if cmd =s "reload" then Some (w, mkFinished [out_response reload_response] [] 0)
      else if cmd =s "on-submit" then Some (runOnSubmit ctx decoded deps w)
      else if cmd =s "on-tool-before" then Some (runOnToolBefore ctx decoded deps w)
      else if cmd =s "run" then runRun fuel ctx rest deps w
      else if cmd =s "daemon" then
        match rest with
        | [] => refuse "missing daemon subcommand"
        | sub :: _ =>
            if sub =s "start" then runDaemonStart fuel ctx deps w
            else if sub =s "stop" then Some (runDaemonStop ctx deps w)
            else refuse "unknown daemon subcommand"
        end
      else refuse "unknown command"
  end.
End cli.
