(* ===== verification/DemoWorld.v ===== *)
(** * A concrete world

    A world in which the handlers can be run: a clock that ticks, ids from a
    counter, a sink that keeps what it is given and complains about heartbeats, a
    scripted worker, commands that succeed unless they are [false], no
    configuration files, and the files of a state store. The witnesses of the
    orchestrator's theorems evaluate in it. *)

From S2P Require Import State.
From S2P Require Import Prelude GoStrings GoValue GoTime GoFS Protocol Config Registry Prompt.
From S2P Require Import Adapter Storage Host Orchestrator Checks Run.

Record World := mkWorld {
  w_tick : Z;
  w_seen : list (context * Event);
  w_queue : list WorkerEvent;
  w_fs : FS State.content;
  w_cancelled : list context
}.

Definition w0 : World := mkWorld 1 [] [] (mkFS ∅ ∅) [].

Definition tick (w : World) : World :=
  mkWorld (w_tick w + 1) (w_seen w) (w_queue w) (w_fs w) (w_cancelled w).
Definition with_queue (q : list WorkerEvent) (w : World) : World :=
  mkWorld (w_tick w) (w_seen w) q (w_fs w) (w_cancelled w).

Definition world_clock : Clock World := fun w => (tick w, w_tick w).
Definition world_exec : Exec World := fun _ argv _ w =>
  (w, ("", match argv with ["false"] => ExecExit 1 "" | _ => ExecSuccess end)).
Definition world_files : Files World := fun _ path => Err (not_exist "open" path).
Definition world_state : StateFiles World := {|
  state_fs := w_fs;
  set_state_fs fs w := mkWorld (w_tick w) (w_seen w) (w_queue w) fs (w_cancelled w);
  write_env w := (w, State.mkEnv 1 (w_tick w) None None None false)
|}.
Definition world_entropy : Entropy World := fun _ w => (tick w, Ok (Itoa (w_tick w))).
Definition world_cancel : Cancellation World := fun ctx w =>
  mkWorld (w_tick w) (w_seen w) (w_queue w) (w_fs w) (ctx :: w_cancelled w).

Definition world_sink : Sink World := {|
  RecordEvent ctx e w :=
    (mkWorld (w_tick w) (w_seen w ++ [(ctx, e)]) (w_queue w) (w_fs w) (w_cancelled w),
     if ev_Type e =s EventAgentHeartbeat then Some (errorf "database is locked") else None)
|}.

(** A worker that delivers [evts] and ends with [result], or does not spawn. *)
Definition world_worker (evts : list WorkerEvent) (result : WorkerResult) (spawn_err : option error)
    : Worker World := {|
  Spawn _ _ w := match spawn_err with
                 | Some err => (w, Some err)
                 | None => (with_queue evts w, None)
                 end;
  Receive w := match w_queue w with
               | [] => (w, Closed)
               | e :: rest => (with_queue rest w, Received e)
               end;
  Wait _ w := (w, (result, None));
  Abort _ w := (w, None)
|}.

Definition demo_worker_events : list WorkerEvent :=
  [mkWorkerEvent "tool_execution_start" 5 "go test" "bash" ∅ "" 1;
   mkWorkerEvent "message" 6 "done" "" ∅ "" 2].

Definition world_deps (worker : result (Worker World)) : Dependencies World :=
  mkDeps (Config.mkOptions "" "" "") (mkRegOptions false) [] [] None (Some world_sink) []
    (mkTokenBudget 0) (mkProjectContext "") "owner" None (Some (fun _ _ w => (w, worker))).

Definition demo_request (event : string) (payload : object) : Request :=
  mkRequest Version "req-1" ProviderClaude event "/p" "/p" "s1" 0 ∅ payload.
Definition run_request (checks : list string) : Request :=
  demo_request EventOnRun
    (<["goal" := VString "fix the build"]> {["checks" := VSlice (map VString checks)]}).

Definition good_worker : Worker World :=
  world_worker demo_worker_events (mkWorkerResult 0 true "") None.
