(* ===== verification/Observe.v ===== *)
(** * Watching the sink

    The interface [Observed]: a ledger that watches what a sink is given, in a
    world where nothing else touches the ledger. The lemmas follow the helpers
    of the orchestrator that record events, and say which of its operations leave
    the ledger alone. *)

From S2P Require Import State.
From S2P Require Import Prelude GoStrings GoValue GoTime GoPath GoFS Protocol Config Adapter.
From S2P Require Import Storage Host Orchestrator Checks Run DemoWorld.

(** A sink that is watched by a ledger, in a world where nothing else touches
    the ledger. The sink may answer with any error. *)
Section observed.
Context {W : Type} `{Clock W} `{Exec W} `{Files W} `{StateFiles W} `{Entropy W} `{Cancellation W}.
Context `{UnicodeTables} `{YAML}.

(** [f] leaves what [get] reads of the world alone. *)
Definition quiet {T A} (get : W -> T) (f : W -> W * A) : Prop :=
  forall w, get (f w).1 = get w.

Record quiet_worker (ledger : W -> list (context * Event)) (worker : Worker W) : Prop := {
  qw_spawn : forall ctx spec, quiet ledger (Spawn worker ctx spec);
  qw_receive : quiet ledger (Receive worker);
  qw_wait : forall ctx, quiet ledger (Wait worker ctx)
}.

Class Observed (deps : Dependencies W) (sink : Sink W) (ledger : W -> list (context * Event)) : Prop := {
  obs_sink : dep_StorageSink deps = Some sink;
  obs_record : forall ctx e w, ledger (RecordEvent sink ctx e w).1 = ledger w ++ [(ctx, e)];
  obs_clock : quiet ledger time_Now;
  obs_now : forall f, dep_Now deps = Some f -> quiet ledger f;
  obs_rand : forall n, quiet ledger (rand_Read n);
  obs_env : quiet ledger write_env;
  obs_fs : forall fs w, ledger (set_state_fs fs w) = ledger w;
  obs_exec : forall ctx argv dir, quiet ledger (cmd_Output ctx argv dir);
  obs_cancel : forall ctx w, ledger (cancel ctx w) = ledger w;
  obs_factory : forall f ctx cfg w, dep_WorkerFactory deps = Some f ->
    ledger (f ctx cfg w).1 = ledger w /\
    forall worker, (f ctx cfg w).2 = Ok worker -> quiet_worker ledger worker
}.

(** The state store's files are touched by the state store only. *)
Class StateApart (deps : Dependencies W) : Prop := {
  sa_set : forall fs w, state_fs (set_state_fs fs w) = fs;
  sa_clock : quiet state_fs time_Now;
  sa_now : forall f, dep_Now deps = Some f -> quiet state_fs f;
  sa_env : quiet state_fs write_env;
  sa_sink : forall sink ctx e, dep_StorageSink deps = Some sink -> quiet state_fs (RecordEvent sink ctx e)
}.

(** [e] is [ev] as the sink gets it: completed from the request, with a time. *)
Definition recorded (req : Request) (deps : Dependencies W) (ctx : context) (ev : Event)
    (seen : context * Event) : Prop :=
  seen.1 = ctx /\ exists t,
    seen.2 = if IsZero (ev_Timestamp ev) then set_timestamp t (fill_event req deps ev)
             else fill_event req deps ev.

(** The event types of the program are their own normal form. *)
Definition typed (ev : Event) : Prop :=
  ev_Type ev <> "" /\ normalizeType (ev_Type ev) = ev_Type ev.

Context {deps : Dependencies W} {sink : Sink W} {ledger : W -> list (context * Event)}.
Context {Hobs : Observed deps sink ledger}.

Lemma now_quiet : quiet ledger (now deps).
Proof.
  intros w. unfold now. destruct (dep_Now deps) as [f|] eqn:E; [by apply (obs_now f) | apply obs_clock].
Qed.

Lemma set_type_id e : normalizeType (ev_Type e) = ev_Type e ->
  set_type (normalizeType (ev_Type e)) e = e.
Proof. intros ->. by destruct e. Qed.

Lemma Record_seen now newid ctx e w :
  typed e -> (forall f, now = Some f -> quiet ledger f) -> newid = None ->
  exists t, ledger (Record_ (mkRecorder (Some sink) now newid) ctx e w).1 =
    ledger w ++ [(ctx, if IsZero (ev_Timestamp e) then set_timestamp t e else e)].
Proof.
  intros [Hne Hn] Hnow ->. unfold Record_. cbn [rec_Sink rec_NewID]. rewrite set_type_id by done.
  apply eqb_false in Hne. rewrite Hne.
  destruct (IsZero (ev_Timestamp e)).
  - assert (ledger (recorder_now (mkRecorder (Some sink) now None) w).1 = ledger w) as Hq.
    { unfold recorder_now. cbn. destruct now as [f|]; [by apply (Hnow f) | apply obs_clock]. }
    destruct (recorder_now _ w) as [w1 t]. cbn in Hq. exists t. by rewrite obs_record, Hq.
  - exists 0%Z. by rewrite obs_record.
Qed.

Lemma typed_fill req ev : typed ev -> typed (fill_event req deps ev).
Proof. done. Qed.

Lemma recordStorageEvent_seen ctx req ev w :
  typed ev -> exists seen, recorded req deps ctx ev seen /\
    ledger (recordStorageEvent ctx req deps ev w).1 = ledger w ++ [seen].
Proof.
  intros Ht. unfold recordStorageEvent. rewrite obs_sink.
  set (e := fill_event req deps ev). change (ev_Timestamp e) with (ev_Timestamp ev).
  assert (typed e) as Hte by done. unfold recorded. fold e.
  destruct (IsZero (ev_Timestamp ev)) eqn:Ez.
  - pose proof (now_quiet w) as Hq. destruct (now deps w) as [w1 t]. cbn in Hq.
    assert (typed (set_timestamp t e)) as Ht1 by done.
    destruct (Record_seen (dep_Now deps) None ctx (set_timestamp t e) w1 Ht1 obs_now eq_refl)
      as [t' Hl].
    setoid_rewrite Hl. setoid_rewrite Hq. cbn [ev_Timestamp set_timestamp].
    destruct (IsZero t); (eexists (_, _); split; [split; [reflexivity|]; cbn; eexists; reflexivity
      | reflexivity]).
  - destruct (Record_seen (dep_Now deps) None ctx e w Hte obs_now eq_refl) as [t' Hl].
    change (ev_Timestamp e) with (ev_Timestamp ev) in Hl. rewrite Ez in Hl. setoid_rewrite Hl.
    exists (ctx, e). split; [split; [done | by exists 0%Z] | done].
Qed.

Lemma emit_seen ctx req ev s :
  typed ev -> exists seen, recorded req deps ctx ev seen /\
    ledger (emit ctx req deps ev s).1 = ledger s.1 ++ [seen].
Proof.
  intros Ht. destruct s as [w ws].
  destruct (recordStorageEvent_seen ctx req ev w Ht) as (x & Hx & Hl).
  exists x. split; [done|]. unfold emit. by destruct (recordStorageEvent _ _ _ _ _).
Qed.

Lemma emits_seen ctx req evs s :
  Forall typed evs -> exists seen, Forall2 (recorded req deps ctx) evs seen /\
    ledger (emits ctx req deps evs s).1 = ledger s.1 ++ seen.
Proof.
  intros Ht. revert s. induction Ht as [|ev evs Hev _ IH]; intros s.
  { exists []. rewrite app_nil_r. by split. }
  destruct (emit_seen ctx req ev s Hev) as (x & Hx & Hl).
  destruct (IH (emit ctx req deps ev s)) as (xs & Hxs & Hls).
  exists (x :: xs). split; [by constructor|]. unfold emits in *. cbn [foldl].
  by rewrite Hls, Hl, <- app_assoc.
Qed.

Lemma store_Transition_quiet store sid input :
  quiet ledger (store_Transition store sid input).
Proof.
  intros w. unfold store_Transition.
  assert (ledger (if IsZero (State.ti_Now input) then time_Now w else (w, time_zero)).1 = ledger w)
    as Hq by (destruct (IsZero _); [apply obs_clock | done]).
  destruct (if IsZero _ then _ else _) as [w1 wall]. cbn in Hq.
  pose proof (obs_env w1) as He. destruct (write_env w1) as [w2 env]. cbn in He.
  destruct (State.Transition _ _ _ _ _ _) as [[fs s] r]. cbn. rewrite obs_fs. congruence.
Qed.

Lemma run_transition_quiet store req sid to cx label s :
  ledger (run_transition store deps req sid to cx label s).1 = ledger s.1.
Proof.
  unfold run_transition. destruct store as [store|]; [|done]. destruct s as [w ws].
  pose proof (now_quiet w) as Hn. destruct (now deps w) as [w1 t].
  pose proof (store_Transition_quiet store sid
    (State.mkInput to cx (dep_OwnerID deps) (req_RequestID req) "" None None t) w1) as Hq.
  destruct (store_Transition _ _ _ _) as [w2 r]. cbn in *. congruence.
Qed.

Lemma generateID_quiet prefix : quiet ledger (generateID prefix).
Proof.
  intros w. unfold generateID. pose proof (obs_rand 12 w) as Hq.
  destruct (rand_Read 12 w) as [w1 [b|]]; done.
Qed.

(** ** The files of the state store *)

Context {Hsa : StateApart deps}.

Lemma now_files : quiet state_fs (now deps).
Proof.
  intros w. unfold now. destruct (dep_Now deps) as [f|] eqn:E; [by apply (sa_now f) | apply sa_clock].
Qed.

Lemma recordStorageEvent_files ctx req ev : quiet state_fs (recordStorageEvent ctx req deps ev).
Proof.
  intros w. unfold recordStorageEvent. destruct (dep_StorageSink deps) as [sk|] eqn:Es; [|done].
  assert (forall e w, state_fs (Record_ (mkRecorder (Some sk) (dep_Now deps) None) ctx e w).1
    = state_fs w) as Hrec.
  { intros e w0. unfold Record_. cbn [rec_Sink rec_NewID].
    destruct (_ =s ""); [done|]. destruct (IsZero _).
    - pose proof (now_files w0) as Hq. change (recorder_now _ w0) with (now deps w0).
      destruct (now deps w0) as [w1 t]. cbn in Hq. rewrite <- Hq. by apply sa_sink.
    - by apply sa_sink. }
  destruct (IsZero _); [|apply Hrec]. pose proof (now_files w) as Hq.
  destruct (now deps w) as [w1 t]. cbn in Hq. by rewrite Hrec.
Qed.

(** [store.Transition] as the handlers call it, on the session's file. *)
Lemma store_Transition_effect store sid input w w' r :
  plain sid -> store_Transition store sid input w = (w', r) ->
  match r with
  | Ok next =>
      State.sr_Lifecycle next = State.ti_To input /\
      (exists current, State.current_record (state_fs w) store sid = Ok current /\
         State.lstep (State.sr_Lifecycle current) (State.ti_To input)) /\
      State.Read (state_fs w') store sid = Ok (State.json_record next)
  | Err _ => ReadFile (state_fs w') (State.sessionPath store sid)
             = ReadFile (state_fs w) (State.sessionPath store sid)
  end.
Proof.
  intros Hp. unfold store_Transition.
  assert (state_fs (if IsZero (State.ti_Now input) then time_Now w else (w, time_zero)).1 = state_fs w)
    as Hq by (destruct (IsZero _); [apply sa_clock | done]).
  destruct (if IsZero _ then _ else _) as [w1 wall]. cbn in Hq.
  pose proof (sa_env w1) as He. destruct (write_env w1) as [w2 env]. cbn in He.
  destruct (State.Transition _ _ _ _ _ _) as [[fs s] r1] eqn:E. intros [= <- <-].
  apply State.Transition_effect in E as [_ E]; [|done]. rewrite sa_set. rewrite He, Hq in E.
  destruct r1 as [next|]; [|done]. destruct E as ((cur & Hcur & Hstep & ->) & Hread).
  split_and!; [done | by exists cur | done].
Qed.
End observed.

(** ** The concrete world *)

#[local] Existing Instances world_clock world_exec world_files world_state world_entropy world_cancel
  plain_tables demo_yaml.

Lemma world_worker_quiet evts result err : quiet_worker w_seen (world_worker evts result err).
Proof.
  constructor; [intros ctx spec w | intros w | intros ctx w]; cbn; try done; repeat case_match; done.
Qed.

Lemma world_observed worker :
  match worker with Ok wk => quiet_worker w_seen wk | Err _ => True end ->
  Observed (world_deps worker) world_sink w_seen.
Proof.
  intros Hw. constructor; try done. cbn. intros f ctx cfg w [= <-]. split; [done|].
  cbn. by intros wk ->.
Qed.

Lemma world_apart worker : StateApart (world_deps worker).
Proof. constructor; try done. by intros sink ctx e [= <-]. Qed.
