(* ===== verification/RunTrace.v ===== *)
(** * The events of a run

    What [handleRun] of [Run.v] records, whatever the sink answers: the theorems
    say what a ledger that watches the sink ([Observe.v]) has seen when a run
    returns. *)

From S2P Require Import State.
From S2P Require Import Prelude GoStrings GoValue GoTime Protocol Config Adapter Storage Host.
From S2P Require Import Orchestrator Checks Run DemoWorld Observe.

Section observed.
Context {W : Type} `{Clock W} `{Exec W} `{Files W} `{StateFiles W} `{Entropy W} `{Cancellation W}.
Context `{UnicodeTables} `{YAML}.
Context (deps : Dependencies W) (sink : Sink W) (ledger : W -> list (context * Event)).
Context {Hobs : Observed deps sink ledger}.

(** ** Verification *)

Lemma runCheck_quiet ctx check : quiet ledger (runCheck ctx check ExecRunner).
Proof.
  intros w. unfold runCheck. pose proof (obs_clock w) as Hc. destruct (time_Now w) as [w1 st]. cbn in Hc.
  destruct (check_kind check =s EvidenceCommand).
  { destruct (_ && _); [done|]. cbn [Run ExecRunner]. unfold ExecRunner_Run.
    pose proof (obs_clock w1) as Hc1. destruct (time_Now w1) as [w2 start]. cbn in Hc1.
    destruct (command_argv check) as [|a argv]; [cbn; congruence|].
    match goal with |- context [cmd_Output ?c ?v ?d w2] =>
      pose proof (obs_exec c v d w2) as He; destruct (cmd_Output c v d w2) as [w3 [out oc]] end.
    pose proof (obs_clock w3) as Hc3. destruct (time_Now w3) as [w4 fin]. cbn in *.
    destruct oc; cbn; congruence. }
  destruct (check_kind check =s EvidenceManual).
  { destruct (_ =s _); [done|]. pose proof (obs_clock w1). destruct (time_Now w1). cbn in *. congruence. }
  destruct (check_kind check =s EvidenceArtifact); [|done].
  case_bool_decide; [done|]. pose proof (obs_clock w1). destruct (time_Now w1). cbn in *. congruence.
Qed.

Lemma run_checks_quiet ctx checks acc : quiet ledger (run_checks ctx checks ExecRunner acc).
Proof.
  revert acc. induction checks as [|c rest IH]; intros acc w; cbn [run_checks]; [done|].
  pose proof (runCheck_quiet ctx c w) as Hq. destruct (runCheck _ _ _ _) as [w1 [e|]]; [|done].
  rewrite IH. done.
Qed.

Definition verification_type (e : Event) : Prop :=
  ev_Type e ∈ [EventVerificationPassed; EventVerificationFailed; EventEvidenceCreated].

(** [x] is [e] as a recorder without ids hands it on. *)
Definition handed (ctx : context) (e : Event) (x : context * Event) : Prop :=
  x.1 = ctx /\ exists t, x.2 = if IsZero (ev_Timestamp e) then set_timestamp t e else e.

Lemma handed_work ctx e x : handed ctx e x -> ev_WorkID x.2 = ev_WorkID e.
Proof. intros (_ & t & ->). by destruct (IsZero _). Qed.

Lemma handed_type ctx e x : handed ctx e x -> ev_Type x.2 = ev_Type e.
Proof. intros (_ & t & ->). by destruct (IsZero _). Qed.

Lemma record_all_seen now ctx evs w :
  (forall f, now = Some f -> quiet ledger f) -> Forall typed evs ->
  exists n seen, ledger (record_all (mkRecorder (Some sink) now None) ctx evs w).1 = ledger w ++ seen /\
    Forall2 (handed ctx) (take n evs) seen /\ (evs <> [] -> n <> 0).
Proof.
  intros Hnow Ht. revert w. induction Ht as [|e evs Hte _ IH]; intros w; cbn [record_all].
  { exists 0, []. by rewrite app_nil_r. }
  destruct (Record_seen now None ctx e w Hte Hnow eq_refl) as [t Hl].
  set (x := if IsZero (ev_Timestamp e) then set_timestamp t e else e) in Hl.
  assert (handed ctx e (ctx, x)) as Hx by (split; [done|by exists t]).
  destruct (Record_ _ _ _ _) as [w1 [err|]]; cbn in Hl.
  - exists 1, [(ctx, x)]. split; [exact Hl|]. split; [|done].
    cbn [take]. rewrite take_0. by constructor.
  - destruct (IH w1) as (n & seen & Hs & Hall & _). exists (S n), ((ctx, x) :: seen). split.
    + rewrite Hs, Hl, <- app_assoc. reflexivity.
    + split; [by constructor|done].
Qed.

(** What the store is given by a verification that has gathered evidence: the
    verification's own event, under the ids of the run, and then its evidence.
    Without evidence (an error in place of a result) it has not passed. *)
Definition verified_events (runID workID : string) (vr : option VerificationResult)
    (seen : list (context * Event)) : Prop :=
  match vr with
  | None => seen = []
  | Some r =>
      (vr_Evidence r <> [] -> exists x rest o t,
         seen = x :: rest /\ x.2 = set_timestamp t (verification_storage_event (W := W) r o) /\
         vo_RunID o = runID /\ vo_WorkID o = workID /\
         Forall (fun y => ev_Type y.2 = EventEvidenceCreated) rest) /\
      (vr_Evidence r = [] -> vr_Passed r = false) /\
      Forall (fun y => ev_WorkID y.2 = workID) seen
  end.

Lemma RunPlan_seen ctx plan o w :
  vo_Runner o = None -> vo_StorageSink o = Some sink -> (forall f, vo_Now o = Some f -> quiet ledger f) ->
  exists seen, ledger (RunPlan ctx plan o w).1 = ledger w ++ seen /\
    Forall (fun '(c, e) => c = ctx /\ verification_type e) seen /\
    Forall (fun y => ev_WorkID y.2 = vo_WorkID o) seen /\
    forall r, (RunPlan ctx plan o w).2 = Ok r ->
      verified_events (vo_RunID o) (vo_WorkID o) (Some r) seen.
Proof.
  intros Hr Hs Hnow. unfold RunPlan. rewrite Hr.
  destruct (pl_Checks plan) as [|c cs].
  { exists []. rewrite app_nil_r. split_and!; [done..|]. intros r [= <-]. by split. }
  pose proof (run_checks_quiet ctx (c :: cs) (mkResult true [] "") w) as Hq.
  destruct (run_checks _ _ _ _ _) as [w1 [r1|]]; cbn in Hq; [|exists []; by rewrite app_nil_r].
  destruct (vr_Evidence r1) as [|e1 es1].
  { exists []. rewrite app_nil_r. split_and!; [done..|]. intros r [= <-]. by split. }
  set (r2 := mkResult _ _ _). unfold recordVerificationStorage. rewrite Hs.
  assert (Forall typed (verification_events r2 o)) as Ht.
  { unfold verification_events. constructor; [split; cbn; by destruct (vr_Passed r1)|].
    apply Forall_forall. intros e He. apply list_elem_of_fmap in He as (x & -> & _). done. }
  destruct (record_all_seen (vo_Now o) ctx (verification_events r2 o) w1 Hnow Ht)
    as (n & seen & Hl & Hall & Hn). unfold verification_events in Hall, Hn.
  destruct n as [|n]; [by destruct Hn|]. cbn [take] in Hall.
  apply Forall2_cons_inv_l in Hall as (x & rest & Hx & Hrest & ->).
  assert (Forall (fun y => ev_WorkID y.2 = vo_WorkID o) (x :: rest)) as Hwork.
  { constructor; [by rewrite (handed_work _ _ _ Hx)|]. eapply Forall2_Forall_r; [exact Hrest|].
    apply Forall_take, Forall_forall. intros e He y Hy. rewrite (handed_work _ _ _ Hy).
    by apply list_elem_of_fmap in He as (? & -> & _). }
  assert (Forall (fun y => y.1 = ctx /\ ev_Type y.2 = EventEvidenceCreated) rest) as Hev.
  { eapply Forall2_Forall_r; [exact Hrest|]. apply Forall_take, Forall_forall.
    intros e He y Hy. split; [apply Hy|]. rewrite (handed_type _ _ _ Hy).
    by apply list_elem_of_fmap in He as (? & -> & _). }
  exists (x :: rest). split_and!; [| |exact Hwork|].
  - rewrite <- Hq, <- Hl. destruct (record_all _ _ _ _) as [w2 [err|]]; done.
  - constructor.
    + destruct x as [c0 e0]. split; [apply Hx|]. unfold verification_type.
      rewrite (handed_type _ _ _ Hx : ev_Type e0 = _). cbn. destruct (vr_Passed r1); in_list.
    + eapply Forall_impl; [exact Hev|]. intros [c0 e0] [H1' H2']. cbn in *. split; [done|].
      unfold verification_type. rewrite H2'. in_list.
  - intros r Hok. destruct (record_all _ _ _ _) as [w2 [err|]]; [done|]. cbn in Hok. injection Hok as <-.
    split_and!; [|done|exact Hwork]. intros _. destruct Hx as (_ & t & Hx). exists x, rest, o, t. split_and!; try done.
    eapply Forall_impl; [exact Hev|]. by intros y [_ ?].
Qed.

Lemma run_verification_seen ctx req p ok s :
  exists seen, ledger (run_verification ctx req deps p ok s).1.1 = ledger s.1 ++ seen /\
    Forall (fun '(c, e) => c = term_ctx ctx /\ verification_type e) seen /\
    (ok = false -> seen = []) /\
    verified_events (pr_RunID p) (pr_WorkID p) (run_verification ctx req deps p ok s).2 seen.
Proof.
  unfold run_verification. destruct ok; [|exists []; by rewrite app_nil_r].
  destruct (elems _) as [|c cs]; [exists []; by rewrite app_nil_r|].
  destruct s as [w ws]. pose proof (generateID_quiet "verification" w) as Hq.
  destruct (generateID _ w) as [w1 vid]. cbn in Hq.
  destruct (RunPlan_seen (term_ctx ctx) (buildVerificationPlan (c :: cs) (req_CWD req))
    (verify_options req deps p vid) w1) as (seen & Hl & Hall & Hwork & Hv);
    [done | apply obs_sink | apply obs_now |].
  exists seen. destruct (RunPlan _ _ _ _) as [w2 [vr|]]; cbn in *; rewrite <- Hq; split_and!; try done;
    by apply Hv.
Qed.

(** With a sink that takes every event a verification always has evidence. *)
Lemma run_verification_evidence ctx req p ok s r :
  (forall ctx e w, (RecordEvent sink ctx e w).2 = None) ->
  (run_verification ctx req deps p ok s).2 = Some r -> vr_Evidence r <> [].
Proof.
  intros Hsink. unfold run_verification. destruct ok; [|done].
  destruct (elems _) as [|c cs]; [done|]. destruct s as [w ws]. destruct (generateID _ w) as [w1 vid].
  set (plan := buildVerificationPlan _ _). set (o := verify_options _ _ _ _).
  assert (is_ok (RunPlan (term_ctx ctx) plan o w1).2 = true) as Hok.
  { apply RunPlan_total.
    - intros sink'. rewrite (obs_sink : vo_StorageSink o = Some sink). by intros [= <-].
    - eapply Forall_impl; [apply build_checks_well_formed|]. by intros ? [? _]. }
  destruct (RunPlan _ _ _ _) as [w2 [vr|err]] eqn:E; [|done]. intros [= <-].
  apply RunPlan_evidence in E as [Hall _]; [|done]. by inversion Hall.
Qed.

(** ** The phases *)

Lemma worker_event_typed evt r w s : typed (workerEventToStorage evt r w s).
Proof.
  unfold workerEventToStorage, typed. destruct (_ =s "tool_execution_start"); [done|].
  destruct (_ =s "tool_execution_end"); done.
Qed.

Lemma drain_seen fuel ctx req (p : prepared W) n s s' n' :
  quiet_worker ledger (pr_Worker p) ->
  drain fuel ctx req deps p n s = Some (s', n') ->
  exists evts seen, n' = (n + Z.of_nat (length evts))%Z /\
    Forall2 (recorded req deps ctx)
      (map (fun e => workerEventToStorage e (pr_RunID p) (pr_WorkID p) (pr_SessionID p)) evts) seen /\
    ledger s'.1 = ledger s.1 ++ seen.
Proof.
  intros Hq. revert n s. induction fuel as [|fuel IH]; intros n [w ws]; cbn [drain]; [done|].
  pose proof (qw_receive _ _ Hq w) as Hr. destruct (Receive (pr_Worker p) w) as [w1 [evt|]]; cbn in Hr.
  - intros E. apply IH in E as (evts & seen & -> & Hall & Hl).
    destruct (emit_seen ctx req (workerEventToStorage evt (pr_RunID p) (pr_WorkID p) (pr_SessionID p))
      (w1, ws) (worker_event_typed _ _ _ _)) as (x & Hx & Hlx).
    exists (evt :: evts), (x :: seen). split; [cbn [length]; lia|]. split; [by constructor|].
    rewrite Hl, Hlx. cbn. by rewrite Hr, <- app_assoc.
  - intros [= <- <-]. exists [], []. split; [cbn; lia|]. split; [constructor|].
    rewrite app_nil_r. done.
Qed.

Lemma work_event_typed p ok : typed (work_event (W := W) p ok).
Proof. by destruct ok. Qed.

Lemma final_events_typed (p : prepared W) o : Forall typed (final_events p o).
Proof.
  unfold final_events. repeat (constructor; [done|]). destruct (out_Success o); [constructor|].
  destruct (diagnosis _ _ _ _). by repeat constructor.
Qed.

(** What a committed run has recorded when it returns. *)
Record run_trace (ctx : context) (req : Request) (p : prepared W) (o : run_outcome)
    (seen : list (context * Event)) : Prop := {
  rt_parts : exists evts streamed work verified final,
    seen = streamed ++ [work] ++ verified ++ final /\
    Forall2 (recorded req deps ctx)
      (map (fun e => workerEventToStorage e (pr_RunID p) (pr_WorkID p) (pr_SessionID p)) evts)
      streamed /\
    out_WorkerEventCount o = Z.of_nat (length evts) /\
    recorded req deps (term_ctx ctx) (work_event p (out_WorkerSuccess o)) work /\
    Forall (fun '(c, e) => c = term_ctx ctx /\ verification_type e) verified /\
    (out_WorkerSuccess o = false -> verified = []) /\
    verified_events (pr_RunID p) (pr_WorkID p) (out_VerifyResult o) verified /\
    Forall2 (recorded req deps (term_ctx ctx)) (final_events p o) final
}.

Lemma runWithWorker_seen fuel ctx req (p : prepared W) s s' o :
  quiet_worker ledger (pr_Worker p) ->
  runWithWorker fuel ctx req deps p s = Some (s', o) ->
  exists seen, ledger s'.1 = ledger s.1 ++ seen /\ run_trace ctx req p o seen.
Proof.
  intros Hq. unfold runWithWorker.
  destruct (drain fuel ctx req deps p 0 s) as [[[w ws] count]|] eqn:Ed; [|done]. cbn [mbind option_bind].
  apply drain_seen in Ed as (evts & streamed & Hn & Hall & Hl); [|done]. cbn [fst] in Hl.
  pose proof (qw_wait _ _ Hq ctx w) as Hw.
  destruct (Wait (pr_Worker p) ctx w) as [w1 [result waitErr]]. cbn in Hw.
  set (ok := match waitErr with None => wr_Success result | Some _ => false end).
  destruct (emit_seen (term_ctx ctx) req (work_event p ok) (w1, ws) (work_event_typed p ok))
    as (work & Hwork & Hl1).
  set (s1 := emit _ _ _ _ _) in *.
  destruct (run_verification_seen ctx req p ok s1) as (verified & Hl2 & Hver & Hno & Hpass).
  destruct (run_verification ctx req deps p ok s1) as [s2 vr]. cbn [fst] in Hl2.
  set (lc := if verdict ok vr then _ else _).
  pose proof (run_transition_quiet (pr_StateStore p) req (pr_SessionID p) lc "run_terminate"
    "terminal" s2) as Hl3.
  set (s3 := run_transition _ _ _ _ _ _ _ _) in *.
  set (out := mkOutcome _ _ _ _ _ _ _).
  destruct (emits_seen (term_ctx ctx) req (final_events p out) s3 (final_events_typed p out))
    as (final & Hfin & Hl4).
  destruct (emits _ _ _ _ s3) as [w4 ws4]. cbn in Hl4. intros [= <- <-]. cbn [fst].
  exists (streamed ++ [work] ++ verified ++ final). split.
  - rewrite !obs_cancel, Hl4, Hl3, Hl2, Hl1. cbn [fst]. rewrite Hw, Hl. by rewrite <- !app_assoc.
  - constructor. exists evts, streamed, work, verified, final. cbn. by split_and!.
Qed.

(** What preparing a run has recorded when it commits. *)
Definition start_events (runID workID sessionID goal kind : string) : list Event :=
  [ev_run_created runID goal; ev_work_created runID workID goal;
   ev_agent_spawned runID workID sessionID kind].
Definition executing_events (runID workID sessionID : string) : list Event :=
  [ev_status_executing runID sessionID; ev_work_started runID workID].

Lemma start_typed r w s g k : Forall typed (start_events r w s g k).
Proof. by repeat constructor. Qed.
Lemma executing_typed r w s : Forall typed (executing_events r w s).
Proof. by repeat constructor. Qed.
Lemma failure_typed r w s ty re : Forall typed (failure_events r w s ty re).
Proof.
  unfold failure_events. destruct (w <>s ""), (s <>s ""); by repeat constructor.
Qed.

(** The events of a bail-out: the failed agent, then the failure events. *)
Lemma bail_events_seen ctx req runID workID sessionID err reason s :
  exists seen,
    Forall2 (fun ev x => exists c, recorded req deps c ev x)
      (ev_agent_failed runID sessionID err
       :: failure_events runID workID sessionID "tool_failure" reason) seen /\
    ledger (recordRunFailure ctx req deps runID workID sessionID "tool_failure" reason
      (emit ctx req deps (ev_agent_failed runID sessionID err) s)).1 = ledger s.1 ++ seen.
Proof.
  destruct (emit_seen ctx req (ev_agent_failed runID sessionID err) s) as (x & Hx & L1); [done|].
  set (s1 := emit _ _ _ _ _) in *.
  destruct (emits_seen (term_ctx ctx) req (failure_events runID workID sessionID "tool_failure" reason)
    s1 (failure_typed _ _ _ _ _)) as (seen & Hs & L2).
  exists (x :: seen). split.
  - constructor; [eauto|]. eapply Forall2_impl; [exact Hs|]. eauto.
  - unfold recordRunFailure. destruct (emits _ _ _ _ s1) as [w2 ws2]. cbn [fst] in *.
    rewrite obs_cancel, L2, L1. by rewrite <- app_assoc.
Qed.

Lemma preWorker_committed ctx req s s' p :
  preWorker ctx req deps s = (s', inr p) ->
  quiet_worker ledger (pr_Worker p) /\
  exists seen, ledger s'.1 = ledger s.1 ++ seen /\
    Forall2 (recorded req deps ctx)
      (start_events (pr_RunID p) (pr_WorkID p) (pr_SessionID p) (pr_Goal p) (wc_Kind (pr_WorkerCfg p))
       ++ executing_events (pr_RunID p) (pr_WorkID p) (pr_SessionID p)) seen.
Proof.
  unfold preWorker. destruct (TrimSpace _ =s ""); [done|].
  destruct (dep_WorkerFactory deps) as [factory|] eqn:Ef; [|done].
  destruct s as [w ws]. destruct (Load _ _) as [cfg|]; [|done].
  pose proof (generateID_quiet "run" w) as Q1. destruct (generateID "run" w) as [w1 runID].
  pose proof (generateID_quiet "session" w1) as Q2. destruct (generateID "session" w1) as [w2 sessionID].
  pose proof (generateID_quiet "work" w2) as Q3. destruct (generateID "work" w2) as [w3 workID].
  cbn [fst] in Q1, Q2, Q3.
  destruct (emits_seen ctx req (start_events runID workID sessionID (pv req "goal")
    (wc_Kind (worker_config cfg))) (w3, ws) (start_typed _ _ _ _ _)) as (seen1 & Hs1 & L1).
  unfold start_events in L1. destruct (emits ctx req deps _ (w3, ws)) as [w4 ws4]. cbn [fst] in L1.
  destruct (obs_factory factory ctx (worker_config cfg) w4 Ef) as [Q5 Hqw].
  destruct (factory ctx _ w4) as [w5 [worker|]]; [|done]. cbn [fst snd] in Q5, Hqw.
  set (store := match dep_StateStore deps with Some _ => _ | None => _ end).
  pose proof (run_transition_quiet store req sessionID State.LifecycleRunning "run_execute" "running"
    (w5, ws4)) as Q6.
  set (s6 := run_transition _ _ _ _ _ _ _ _) in *. cbn [fst] in Q6.
  destruct (emits_seen ctx req (executing_events runID workID sessionID) s6 (executing_typed _ _ _))
    as (seen2 & Hs2 & L2).
  unfold executing_events in L2. destruct (emits ctx req deps _ s6) as [w7 ws7]. cbn [fst] in L2.
  specialize (Hqw worker eq_refl).
  pose proof (qw_spawn _ _ Hqw (spawn_ctx ctx) (worker_spec req (pv req "goal")) w7) as Q8.
  destruct (Spawn worker _ _ w7) as [w8 [err|]]; [done|]. cbn [fst] in Q8.
  intros [= <- <-]. split; [exact Hqw|]. exists (seen1 ++ seen2). split.
  - cbn [fst]. rewrite Q8, L2, Q6, Q5, L1, Q3, Q2, Q1. by rewrite <- app_assoc.
  - exact (Forall2_app Hs1 Hs2).
Qed.

Lemma generateID_nonempty prefix w : prefix <> "" -> (generateID prefix w).2 <> "".
Proof.
  intros Hp. unfold generateID. destruct (rand_Read 12 w) as [w1 [b|]]; by destruct prefix.
Qed.

(** The ids of a committed run. *)
Lemma preWorker_ids ctx req s s' p :
  preWorker ctx req deps s = (s', inr p) -> pr_RunID p <> "" /\ pr_WorkID p <> "" /\ pr_SessionID p <> "".
Proof.
  unfold preWorker. destruct (TrimSpace _ =s ""); [done|].
  destruct (dep_WorkerFactory deps) as [factory|] eqn:Ef; [|done].
  destruct s as [w ws]. destruct (Load _ _) as [cfg|]; [|done].
  pose proof (generateID_nonempty "run" w) as N1. destruct (generateID "run" w) as [w1 runID].
  pose proof (generateID_nonempty "session" w1) as N2. destruct (generateID "session" w1) as [w2 sessionID].
  pose proof (generateID_nonempty "work" w2) as N3. destruct (generateID "work" w2) as [w3 workID].
  destruct (emits ctx req deps _ (w3, ws)) as [w4 ws4].
  destruct (factory ctx _ w4) as [w5 [worker|]]; [|done].
  destruct (emits ctx req deps _ _) as [w7 ws7].
  destruct (Spawn worker _ _ w7) as [w8 [err|]]; [done|]. intros [= <- <-].
  split_and!; [by apply N1|by apply N3|by apply N2].
Qed.

(** What a run that bails out has recorded. *)
Lemma preWorker_bails ctx req w s bail :
  preWorker ctx req deps (w, []) = (s, inl bail) ->
  (s = (w, []) /\ bail_class bail = ErrorInvalidConfig) \/
  bail_class bail = ErrorUnknown /\
  exists runID workID sessionID kind err reason started seen,
    runID <> "" /\ workID <> "" /\ sessionID <> "" /\
    Forall2 (fun ev x => exists c, recorded req deps c ev x)
      (start_events runID workID sessionID (pv req "goal") kind
       ++ (if started : bool then executing_events runID workID sessionID else [])
       ++ ev_agent_failed runID sessionID err
       :: failure_events runID workID sessionID "tool_failure" reason) seen /\
    ledger s.1 = ledger w ++ seen.
Proof.
  unfold preWorker. destruct (TrimSpace _ =s ""); [intros [= <- <-]; by left|].
  destruct (dep_WorkerFactory deps) as [factory|] eqn:Ef; [|intros [= <- <-]; by left].
  destruct (Load _ _) as [cfg|]; [|intros [= <- <-]; by left].
  pose proof (generateID_quiet "run" w) as Q1. pose proof (generateID_nonempty "run" w ltac:(done)) as N1.
  destruct (generateID "run" w) as [w1 runID].
  pose proof (generateID_quiet "session" w1) as Q2. pose proof (generateID_nonempty "session" w1 ltac:(done)) as N2.
  destruct (generateID "session" w1) as [w2 sessionID].
  pose proof (generateID_quiet "work" w2) as Q3. pose proof (generateID_nonempty "work" w2 ltac:(done)) as N3.
  destruct (generateID "work" w2) as [w3 workID].
  cbn [fst] in Q1, Q2, Q3. cbn [snd] in N1, N2, N3.
  destruct (emits_seen ctx req (start_events runID workID sessionID (pv req "goal")
    (wc_Kind (worker_config cfg))) (w3, []) (start_typed _ _ _ _ _)) as (seen1 & Hs1 & L1).
  unfold start_events in L1. destruct (emits ctx req deps _ (w3, [])) as [w4 ws4]. cbn [fst] in L1.
  destruct (obs_factory factory ctx (worker_config cfg) w4 Ef) as [Q5 Hqw].
  destruct (factory ctx _ w4) as [w5 [worker|err]]; cbn [fst snd] in Q5, Hqw.
  2: { intros [= <- <-]. right. split; [done|].
    destruct (bail_events_seen ctx req runID workID sessionID err ("worker factory: " +:+ Error err)
      (w5, ws4)) as (seen2 & Hs2 & L2).
    eexists runID, workID, sessionID, _, err, _, false, (seen1 ++ seen2).
    split_and!; [done..|apply Forall2_app; [|exact Hs2]; eapply Forall2_impl; [exact Hs1|]; eauto|].
    etransitivity; [exact L2|]. cbn [fst]. rewrite Q5, L1, Q3, Q2, Q1. by rewrite <- app_assoc. }
  set (store := match dep_StateStore deps with Some _ => _ | None => _ end).
  pose proof (run_transition_quiet store req sessionID State.LifecycleRunning "run_execute" "running"
    (w5, ws4)) as Q6.
  set (s6 := run_transition _ _ _ _ _ _ _ _) in *. cbn [fst] in Q6.
  destruct (emits_seen ctx req (executing_events runID workID sessionID) s6 (executing_typed _ _ _))
    as (seen2 & Hs2 & L2).
  unfold executing_events in L2. destruct (emits ctx req deps _ s6) as [w7 ws7]. cbn [fst] in L2.
  specialize (Hqw worker eq_refl).
  pose proof (qw_spawn _ _ Hqw (spawn_ctx ctx) (worker_spec req (pv req "goal")) w7) as Q8.
  destruct (Spawn worker _ _ w7) as [w8 [err|]]; [|done]. cbn [fst] in Q8.
  intros [= <- <-]. right. split; [done|].
  destruct (bail_events_seen ctx req runID workID sessionID err ("worker spawn: " +:+ Error err)
    (cancel (spawn_ctx ctx) w8, ws7)) as (seen3 & Hs3 & L3).
  eexists runID, workID, sessionID, _, err, _, true, (seen1 ++ seen2 ++ seen3). split_and!; [done..| |].
  - apply Forall2_app; [eapply Forall2_impl; [exact Hs1|]; eauto|].
    apply Forall2_app; [eapply Forall2_impl; [exact Hs2|]; eauto | exact Hs3].
  - etransitivity; [exact L3|]. cbn [fst]. rewrite obs_cancel, Q8, L2, Q6, Q5, L1, Q3, Q2, Q1. by rewrite <- !app_assoc.
Qed.

(** C10: once a run has spawned its worker it always reaches its terminal events,
    whatever the sink answers and however the worker ends: the worker's events
    in order, the end of the work item, the verification's events, the final
    run status, the stopped agent and, unless the run succeeded, its diagnosis.
    The terminal events are recorded under a context that the cancellation of
    the request does not reach. *)
Theorem run_reaches_terminal_events fuel ctx req w w' resp s p :
  preWorker ctx req deps (w, []) = (s, inr p) ->
  handleRun fuel ctx req deps w = Some (w', resp) ->
  exists o prefix seen ws,
    resp = buildRunResponse req p o ws /\
    ledger w' = ledger w ++ prefix ++ seen /\
    Forall2 (recorded req deps ctx)
      (start_events (pr_RunID p) (pr_WorkID p) (pr_SessionID p) (pr_Goal p) (wc_Kind (pr_WorkerCfg p))
       ++ executing_events (pr_RunID p) (pr_WorkID p) (pr_SessionID p)) prefix /\
    run_trace ctx req p o seen /\
    parent_cancelled true (term_ctx ctx) = false.
Proof.
  intros Hp. unfold handleRun. rewrite Hp.
  destruct s as [w0 ws0].
  intros ([[w1 ws1] o] & E & [= <- <-])%bind_Some.
  apply preWorker_committed in Hp as (Hq & prefix & Lp & Hpre).
  apply runWithWorker_seen in E as (seen & Ls & Ht); [|done]. cbn [fst] in Lp, Ls.
  exists o, prefix, seen, ws1. rewrite Ls, Lp, <- app_assoc. done.
Qed.

(** C11: a run that fails before its worker runs (a failing factory or spawn) still
    closes what it opened in the ledger: after the start events come the failed
    agent, the failed work item, the failed run, the stopped agent and the
    diagnosis, and the caller gets an error response. A missing goal, factory or
    a broken configuration records nothing at all. *)
Theorem run_bails_cleanly fuel ctx req w s bail :
  preWorker ctx req deps (w, []) = (s, inl bail) ->
  handleRun fuel ctx req deps w =
    Some (s.1, ErrorResponse (Some req) ActionWarn
      (Some (NewProtocolError (bail_class bail) (bail_msg bail) false)) (Some s.2)) /\
  ((s = (w, []) /\ bail_class bail = ErrorInvalidConfig) \/
   bail_class bail = ErrorUnknown /\
   exists runID workID sessionID kind err reason started seen,
     Forall2 (fun ev x => exists c, recorded req deps c ev x)
       (start_events runID workID sessionID (pv req "goal") kind
        ++ (if started : bool then executing_events runID workID sessionID else [])
        ++ ev_agent_failed runID sessionID err
        :: failure_events runID workID sessionID "tool_failure" reason) seen /\
     ledger s.1 = ledger w ++ seen).
Proof.
  intros Hp. split.
  { unfold handleRun. rewrite Hp. by destruct s. }
  destruct (preWorker_bails _ _ _ _ _ Hp) as [?|(? & r & wk & sn & kind & err & reason & started & seen & _ & _ & _ & ?)];
    [by left|right; split; [done|]]. by exists r, wk, sn, kind, err, reason, started, seen.
Qed.
End observed.

(** ** Witnesses *)

#[local] Existing Instances world_clock world_exec world_files world_state world_entropy world_cancel
  plain_tables demo_yaml.

(** The request's checks are declared, and the sink refuses the heartbeat. *)
Lemma run_reaches_terminal_events_witness :
  match preWorker CtxRequest (run_request ["file_exists:go.mod"]) (world_deps (Ok good_worker)) (w0, []),
        handleRun 3 CtxRequest (run_request ["file_exists:go.mod"]) (world_deps (Ok good_worker)) w0 with
  | (_, inr p), Some (w', resp) => exists o seen ws,
      resp = buildRunResponse (run_request ["file_exists:go.mod"]) p o ws /\ w_seen w' = seen
  | _, _ => False
  end.
Proof.
  destruct (preWorker _ _ _ _) as [s [b|p]] eqn:Ep; [vm_compute in Ep; discriminate Ep|].
  destruct (handleRun _ _ _ _ _) as [[w' resp]|] eqn:E; [|vm_compute in E; discriminate E].
  destruct (run_reaches_terminal_events (world_deps (Ok good_worker)) world_sink w_seen
    (Hobs := world_observed (Ok good_worker) (world_worker_quiet _ _ _)) _ _ _ _ _ _ _ _ Ep E)
    as (o & prefix & seen & ws & Hr & Hl & _).
  exists o, (prefix ++ seen), ws. split; [exact Hr | exact Hl].
Defined.

Definition broken_worker : Worker World :=
  world_worker [] (mkWorkerResult 0 true "") (Some (errorf "no such binary")).
Lemma run_bails_cleanly_witness :
  match preWorker CtxRequest (run_request []) (world_deps (Ok broken_worker)) (w0, []) with
  | (s, inl bail) => bail_class bail = ErrorUnknown /\
      exists resp, handleRun 0 CtxRequest (run_request []) (world_deps (Ok broken_worker)) w0
        = Some (s.1, resp) /\ length (w_seen s.1) = 10
  | _ => False
  end.
Proof.
  destruct (preWorker _ _ _ _) as [s [b|p]] eqn:Ep; [|vm_compute in Ep; discriminate Ep].
  destruct (run_bails_cleanly (world_deps (Ok broken_worker)) world_sink w_seen
    (Hobs := world_observed (Ok broken_worker) (world_worker_quiet _ _ _)) 0 _ _ _ _ _ Ep)
    as (Hr & _).
  assert (length (w_seen s.1) = 10) as Hn.
  { transitivity (length (w_seen (preWorker CtxRequest (run_request [])
      (world_deps (Ok broken_worker)) (w0, [])).1.1)); [by rewrite Ep | vm_compute; reflexivity]. }
  split.
  - transitivity (match (preWorker CtxRequest (run_request [])
      (world_deps (Ok broken_worker)) (w0, [])).2 with inl b => bail_class b | _ => "" end);
      [by rewrite Ep | vm_compute; reflexivity].
  - eexists. split; [exact Hr | exact Hn].
Defined.
