(* ===== verification/RunOutcome.v ===== *)
(** * The outcome of a run

    When [handleRun] of [Run.v] returns, and what decides between success and
    failure. *)

From S2P Require Import State.
From S2P Require Import Prelude GoStrings GoValue GoTime GoPath Protocol Config Adapter Storage.
From S2P Require Import Host Orchestrator Checks Run DemoWorld.

Section outcome.
Context {W : Type} `{Clock W} `{Exec W} `{Files W} `{StateFiles W} `{Entropy W} `{Cancellation W}.
Context `{UnicodeTables} `{YAML}.
Implicit Types (deps : Dependencies W) (w : W).

(** ** Termination *)

Lemma drain_more fuel ctx req deps (p : prepared W) n s r extra :
  drain fuel ctx req deps p n s = Some r -> drain (fuel + extra) ctx req deps p n s = Some r.
Proof.
  revert n s. induction fuel as [|fuel IH]; intros n [w ws]; cbn [drain Nat.add]; [done|].
  destruct (Receive (pr_Worker p) w) as [w1 [evt|]]; [apply IH | done].
Qed.

(** What recording an event may do to the world. *)
Definition recording_steps ctx req deps (step : W -> W -> Prop) : Prop :=
  forall ev w ws, step w (emit ctx req deps ev (w, ws)).1.

Lemma drain_closes ctx req deps (p : prepared W) step k n s :
  recording_steps ctx req deps step ->
  closes_within (pr_Worker p) step k s.1 -> is_Some (drain k ctx req deps p n s).
Proof.
  intros Hstep. revert n s. induction k as [|k IH]; intros n [w ws]; cbn [drain closes_within]; [done|].
  cbn [fst]. destruct (Receive (pr_Worker p) w) as [w1 [evt|]]; cbn [fst snd]; [|eauto].
  intros Hc. apply IH. apply Hc, Hstep.
Qed.

(** The response of a run that drained its worker. *)
Lemma runWithWorker_drained fuel ctx req deps (p : prepared W) s r :
  drain fuel ctx req deps p 0 s = Some r ->
  exists res, forall extra, runWithWorker (fuel + extra) ctx req deps p s = Some res.
Proof.
  intros E. assert (is_Some (runWithWorker fuel ctx req deps p s)) as [res Hres].
  { unfold runWithWorker. rewrite E. destruct r as [[w ws] n]. cbn [mbind option_bind].
    destruct (Wait (pr_Worker p) ctx w) as [w1 [result err]].
    destruct (run_verification _ _ _ _ _ _) as [s2 vr].
    destruct (emits _ _ _ _ _) as [w4 ws4]. eauto. }
  exists res. intros extra. revert Hres. unfold runWithWorker.
  by rewrite (drain_more _ _ _ _ _ _ _ _ extra E), E.
Qed.

(** C13: a run whose worker closes its event stream returns: if the stream ends
    after at most [n] receives, whatever recording an event does to the world in
    between, then [n] steps of draining are enough, more make no difference, and
    the run ends in one world with one response. Every other loop of a run is
    bounded by its input. *)
Theorem handleRun_returns n ctx req deps step w :
  recording_steps ctx req deps step ->
  (forall s p, preWorker ctx req deps (w, []) = (s, inr p) -> closes_within (pr_Worker p) step n s.1) ->
  exists w' resp, forall fuel, n <= fuel -> handleRun fuel ctx req deps w = Some (w', resp).
Proof.
  intros Hstep Hclose. unfold handleRun.
  destruct (preWorker ctx req deps (w, [])) as [s [bail|p]] eqn:E.
  { destruct s as [w1 ws]. eauto. }
  destruct (drain_closes ctx req deps p step n 0 s Hstep (Hclose s p eq_refl)) as [r Hr].
  apply runWithWorker_drained in Hr as ([[w1 ws1] o] & Hr).
  destruct s as [w2 ws2]. exists w1, (buildRunResponse req p o ws1). intros fuel Hn.
  replace fuel with (n + (fuel - n)) by lia. by rewrite Hr.
Qed.

(** ** Success *)

(** Successful evidence of a check. *)
Definition proves (check : VerificationCheck) (e : CheckEvidence) : Prop :=
  evidence_for check e /\ ce_Passed e = true.

Lemma required_all_passed checks es :
  Forall2 evidence_for checks es -> required_passed checks es = true ->
  Forall (fun c => ck_Required c = true) checks ->
  Forall2 proves checks es.
Proof.
  unfold required_passed. induction 1 as [|x e xs es Hxe _ IH]; intros Hreq Hr; [constructor|].
  cbn in Hreq. apply andb_true_iff in Hreq as [Hp Hreq]. apply Forall_cons in Hr as [Hx Hr].
  rewrite Hx in Hp. constructor; [done | by apply IH].
Qed.

(** The verification of a worker that succeeded: none without checks. *)
Lemma run_verification_result ctx req deps (p : prepared W) ok s :
  let checks := elems (parseChecks (req_Payload req)) in
  match (run_verification ctx req deps p ok s).2 with
  | None => ok = false \/ checks = []
  | Some vr => ok = true /\ checks <> [] /\
      (vr_Passed vr = true ->
       Forall2 proves (pl_Checks (buildVerificationPlan checks (req_CWD req))) (vr_Evidence vr))
  end.
Proof.
  cbv zeta. unfold run_verification. destruct ok; [|by left].
  destruct (elems _) as [|c cs] eqn:Ec; [by right|]. destruct s as [w ws].
  destruct (generateID _ w) as [w1 vid].
  set (plan := buildVerificationPlan (c :: cs) (req_CWD req)).
  destruct (RunPlan (term_ctx ctx) plan _ w1) as [w2 [vr|err]] eqn:E; cbn; [|done].
  split_and!; [done.. |]. intros Hp.
  apply RunPlan_evidence in E as [Hall Hreq]; [|done]. rewrite Hp in Hreq.
  apply required_all_passed; [done | done |].
  eapply Forall_impl; [exact (build_checks_well_formed (c :: cs) (req_CWD req) 0)|]. naive_solver.
Qed.

(** C12: a committed run succeeds exactly when its worker ended without an error
    and reported success and, if the request declares checks, the verification
    passed - which takes one successful piece of evidence per declared check.
    The final lifecycle, the action of the (always ok) response and the
    presence of a diagnosis follow the success; a failed run is never diagnosed
    as unknown. *)
Theorem run_succeeds_iff fuel ctx req deps (p : prepared W) s s' o ws :
  runWithWorker fuel ctx req deps p s = Some (s', o) ->
  let checks := elems (parseChecks (req_Payload req)) in
  let resp := buildRunResponse req p o ws in
  (out_WorkerSuccess o = true <->
     out_WorkerWaitErr o = None /\ wr_Success (out_WorkerResult o) = true) /\
  (out_Success o = true <->
     out_WorkerSuccess o = true /\
     (checks = [] \/ exists vr, out_VerifyResult o = Some vr /\ vr_Passed vr = true /\
        Forall2 proves (pl_Checks (buildVerificationPlan checks (req_CWD req))) (vr_Evidence vr))) /\
  out_FinalLifecycle o =
    (if out_Success o then State.LifecycleFinished else State.LifecycleFailed) /\
  resp_OK resp = true /\ resp_RequestID resp = req_RequestID req /\
  resp_Action resp = (if out_Success o then ActionNone else ActionWarn) /\
  (if out_Success o then length (final_events p o) = 2
   else exists ev, nth_error (final_events p o) 2 = Some ev /\ ev_Type ev = EventFailureDiagnosed /\
          attr ev "failure_type" ∈ ["tool_failure"; "bad_exit_criteria"]).
Proof.
  unfold runWithWorker. intros ([[w1 ws1] n] & _ & E)%bind_Some.
  destruct (Wait (pr_Worker p) ctx w1) as [w2 [result err]].
  set (ok := match err with None => wr_Success result | Some _ => false end) in *.
  pose proof (run_verification_result ctx req deps p ok
    (emit (term_ctx ctx) req deps (work_event p ok) (w2, ws1))) as Hv. cbv zeta in Hv.
  destruct (run_verification _ _ _ _ _ _) as [s2 vr]. cbn [snd] in Hv.
  destruct (emits _ _ _ _ _) as [w4 ws4]. injection E as _ <-. cbv zeta. cbn.
  assert (ok = true <-> err = None /\ wr_Success result = true) as Hok
    by (unfold ok; destruct err; naive_solver).
  split; [exact Hok|]. clearbody ok. clear Hok.
  unfold verdict, buildRunResponse, final_events, diagnosis. cbn.
  destruct vr as [vr|]; [destruct Hv as (-> & Hc & Hev); destruct (vr_Passed vr) eqn:Ep|];
    [..|destruct Hv as [-> |Hc]; [|destruct ok]]; cbn.
  - split_and!; try done. split; [|done]. intros _. split; [done|]. right. eauto.
  - split_and!; try done; [naive_solver|]. eexists. split_and!; [done..|]. cbn. in_list.
  - split_and!; try done; [naive_solver|]. eexists. split_and!; [done..|]. cbn. in_list.
  - split_and!; try done. naive_solver.
  - split_and!; try done; [naive_solver|]. eexists. split_and!; [done..|]. cbn. in_list.
Qed.
End outcome.

(** ** Witnesses *)

#[local] Existing Instances world_clock world_exec world_files world_state world_entropy world_cancel
  plain_tables demo_yaml.

Definition same_queue (w w' : World) : Prop := w_queue w' = w_queue w.

Lemma emit_queue worker req ev w ws :
  same_queue w (emit CtxRequest req (world_deps worker) ev (w, ws)).1.
Proof.
  unfold emit, recordStorageEvent, world_deps. cbn [dep_StorageSink].
  destruct (IsZero _); cbn -[fill_event normalizeType IsZero]; unfold Record_; cbn -[fill_event normalizeType IsZero];
    repeat case_match; simplify_eq; done.
Qed.

Lemma good_worker_closes w w' : same_queue w w' -> w_queue w = demo_worker_events ->
  closes_within good_worker same_queue 3 w'.
Proof.
  unfold same_queue. intros E Hq. rewrite Hq in E. cbn. rewrite E. cbn. intros w1 E1. rewrite E1. cbn.
  intros w2 E2. by rewrite E2.
Qed.

Abbreviation demo_pre checks :=
  (preWorker CtxRequest (run_request checks) (world_deps (Ok good_worker)) (w0, [])).
Abbreviation demo_run checks fuel :=
  (handleRun fuel CtxRequest (run_request checks) (world_deps (Ok good_worker)) w0).

Lemma demo_pre_spec :
  match demo_pre ["file_exists:go.mod"] with
  | (s, inr p) => pr_Worker p = good_worker /\ w_queue s.1 = demo_worker_events
  | _ => False
  end.
Proof. vm_compute. split; reflexivity. Qed.

Lemma demo_run_action :
  (resp_Action ∘ snd) <$> demo_run ["file_exists:go.mod"] 3 = Some ActionNone.
Proof. vm_compute. reflexivity. Qed.

Lemma handleRun_returns_witness :
  exists w' resp, (forall fuel, 3 <= fuel -> demo_run ["file_exists:go.mod"] fuel = Some (w', resp)) /\
    resp_Action resp = ActionNone.
Proof.
  destruct (handleRun_returns 3 CtxRequest (run_request ["file_exists:go.mod"])
    (world_deps (Ok good_worker)) same_queue w0) as (w' & resp & Hr).
  - intros ev w ws. apply emit_queue.
  - intros s p E. pose proof demo_pre_spec as Hd. rewrite E in Hd. destruct Hd as [Hw Hq]. rewrite Hw.
    eapply good_worker_closes; [reflexivity | exact Hq].
  - exists w', resp. split; [exact Hr|].
    pose proof demo_run_action as Ha. rewrite (Hr 3 (Nat.le_refl 3)) in Ha.
    injection Ha as Ha. exact Ha.
Defined.

(** One check of two fails: the worker's success does not save the run. *)
Definition bad_checks : list string := ["file_exists:go.mod"; "no colon"].
Definition demo_outcome : option (prepared World * (World * list string) * run_outcome) :=
  match demo_pre bad_checks with
  | (s, inr p) =>
      match runWithWorker 3 CtxRequest (run_request bad_checks) (world_deps (Ok good_worker)) p s with
      | Some (s', o) => Some (p, s, o)
      | None => None
      end
  | _ => None
  end.

Lemma demo_outcome_spec :
  (fun '(_, _, o) => (out_WorkerWaitErr o, wr_Success (out_WorkerResult o), out_Success o))
    <$> demo_outcome = Some (None, true, false).
Proof. vm_compute. reflexivity. Qed.

Lemma run_succeeds_iff_witness :
  match demo_outcome with
  | Some (_, _, o) => out_WorkerSuccess o = true /\ out_Success o = false /\
      out_FinalLifecycle o = State.LifecycleFailed
  | None => False
  end.
Proof.
  pose proof demo_outcome_spec as Hd. unfold demo_outcome in *.
  destruct (demo_pre bad_checks) as [s [b|p]]; [discriminate Hd|].
  destruct (runWithWorker _ _ _ _ _ _) as [[s' o]|] eqn:E; [|discriminate Hd].
  destruct (run_succeeds_iff _ _ _ _ _ _ _ _ [] E) as (Hw & _ & Hl & _).
  injection Hd as Herr Hok Hf. rewrite Hf in Hl.
  split; [apply Hw; split; assumption|]. split; assumption.
Defined.
