(* ===== verification/RunLedger.v ===== *)
(** * A run and its ledger

    The run pipeline of [Run] composed with the SQLite store of [StorageDB]: what
    the tables say of a run when [handleRun] has returned. The database is what
    the store makes of the events the sink was given, in order ([replay]). *)

From S2P Require Import StorageDB State.
From S2P Require Import Prelude GoStrings GoValue GoTime Protocol Config Adapter Storage Host.
From S2P Require Import Orchestrator Checks Run DemoWorld Observe RunTrace.

(** ** One event *)

(** The event as the transaction sees it. *)
Definition as_stored (st : StorageDB.Store) (env : TxEnv) (e : Event) : Event :=
  complete_event st (te_now env) (set_type (normalizeType (ev_Type e)) e).

(** The fields of an event that completing it leaves alone. *)
Record same_event (e e' : Event) : Prop := {
  se_type : ev_Type e' = ev_Type e;
  se_run : ev_RunID e <> "" -> ev_RunID e' = ev_RunID e;
  se_work : ev_WorkID e' = ev_WorkID e;
  se_agent : ev_AgentSessionID e' = ev_AgentSessionID e;
  se_evidence : ev_EvidenceID e' = ev_EvidenceID e;
  se_tool : ev_ToolCallID e' = ev_ToolCallID e;
  se_verif : ev_VerificationID e' = ev_VerificationID e;
  se_status : ev_Status e' = ev_Status e;
  se_lifecycle : ev_Lifecycle e' = ev_Lifecycle e;
  se_attrs : ev_Attributes e' = ev_Attributes e
}.

Lemma as_stored_same st env e : normalizeType (ev_Type e) = ev_Type e -> same_event e (as_stored st env e).
Proof.
  intros Ht. unfold as_stored, complete_event. rewrite Ht.
  split; repeat case_match; str_simpl; done.
Qed.

(** ** What a recorded event does to agents and work items *)

Lemma upsert_status {R} (f : R -> string) tbl id check ins ir upd ur t status :
  upsert tbl id check ins ir upd ur = Ok t -> f ins = status -> (forall old, f (upd old) = status) ->
  f <$> t !! id = Some status /\ forall k, k <> id -> t !! k = tbl !! k.
Proof.
  unfold upsert. destruct check; [|done]. cbn [negb]. intros H Hi Hu.
  destruct (tbl !! id) as [old|]; [destruct ur; [|done]|destruct ir; [|done]]; injection H as <-;
    rewrite lookup_insert_eq; cbn; (split; [by rewrite ?Hi, ?Hu|]); intros k Hk;
    by rewrite lookup_insert_ne.
Qed.

Lemma derive_work_id suffix e tx : ev_WorkID e <> "" -> derive_work suffix e tx = Ok (e, tx).
Proof. intros Hw. unfold derive_work. by rewrite (proj2 (eqb_false _ _) Hw). Qed.

Lemma recordSpecializedRow_agents event tx tx' :
  recordSpecializedRow event tx = Ok tx' -> db_agents (tx_db tx') = db_agents (tx_db tx).
Proof.
  assert (forall suffix event event' tx tx', derive_work suffix event tx = Ok (event', tx') ->
    db_agents (tx_db tx') = db_agents (tx_db tx)) as Hd.
  { clear. intros suffix event event' tx tx'. unfold derive_work.
    destruct (ev_WorkID event =s ""); [|by intros [= _ <-]].
    intros H. apply bind_ok in H as (tx1 & H & [= _ <-]). revert H. unfold ensureWork.
    destruct (workStatus _ =s ""); [by intros [= <-]|]. frame db_agents. }
  unfold recordSpecializedRow. cbv zeta.
  destruct (existsb _ _); [unfold upsertToolCall; frame db_agents|].
  destruct (existsb _ _).
  { unfold upsertVerification. intros H. apply bind_ok in H as ([ev tx1] & E & H).
    apply Hd in E. rewrite <- E. revert H. frame db_agents. }
  destruct (_ =s _); [unfold upsertEvidence; frame db_agents|].
  destruct (_ =s _); [|by intros [= <-]].
  unfold upsertFailureDiagnosis. intros H. apply bind_ok in H as ([ev tx1] & E & H).
  apply Hd in E. rewrite <- E. revert H. frame db_agents.
Qed.

(** An event that names its work item, or whose type has no row of its own work
    item, leaves the work items alone in its own row's statement. *)
Definition keeps_works (e : Event) : Prop :=
  ev_WorkID e <> "" \/ ev_Type e ∉ [EventVerificationStarted; EventVerificationPassed;
                                   EventVerificationFailed; EventFailureDiagnosed].

Lemma recordSpecializedRow_works event tx tx' :
  keeps_works event -> recordSpecializedRow event tx = Ok tx' -> db_works (tx_db tx') = db_works (tx_db tx).
Proof.
  intros Hk. unfold recordSpecializedRow. cbv zeta.
  destruct (existsb _ _); [unfold upsertToolCall; frame db_works|].
  destruct (existsb _ _) eqn:Ev.
  { assert (ev_WorkID event <> "") as Hw.
    { destruct Hk as [?|Hk]; [done|]. destruct Hk. apply existsb_eqb_elem in Ev. set_solver. }
    unfold upsertVerification. rewrite derive_work_id by done. cbn. frame db_works. }
  destruct (_ =s _); [unfold upsertEvidence; frame db_works|].
  destruct (_ =s EventFailureDiagnosed) eqn:Ed; [|by intros [= <-]].
  assert (ev_WorkID event <> "") as Hw.
  { destruct Hk as [?|Hk]; [done|]. destruct Hk. str_simpl. rewrite Ed. set_solver. }
  unfold upsertFailureDiagnosis. rewrite derive_work_id by done. cbn. frame db_works.
Qed.

Definition run_status (db : DB) (id : string) : option string := rn_status <$> db_runs db !! id.
Definition work_status (db : DB) (id : string) : option string := wk_status <$> db_works db !! id.
Definition agent_status (db : DB) (id : string) : option string := ag_status <$> db_agents db !! id.

Lemma record_tx_agents e tx tx' :
  record_tx e tx = Ok tx' ->
  (ev_AgentSessionID e <> "" ->
     agent_status (tx_db tx') (ev_AgentSessionID e) = Some (agentStatus e)) /\
  forall id, id <> ev_AgentSessionID e -> db_agents (tx_db tx') !! id = db_agents (tx_db tx) !! id.
Proof.
  intros H. apply record_tx_stages in H as (tx1 & tx2 & tx3 & tx4 & tx5 & E1 & E2 & E3 & E4 & E5 & E6 & _).
  assert (db_agents (tx_db tx1) = db_agents (tx_db tx)) as F1 by (revert E1; unfold ensureRepo; frame db_agents).
  assert (db_agents (tx_db tx2) = db_agents (tx_db tx1)) as F2 by (revert E2; unfold ensureRun; frame db_agents).
  assert (db_agents (tx_db tx3) = db_agents (tx_db tx2)) as F3.
  { revert E3. case (ev_WorkID e <>s ""); [|by intros [= <-]]. unfold ensureWork.
    destruct (workStatus e =s ""); [by intros [= <-]|]. frame db_agents. }
  assert (db_agents (tx_db tx') = db_agents (tx_db tx4)) as F6.
  { rewrite <- (recordSpecializedRow_agents _ _ _ E5). revert E6. unfold insertEvent. frame db_agents. }
  unfold agent_status. rewrite F6. assert (db_agents (tx_db tx3) = db_agents (tx_db tx)) as F by congruence.
  destruct (ev_AgentSessionID e =s "") eqn:Ea; str_simpl; cbn [negb] in E4.
  - injection E4 as <-. split; [done|]. intros id _. by rewrite F.
  - unfold ensureAgentSession in E4. apply exec_inv in E4 as [E4 _].
    apply bind_ok in E4 as (t & E4 & [= <-]). cbn [tx_db db_agents]. rewrite F in E4.
    eapply (upsert_status ag_status) in E4 as [H1 H2]; [by split|done|done].
Qed.

Lemma record_tx_works e tx tx' :
  record_tx e tx = Ok tx' -> keeps_works e ->
  (ev_WorkID e <> "" -> workStatus e <> "" ->
     work_status (tx_db tx') (ev_WorkID e) = Some (workStatus e)) /\
  forall id, id <> ev_WorkID e \/ workStatus e = "" ->
    db_works (tx_db tx') !! id = db_works (tx_db tx) !! id.
Proof.
  intros H Hk. apply record_tx_stages in H as (tx1 & tx2 & tx3 & tx4 & tx5 & E1 & E2 & E3 & E4 & E5 & E6 & _).
  assert (db_works (tx_db tx1) = db_works (tx_db tx)) as F1 by (revert E1; unfold ensureRepo; frame db_works).
  assert (db_works (tx_db tx2) = db_works (tx_db tx1)) as F2 by (revert E2; unfold ensureRun; frame db_works).
  assert (db_works (tx_db tx4) = db_works (tx_db tx3)) as F4.
  { revert E4. case (ev_AgentSessionID e <>s ""); [|by intros [= <-]]. unfold ensureAgentSession. frame db_works. }
  assert (db_works (tx_db tx') = db_works (tx_db tx4)) as F6.
  { rewrite <- (recordSpecializedRow_works _ _ _ Hk E5). revert E6. unfold insertEvent. frame db_works. }
  unfold work_status. rewrite F6, F4. assert (db_works (tx_db tx2) = db_works (tx_db tx)) as F by congruence.
  destruct (ev_WorkID e =s "") eqn:Ea; str_simpl; cbn [negb] in E3.
  { injection E3 as <-. split; [done|]. intros id _. by rewrite F. }
  unfold ensureWork in E3. destruct (workStatus e =s "") eqn:Es; str_simpl.
  { injection E3 as <-. split; [done|]. intros id _. by rewrite F. }
  apply exec_inv in E3 as [E3 _]. apply bind_ok in E3 as (t & E3 & [= <-]). cbn [tx_db db_works].
  rewrite F in E3. eapply (upsert_status wk_status) in E3 as [H1 H2]; [|done|done].
  split; [done|]. intros id [?|?]; [by apply H2|done].
Qed.

(** ** An event the store takes *)

Lemma same_acceptable db e e' : same_event e e' -> acceptable db e -> acceptable db e'.
Proof.
  intros [H1 _ H3 H4 H5 H6 H7 H8 H9 H10] [A1 A2 A3 A4 A5 A6 A7 A8 A9].
  assert (runStatus e' = runStatus e) as Hr by (unfold runStatus; by rewrite H1, H9).
  assert (workStatus e' = workStatus e) as Hw by (unfold workStatus; by rewrite H1).
  assert (forall k, attr e' k = attr e k) as Ha by (intros k; unfold attr; by rewrite H10).
  split; unfold tool_event, verification_event; rewrite ?Hr, ?Hw, ?Ha, ?H1, ?H3, ?H5, ?H6, ?H7; done.
Qed.

(** The store after one event. *)
Definition store_event (st : StorageDB.Store) (env : TxEnv) (e : Event) (db : DB) : DB :=
  (StorageDB.RecordEvent (Some st) env e db).1.

Lemma store_event_le st env e db : db_le db (store_event st env e db).
Proof.
  unfold store_event. destruct (StorageDB.RecordEvent _ _ _ _) as [db' err] eqn:E. cbn.
  apply RecordEvent_inv in E. destruct err; [by subst|].
  destruct E as (_ & _ & _ & tx' & E & <-). by apply record_tx_good in E as (_ & H & _).
Qed.

Lemma store_event_hashed st env e db : hashed db -> hashed (store_event st env e db).
Proof. apply RecordEvent_hashed. Qed.

Lemma store_event_accepted st env e db :
  no_faults env -> hashed db -> typed e -> ev_RunID e <> "" -> keeps_works e -> acceptable db e ->
  let db' := store_event st env e db in
  run_status db' (ev_RunID e) =
    Some (if runStatus e =s "" then default "scoped" (run_status db (ev_RunID e)) else runStatus e) /\
  (ev_AgentSessionID e <> "" -> agent_status db' (ev_AgentSessionID e) = Some (agentStatus e)) /\
  (forall id, id <> ev_AgentSessionID e -> agent_status db' id = agent_status db id) /\
  (ev_WorkID e <> "" -> workStatus e <> "" -> work_status db' (ev_WorkID e) = Some (workStatus e)) /\
  (forall id, id <> ev_WorkID e \/ workStatus e = "" -> work_status db' id = work_status db id).
Proof.
  intros Hf Hh [_ Ht] Hrun Hk Hacc. cbv zeta. pose proof (as_stored_same st env e Ht) as Hs.
  destruct (RecordEvent_taken st env e db Hf Hh (same_acceptable _ _ _ Hs Hacc)) as [db' E].
  unfold store_event. rewrite E. cbn [fst].
  pose proof (RecordEvent_run_status _ _ _ _ _ E) as [Hst _]. cbv zeta in Hst.
  apply RecordEvent_inv in E as (_ & _ & _ & tx' & E & <-). cbv zeta in E.
  fold (as_stored st env e) in *. destruct Hs as [S1 S2 S3 S4 S5 S6 S7 S8 S9 S10].
  assert (runStatus (as_stored st env e) = runStatus e) as Hr by (unfold runStatus; by rewrite S1, S9).
  assert (workStatus (as_stored st env e) = workStatus e) as Hw by (unfold workStatus; by rewrite S1).
  assert (agentStatus (as_stored st env e) = agentStatus e) as Ha by (unfold agentStatus; by rewrite S1, S8).
  pose proof (record_tx_agents _ _ _ E) as [G1 G2].
  pose proof (record_tx_works _ _ _ E) as [G3 G4]; [by unfold keeps_works; rewrite S1, S3|].
  rewrite ?S2, ?S3, ?S4, ?Hr, ?Hw, ?Ha in * by done.
  split_and!; [exact Hst|exact G1| |exact G3|]; intros id Hid; unfold agent_status, work_status;
    [by rewrite G2|by rewrite G4].
Qed.

(** ** The events of a run *)

(** The request carries no ids of its own for the ledger. *)
Definition carries_no_ids (req : Request) : Prop :=
  Forall (fun key => pv req key = "")
    ["work_id"; "agent_session_id"; "evidence_id"; "tool_call_id"; "verification_id"].

Section fill.
Context {W : Type} `{Clock W}.
Context (deps : Dependencies W) (req : Request) (Hids : carries_no_ids req).

(** [x] is [ev] with its own ids, the host's session where it names no agent. *)
Record completed (ev x : Event) : Prop := {
  co_type : ev_Type x = ev_Type ev;
  co_run : ev_RunID x = ev_RunID ev;
  co_work : ev_WorkID x = ev_WorkID ev;
  co_agent : ev_AgentSessionID x = first_non_empty [ev_AgentSessionID ev; req_SessionID req];
  co_evidence : ev_EvidenceID x = ev_EvidenceID ev;
  co_tool : ev_ToolCallID x = ev_ToolCallID ev;
  co_verif : ev_VerificationID x = ev_VerificationID ev;
  co_status : ev_Status x = ev_Status ev;
  co_lifecycle : ev_Lifecycle x = ev_Lifecycle ev;
  co_attrs : ev_Attributes x = ev_Attributes ev
}.

Lemma recorded_completed ctx ev x :
  ev_RunID ev <> "" -> recorded req deps ctx ev x -> completed ev x.2.
Proof.
  intros Hr (_ & t & Hx).
  unfold carries_no_ids in Hids. repeat (apply Forall_cons in Hids as [? Hids]).
  assert (forall f : Event -> string, (forall t e, f (set_timestamp t e) = f e) ->
    f x.2 = f (fill_event req deps ev)) as Hget by (intros f Hset; rewrite Hx; by destruct (IsZero _)).
  assert (ev_Attributes x.2 = ev_Attributes ev) by (rewrite Hx; by destruct (IsZero _)).
  split; try done; (etransitivity; [apply Hget; done|]); cbn [fill_event ev_Type ev_RunID ev_WorkID
    ev_AgentSessionID ev_EvidenceID ev_ToolCallID ev_VerificationID ev_Status ev_Lifecycle]; try done;
    unfold first_non_empty; cbn; repeat match goal with E : pv req _ = "" |- _ => rewrite E end;
    repeat case_match; str_simpl; congruence.
Qed.
End fill.

(** ** A sequence of events *)

(** The database after the store was given [evs]; [envs n] is the environment of
    the n-th transaction. *)
Fixpoint replay (st : StorageDB.Store) (envs : nat -> TxEnv) (evs : list (context * Event)) (db : DB) : DB :=
  match evs with
  | [] => db
  | x :: rest => replay st (fun n => envs (S n)) rest (store_event st (envs 0) x.2 db)
  end.

Lemma replay_app st envs l1 l2 db :
  replay st envs (l1 ++ l2) db =
  replay st (fun n => envs (length l1 + n)) l2 (replay st envs l1 db).
Proof. revert envs db. induction l1 as [|x l1 IH]; intros envs db; [done|]. apply IH. Qed.

Lemma replay_le st envs evs db : db_le db (replay st envs evs db).
Proof.
  revert envs db. induction evs as [|x evs IH]; intros envs db; cbn; [reflexivity|].
  etransitivity; [apply (store_event_le st (envs 0) x.2)|apply IH].
Qed.

Lemma replay_hashed st envs evs db : hashed db -> hashed (replay st envs evs db).
Proof. revert envs db. induction evs as [|x evs IH]; intros envs db Hh; [done|]. by apply IH, store_event_hashed. Qed.

(** Events without a status for their work item leave the work items' statuses
    alone, recorded or not. *)
Lemma store_event_works st env e db id :
  normalizeType (ev_Type e) = ev_Type e -> workStatus e = "" -> keeps_works e ->
  work_status (store_event st env e db) id = work_status db id.
Proof.
  intros Ht Hw Hk. unfold store_event. destruct (StorageDB.RecordEvent _ _ _ _) as [db' err] eqn:E. cbn.
  apply RecordEvent_inv in E. destruct err; [by subst|].
  destruct E as (_ & _ & _ & tx' & E & <-). cbv zeta in E. fold (as_stored st env e) in E.
  destruct (as_stored_same st env e Ht) as [S1 _ S3 _ _ _ _ _ _ _].
  assert (workStatus (as_stored st env e) = "") as Hw' by (unfold workStatus; rewrite S1; exact Hw).
  apply record_tx_works in E as [_ E]; [|by unfold keeps_works; rewrite S1, S3].
  unfold work_status. by rewrite E by (by right).
Qed.

Lemma replay_evidence st envs evs db id :
  Forall (fun y => ev_Type y.2 = EventEvidenceCreated) evs ->
  work_status (replay st envs evs db) id = work_status db id.
Proof.
  intros Hall. revert envs db. induction Hall as [|x evs Hx _ IH]; intros envs db; [done|].
  cbn. rewrite IH. apply store_event_works.
  - by rewrite Hx.
  - unfold workStatus. by rewrite Hx.
  - right. rewrite Hx. by apply (bool_decide_unpack _).
Qed.

(** ** The terminal events of a run *)

Section terminal.
Context {W : Type} `{Clock W} `{Exec W} `{Files W} `{StateFiles W} `{Entropy W} `{Cancellation W}.
Context `{UnicodeTables} `{YAML}.
Context (deps : Dependencies W) (req : Request) (Hids : carries_no_ids req).

Lemma completed_acceptable db ev x : completed req ev x -> acceptable db ev -> acceptable db x.
Proof.
  intros [H1' H2' H3' H4' H5' H6' H7' H8' H9' H10'] [A1 A2 A3 A4 A5 A6 A7 A8 A9].
  assert (runStatus x = runStatus ev) as Hr by (unfold runStatus; by rewrite H1', H9').
  assert (workStatus x = workStatus ev) as Hw by (unfold workStatus; by rewrite H1').
  assert (forall k, attr x k = attr ev k) as Ha by (intros k; unfold attr; by rewrite H10').
  split; unfold tool_event, verification_event; rewrite ?Hr, ?Hw, ?Ha, ?H1', ?H3', ?H5', ?H6', ?H7'; done.
Qed.

(** Recording one of the run's own events. *)
Lemma store_recorded st env ctx ev x db :
  no_faults env -> hashed db -> typed ev -> ev_RunID ev <> "" -> keeps_works ev -> acceptable db ev ->
  recorded req deps ctx ev x ->
  let db' := store_event st env x.2 db in
  let agent := first_non_empty [ev_AgentSessionID ev; req_SessionID req] in
  run_status db' (ev_RunID ev) =
    Some (if runStatus ev =s "" then default "scoped" (run_status db (ev_RunID ev)) else runStatus ev) /\
  (agent <> "" -> agent_status db' agent = Some (agentStatus ev)) /\
  (forall id, id <> agent -> agent_status db' id = agent_status db id) /\
  (ev_WorkID ev <> "" -> workStatus ev <> "" -> work_status db' (ev_WorkID ev) = Some (workStatus ev)) /\
  (forall id, id <> ev_WorkID ev \/ workStatus ev = "" -> work_status db' id = work_status db id).
Proof.
  intros Hf Hh Ht Hr Hk Hacc Hrec. pose proof (recorded_completed deps req Hids ctx ev x Hr Hrec) as Hc.
  pose proof (completed_acceptable db ev x.2 Hc Hacc) as Hacc'.
  destruct Hc as [H1' H2' H3' H4' H5' H6' H7' H8' H9' H10'].
  assert (runStatus x.2 = runStatus ev) as E1 by (unfold runStatus; by rewrite H1', H9').
  assert (workStatus x.2 = workStatus ev) as E2 by (unfold workStatus; by rewrite H1').
  assert (agentStatus x.2 = agentStatus ev) as E3 by (unfold agentStatus; by rewrite H1', H8').
  pose proof (store_event_accepted st env x.2 db Hf Hh) as Hs.
  unfold typed, keeps_works in *. cbv zeta in Hs. rewrite H1', H2', H3', H4', E1, E2, E3 in Hs.
  exact (Hs Ht Hr Hk Hacc').
Qed.

Lemma work_done_acceptable db runID workID :
  acceptable db (ev_work_completed runID workID) /\ acceptable db (ev_work_failed runID workID).
Proof.
  split; split; try done; try (by left); try (by right); try (right; left; by vm_compute); vm_compute; by right.
Qed.

Lemma work_event_acceptable db (p : prepared W) ok : acceptable db (work_event p ok).
Proof. destruct ok; apply work_done_acceptable. Qed.

Lemma agent_stopped_acceptable db runID sessionID status lc :
  lc ∈ [State.LifecycleFinished; State.LifecycleFailed] ->
  acceptable db (ev_agent_stopped runID sessionID status lc).
Proof. intros Hl. in_list_cases Hl; subst; split; try done; try (by left); try (by right). Qed.

Lemma status_final_acceptable db runID sessionID status lc code :
  lc ∈ [State.LifecycleFinished; State.LifecycleFailed] ->
  acceptable db (ev_status_final runID sessionID status lc (Some {["exit_code" := code]})).
Proof. intros Hl. in_list_cases Hl; subst; split; try done; try (by left); try (by right). Qed.

Lemma status_final_plain db runID sessionID status lc :
  lc ∈ [State.LifecycleFinished; State.LifecycleFailed] ->
  acceptable db (ev_status_final runID sessionID status lc None).
Proof. intros Hl. in_list_cases Hl; subst; split; try done; try (by left); try (by right). Qed.

Lemma diagnosed_acceptable db runID workID failureType reason :
  workID <> "" -> known (db_works db) workID ->
  failureType ∈ ["tool_failure"; "bad_exit_criteria"; "unknown"] ->
  acceptable db (ev_diagnosed runID workID failureType reason).
Proof.
  intros Hw Hk Hf. split; try done; try (by left); [by right; right|].
  intros _. split; [done|]. in_list_cases Hf; subst; reflexivity.
Qed.

Lemma verified_acceptable db r (o : Verify.Options W) t :
  acceptable db (set_timestamp t (verification_storage_event r o)).
Proof.
  unfold verification_storage_event. destruct (vr_Passed r);
  (split; try done; try (by left); try (by right); right; [by left|]; right; unfold verification_event; cbn; in_list).
Qed.

(** ** The end of a run *)

(** The statuses that close a run. *)
Definition closing_status (ok : bool) : string := if ok then "completed" else "failed".
Definition closing_lifecycle (ok : bool) : string :=
  if ok then State.LifecycleFinished else State.LifecycleFailed.

Lemma closing_lifecycle_in ok : closing_lifecycle ok ∈ [State.LifecycleFinished; State.LifecycleFailed].
Proof. destruct ok; in_list. Qed.

(** [x] is [ev] as the sink got it, under some context. *)
Definition handed_on (ev : Event) (x : context * Event) : Prop :=
  exists ctx, recorded req deps ctx ev x.

(** The event that closes the run, the one that stops its agent, and a diagnosis
    if there is one. *)
Lemma closing_statuses st envs runID workID sessionID ok attrs diag xs db :
  (forall n, no_faults (envs n)) -> hashed db -> runID <> "" -> workID <> "" -> sessionID <> "" ->
  req_SessionID req <> sessionID -> known (db_works db) workID ->
  attrs = None \/ (exists code, attrs = Some {["exit_code" := code]}) ->
  diag = [] \/ (exists ty reason, ty ∈ ["tool_failure"; "bad_exit_criteria"; "unknown"] /\
               diag = [ev_diagnosed runID workID ty reason]) ->
  Forall2 handed_on
    (ev_status_final runID sessionID (closing_status ok) (closing_lifecycle ok) attrs
     :: ev_agent_stopped runID sessionID (closing_status ok) (closing_lifecycle ok) :: diag) xs ->
  let db' := replay st envs xs db in
  run_status db' runID = Some (closing_status ok) /\
  agent_status db' sessionID = Some "stopped" /\
  work_status db' workID = work_status db workID.
Proof.
  intros Hf Hh Hr Hw Hs Hhost Hk Hattrs Hdiag Hall.
  apply Forall2_cons_inv_l in Hall as (x1 & xs1 & [c1 H1'] & Hall & ->).
  apply Forall2_cons_inv_l in Hall as (x2 & xs2 & [c2 H2'] & Hall & ->). cbn [replay].
  set (db1 := store_event st (envs 0) x1.2 db). set (db2 := store_event st (envs 1) x2.2 db1).
  pose proof (closing_lifecycle_in ok) as Hlc.
  set (e1 := ev_status_final _ _ _ _ _) in H1'. set (e2 := ev_agent_stopped _ _ _ _) in H2'.
  destruct (store_recorded st (envs 0) c1 e1 x1 db (Hf 0) Hh) as (R1 & _ & _ & _ & W1);
    [done|done|right; by apply (bool_decide_unpack _)| |exact H1'|].
  { destruct Hattrs as [-> | [code ->]]; [by apply status_final_plain|by apply status_final_acceptable]. }
  destruct (store_recorded st (envs 1) c2 e2 x2 db1 (Hf 1) ltac:(by apply store_event_hashed)) as (R2 & A2 & _ & _ & W2);
    [done|done|right; by apply (bool_decide_unpack _)|by apply agent_stopped_acceptable|exact H2'|].
  fold db2 in R2, A2, W2. fold db1 in R1, W1.
  assert (run_status db2 runID = Some (closing_status ok)) as R by (etransitivity; [exact R2|by destruct ok]).
  assert (first_non_empty [ev_AgentSessionID e2; req_SessionID req] = sessionID) as Ha2
    by (apply first_non_empty_head, Hs).
  rewrite Ha2 in A2. specialize (A2 Hs).
  assert (work_status db2 workID = work_status db workID) as Wk
    by (rewrite W2 by (by right); apply W1; by right).
  assert (known (db_works db2) workID) as Hk2.
  { assert (is_Some (work_status db2 workID)) as Hi
      by (rewrite Wk; unfold work_status; by apply fmap_is_Some). revert Hi. apply fmap_is_Some. }
  destruct Hdiag as [->|(ty & reason & Hty & ->)].
  { apply Forall2_nil_inv_l in Hall as ->. cbn [replay]. by split_and!. }
  apply Forall2_cons_inv_l in Hall as (x3 & xs3 & [c3 H3'] & Hall & ->).
  apply Forall2_nil_inv_l in Hall as ->. cbn [replay].
  destruct (store_recorded st (envs 2) c3 (ev_diagnosed runID workID ty reason) x3 db2 (Hf 2)
    ltac:(by do 2 apply store_event_hashed))
    as (R3 & _ & A3 & _ & W3); [done|done|by left|by apply diagnosed_acceptable|exact H3'|].
  split_and!.
  - etransitivity; [exact R3|]. change (ev_RunID (ev_diagnosed _ _ _ _)) with runID. by rewrite R.
  - rewrite A3; [exact A2|]. cbn. destruct (req_SessionID req <>s ""); congruence.
  - rewrite W3 by (by right). exact Wk.
Qed.

Lemma known_le db db' id : db_le db db' -> known (db_works db) id -> known (db_works db') id.
Proof. intros Hle. apply Hle. Qed.

(** What a verification makes of the work item: with evidence it is verified or
    has failed, without one it stays as it is - unless the store was given the
    verification's own event before it refused one. *)
Definition verification_leaves (vr : VerificationResult) (before after : option string) : Prop :=
  (vr_Evidence vr <> [] -> after = Some (if vr_Passed vr then "verified" else "failed")) /\
  (vr_Evidence vr = [] -> vr_Passed vr = false /\ (after = before \/ after = Some "verified" \/ after = Some "failed")).

(** An event about the verification leaves the work item as it was or as the
    event says. *)
Lemma store_verification st env e db id :
  verification_type e -> ev_WorkID e <> "" ->
  let after := work_status (store_event st env e db) id in
  after = work_status db id \/ after = Some "verified" \/ after = Some "failed".
Proof.
  intros Ht Hwk. cbv zeta. unfold store_event.
  destruct (StorageDB.RecordEvent _ _ _ _) as [db' err] eqn:E. cbn.
  apply RecordEvent_inv in E. destruct err; [subst; by left|].
  destruct E as (_ & _ & _ & tx' & E & <-). cbv zeta in E. fold (as_stored st env e) in E.
  assert (normalizeType (ev_Type e) = ev_Type e /\ (workStatus e = "" \/ workStatus e = "verified" \/ workStatus e = "failed"))
    as [Hn Hs] by (unfold verification_type in Ht; unfold workStatus; in_list_cases Ht; rewrite Ht; by eauto).
  destruct (as_stored_same st env e Hn) as [S1 _ S3 _ _ _ _ _ _ _].
  assert (workStatus (as_stored st env e) = workStatus e) as Hw by (unfold workStatus; by rewrite S1).
  apply record_tx_works in E as [E1 E2]; [|left; by rewrite S3]. rewrite S3, Hw in *. unfold work_status in *.
  destruct (decide (workStatus e = "")) as [E0|E0]; [left; by rewrite E2 by (by right)|].
  destruct (decide (id = ev_WorkID e)) as [->|Hid]; [|left; by rewrite E2 by (by left)].
  rewrite E1 by done. right. destruct Hs as [?|[-> | ->]]; [done|auto..].
Qed.

Lemma replay_verification st envs seen db id :
  Forall (fun y => verification_type y.2 /\ ev_WorkID y.2 <> "") seen ->
  let after := work_status (replay st envs seen db) id in
  after = work_status db id \/ after = Some "verified" \/ after = Some "failed".
Proof.
  intros Hall. cbv zeta. revert envs db. induction Hall as [|x seen [Ht Hw] _ IH]; intros envs db; [by left|].
  cbn [replay]. destruct (IH (fun n => envs (S n)) (store_event st (envs 0) x.2 db)) as [->|?]; [|by right].
  by apply store_verification.
Qed.

Lemma verified_statuses st envs ctx runID workID vr seen db :
  (forall n, no_faults (envs n)) -> hashed db -> runID <> "" -> workID <> "" ->
  verified_events (W := W) runID workID vr seen ->
  Forall (fun '(c, e) => c = ctx /\ verification_type e) seen ->
  match vr with
  | None => work_status (replay st envs seen db) workID = work_status db workID
  | Some r => verification_leaves r (work_status db workID) (work_status (replay st envs seen db) workID)
  end.
Proof.
  intros Hf Hh Hr Hw Hv Hty. destruct vr as [r|]; [|by rewrite Hv].
  destruct Hv as (Hv & Hnone & Hwork). split; [intros He|intros He; split; [by apply Hnone|]].
  2:{ apply replay_verification. apply Forall_and. split.
      - eapply Forall_impl; [exact Hty|]. by intros [] [_ ?].
      - eapply Forall_impl; [exact Hwork|]. by intros y ->. }
  destruct (Hv He) as (x & rest & o & t & -> & Hx & Hrun & Hwrk & Hrest). cbn [replay].
  rewrite replay_evidence by done. subst.
  pose proof (store_event_accepted st (envs 0) (set_timestamp t (verification_storage_event r o)) db (Hf 0) Hh) as Hs.
  rewrite <- Hx in Hs. cbv zeta in Hs.
  assert (ev_WorkID x.2 = vo_WorkID o /\ ev_RunID x.2 = vo_RunID o) as (E1 & E2) by by rewrite Hx.
  assert (ev_Type x.2 = if vr_Passed r then EventVerificationPassed else EventVerificationFailed) as E3 by by rewrite Hx.
  assert (workStatus x.2 = if vr_Passed r then "verified" else "failed") as Ew
    by (unfold workStatus; rewrite E3; by destruct (vr_Passed r)).
  unfold typed, keeps_works in Hs. rewrite E1, E2, E3, Ew in Hs.
  destruct Hs as (_ & _ & _ & Hs & _); [by destruct (vr_Passed r)|done|by left| |by apply Hs; destruct (vr_Passed r)].
  rewrite Hx. apply verified_acceptable.
Qed.
End terminal.

(** ** The ledger of a run *)

Section run.
Context {W : Type} `{Clock W} `{Exec W} `{Files W} `{StateFiles W} `{Entropy W} `{Cancellation W}.
Context `{UnicodeTables} `{YAML}.
Context (deps : Dependencies W) (sink : Sink W) (ledger : W -> list (context * Event)).
Context {Hobs : Observed deps sink ledger}.
Context (req : Request) (Hids : carries_no_ids req).

(** How a run's outcome hangs together. *)
Lemma runWithWorker_outcome fuel ctx (p : prepared W) s s' o :
  runWithWorker fuel ctx req deps p s = Some (s', o) ->
  out_FinalLifecycle o = closing_lifecycle (out_Success o) /\
  out_Success o = verdict (out_WorkerSuccess o) (out_VerifyResult o) /\
  ((forall ctx e w, (RecordEvent sink ctx e w).2 = None) ->
   forall r, out_VerifyResult o = Some r -> vr_Evidence r <> []).
Proof.
  unfold runWithWorker. intros ([[w1 ws1] n] & _ & E)%bind_Some.
  destruct (Wait (pr_Worker p) ctx w1) as [w2 [result err]]. revert E.
  match goal with |- context [run_verification ?c ?q ?d ?p ?k ?s] =>
    pose proof (fun r H => run_verification_evidence deps sink ledger c q p k s r H) as Hev end.
  destruct (run_verification _ _ _ _ _ _) as [s2 vr].
  destruct (emits _ _ _ _ _) as [w4 ws4]. intros [= _ <-]. cbn in *. split_and!; [done..|]. auto.
Qed.

Lemma final_events_shape (p : prepared W) o :
  out_FinalLifecycle o = closing_lifecycle (out_Success o) ->
  exists code diag, final_events p o =
    ev_status_final (pr_RunID p) (pr_SessionID p) (closing_status (out_Success o))
      (closing_lifecycle (out_Success o)) (Some {["exit_code" := code]})
    :: ev_agent_stopped (pr_RunID p) (pr_SessionID p) (closing_status (out_Success o))
      (closing_lifecycle (out_Success o)) :: diag /\
    (diag = [] \/ exists ty reason, ty ∈ ["tool_failure"; "bad_exit_criteria"; "unknown"] /\
       diag = [ev_diagnosed (pr_RunID p) (pr_WorkID p) ty reason]).
Proof.
  intros Hlc. unfold final_events. rewrite Hlc. eexists _, _. split; [reflexivity|].
  destruct (out_Success o); [by left|right]. unfold diagnosis.
  destruct (negb _); [eexists _, _; split; [|reflexivity]; in_list|].
  destruct (out_VerifyResult o) as [vr|]; [destruct (negb _)|];
    (eexists _, _; split; [|reflexivity]; in_list).
Qed.

Lemma handed_on_all ctx evs seen :
  Forall2 (recorded req deps ctx) evs seen -> Forall2 (handed_on deps req) evs seen.
Proof. intros Hall. eapply Forall2_impl; [exact Hall|]. intros ev x ?. by exists ctx. Qed.

(** What the run's work item is in the end. *)
Definition work_follows (o : run_outcome) (status : option string) : Prop :=
  match out_WorkerSuccess o, out_VerifyResult o with
  | false, _ => status = Some "failed"
  | true, None => status = Some "completed"
  | true, Some vr => verification_leaves vr (Some "completed") status
  end.

(** The tables after the events of a committed run. *)
Lemma run_trace_statuses st envs ctx (p : prepared W) o seen db :
  (forall n, no_faults (envs n)) -> hashed db ->
  pr_RunID p <> "" -> pr_WorkID p <> "" -> pr_SessionID p <> "" -> req_SessionID req <> pr_SessionID p ->
  out_FinalLifecycle o = closing_lifecycle (out_Success o) ->
  run_trace deps ctx req p o seen ->
  let db' := replay st envs seen db in
  run_status db' (pr_RunID p) = Some (closing_status (out_Success o)) /\
  agent_status db' (pr_SessionID p) = Some "stopped" /\
  work_follows o (work_status db' (pr_WorkID p)).
Proof.
  intros Hf Hh Hr Hw Hs Hhost Hlc [(evts & streamed & work & verified & final & -> & _ & _ & Hwork & Hty & Hno & Hver & Hfin)].
  rewrite replay_app. cbn [app replay]. rewrite replay_app.
  set (envs1 := fun n => envs (length streamed + n)). set (db0 := replay st envs streamed db).
  set (db1 := store_event st (envs1 0) work.2 db0). set (envs2 := fun n => envs1 (S n)).
  set (db2 := replay st envs2 verified db1). set (envs3 := fun n => envs2 (length verified + n)).
  destruct (store_recorded deps req Hids st (envs1 0) (term_ctx ctx) (work_event p (out_WorkerSuccess o)) work db0)
    as (_ & _ & _ & Wk & _); [apply Hf|by apply replay_hashed|by destruct (out_WorkerSuccess o)..| |by apply work_event_acceptable|done|].
  { left. by destruct (out_WorkerSuccess o). }
  fold db1 in Wk.
  assert (work_status db1 (pr_WorkID p) = Some (closing_status (out_WorkerSuccess o))) as Wk1
    by (destruct (out_WorkerSuccess o); by apply Wk). clear Wk.
  assert (known (db_works db2) (pr_WorkID p)) as Hk.
  { eapply known_le; [apply replay_le|]. apply (fmap_is_Some wk_status). by eexists. }
  pose proof (verified_statuses st envs2 _ _ _ _ verified db1 ltac:(intros n; apply Hf)
    ltac:(by apply store_event_hashed, replay_hashed) Hr Hw Hver Hty) as Wk2.
  destruct (final_events_shape p o Hlc) as (code & diag & Efin & Hdiag). rewrite Efin in Hfin.
  destruct (closing_statuses deps req Hids st envs3 (pr_RunID p) (pr_WorkID p) (pr_SessionID p)
    (out_Success o) _ diag final db2 ltac:(intros n; apply Hf)
    ltac:(by apply replay_hashed, store_event_hashed, replay_hashed) Hr Hw Hs Hhost Hk
    ltac:(right; eauto) Hdiag (handed_on_all _ _ _ Hfin)) as (R & A & Wk3).
  split_and!; [exact R|exact A|].
  change (work_follows o (work_status (replay st envs3 final db2) (pr_WorkID p))). rewrite Wk3. unfold work_follows.
  destruct (out_WorkerSuccess o) eqn:Eo.
  - rewrite Wk1 in Wk2. by destruct (out_VerifyResult o).
  - specialize (Hno eq_refl). subst verified. exact Wk1.
Qed.

(** The tables after the events of a run that bailed out. *)
Lemma failure_statuses st envs runID workID sessionID reason seen db :
  (forall n, no_faults (envs n)) -> hashed db -> runID <> "" -> workID <> "" -> sessionID <> "" ->
  req_SessionID req <> sessionID ->
  Forall2 (handed_on deps req) (failure_events runID workID sessionID "tool_failure" reason) seen ->
  let db' := replay st envs seen db in
  run_status db' runID = Some "failed" /\ agent_status db' sessionID = Some "stopped" /\
  work_status db' workID = Some "failed".
Proof.
  intros Hf Hh Hr Hw Hs Hhost. unfold failure_events.
  rewrite (proj2 (eqb_false _ _) Hw), (proj2 (eqb_false _ _) Hs). cbn [negb app].
  intros (x & xs & [c Hx] & Hall & ->)%Forall2_cons_inv_l. cbn [replay].
  destruct (store_recorded deps req Hids st (envs 0) c (ev_work_failed runID workID) x db)
    as (_ & _ & _ & Wk & _); [apply Hf|exact Hh|done|done|by left|apply work_done_acceptable|exact Hx|].
  set (db1 := store_event st (envs 0) x.2 db) in *. specialize (Wk Hw ltac:(done)).
  destruct (closing_statuses deps req Hids st (fun n => envs (S n)) runID workID sessionID false None
    [ev_diagnosed runID workID "tool_failure" reason] xs db1) as (R & A & Wk2); try done.
  - by apply store_event_hashed.
  - apply (fmap_is_Some wk_status). by eexists.
  - by left.
  - right. eexists _, _. split; [|reflexivity]. in_list.
  - split_and!; [exact R|exact A|]. by rewrite Wk2.
Qed.

(** C2: after a run the tables say what the response says, under these conditions:
    the request names no ids of its own, the run's session is not the session of
    the request, and the store takes the events that the run gave the sink, in
    order and without driver faults, its repositories having their ids as hashes as
    it writes them ([stray_work_id] shows that the first is needed). If the run was committed, its row is completed when the run succeeded
    and failed otherwise, which is also what decides the action of the response;
    its agent is stopped; and its work item has failed with the worker, is completed
    without a verification, and is verified or has failed with the verification's
    evidence. There is such evidence whenever the sink takes every event; otherwise
    the verification counts as failed, and the work item is completed unless the
    store was given the verification's own event. If the run bailed out after its
    first event, its run and its work item have failed and its agent is stopped. *)
Theorem ledger_agrees fuel ctx w w' resp st envs db0 :
  (forall n, no_faults (envs n)) -> hashed db0 ->
  handleRun fuel ctx req deps w = Some (w', resp) ->
  exists seen, ledger w' = ledger w ++ seen /\
  let db := replay st envs seen db0 in
  match (preWorker ctx req deps (w, [])).2 with
  | inr p =>
      req_SessionID req <> pr_SessionID p ->
      exists o ws, resp = buildRunResponse req p o ws /\
        run_status db (pr_RunID p) = Some (closing_status (out_Success o)) /\
        agent_status db (pr_SessionID p) = Some "stopped" /\
        work_follows o (work_status db (pr_WorkID p)) /\
        ((forall ctx e w, (RecordEvent sink ctx e w).2 = None) ->
         forall r, out_VerifyResult o = Some r -> vr_Evidence r <> []) /\
        (resp_Action resp = ActionNone <-> run_status db (pr_RunID p) = Some "completed")
  | inl bail =>
      resp_OK resp = false /\
      (seen = [] /\ bail_class bail = ErrorInvalidConfig \/
       exists runID workID sessionID kind,
         Forall2 (handed_on deps req) (start_events runID workID sessionID (pv req "goal") kind) (take 3 seen) /\
         (req_SessionID req <> sessionID ->
         run_status db runID = Some "failed" /\ agent_status db sessionID = Some "stopped" /\
         work_status db workID = Some "failed"))
  end.
Proof.
  intros Hf Hh. unfold handleRun. destruct (preWorker ctx req deps (w, [])) as [[w0 ws0] [bail|p]] eqn:Ep; cbn [snd].
  - intros [= <- <-].
    destruct (preWorker_bails deps sink ledger ctx req w _ _ Ep)
      as [[[= -> ->] Hc]|(_ & r & wk & sn & kind & err & reason & started & seen & Hr & Hw & Hs & Hall & Hl)].
    { exists []. rewrite app_nil_r. split; [done|]. split; [done|]. by left. }
    exists seen. split; [exact Hl|]. split; [done|]. right. exists r, wk, sn, kind.
    split. { exact (Forall2_take _ _ _ 3 Hall). } intros Hhost.
    rewrite (app_assoc _ _ (_ :: _)), cons_middle, app_assoc in Hall.
    apply Forall2_app_inv_l in Hall as (pre & fin & _ & Hfin & ->). rewrite replay_app.
    apply (failure_statuses st _ r wk sn reason); try done. by apply replay_hashed.
  - intros ([[w1 ws1] o] & E & [= <- <-])%bind_Some.
    destruct (preWorker_committed deps sink ledger ctx req _ _ _ Ep) as (Hq & pre & Lp & _).
    destruct (preWorker_ids deps ctx req _ _ _ Ep) as (Hr & Hw & Hs).
    destruct (runWithWorker_outcome _ _ _ _ _ _ E) as (Hlc & _ & Hev).
    apply (runWithWorker_seen deps sink ledger) in E as (seen & Ls & Ht); [|done]. cbn [fst] in Lp, Ls.
    exists (pre ++ seen). split; [by rewrite Ls, Lp, app_assoc|].
    set (db := replay st envs (pre ++ seen) db0). cbv zeta. intros Hhost.
    destruct (run_trace_statuses st (fun n => envs (length pre + n)) ctx p o seen
      (replay st envs pre db0) ltac:(intros n; apply Hf) ltac:(by apply replay_hashed) Hr Hw Hs Hhost Hlc Ht) as (R & A & Wk).
    rewrite <- replay_app in R, A, Wk. fold db in R, A, Wk.
    exists o, ws1. split_and!; [done|done|done|done|exact Hev|]. rewrite R. unfold buildRunResponse, closing_status.
    by destruct (out_Success o).
Qed.
End run.

(** ** The concrete world *)

#[local] Existing Instances world_clock world_exec world_files world_state world_entropy world_cancel
  plain_tables demo_yaml.

Definition calm (n : nat) : TxEnv := demo_env.

(** What [get] finds in the tables after a run of [req] with [worker]. *)
Definition after_run {A} (req : Request) (worker : Worker World) (get : DB -> prepared World -> A) : option A :=
  match (preWorker CtxRequest req (world_deps (Ok worker)) (w0, [])).2,
        handleRun 3 CtxRequest req (world_deps (Ok worker)) w0 with
  | inr p, Some (w', _) => Some (get (replay demo_store calm (w_seen w') empty_db) p)
  | _, _ => None
  end.

Definition row_statuses (db : DB) (p : prepared World) :=
  (run_status db (pr_RunID p), agent_status db (pr_SessionID p), work_status db (pr_WorkID p)).

Lemma ledger_agrees_witness :
  match (preWorker CtxRequest (run_request []) (world_deps (Ok good_worker)) (w0, [])).2,
        handleRun 3 CtxRequest (run_request []) (world_deps (Ok good_worker)) w0 with
  | inr p, Some (w', _) => exists o,
      run_status (replay demo_store calm (w_seen w') empty_db) (pr_RunID p) =
        Some (closing_status (out_Success o))
  | _, _ => False
  end.
Proof.
  destruct (handleRun _ _ _ _ _) as [[w' resp]|] eqn:E; [|vm_compute in E; discriminate E].
  assert (carries_no_ids (run_request [])) as Hids by (repeat constructor).
  destruct (ledger_agrees (world_deps (Ok good_worker)) world_sink w_seen
    (Hobs := world_observed (Ok good_worker) (world_worker_quiet _ _ _)) _ Hids _ _ _ _ _ demo_store
    calm empty_db ltac:(intros n; repeat split) ltac:(intros ? ? Hr; discriminate Hr) E) as (seen & Hl & Hc).
  destruct (preWorker _ _ _ _).2 as [b|p] eqn:Ep; [vm_compute in Ep; discriminate Ep|].
  assert (req_SessionID (run_request []) <> pr_SessionID p) as Hne.
  { assert (pr_SessionID p = "session_32") as ->; [|vm_compute; discriminate].
    transitivity (match (preWorker CtxRequest (run_request []) (world_deps (Ok good_worker)) (w0, [])).2 with
      inr p => pr_SessionID p | _ => "" end); [by rewrite Ep|vm_compute; reflexivity]. }
  destruct (Hc Hne) as (o & ws & _ & Hr & _). exists o. rewrite Hl. exact Hr.
Defined.

Example run_ledger_good :
  after_run (run_request []) good_worker row_statuses = Some (Some "completed", Some "stopped", Some "completed") /\
  after_run (run_request ["file_exists:go.mod"]) good_worker row_statuses =
    Some (Some "completed", Some "stopped", Some "verified") /\
  after_run (run_request ["no colon"]) good_worker row_statuses =
    Some (Some "failed", Some "stopped", Some "failed").
Proof. vm_compute. repeat split. Qed.

(** A request that carries the id of a work item the database does not know: the
    events that name no work item get it ([fill_event]), the foreign keys refuse
    them, and the row of the finished run stays at executing. *)
Definition stray_request : Request :=
  demo_request EventOnRun (<["goal" := VString "fix the build"]> {["work_id" := VString "w-9"]}).
Example stray_work_id :
  (resp_Action ∘ snd) <$> handleRun 3 CtxRequest stray_request (world_deps (Ok good_worker)) w0 = Some ActionNone /\
  after_run stray_request good_worker row_statuses = Some (Some "executing", Some "running", Some "completed").
Proof. vm_compute. repeat split. Qed.

(** The events of a run that name no agent are given the session of the host: it
    gets a row among the agents, which no event of the run stops. *)
Example host_session_runs :
  after_run (run_request ["no colon"]) good_worker
    (fun db _ => agent_status db (req_SessionID (run_request []))) = Some (Some "running").
Proof. vm_compute. reflexivity. Qed.
