(* ===== verification/HandleSpec.v ===== *)
(** * The request handlers

    What the handlers of [Orchestrator.v] and the dispatcher of [Run.v] promise a
    host: the shape of every response, the tool gate, prompt submission, and the
    end of a session. *)

From S2P Require Import State.
From S2P Require Import Prelude GoStrings GoValue GoTime GoPath GoFS Protocol Config Registry.
From S2P Require Import Route Prompt Guard Adapter Storage Host Orchestrator Checks Run.
From S2P Require Import DemoWorld Observe.

Section handlers.
Context {W : Type} `{Clock W} `{Exec W} `{Files W} `{StateFiles W} `{Entropy W} `{Cancellation W}.
Context `{UnicodeTables} `{YAML}.
Implicit Types (deps : Dependencies W) (w : W).

(** ** Every response *)

(** A response to [req]: well formed, under its id; a refusal only warns. *)
Definition answers (req : Request) (resp : Response) : Prop :=
  well_formed_response resp /\ resp_RequestID resp = req_RequestID req /\
  resp_Action resp ∈ [ActionNone; ActionInjectPrompt; ActionBlock; ActionWarn] /\
  (resp_OK resp = false -> resp_Action resp = ActionWarn /\ resp_Output resp = "").

Lemma answers_ok req action output warnings :
  action ∈ [ActionNone; ActionInjectPrompt; ActionBlock; ActionWarn] ->
  answers req (OKResponse (Some req) action output warnings).
Proof.
  intros Ha. split_and!; try done. apply OKResponse_well_formed. in_list_inv; done.
Qed.

Lemma answers_error req class message retryable warnings :
  answers req (ErrorResponse (Some req) ActionWarn
    (Some (NewProtocolError class message retryable)) warnings).
Proof. split_and!; try done; [apply ErrorResponse_new_well_formed | cbn; in_list]. Qed.

Ltac answer := first [apply answers_error | apply answers_ok; in_list].

Lemma handleSubmit_answers ctx req deps w : answers req (handleSubmit ctx req deps w).2.
Proof.
  unfold handleSubmit, config_failure. destruct (Load _ _) as [cfg|]; [|answer].
  destruct (Build _ _) as [reg|]; [|answer]. cbv zeta.
  destruct (BuildPrompt _ _) as [[out|]|]; [|answer..].
  destruct (recordStorageEvent _ _ _ _ _). cbn [snd]. answer.
Qed.

Lemma guard_action_spec d :
  guard_action d ∈ [ActionNone; ActionBlock; ActionWarn] /\
  (guard_action d = ActionBlock <-> gd_Action d = GuardBlock) /\
  (guard_action d = ActionWarn <-> gd_Action d = GuardWarn).
Proof.
  unfold guard_action. destruct (gd_Action d =s GuardBlock) eqn:E1; str_simpl.
  { rewrite E1. repeat split; try done. in_list. }
  destruct (gd_Action d =s GuardWarn) eqn:E2; str_simpl.
  { rewrite E2. repeat split; try done. in_list. }
  split; [in_list|]. repeat split; done.
Qed.

Lemma handleToolBefore_answers ctx req deps w : answers req (handleToolBefore ctx req deps w).2.
Proof.
  unfold handleToolBefore. cbv zeta. set (d := gr_Decision _).
  destruct (guard_action_spec d) as [Ha _].
  destruct (if guard_action d =s ActionBlock then _ else _) as [ty st].
  destruct (recordStorageEvent _ _ _ _ _). cbn [snd]. apply answers_ok. set_solver.
Qed.

Lemma handleToolAfter_answers ctx req deps w : answers req (handleToolAfter ctx req deps w).2.
Proof.
  unfold handleToolAfter. destruct (if _ || _ then _ else _) as [ty st].
  destruct (recordStorageEvent _ _ _ _ _). cbn [snd]. answer.
Qed.

Lemma handleStateTransition_answers ctx req deps to cx w :
  answers req (handleStateTransition ctx req deps to cx w).2.
Proof.
  unfold handleStateTransition.
  assert (forall store, answers req
    (if req_SessionID req =s "" then
        (w, OKResponse (Some req) ActionNone ""
              (Some ["state transition skipped: session_id is required"]))
      else
        let '(w, t) := now deps w in
        match store_Transition store (req_SessionID req)
          (State.mkInput to cx (dep_OwnerID deps) (req_RequestID req) (blockedReason req)
             (errorSummary req) None t) w with
        | (w, Err err) =>
            (w, ErrorResponse (Some req) ActionWarn
                  (Some (NewProtocolError ErrorUnknown (Error err) false)) None)
        | (w, Ok record) =>
            let '(w, err) := recordStorageEvent ctx req deps
              (event_literal EventRunStatusChanged "" "" "" "" "run_core" (dep_OwnerID deps)
                 (State.sr_Lifecycle record) (State.sr_Lifecycle record) None) w in
            match err with
            | Some err => (w, OKResponse (Some req) ActionWarn "" (Some [storageWarning err]))
            | None => (w, OKResponse (Some req) ActionNone "" None)
            end
        end).2) as Ha.
  { intros store. destruct (req_SessionID req =s ""); [answer|]. destruct (now deps w) as [w1 t].
    destruct (store_Transition _ _ _ _) as [w2 [record|err]]; [|answer].
    destruct (recordStorageEvent _ _ _ _ _) as [w3 [err|]]; answer. }
  destruct (dep_StateStore deps) as [store|]; [apply Ha|].
  destruct (_ || _); [answer | apply Ha].
Qed.

Lemma handleRun_answers fuel ctx req deps w w' resp :
  handleRun fuel ctx req deps w = Some (w', resp) -> answers req resp.
Proof.
  unfold handleRun. destruct (preWorker _ _ _ _) as [[w1 ws1] [bail|p]].
  { intros [= _ <-]. answer. }
  intros ([[w2 ws2] o] & _ & [= _ <-])%bind_Some. unfold buildRunResponse.
  destruct (out_Success o); answer.
Qed.

Lemma Handle_answered fuel ctx req deps w w' resp :
  Handle fuel ctx (Some req) deps w = Some (w', resp) -> answers req resp.
Proof.
  unfold Handle. intros E. revert E.
  repeat match goal with |- context [if ?b then _ else _] => destruct b end;
    [..|intros [= _ <-]; answer];
    try (intros [= Hr]; match type of Hr with ?p = _ => replace resp with p.2 by (by rewrite Hr) end;
         first [apply handleSubmit_answers | apply handleToolBefore_answers
               | apply handleStateTransition_answers | apply handleToolAfter_answers]).
  - intros [= _ <-]. answer.
  - apply handleRun_answers.
Qed.

(** C18: every request is answered in the protocol's terms: the response carries the
    request's id, never has null warnings, has an error with class and message
    exactly when it is not ok, and then only warns; the host is never told to
    replace anything. Compaction and unknown events do nothing. *)
Theorem Handle_answers fuel ctx req deps w w' resp :
  Handle fuel ctx (Some req) deps w = Some (w', resp) ->
  answers req resp /\
  (req_Event req ∉ [EventOnSubmit; EventOnToolBefore; EventOnToolAfter; EventOnError; EventOnStop;
                    EventOnRun] -> w' = w /\ resp_Action resp = ActionNone).
Proof.
  intros E. split; [by eapply Handle_answered|]. unfold Handle in E.
  intros Hn. revert E.
  repeat match goal with |- context [req_Event req =s ?e] =>
    destruct (req_Event req =s e) eqn:?; str_simpl end;
    try (exfalso; apply Hn; match goal with E : req_Event req = _ |- _ => rewrite E end; in_list).
  all: by intros [= <- <-].
Qed.

(** ** The tool gate *)

Section observed.
Context {deps0 : Dependencies W} {sink : Sink W} {ledger : W -> list (context * Event)}.
Context {Hobs : Observed deps0 sink ledger}.

(** The guard's result for a tool call. *)
Definition gate_result (req : Request) deps : GuardResult :=
  Evaluate (guardInput req) (dep_GuardRules deps) (dep_GuardSuppressions deps).

(** C15: the tool gate answers with the guard's verdict, whatever the sink says to
    the record of it: the host is told to block exactly when the guard blocks -
    so always when a live rule fails on a destructive tool - with the guard's
    reason as output and all its warnings, and exactly one event is recorded, a
    blocked call or a started one. *)
Theorem handleToolBefore_gates ctx req w w' resp :
  handleToolBefore ctx req deps0 w = (w', resp) ->
  let r := gate_result req deps0 in
  (resp_Action resp = ActionBlock <-> gd_Action (gr_Decision r) = GuardBlock) /\
  (resp_Action resp = ActionWarn <-> gd_Action (gr_Decision r) = GuardWarn) /\
  (forall rule err, rule ∈ dep_GuardRules deps0 ->
     live (guardInput req) (dep_GuardSuppressions deps0) rule = true ->
     rule_Evaluate rule (guardInput req) = Err err -> isDestructive (pv req "tool") = true ->
     resp_Action resp = ActionBlock) /\
  resp_OK resp = true /\ resp_Output resp = gd_Reason (gr_Decision r) /\
  (exists rest, resp_Warnings resp = Some (gr_Warnings r ++ rest)) /\
  exists c e, ledger w' = ledger w ++ [(c, e)] /\ c = ctx /\
    ev_Type e = (if resp_Action resp =s ActionBlock then EventToolCallBlocked
                 else EventToolCallStarted) /\
    ev_RequestID e = req_RequestID req.
Proof.
  unfold handleToolBefore. cbv zeta. intros E.
  fold (gate_result req deps0) in E. set (r := gate_result req deps0) in *.
  destruct (guard_action_spec (gr_Decision r)) as (_ & Hblock & Hwarn).
  set (attrs := storageAttributes req _) in E.
  destruct (if guard_action (gr_Decision r) =s ActionBlock then _ else _) as [ty st] eqn:Et.
  assert (ty = if guard_action (gr_Decision r) =s ActionBlock then EventToolCallBlocked
               else EventToolCallStarted) as Hty.
  { revert Et. repeat match goal with |- context [if ?b then _ else _] => destruct b end;
      by intros [= <- <-]. }
  destruct (recordStorageEvent_seen ctx req (event_literal ty "" "" "" "" "tool" "" st "" attrs) w)
    as ((c & e) & Hrec & Hl).
  { rewrite Hty. destruct (_ =s ActionBlock); done. }
  destruct (recordStorageEvent _ _ _ _ _) as [w1 err]. injection E as <- <-. cbn [fst] in Hl.
  cbn [resp_Action resp_OK resp_Output resp_Warnings OKResponse normalizeWarnings].
  split_and!; try done.
  - intros rule er Hin Hlive Herr Hdes. apply Hblock. by eapply failing_rule_blocks.
  - eexists. by rewrite <- app_assoc.
  - exists c, e. rewrite <- Hty. split; [done|]. destruct Hrec as [<- [t He]]. cbn in He. subst e.
    split_and!; try done. cbn. by destruct (req_RequestID req).
Qed.

(** ** Submitted prompts *)

(** The sections a submitted prompt is built from. *)
Definition submit_sections deps (reg : Registry) (result : RouteResult) : list SectionSpec :=
  match dep_PromptSections deps with
  | [] => defaultPromptSections (default zero_regagent (Agent_ reg (rt_Agent result))) result
            (dep_ProjectContext deps)
  | l => l
  end.

(** C19: a submitted prompt is answered with the prompt built from the configured
    sections (or the default ones for the routed agent) and one recorded run, or
    is refused with [invalid_config] and records nothing. Without a token budget
    it is refused only when the configuration does not load or the registry does
    not build; selecting sections always ends. *)
Theorem handleSubmit_spec ctx req w w' resp :
  handleSubmit ctx req deps0 w = (w', resp) ->
  match Config.Load (os_ReadFile w) (configOptions req deps0) with
  | Err _ => resp_OK resp = false
  | Ok cfg =>
      match Build cfg (dep_RegistryOptions deps0) with
      | Err _ => resp_OK resp = false
      | Ok reg =>
          let result := Route (payloadText req) reg in
          let sections := submit_sections deps0 reg result in
          (resp_OK resp = true -> exists out,
             BuildPrompt sections (dep_PromptBudget deps0) = Some (Ok out) /\
             resp_Output resp = bo_SystemPrompt out /\ resp_Action resp = ActionInjectPrompt /\
             exists c e, ledger w' = ledger w ++ [(c, e)] /\ c = ctx /\
               ev_Type e = EventRunCreated /\ ev_Status e = "scoped") /\
          ((tb_MaxTokens (dep_PromptBudget deps0) <= 0)%Z -> resp_OK resp = true)
      end
  end /\
  (resp_OK resp = false -> w' = w /\
     exists e, resp_Error resp = Some e /\ re_Class e = ErrorInvalidConfig).
Proof.
  assert (forall err warnings, w' = w -> resp = config_failure req err warnings ->
    resp_OK resp = false /\ (resp_OK resp = false -> w' = w /\
      exists e, resp_Error resp = Some e /\ re_Class e = ErrorInvalidConfig)) as Hfail.
  { intros err warnings -> ->. cbn. eauto. }
  unfold handleSubmit. destruct (Config.Load _ _) as [cfg|err]; [|intros [= <- <-]; by eapply Hfail].
  destruct (Build _ _) as [reg|err]; [|intros [= <- <-]; by eapply Hfail]. cbv zeta.
  fold (submit_sections deps0 reg (Route (payloadText req) reg)).
  set (sections := submit_sections deps0 reg (Route (payloadText req) reg)).
  pose proof (BuildPrompt_total sections (dep_PromptBudget deps0)) as Htot.
  pose proof (BuildPrompt_unbounded sections (dep_PromptBudget deps0)) as Hun.
  destruct (BuildPrompt sections _) as [[out|err]|]; [| |by destruct Htot].
  - destruct (recordStorageEvent_seen ctx req
      (event_literal EventRunCreated "" "" "" "" "user" "" "scoped" "" None) w) as ((c & e) & Hrec & Hl);
      [done|].
    destruct (recordStorageEvent _ _ _ _ _) as [w1 err]. intros [= <- <-]. cbn [fst] in Hl.
    split; [|done]. split; [|done]. intros _. exists out. split_and!; try done.
    exists c, e. destruct Hrec as [<- [t He]]. cbn in He. by subst e.
  - intros [= <- <-]. destruct (Hfail err (Some (reg_Warnings reg ++ [routeWarning (Route (payloadText req) reg)])))
      as [Hf Hr]; [done..|]. split; [|done]. split; [by rewrite Hf|].
    intros Hb. by destruct (Hun Hb) as [out [=]].
Qed.

(** ** The end of a session *)

Context {Hsa : StateApart deps0}.

(** The store a host event's transition goes to. *)
Definition host_store (req : Request) : State.Store :=
  match dep_StateStore deps0 with
  | Some store => store
  | None => State.NewStore (req_Project req) (State.mkOptions 0)
  end.

Definition transition_input (req : Request) (to cx : string) (t : time) : State.TransitionInput :=
  State.mkInput to cx (dep_OwnerID deps0) (req_RequestID req) (blockedReason req) (errorSummary req)
    None t.

(** The branch of [handleStateTransition] that has a store and a session. *)
Lemma handleStateTransition_stored ctx req to cx w :
  req_SessionID req <> "" -> (dep_StateStore deps0 <> None \/ req_Project req <> "") ->
  handleStateTransition ctx req deps0 to cx w =
    let '(w, t) := now deps0 w in
    match store_Transition (host_store req) (req_SessionID req) (transition_input req to cx t) w with
    | (w, Err err) =>
        (w, ErrorResponse (Some req) ActionWarn
              (Some (NewProtocolError ErrorUnknown (Error err) false)) None)
    | (w, Ok record) =>
        let '(w, err) := recordStorageEvent ctx req deps0
          (event_literal EventRunStatusChanged "" "" "" "" "run_core" (dep_OwnerID deps0)
             (State.sr_Lifecycle record) (State.sr_Lifecycle record) None) w in
        match err with
        | Some err => (w, OKResponse (Some req) ActionWarn "" (Some [storageWarning err]))
        | None => (w, OKResponse (Some req) ActionNone "" None)
        end
    end.
Proof.
  intros Hs Hst. unfold handleStateTransition, host_store. apply eqb_false in Hs. rewrite Hs.
  destruct (dep_StateStore deps0) as [store|]; [done|]. destruct Hst as [|Hp]; [done|].
  apply eqb_false in Hp. by rewrite Hp.
Qed.

(** C16: a host's stop or error moves its session along the lifecycle graph and is
    recorded, or changes nothing: an ok response means that the transition was
    legal, that the session's file holds its outcome and that exactly one status
    change to that lifecycle was recorded; any other response leaves the
    session's file and the ledger as they were. The sink's answer only adds a
    warning. *)
Theorem handleStateTransition_spec ctx req to cx w w' resp :
  handleStateTransition ctx req deps0 to cx w = (w', resp) ->
  plain (req_SessionID req) -> (dep_StateStore deps0 <> None \/ req_Project req <> "") ->
  let store := host_store req in
  let sid := req_SessionID req in
  if resp_OK resp then
    (exists current next, State.current_record (state_fs w) store sid = Ok current /\
       State.lstep (State.sr_Lifecycle current) to /\ State.sr_Lifecycle next = to /\
       State.Read (state_fs w') store sid = Ok (State.json_record next)) /\
    exists e, ledger w' = ledger w ++ [(ctx, e)] /\ ev_Type e = EventRunStatusChanged /\
      ev_Status e = to /\ ev_Lifecycle e = to /\ ev_AgentSessionID e = sid
  else
    ReadFile (state_fs w') (State.sessionPath store sid)
      = ReadFile (state_fs w) (State.sessionPath store sid) /\
    ledger w' = ledger w.
Proof.
  intros E Hp Hst. assert (req_SessionID req <> "") as Hne by (by destruct Hp).
  rewrite handleStateTransition_stored in E by done. cbv zeta.
  pose proof (now_quiet (ledger := ledger) w) as Hq. pose proof (now_files (deps := deps0) w) as Hf.
  destruct (now deps0 w) as [w1 t]. cbn [fst] in Hq, Hf.
  pose proof (store_Transition_quiet (ledger := ledger) (host_store req) (req_SessionID req)
    (transition_input req to cx t) w1) as Hq2.
  destruct (store_Transition _ _ _ _) as [w2 [next|err]] eqn:Et; cbn [fst] in Hq2.
  - apply (store_Transition_effect (deps := deps0)) in Et as (Hto & (cur & Hcur & Hstep) & Hread); [|done].
    cbn in Hto, Hstep. rewrite Hf in Hcur.
    destruct (recordStorageEvent_seen (ledger := ledger) ctx req
      (event_literal EventRunStatusChanged "" "" "" "" "run_core" (dep_OwnerID deps0)
        (State.sr_Lifecycle next) (State.sr_Lifecycle next) None) w2) as ((c & e) & Hrec & Hl); [done|].
    pose proof (recordStorageEvent_files (deps := deps0) ctx req
      (event_literal EventRunStatusChanged "" "" "" "" "run_core" (dep_OwnerID deps0)
        (State.sr_Lifecycle next) (State.sr_Lifecycle next) None) w2) as Hf2.
    destruct (recordStorageEvent _ _ _ _ _) as [w3 err]. cbn [fst] in Hl, Hf2.
    assert (w' = w3 /\ resp_OK resp = true) as [-> ->] by (destruct err; by injection E as <- <-).
    split.
    + exists cur, next. rewrite Hf2. done.
    + destruct Hrec as [<- [t' He]]. cbn in He. exists e. rewrite Hl, Hq2, Hq. subst e.
      split_and!; try done. cbn. apply eqb_false in Hne. unfold first_non_empty.
      by destruct (req_SessionID req).
  - injection E as <- <-. cbn [resp_OK ErrorResponse]. rewrite Hq2, Hq.
    apply (store_Transition_effect (deps := deps0)) in Et; [|done]. by rewrite Et, Hf.
Qed.

(** The session has no file. *)
Definition no_session_file (w : W) (store : State.Store) (sid : string) : Prop :=
  exists err, State.Read (state_fs w) store sid = Err err /\ is_not_exist err = true.

Lemma missing_is_inactive w store sid :
  no_session_file w store sid ->
  State.current_record (state_fs w) store sid = Ok (State.inactive_record sid).
Proof. intros (err & E & Hn). unfold State.current_record. by rewrite E, Hn. Qed.

Lemma no_session_file_same w w' store sid :
  ReadFile (state_fs w') (State.sessionPath store sid)
    = ReadFile (state_fs w) (State.sessionPath store sid) ->
  no_session_file w store sid -> no_session_file w' store sid.
Proof. intros E. unfold no_session_file, State.Read, State.readRecord. by rewrite E. Qed.

Lemma transition_of_missing ctx req to cx w w' resp :
  handleStateTransition ctx req deps0 to cx w = (w', resp) ->
  plain (req_SessionID req) -> (dep_StateStore deps0 <> None \/ req_Project req <> "") ->
  no_session_file w (host_store req) (req_SessionID req) -> to <> State.LifecycleRunning ->
  resp_OK resp = false /\ no_session_file w' (host_store req) (req_SessionID req).
Proof.
  intros E Hp Hst Hno Hto. assert (req_SessionID req <> "") as Hne by (by destruct Hp).
  rewrite handleStateTransition_stored in E by done.
  pose proof (now_files (deps := deps0) w) as Hf. destruct (now deps0 w) as [w1 t]. cbn [fst] in Hf.
  destruct (store_Transition _ _ _ _) as [w2 [next|err]] eqn:Et;
    apply (store_Transition_effect (deps := deps0)) in Et; try done.
  - destruct Et as (_ & (cur & Hcur & Hstep) & _). rewrite Hf in Hcur.
    rewrite (missing_is_inactive _ _ _ Hno) in Hcur. injection Hcur as <-. cbn in Hstep.
    by apply State.lstep_from_inactive in Hstep.
  - injection E as <- <-. split; [done|]. eapply no_session_file_same; [|exact Hno]. by rewrite Et, Hf.
Qed.

(** C17: no hook event starts a session: as long as a host only submits prompts,
    calls tools, compacts, stops and reports errors, its session never gets a
    state file, and therefore each of its stops and errors is refused as an
    illegal transition from [inactive]. (Only runs start sessions, under ids of
    their own.) *)
Theorem hooks_never_start_session fuel ctx req w w' resp :
  Handle fuel ctx (Some req) deps0 w = Some (w', resp) ->
  req_Event req <> EventOnRun -> plain (req_SessionID req) ->
  (dep_StateStore deps0 <> None \/ req_Project req <> "") ->
  no_session_file w (host_store req) (req_SessionID req) ->
  no_session_file w' (host_store req) (req_SessionID req) /\
  (req_Event req ∈ [EventOnStop; EventOnError] -> resp_OK resp = false).
Proof.
  intros E Hrun Hp Hst Hno. revert E. unfold Handle.
  assert (forall ev, state_fs (recordStorageEvent ctx req deps0 ev w).1 = state_fs w) as Hrec
    by (intros ev; apply recordStorageEvent_files).
  assert (forall w1, state_fs w1 = state_fs w -> no_session_file w1 (host_store req) (req_SessionID req))
    as Hsame by (intros w1 Hw; unfold no_session_file; by rewrite Hw).
  repeat match goal with |- context [req_Event req =s ?e] =>
    destruct (req_Event req =s e) eqn:?; str_simpl end; try done.
  - intros [= Hr]. split; [|intros Hev; rewrite Heqb in Hev; in_list_cases Hev; discriminate].
    apply Hsame. revert Hr. unfold handleSubmit, config_failure.
    destruct (Load _ _); [|by intros [= <- _]]. destruct (Build _ _); [|by intros [= <- _]]. cbv zeta.
    destruct (BuildPrompt _ _) as [[out|]|]; [|by intros [= <- _]..].
    specialize (Hrec (event_literal EventRunCreated "" "" "" "" "user" "" "scoped" "" None)).
    destruct (recordStorageEvent _ _ _ _ _). cbn in Hrec. by intros [= <- _].
  - intros [= Hr]. split; [|intros Hev; rewrite Heqb0 in Hev; in_list_cases Hev; discriminate].
    apply Hsame. revert Hr. unfold handleToolBefore. cbv zeta.
    destruct (if _ =s ActionBlock then _ else _) as [ty st]. intros Hr.
    match type of Hr with context [recordStorageEvent _ _ _ ?ev _] => specialize (Hrec ev) end.
    destruct (recordStorageEvent _ _ _ _ _). cbn in Hrec. by injection Hr as <- _.
  - intros [= Hr]. apply transition_of_missing in Hr as [Hok Hn]; try done.
    unfold lifecycleForError. by destruct (_ || _).
  - intros [= Hr]. by apply transition_of_missing in Hr as [Hok Hn].
  - intros [= Hr]. split; [|intros Hev; rewrite Heqb3 in Hev; in_list_cases Hev; discriminate].
    apply Hsame. revert Hr. unfold handleToolAfter.
    destruct (if _ || _ then _ else _) as [ty st]. intros Hr.
    match type of Hr with context [recordStorageEvent _ _ _ ?ev _] => specialize (Hrec ev) end.
    destruct (recordStorageEvent _ _ _ _ _). cbn in Hrec. by injection Hr as <- _.
  - intros [= <- _]. split; [by apply Hsame|]. intros Hev. rewrite Heqb4 in Hev. in_list_cases Hev; discriminate.
  - intros [= <- _]. split; [by apply Hsame|]. intros Hev. in_list_cases Hev; congruence.
Qed.
End observed.
End handlers.

(** ** Witnesses *)

#[local] Existing Instances world_clock world_exec world_files world_state world_entropy world_cancel
  plain_tables demo_yaml.

Definition boom_rule : Rule := mkRule "boom" (fun _ => Err (errorf "boom")).
Definition guarded_deps : Dependencies World :=
  mkDeps (Config.mkOptions "" "" "") (mkRegOptions false) [boom_rule] [] None (Some world_sink) []
    (mkTokenBudget 0) (mkProjectContext "") "owner" None None.

#[local] Instance guarded_observed : Observed guarded_deps world_sink w_seen.
Proof. constructor; try done. Qed.
#[local] Instance guarded_apart : StateApart guarded_deps.
Proof. constructor; try done. by intros sink ctx e [= <-]. Qed.

Definition write_request : Request := demo_request EventOnToolBefore {["tool" := VString "Write"]}.
Definition submit_request : Request := demo_request EventOnSubmit {["prompt" := VString "hello"]}.
Definition stop_request : Request := demo_request EventOnStop ∅.

Lemma Handle_answers_witness :
  match Handle 0 CtxRequest (Some stop_request) guarded_deps w0 with
  | Some (_, resp) => resp_RequestID resp = "req-1" /\ well_formed_response resp
  | None => False
  end.
Proof.
  destruct (Handle 0 CtxRequest (Some stop_request) guarded_deps w0) as [[w resp]|] eqn:E.
  - destruct (Handle_answers _ _ _ _ _ _ _ E) as [(Hw & Hid & _) _]. split; [exact Hid | exact Hw].
  - vm_compute in E. discriminate E.
Defined.

Lemma handleToolBefore_gates_witness :
  resp_Action (handleToolBefore CtxRequest write_request guarded_deps w0).2 = ActionBlock /\
  length (w_seen (handleToolBefore CtxRequest write_request guarded_deps w0).1) = 1.
Proof.
  destruct (handleToolBefore CtxRequest write_request guarded_deps w0) as [w resp] eqn:E.
  destruct (handleToolBefore_gates _ _ _ _ _ E) as (_ & _ & Hf & _ & _ & _ & (c & e & Hl & _)).
  split.
  - apply (Hf boom_rule (errorf "boom")); [in_list | vm_compute; reflexivity | reflexivity
      | vm_compute; reflexivity].
  - cbn [fst]. rewrite Hl. reflexivity.
Defined.

Lemma handleSubmit_spec_witness :
  resp_OK (handleSubmit CtxRequest submit_request guarded_deps w0).2 = true.
Proof.
  assert (match Config.Load (os_ReadFile w0) (configOptions submit_request guarded_deps) with
          | Ok cfg => is_ok (Build cfg (dep_RegistryOptions guarded_deps))
          | Err _ => false
          end = true) as Hc by (vm_compute; reflexivity).
  destruct (handleSubmit CtxRequest submit_request guarded_deps w0) as [w resp] eqn:E.
  destruct (handleSubmit_spec _ _ _ _ _ E) as [Hs _].
  destruct (Config.Load _ _) as [cfg|]; [|discriminate Hc].
  destruct (Build cfg _) as [reg|]; [|discriminate Hc].
  apply (proj2 Hs). cbn. lia.
Defined.

(** A session that a run left running, then stopped by its host. *)
Definition w_running : World :=
  mkWorld 5 [] []
    (mkFS {["/p/.omg/state/sessions/s1/state.json" :=
              State.CRecord (State.mkState "running" "c" "s1" "owner" "r" 4 4 "" None None)]} ∅) [].

Lemma handleStateTransition_spec_witness :
  match handleStateTransition CtxRequest stop_request guarded_deps State.LifecycleCancelled "stop"
          w_running with
  | (w, resp) => resp_OK resp = true /\ length (w_seen w) = 1 /\
      exists current, State.lstep (State.sr_Lifecycle current) State.LifecycleCancelled
  end.
Proof.
  assert (resp_OK (handleStateTransition CtxRequest stop_request guarded_deps
    State.LifecycleCancelled "stop" w_running).2 = true) as Hok by (vm_compute; reflexivity).
  destruct (handleStateTransition CtxRequest stop_request guarded_deps State.LifecycleCancelled "stop"
    w_running) as [w resp] eqn:E. cbn [snd] in Hok.
  pose proof (handleStateTransition_spec _ _ _ _ _ _ _ E) as Hs. cbv zeta in Hs.
  assert (plain (req_SessionID stop_request)) as Hp
    by (apply (bool_decide_unpack _); vm_compute; exact I).
  assert (dep_StateStore guarded_deps <> None \/ req_Project stop_request <> "") as Hst
    by (right; cbn; discriminate).
  specialize (Hs Hp Hst). rewrite Hok in Hs.
  destruct Hs as ((cur & next & _ & Hstep & _) & (e & Hl & _)).
  split; [exact Hok|]. split; [rewrite Hl; reflexivity|]. exists cur. exact Hstep.
Defined.

Lemma hooks_never_start_session_witness :
  match Handle 0 CtxRequest (Some stop_request) guarded_deps w0 with
  | Some (_, resp) => resp_OK resp = false
  | None => False
  end.
Proof.
  destruct (Handle 0 CtxRequest (Some stop_request) guarded_deps w0) as [[w resp]|] eqn:E.
  - destruct (hooks_never_start_session _ _ _ _ _ _ E) as [_ Hr].
    + discriminate.
    + apply (bool_decide_unpack _). vm_compute. exact I.
    + right. cbn. discriminate.
    + exists (not_exist "open" "/p/.omg/state/sessions/s1/state.json").
      split; vm_compute; reflexivity.
    + apply Hr. in_list.
  - vm_compute in E. discriminate E.
Defined.

(** A run whose worker does not spawn is recorded as failed, but the state file of
    its session keeps saying that it is running. *)
Definition broken_worker : Worker World :=
  world_worker [] (mkWorkerResult 0 true "") (Some (errorf "no such binary")).

Example spawn_failure_leaves_running :
  match handleRun 0 CtxRequest (run_request []) (world_deps (Ok broken_worker)) w0 with
  | Some (w, resp) =>
      resp_OK resp = false /\
      map (fun p => (ev_Type p.2, ev_Status p.2)) (drop 7 (w_seen w)) =
        [(EventRunStatusChanged, "failed"); (EventAgentStopped, "failed");
         (EventFailureDiagnosed, "diagnosed")] /\
      match map snd (map_to_list (fs_files (w_fs w))) with
      | [State.CRecord r] => State.sr_Lifecycle r = State.LifecycleRunning
      | _ => False
      end
  | None => False
  end.
Proof. vm_compute. repeat split. Qed.
