(* ===== verification/CliSpec.v ===== *)
(** * What the command line promises

    Theorems about [Cli.v]: the parser of [omg run], the exit codes, and runs that
    go through a daemon. *)

From S2P Require Import Prelude GoStrings GoValue GoTime Protocol.
From S2P Require Import Config Registry Prompt Adapter Storage Host.
From S2P Require Import Orchestrator Run DemoWorld Cli.

(** ** Arguments *)

Inductive item := Word (s : string) | Check (c : string).

Definition render (items : list item) : list string :=
  concat (map (fun i => match i with Word s => [s] | Check c => ["--check"; c] end) items).
Definition checks_of (items : list item) : list string :=
  omap (fun i => match i with Check c => Some c | Word _ => None end) items.
Definition words_of (items : list item) : list string :=
  omap (fun i => match i with Word s => Some s | Check _ => None end) items.

(** C35: whatever order checks and words of the goal are given in, the parser of
    [omg run] finds each check in order and keeps the words as the goal - even a
    check whose text is the flag itself. A flag without a text, at the end, is a
    word of the goal. *)
Theorem parse_run_args_render items :
  "--check" ∉ words_of items ->
  parse_run_args (render items) = (checks_of items, words_of items) /\
  parse_run_args (render items ++ ["--check"]) = (checks_of items, words_of items ++ ["--check"]).
Proof.
  induction items as [|[s|c] items IH]; intros Hn; [done| |].
  - assert (s <> "--check" /\ "--check" ∉ words_of items) as [Hs Hw] by (cbn in Hn; set_solver).
    destruct (IH Hw) as [E1 E2]. cbn [render map concat app parse_run_args].
    apply eqb_false in Hs. rewrite Hs. change (concat (map _ items)) with (render items).
    by rewrite E1, E2.
  - destruct (IH Hn) as [E1 E2]. cbn [render map concat app parse_run_args].
    rewrite String.eqb_refl. change (concat (map _ items)) with (render items).
    by rewrite E1, E2.
Qed.

Section cli.
Context {W : Type} `{Clock W} `{Exec W} `{Files W} `{StateFiles W} `{Entropy W} `{Cancellation W}.
Context `{UnicodeTables} `{YAML}.
Implicit Types (deps : CliDeps W) (w : W).

(** ** Exit codes *)

(** One response on the standard output. *)
Definition answered (f : finished) (resp : Response) : Prop := f_stdout f = [out_response resp].

Lemma hook_command_spec fallback ctx decoded deps w w' f :
  hook_command fallback ctx decoded deps w = (w', f) ->
  f_code f = 0%Z /\ exists resp, answered f resp.
Proof.
  unfold hook_command, answered. destruct (ReadRequest decoded) as [[req|] [perr|]];
    try (intros [= _ <-]; cbn; eauto).
  destruct (cli_RoundTrip deps ctx req w) as [w1 [resp|err]]; intros [= _ <-]; cbn; eauto.
Qed.

Lemma runInlineFallback_spec fuel ctx req deps w w' f :
  runInlineFallback fuel ctx req deps w = Some (w', f) ->
  exists resp, answered f resp /\ f_code f = exit_of resp.
Proof.
  unfold runInlineFallback, answered. destruct (Config.Load _ _) as [cfg|]; [|intros [= _ <-]; cbn; eauto].
  destruct (buildStorageSink ctx cfg deps w) as [w1 [sink err]].
  intros ([w2 resp] & _ & [= _ <-])%bind_Some. cbn. eauto.
Qed.

Lemma runRun_spec fuel ctx args deps w w' f :
  runRun fuel ctx args deps w = Some (w', f) -> exists resp, answered f resp /\ f_code f = exit_of resp.
Proof.
  unfold runRun. destruct (parse_run_args args) as [checks [|g goal]].
  { intros [= _ <-]. eexists. by split. }
  destruct (newRequestID w) as [w1 id].
  destruct (cli_RoundTrip _ _ _ _) as [w2 [resp|err]].
  { intros [= _ <-]. eexists. by split. }
  intros ([w3 f1] & E & [= _ <-])%bind_Some. apply runInlineFallback_spec in E as (resp & Ha & Hc).
  exists resp. by split.
Qed.

(** The commands that serve or run until something outside ends: the server, and a
    worker. *)
Definition long_running (args : list string) : Prop :=
  head args = Some "run" \/ take 2 args = ["daemon"; "start"].

(** The commands there are. *)
Definition known_command (args : list string) : Prop :=
  head args ∈ Some <$> ["version"; "reload"; "on-submit"; "on-tool-before"; "run"] \/
  take 2 args ∈ [["daemon"; "start"]; ["daemon"; "stop"]].

(** What the command line answers to anything else. *)
Definition refusal (args : list string) : string :=
  match args with
  | [] => "missing command"
  | cmd :: rest => if cmd =s "daemon" then match rest with [] => "missing daemon subcommand"
                                                         | _ => "unknown daemon subcommand" end
                   else "unknown command"
  end.

Definition stop_request deps : Request :=
  mkRequest Version "daemon-stop" ProviderDirect EventOnStop (cli_cwd deps) (cli_cwd deps) "" 300 ∅ ∅.

(** The reasons why a daemon does not start, or ends badly. *)
Definition start_failures : list string :=
  ["config validation failed: "; "registry validation failed: "; "storage validation failed: ";
   "daemon start failed: "].

Lemma runDaemonStart_spec fuel ctx deps w w' f :
  runDaemonStart fuel ctx deps w = Some (w', f) ->
  f_stdout f = [] /\
  (f_code f = 0%Z /\ f_stderr f = [] /\
     (exists cfg reg, Config.Load (os_ReadFile w) (cli_configOptions deps) = Ok cfg /\
        Build cfg (mkRegOptions false) = Ok reg) \/
   f_code f = 1%Z /\ exists what err, what ∈ start_failures /\ f_stderr f = [what +:+ Error err]).
Proof.
  unfold runDaemonStart. destruct (Config.Load _ _) as [cfg|err] eqn:Ec.
  2:{ intros [= _ <-]. split; [done|]. right. split; [done|]. eexists _, _. split; [|reflexivity]. in_list. }
  destruct (Build cfg _) as [reg|err] eqn:Eb.
  2:{ intros [= _ <-]. split; [done|]. right. split; [done|]. eexists _, _. split; [|reflexivity]. in_list. }
  destruct (buildStorageSink _ _ _ _) as [w1 [sink [err|]]].
  { intros [= _ <-]. split; [done|]. right. split; [done|]. eexists _, _. split; [|reflexivity]. in_list. }
  intros ([w2 [err|]] & _ & [= _ <-])%bind_Some; (split; [done|]).
  - right. split; [done|]. eexists _, _. split; [|reflexivity]. in_list.
  - left. split_and!; [done..|]. eauto.
Qed.

(** One of the cases of [run_exit] for a given command: the others do not apply. *)
Ltac other_command :=
  let Hh := fresh "Hh" in
  intros Hh; cbn in Hh;
  try solve [congruence | in_list_cases Hh; congruence
            | destruct Hh; first [left; in_list | right; in_list]]; clear Hh.

(** C24: what every command writes and exits with, so that scripts and hosts can
    tell what happened. [version] and [reload] write their one line. A hook command
    writes one response and always exits with 0: a host never takes a failing
    harness for a veto. A run writes one response and exits with 0 if and only if
    that response is ok, whether a daemon or the process itself has answered. A
    daemon that is started writes no response: it exits with 0 and nothing said, the
    configuration and the registry being sound, or with 1 and one line that says
    which step failed. Stopping it prints the daemon's answer, or one that says that
    there is none, and exits with 0. Anything else is one [invalid_config] response
    with its message, exits with 0 and changes nothing. Only runs and started
    daemons can go on for ever. *)
Theorem run_exit fuel ctx args decoded deps w :
  match run fuel ctx args decoded deps w with
  | None => long_running args
  | Some (w', f) =>
      (head args = Some "version" -> w' = w /\ f = mkFinished [OutText "omg dev"] [] 0) /\
      (head args = Some "reload" -> w' = w /\ f = mkFinished [out_response reload_response] [] 0) /\
      (head args ∈ [Some "on-submit"; Some "on-tool-before"] ->
         f_code f = 0%Z /\ exists resp, answered f resp) /\
      (head args = Some "run" -> exists resp, answered f resp /\ (f_code f = if resp_OK resp then 0 else 1)%Z) /\
      (take 2 args = ["daemon"; "start"] ->
         f_stdout f = [] /\
         (f_code f = 0%Z /\ f_stderr f = [] /\
            (exists cfg reg, Config.Load (os_ReadFile w) (cli_configOptions deps) = Ok cfg /\
               Build cfg (mkRegOptions false) = Ok reg) \/
          f_code f = 1%Z /\ exists what err, what ∈ start_failures /\ f_stderr f = [what +:+ Error err])) /\
      (take 2 args = ["daemon"; "stop"] ->
         w' = (cli_RoundTrip deps ctx (stop_request deps) w).1 /\ f_stderr f = [] /\ f_code f = 0%Z /\
         exists resp, answered f resp /\
           match (cli_RoundTrip deps ctx (stop_request deps) w).2 with
           | Ok r => resp = r
           | Err err => resp_OK resp = false /\ exists e, resp_Error resp = Some e /\ re_Class e = ErrorSocketUnavailable /\
               (Error err <> "" -> re_Message e = Error err)
           end) /\
      (~ known_command args ->
         w' = w /\ f = mkFinished [out_response (error_response ErrorInvalidConfig (refusal args))] [] 0)
  end.
Proof.
  unfold run, known_command, long_running. destruct args as [|cmd rest].
  { cbn. split_and!; try done. intros Hh. in_list_cases Hh; done. }
  cbn [head take refusal].
  destruct (cmd =s "version") eqn:E1; [|destruct (cmd =s "reload") eqn:E2; [|
    destruct (cmd =s "on-submit") eqn:E3; [|destruct (cmd =s "on-tool-before") eqn:E4; [|
    destruct (cmd =s "run") eqn:E5; [|destruct (cmd =s "daemon") eqn:E6]]]]]; str_simpl; subst.
  - by split_and!; other_command.
  - by split_and!; other_command.
  - destruct (runOnSubmit _ _ _ _) as [w' f] eqn:E. apply hook_command_spec in E. by split_and!; other_command.
  - destruct (runOnToolBefore _ _ _ _) as [w' f] eqn:E. apply hook_command_spec in E. by split_and!; other_command.
  - destruct (runRun _ _ _ _ _) as [[w' f]|] eqn:E; [|by left]. apply runRun_spec in E. by split_and!; other_command.
  - destruct rest as [|sub rest]; [by split_and!; other_command|]. cbn [take String.eqb Ascii.eqb Bool.eqb].
    destruct (sub =s "start") eqn:E7; [|destruct (sub =s "stop") eqn:E8]; str_simpl; subst.
    + destruct (runDaemonStart _ _ _ _) as [[w' f]|] eqn:E; [|by right]. apply runDaemonStart_spec in E.
      by split_and!; other_command.
    + unfold runDaemonStop. fold (stop_request deps).
      destruct (cli_RoundTrip deps ctx (stop_request deps) w) as [w1 [resp|err]];
        split_and!; other_command; cbn;
        (split; [reflexivity|]; split; [reflexivity|]; split; [reflexivity|]; eexists; split; [reflexivity|]).
      { reflexivity. }
      { split; [done|]. eexists. split_and!; [done..|]. intros He. apply eqb_false in He. cbn. by rewrite He. }
    + by split_and!; other_command.
  - destruct (cmd =s "daemon") eqn:E7; str_simpl; [done|]. by split_and!; other_command.
Qed.

(** ** Runs through a daemon *)

Lemma daemon_refuses_runs fuel stopCtx sink deps ctx req w :
  req_Event req = EventOnRun ->
  exists resp, daemon_handler fuel stopCtx sink deps ctx (Some req) w = Some (w, resp) /\
    resp_OK resp = false /\ exists e, resp_Error resp = Some e /\ re_Class e = ErrorInvalidConfig.
Proof.
  intros Ev. unfold daemon_handler, Handle. rewrite Ev. cbn [String.eqb Ascii.eqb Bool.eqb].
  unfold handleRun, preWorker. destruct (TrimSpace _ =s "");
    (eexists; split; [reflexivity|]; cbn; split; [done | eauto]).
Qed.

(** C31: a daemon answers every run with [invalid_config]: its handler has no worker
    factory. So while a daemon answers, [omg run] fails for every goal, runs
    nothing and does not fall back to running in its own process. *)
Theorem run_through_daemon_fails fuel fuel' ctx stopCtx sink args deps daemon w :
  (parse_run_args args).2 <> [] ->
  (forall ctx req w, req_Event req = EventOnRun -> exists w1 w2 resp,
     daemon_handler fuel' stopCtx sink daemon ctx (Some req) w1 = Some (w2, resp) /\
     cli_RoundTrip deps ctx req w = (w2, Ok (WriteResponse resp))) ->
  exists w' f resp, runRun fuel ctx args deps w = Some (w', f) /\ f_code f = 1%Z /\ answered f resp /\
    exists e, resp_Error resp = Some e /\ re_Class e = ErrorInvalidConfig.
Proof.
  intros Hg Hd. unfold runRun. destruct (parse_run_args args) as [checks goal]. cbn in Hg.
  destruct goal as [|g goal]; [done|]. destruct (newRequestID w) as [w1 id].
  set (req := run_request _ _ _ _).
  destruct (Hd ctx req w1 eq_refl) as (w2 & w3 & resp & Hh & ->).
  destruct (daemon_refuses_runs fuel' stopCtx sink daemon ctx req w2 eq_refl) as (r & Hr & Hok & Hcl).
  rewrite Hh in Hr. injection Hr as -> ->.
  exists w2, (mkFinished [out_response (WriteResponse r)] [] (exit_of (WriteResponse r))), (WriteResponse r).
  split; [reflexivity|]. unfold exit_of. cbn. by rewrite Hok.
Qed.
End cli.

(** ** Witnesses *)

#[local] Existing Instances world_clock world_exec world_files world_state world_entropy world_cancel
  plain_tables demo_yaml.

(** A command line whose client reaches a daemon of the same installation, or none. *)
Definition cli_deps (roundtrip : context -> Request -> World -> World * result Response) : CliDeps World :=
  mkCliDeps "/p" "/home/u" roundtrip (fun _ _ w => Some (w, None)) (fun _ _ _ w => (w, (None, None)))
    (fun w => w) (fun _ _ w => (w, Ok good_worker)) false.

Definition no_daemon : CliDeps World :=
  cli_deps (fun _ _ w => (w, Err (errorf "connection refused"))).
Definition with_daemon : CliDeps World :=
  cli_deps (fun ctx req w =>
    match daemon_handler 0 (WithCancel CtxRequest) None no_daemon ctx (Some req) w with
    | Some (w, resp) => (w, Ok (WriteResponse resp))
    | None => (w, Err (errorf "connection reset"))
    end).

Definition demo_args : list string := ["fix"; "--check"; "file_exists:go.mod"; "it"].

Lemma parse_run_args_render_witness :
  parse_run_args demo_args = (["file_exists:go.mod"], ["fix"; "it"]).
Proof.
  apply (parse_run_args_render [Word "fix"; Check "file_exists:go.mod"; Word "it"]).
  cbn. intros Hin. in_list_cases Hin; discriminate.
Defined.

Lemma run_exit_witness :
  match run 3 CtxRequest ("run" :: demo_args) (Err (errorf "EOF")) no_daemon w0 with
  | Some (_, f) => f_code f = 0%Z /\ exists resp, answered f resp
  | None => False
  end /\
  match run 3 CtxRequest ["daemon"; "stop"] (Err (errorf "EOF")) no_daemon w0 with
  | Some (_, f) => f_code f = 0%Z /\ exists resp, answered f resp /\ resp_OK resp = false
  | None => False
  end.
Proof.
  split.
  - pose proof (run_exit 3 CtxRequest ("run" :: demo_args) (Err (errorf "EOF")) no_daemon w0) as Hx.
    assert (match run 3 CtxRequest ("run" :: demo_args) (Err (errorf "EOF")) no_daemon w0 with
            | Some (_, f) => bool_decide (f_code f = 0%Z) | None => false end = true) as Hc by (vm_compute; reflexivity).
    destruct (run _ _ _ _ _ _) as [[w' f]|]; [|discriminate Hc].
    destruct Hx as (_ & _ & _ & Hr & _). destruct (Hr eq_refl) as (resp & Ha & _).
    split; [exact (bool_decide_eq_true_1 _ Hc)|]. exists resp. exact Ha.
  - pose proof (run_exit 3 CtxRequest ["daemon"; "stop"] (Err (errorf "EOF")) no_daemon w0) as Hx.
    cbn [run String.eqb Ascii.eqb Bool.eqb] in Hx |- *. destruct (runDaemonStop _ _ _) as [w' f].
    destruct Hx as (_ & _ & _ & _ & _ & Hr & _). destruct (Hr eq_refl) as (_ & _ & Hc & resp & Ha & He).
    split; [exact Hc|]. exists resp. split; [exact Ha|]. exact (proj1 He).
Defined.

Lemma run_through_daemon_fails_witness :
  exists w' f, runRun 0 CtxRequest demo_args with_daemon w0 = Some (w', f) /\ f_code f = 1%Z.
Proof.
  destruct (run_through_daemon_fails 0 0 CtxRequest (WithCancel CtxRequest) None demo_args with_daemon
    no_daemon w0) as (w' & f & resp & Hr & Hc & _).
  - discriminate.
  - intros ctx req w Ev.
    destruct (daemon_refuses_runs 0 (WithCancel CtxRequest) None no_daemon ctx req w Ev)
      as (resp & Hr & _).
    exists w, w, resp. split; [exact Hr|]. unfold with_daemon. cbn [cli_RoundTrip cli_deps].
    rewrite Hr. reflexivity.
  - exists w', f. split; [exact Hr | exact Hc].
Defined.
