(* ===== verification/Client.v ===== *)
(** * cmd/omg: the socket client, and the command line with its daemon

    The client of [src/cmd/omg/main.go] ([unixClient], [normalizeDeps],
    [daemonStarter]) on top of [Daemon]: what a command prints when it talks to a
    daemon that serves the handler of [runDaemonStart]. JSON on the wire keeps
    what [Json.json_value] says; [Wire] has the text. *)

From S2P Require Import Prelude GoStrings GoValue GoTime GoPath GoFS JsonText Json Protocol Wire.
From S2P Require Import State Config Registry Route Prompt Guard Adapter Storage Host.
From S2P Require Import Orchestrator Checks Run.
From S2P Require Import DemoWorld Daemon Cli CliSpec.

(** ** The client *)

Section client.
Context {W : Type} `{Clock W} `{Exec W} `{Files W} `{StateFiles W} `{Entropy W} `{Cancellation W}.
Context `{UnicodeTables} `{YAML} `{FloatText} `{JsonErrors}.

(** What dialing the socket finds. A server that is reached decodes the text of
    the request, and its handler races with its timeout; the client may give up
    waiting at its own deadline - the server has then handled the request all the
    same. The client's write may fail after [n] bytes, which the server reads. *)
Inductive socket :=
| NoServer (err : error)
| WriteFails (tiers : TimeoutTiers) (handler : Handler W) (r : race) (n : nat) (err : error)
| Server (tiers : TimeoutTiers) (handler : Handler W) (r : race) (answer : option error).

(** [unixClient.RoundTrip] *)
Definition RoundTrip (s : socket) (req : Request) (w : W) : W * result Response :=
  match s with
  | NoServer err => (w, Err err)
  | WriteFails tiers handler r n err =>
      match writeRequest req with
      | Err err => (w, Err err)
      | Ok text => ((handleConnection tiers handler CtxRequest (decode_request (str_take n text)) r w).1, Err err)
      end
  | Server tiers handler r answer =>
      match writeRequest req with
      | Err err => (w, Err err)
      | Ok text =>
          let '(w, resp) := handleConnection tiers handler CtxRequest (decode_request text) r w in
          match answer with
          | Some err => (w, Err err)
          | None => (w, decode_response (response_text resp))
          end
      end
  end.

(** The client reads the answer of a connection as JSON keeps it. *)
Lemma answer_decodes tiers (handler : Handler W) decoded r (w : W) :
  let resp := (handleConnection tiers handler CtxRequest decoded r w).2 in
  decode_response (response_text resp) = Ok (wire_response resp).
Proof.
  cbv zeta. rewrite <- (str_app_nil_r (response_text _)), response_text_decodes. do 2 f_equal.
  unfold handleConnection. destruct (ReadRequest decoded) as [[q|] [perr|]]; [done| |done..].
  destruct (handler _ q w) as [w1 resp]. destruct resp as [k id a o ws e]. by destruct r, ws.
Qed.

(** The daemon's handler; [Handle] answers without fuel, since a run is refused. *)
Definition serve_handler (stopCtx : context) (sink : option (Sink W)) (deps : CliDeps W) : Handler W :=
  fun ctx req w =>
    match daemon_handler 0 stopCtx sink deps ctx (Some req) w with
    | Some answer => answer
    | None => (w, OKResponse (Some req) ActionNone "" None)
    end.

Definition defaultSocketPath (tempDir : string) : string := JoinPath [tempDir; "omg.sock"].
Definition defaultLockPath (tempDir : string) : string := JoinPath [tempDir; "omg.lock"].

(** Default timeouts of the daemon that [daemonStarter] creates. *)
Definition starter_tiers : TimeoutTiers := withDefaultTimeouts (mkTiers 0 0 0 0 0 0).

(** [normalizeDeps]: working and home directory are filled in when they are empty
    and can be found; the client, the starter and the worker factory are the
    ones given, or the defaults. *)
Definition normalize_dirs (getwd home : result string) (deps : CliDeps W) : CliDeps W :=
  let fill (s : string) (r : result string) :=
    if s =s "" then match r with Ok d => d | Err _ => s end else s in
  mkCliDeps (fill (cli_cwd deps) getwd) (fill (cli_home deps) home) (cli_RoundTrip deps) (cli_Start deps)
    (cli_newSink deps) (cli_Shutdown deps) (cli_workerFactory deps) (cli_stderrDiag deps).

(** The command line whose client dials [s]. *)
Definition dialing (s : socket) (deps : CliDeps W) : CliDeps W :=
  mkCliDeps (cli_cwd deps) (cli_home deps) (fun _ req w => RoundTrip s req w) (cli_Start deps)
    (cli_newSink deps) (cli_Shutdown deps) (cli_workerFactory deps) (cli_stderrDiag deps).

(** ** The guard is never given a rule *)

Definition unblocking (action : string) : Prop := action ∈ [ActionNone; ActionInjectPrompt; ActionWarn].

Lemma unblocking_wire action : unblocking action -> json_string action <> ActionBlock.
Proof. unfold unblocking. intros Ha. in_list_cases Ha; subst; vm_compute; discriminate. Qed.

Lemma Handle_unblocking fuel ctx req (d : Dependencies W) w w' resp :
  dep_GuardRules d = [] -> dep_WorkerFactory d = None ->
  Handle fuel ctx (Some req) d w = Some (w', resp) -> unblocking (resp_Action resp).
Proof.
  intros Hg Hf. unfold Handle, unblocking. cbv zeta.
  destruct (req_Event req =s EventOnSubmit).
  { unfold handleSubmit. intros [= E]. revert E. repeat go_case; try (intros [= _ <-]; in_list). }
  destruct (req_Event req =s EventOnToolBefore).
  { unfold handleToolBefore. rewrite Hg. cbn.
    destruct (recordStorageEvent _ _ _ _ _) as [w1 err]. intros [= _ <-]. in_list. }
  assert (forall to context w' resp, handleStateTransition ctx req d to context w = (w', resp) ->
    resp_Action resp ∈ [ActionNone; ActionInjectPrompt; ActionWarn]) as Hst.
  { intros to context w1 resp1. unfold handleStateTransition. cbv zeta. intros E. revert E.
    repeat go_case; try (intros [= _ <-]; in_list). }
  destruct (req_Event req =s EventOnError); [intros [= E]; eauto|].
  destruct (req_Event req =s EventOnStop); [intros [= E]; eauto|].
  destruct (req_Event req =s EventOnToolAfter).
  { unfold handleToolAfter. intros [= E]. revert E. repeat go_case; intros [= _ <-]; in_list. }
  destruct (req_Event req =s EventOnCompact); [intros [= _ <-]; in_list|].
  destruct (req_Event req =s EventOnRun); [|intros [= _ <-]; in_list].
  unfold handleRun, preWorker. rewrite Hf. destruct (TrimSpace _ =s ""); intros [= _ <-]; in_list.
Qed.
(** A daemon that [omg daemon start] has started. *)
Definition started_daemon (s : socket) : Prop :=
  match s with
  | WriteFails _ handler _ _ _ | Server _ handler _ _ => exists stopCtx sink deps, handler = serve_handler stopCtx sink deps
  | _ => True
  end.

Lemma serve_handler_unblocking stopCtx sink deps ctx req w :
  unblocking (resp_Action (serve_handler stopCtx sink deps ctx req w).2).
Proof.
  unfold serve_handler, daemon_handler.
  destruct (Handle 0 ctx (Some req) (orchestrator_deps deps sink None) w) as [[w1 resp]|] eqn:E; cbn;
    [|in_list]. eapply (Handle_unblocking 0 ctx req (orchestrator_deps deps sink None)); [done|done|exact E].
Qed.

Lemma handleConnection_unblocking tiers stopCtx sink deps decoded r w :
  unblocking (resp_Action (handleConnection tiers (serve_handler stopCtx sink deps) CtxRequest decoded r w).2).
Proof.
  unfold handleConnection. destruct (ReadRequest decoded) as [[q|] [perr|]]; try (cbn; in_list).
  pose proof (serve_handler_unblocking stopCtx sink deps (WithTimeout CtxRequest (timeoutFor tiers (Some q))) q w)
    as Hh. destruct (serve_handler _ _ _ _ _ _) as [w2 resp2]. destruct r; [exact Hh|cbn; in_list].
Qed.

Lemma RoundTrip_unblocking s req w w' resp :
  started_daemon s -> RoundTrip s req w = (w', Ok resp) -> resp_Action resp <> ActionBlock.
Proof.
  destruct s as [err|tiers handler r n err|tiers handler r answer]; cbn [started_daemon RoundTrip];
    [done|by destruct (writeRequest req)|].
  intros (stopCtx & sink & deps & ->). destruct (writeRequest req) as [text|]; [|done].
  pose proof (answer_decodes tiers (serve_handler stopCtx sink deps) (decode_request text) r w) as Hd.
  pose proof (handleConnection_unblocking tiers stopCtx sink deps (decode_request text) r w) as Hu.
  destruct (handleConnection tiers _ CtxRequest (decode_request text) r w) as [w1 resp1].
  cbn [snd] in *. destruct answer; [done|]. rewrite Hd. intros [= _ <-]. by apply unblocking_wire.
Qed.

(** The shipped program never blocks a tool call: no command line and no daemon
    it starts gives the guard a rule, and without a daemon [omg on-tool-before]
    answers with a warning. Whatever the request, the configuration, the outcome
    of the dial and the races, a hook command prints no [block]. *)
Theorem cli_never_blocks s ctx decoded deps w :
  started_daemon s ->
  forall w' f, runOnToolBefore ctx decoded (dialing s deps) w = (w', f) \/
               runOnSubmit ctx decoded (dialing s deps) w = (w', f) ->
  exists resp, f_stdout f = [out_response resp] /\ resp_Action resp <> ActionBlock.
Proof.
  intros Hs w' f. assert (forall fallback, (forall req err w, resp_Action (fallback req err w) = ActionWarn) ->
    hook_command fallback ctx decoded (dialing s deps) w = (w', f) ->
    exists resp, f_stdout f = [out_response resp] /\ resp_Action resp <> ActionBlock) as Hh.
  { intros fallback Hf. unfold hook_command.
    destruct (ReadRequest decoded) as [[req|] [perr|]]; try (intros [= _ <-]; by eexists).
    cbn [cli_RoundTrip dialing]. destruct (RoundTrip s req w) as [w1 [resp|err]] eqn:E; intros [= _ <-].
    - exists resp. split; [done|]. by eapply RoundTrip_unblocking.
    - eexists. split; [done|]. by rewrite Hf. }
  intros [E|E]; (eapply Hh; [|exact E]); [done|].
  intros req err w0. unfold inlineSubmitFallback. destruct (Config.Load _ _); [|done].
  by destruct (Build _ _).
Qed.

(** ** The exit code of a run in its own process *)

(** [omg run] without a daemon exits with 0 exactly when the run was prepared -
    configuration, worker, session, spawn - and never tells whether the worker
    or the verification then succeeded: a failed run is an ok response. *)
Theorem inline_exit_is_preparation fuel ctx req deps w w' f cfg
    (Hev : req_Event req = EventOnRun)
    (Hcfg : Config.Load (os_ReadFile w) (cli_configOptions deps) = Ok cfg)
    (Hrun : runInlineFallback fuel ctx req deps w = Some (w', f)) :
  let '(w1, (sink, _)) := buildStorageSink ctx cfg deps w in
  f_code f = 0%Z <->
  exists s p, preWorker ctx req (orchestrator_deps deps sink (Some (cli_workerFactory deps))) (w1, []) = (s, inr p).
Proof.
  unfold runInlineFallback in Hrun. rewrite Hcfg in Hrun.
  destruct (buildStorageSink ctx cfg deps w) as [w1 [sink storageErr]].
  apply bind_Some in Hrun as ([w2 resp] & Hh & [= _ <-]). cbn [f_code].
  unfold Handle in Hh. rewrite Hev in Hh. cbv zeta in Hh. cbn [String.eqb Ascii.eqb Bool.eqb] in Hh.
  change (handleRun fuel ctx req (orchestrator_deps deps sink (Some (cli_workerFactory deps))) w1
          = Some (w2, resp)) in Hh.
  unfold handleRun in Hh. destruct (preWorker _ _ _ _) as [[w3 ws] [bail|p]].
  - injection Hh as _ <-. cbn. split; [done|]. by intros (s & p & [=]).
  - apply bind_Some in Hh as ([[w4 ws4] o] & _ & [= _ <-]). split; [eauto|]. intros _.
    unfold buildRunResponse. by destruct (out_Success o).
Qed.
End client.

(** ** Witnesses *)

#[local] Existing Instances world_clock world_exec world_files world_state world_entropy world_cancel
  plain_tables demo_yaml plain_floats plain_errors.

Definition demo_daemon : socket (W := World) :=
  Server starter_tiers (serve_handler (WithCancel CtxRequest) None no_daemon) HandlerFirst None.
Definition demo_tool : Request := demo_request EventOnToolBefore {["tool" := VString "Write"]}.

Lemma cli_never_blocks_witness :
  exists resp, f_stdout (runOnToolBefore CtxRequest (Ok demo_tool) (dialing demo_daemon no_daemon) w0).2
      = [out_response resp] /\ resp_Action resp <> ActionBlock.
Proof.
  destruct (runOnToolBefore CtxRequest (Ok demo_tool) (dialing demo_daemon no_daemon) w0) as [w' f] eqn:E.
  apply (cli_never_blocks demo_daemon CtxRequest (Ok demo_tool) no_daemon w0) with (w' := w').
  - exists (WithCancel CtxRequest), None, no_daemon. reflexivity.
  - left. exact E.
Defined.

(** A run whose verification fails. *)
Definition failing_run : Request := DemoWorld.run_request ["bash:false"; "nonsense"].

Lemma inline_exit_is_preparation_witness :
  exists w' f, runInlineFallback 3 CtxRequest failing_run no_daemon w0 = Some (w', f) /\
    (f_code f = 0%Z <-> exists s p, preWorker CtxRequest failing_run
       (orchestrator_deps no_daemon None (Some (cli_workerFactory no_daemon))) (w0, []) = (s, inr p)).
Proof.
  destruct (runInlineFallback 3 CtxRequest failing_run no_daemon w0) as [[w' f]|] eqn:E.
  - exists w', f. split; [reflexivity|].
    destruct (Config.Load (os_ReadFile w0) (cli_configOptions no_daemon)) as [cfg|err] eqn:Ec;
      [|exfalso; vm_compute in Ec; discriminate Ec].
    exact (inline_exit_is_preparation 3 CtxRequest failing_run no_daemon w0 w' f cfg eq_refl Ec E).
  - exfalso.
    assert (bool_decide (is_Some (runInlineFallback 3 CtxRequest failing_run no_daemon w0)) = true) as Hs
      by (vm_compute; reflexivity).
    rewrite E in Hs. discriminate Hs.
Defined.

(** It exits with 0. *)
Example failing_run_exits_0 :
  match runInlineFallback 3 CtxRequest failing_run no_daemon w0 with
  | Some (_, f) => f_code f = 0%Z /\
      match f_stdout f with [OutResponse resp] => resp_Action resp = ActionWarn | _ => False end
  | None => False
  end.
Proof. vm_compute. by split. Qed.
