(* ===== verification/Process.v ===== *)
(** * cmd/omg: the process

    The command line of [src/cmd/omg/main.go] from the bytes of its standard input
    to those of its standard output: [Cli] between [Wire.decode_request] and
    [Wire.response_text]. A host starts [omg on-submit] or [omg on-tool-before] for
    every hook event and depends on getting one answer. *)

From S2P Require Import Prelude GoStrings GoValue GoTime GoPath GoFS JsonText Json JsonValid JsonLine Protocol Wire Relay.
From S2P Require Import State Config Registry Route Prompt Guard Adapter Storage Host.
From S2P Require Import Orchestrator Checks Run.
From S2P Require Import DemoWorld HandleSpec Daemon Cli CliSpec Client.

(** ** The process *)

Record process_end := mkProcess { pr_stdout : string; pr_stderr : list string; pr_code : Z }.

Section process.
Context {W : Type} `{Clock W} `{Exec W} `{Files W} `{StateFiles W} `{Entropy W} `{Cancellation W}.
Context `{UnicodeTables} `{YAML} `{FL : FloatLaws} `{JE : JsonErrors}.

(** [fmt.Fprintln] of a text, [protocol.WriteResponse] of a response. *)
Definition output_text (o : output) : string :=
  match o with OutText s => s +:+ nl | OutResponse resp => response_text resp end.

Definition process (fuel : nat) (ctx : context) (args : list string) (stdin : string) (deps : CliDeps W) (w : W)
    : option (W * process_end) :=
  '(w, f) ← Cli.run fuel ctx args (decode_request stdin) deps w;
  Some (w, mkProcess (String.concat "" (map output_text (f_stdout f))) (f_stderr f) (f_code f)).

(** ** One answer for every event *)

(** An answer that a host can rely on: a well-formed response under the id of the
    request, if there was one, that blocks nothing. *)
Definition fit_answer (decoded : result Request) (resp : Response) : Prop :=
  well_formed_response resp /\ unblocking (resp_Action resp) /\
  resp_RequestID resp = match decoded with Ok req => req_RequestID req | Err _ => "" end.

Lemma unblocking_ascii action : unblocking action -> json_string action = action.
Proof. unfold unblocking. intros Ha. in_list_cases Ha; by subst. Qed.

(** It is one after the round trip too. *)
Lemma fit_wire decoded resp :
  match decoded with Ok req => valid (req_RequestID req) | Err _ => True end ->
  fit_answer decoded resp -> fit_answer decoded (wire_response resp).
Proof.
  intros Hid ((Hw & Ha & He) & Hu & Er). destruct resp as [k id a o ws e].
  cbn [resp_Warnings resp_Action resp_Error resp_OK resp_RequestID] in *.
  pose proof (unblocking_ascii a Hu) as Ea. unfold fit_answer, well_formed_response, wire_response.
  cbn [resp_Warnings resp_Action resp_Error resp_OK resp_RequestID]. rewrite Ea.
  split_and!; [by destruct ws|done| |done|].
  - destruct e as [e|]; [|done]. destruct He as (? & ? & ?).
    split_and!; [done|by apply json_string_nonempty..].
  - rewrite Er. by destruct decoded as [req|].
Qed.

Lemma fit_write decoded resp : fit_answer decoded resp -> fit_answer decoded (WriteResponse resp).
Proof.
  intros ((Hw & Ha & He) & Hu & Er). destruct resp as [k id a o [ws|] e]; by split_and!.
Qed.

Lemma serve_handler_answers stopCtx sink deps ctx req (w : W) :
  answers req (serve_handler stopCtx sink deps ctx req w).2.
Proof.
  unfold serve_handler, daemon_handler.
  destruct (Handle 0 ctx (Some req) (orchestrator_deps deps sink None) w) as [[w1 resp]|] eqn:E; cbn [mbind option_bind].
  - by eapply Handle_answered.
  - apply answers_ok. in_list.
Qed.

Lemma handleConnection_fit tiers stopCtx sink deps decoded r (w : W) :
  fit_answer decoded (handleConnection tiers (serve_handler stopCtx sink deps) CtxRequest decoded r w).2.
Proof.
  destruct (handleConnection_answers tiers (serve_handler stopCtx sink deps) CtxRequest decoded r w) as [Hw Hd].
  { intros ctx req v. destruct (serve_handler_answers stopCtx sink deps ctx req v) as ((Hw & Ha & He) & Hid & _).
    split; [|done]. destruct (serve_handler stopCtx sink deps ctx req v).2 as [k id a o ws e]. cbn in *.
    split; [by destruct ws|done]. }
  split; [done|]. split; [apply handleConnection_unblocking|]. destruct decoded; apply Hd.
Qed.
(** What a hook command does to the world: the daemon, if there is one, handles
    the request that was read - or, when writing it fails, what it got of it. *)
Definition served (s : socket) (decoded : result Request) (w : W) : W :=
  match s, ReadRequest decoded with
  | Server tiers handler r _, (Some req, None) => (handleConnection tiers handler CtxRequest (Ok req) r w).1
  | WriteFails tiers handler r n _, (Some req, None) =>
      match writeRequest req with
      | Ok text => (handleConnection tiers handler CtxRequest (decode_request (str_take n text)) r w).1
      | Err _ => w
      end
  | _, _ => w
  end.

(** The id of a request that was read is valid. *)
Lemma decoded_id stdin :
  match decode_request stdin with Ok req => valid (req_RequestID req) | Err _ => True end.
Proof.
  destruct (decode_request stdin) as [req|] eqn:E; [|done]. apply decode_steady in E as (D & _ & Hr).
  pose proof (st_strings _ _ Hr) as Hs. by decompose_Forall_hyps.
Qed.

Lemma hook_command_answers fallback s ctx stdin deps (w : W) :
  (forall req err w, fit_answer (Ok req) (fallback req err w)) -> started_daemon s ->
  let '(w', f) := hook_command fallback ctx (decode_request stdin) (dialing s deps) w in
  w' = served s (decode_request stdin) w /\ f_code f = 0%Z /\
  exists resp, f_stdout f = [out_response resp] /\ fit_answer (decode_request stdin) resp.
Proof.
  intros Hf Hs. unfold hook_command, served.
  assert (forall req perr, ValidateRequest (Some req) = Some perr ->
    fit_answer (Ok req) (ErrorResponse (Some req) ActionWarn (Some perr) None)) as He.
  { intros req perr Hp. split_and!; [|cbn; in_list|done]. apply ErrorResponse_well_formed.
    by apply ValidateRequest_error in Hp as (-> & ? & _). }
  pose proof (decoded_id stdin) as Hid.
  destruct (decode_request stdin) as [req|err] eqn:E; cbn [ReadRequest].
  2: { split; [by destruct s|]. split; [done|]. eexists. split; [done|].
       split_and!; [apply ErrorResponse_new_well_formed|cbn; in_list|done]. }
  destruct (ValidateRequest (Some req)) as [perr|] eqn:Hv.
  { split; [by destruct s|]. split; [done|]. eexists. split; [done|]. by apply He. }
  cbn [cli_RoundTrip dialing].
  destruct (passed_on stdin req "" E) as (text & Et & Ht). rewrite str_app_nil_r in Ht.
  destruct s as [err|tiers handler r n err|tiers handler r answer]; cbn [RoundTrip]; rewrite ?Et;
    [split; [done|]; split; [done|]; eexists; split; [done|]; apply Hf..|].
  destruct Hs as (stopCtx & sink & deps' & ->). rewrite Ht.
  pose proof (answer_decodes tiers (serve_handler stopCtx sink deps') (Ok req) r w) as Hd.
  pose proof (handleConnection_fit tiers stopCtx sink deps' (Ok req) r w) as Hfit.
  destruct (handleConnection tiers _ CtxRequest (Ok req) r w) as [w1 resp]. cbn [fst snd] in *.
  destruct answer as [err|]; [|rewrite Hd]; (split; [done|]; split; [done|]; eexists; split; [done|]); [apply Hf|].
  by apply fit_wire.
Qed.

Lemma submit_fallback_answers req deps err (w : W) : fit_answer (Ok req) (inlineSubmitFallback req deps err w).
Proof.
  unfold inlineSubmitFallback. destruct (Config.Load _ _) as [cfg|]; [destruct (Build _ _)|];
    (split_and!; [first [apply ErrorResponse_new_well_formed | by apply OKResponse_well_formed]|cbn; in_list|done]).
Qed.

(** C3: a host gets one answer for every event: whatever bytes it writes to the
    standard input of [omg on-submit] or [omg on-tool-before], whatever the
    configuration, the outcome of the dial and the races, the process exits with 0
    and its standard output is one line of JSON, which decodes to a well-formed
    response under the id of the request that does not block. And a daemon that
    is reached handles the very request that was read. *)
Theorem hook_process s fuel ctx cmd rest stdin deps (w : W) :
  cmd = "on-submit" \/ cmd = "on-tool-before" -> started_daemon s ->
  exists line err resp,
    process fuel ctx (cmd :: rest) stdin (dialing s deps) w
      = Some (served s (decode_request stdin) w, mkProcess (line +:+ nl) err 0) /\
    one_line line /\ decode_response (line +:+ nl) = Ok resp /\ fit_answer (decode_request stdin) resp.
Proof.
  intros Hcmd Hs.
  assert (exists fallback, (forall req err w, fit_answer (Ok req) (fallback req err w)) /\
    Cli.run fuel ctx (cmd :: rest) (decode_request stdin) (dialing s deps) w
    = Some (hook_command fallback ctx (decode_request stdin) (dialing s deps) w)) as (fallback & Hf & Er).
  { destruct Hcmd as [-> | ->]; eexists; (split; [|reflexivity]); intros req err v; [apply submit_fallback_answers|].
    split_and!; [by apply OKResponse_well_formed|cbn; in_list|done]. }
  pose proof (hook_command_answers fallback s ctx stdin deps w Hf Hs) as Ha. unfold process. rewrite Er.
  destruct (hook_command _ _ _ _ _) as [w' [out err code]]. cbn [f_code f_stdout] in Ha.
  destruct Ha as (-> & -> & resp & -> & Hfit).
  pose proof (fit_wire _ _ (decoded_id stdin) (fit_write _ _ (fit_write _ _ Hfit))) as Hfit'.
  eexists (print (JObj (response_members (WriteResponse (WriteResponse resp))))), err, _.
  split_and!; [reflexivity| | |exact Hfit'].
  - apply print_line, (response_fits (WriteResponse (WriteResponse resp))).
  - pose proof (response_text_decodes (WriteResponse resp) "") as Hd. by rewrite str_app_nil_r in Hd.
Qed.
(** ** What a submitted prompt is answered *)

#[local] Arguments json_string : simpl never.

(** What a hook command prints of its own response [resp] decodes to [read]. *)
Lemma printed_response resp :
  decode_response (output_text (out_response resp)) = Ok (wire_response (WriteResponse resp)).
Proof.
  cbn [output_text out_response]. rewrite <- (str_app_nil_r (response_text _)), response_text_decodes.
  by destruct resp as [k id a o [ws|] e].
Qed.

Lemma wire_response_twice resp : wire_response (wire_response resp) = wire_response resp.
Proof.
  destruct resp as [k id a o ws e]. unfold wire_response.
  cbn [resp_OK resp_RequestID resp_Action resp_Output resp_Warnings resp_Error].
  assert (forall s, json_string (json_string s) = json_string s) as Hv by (intros; apply json_string_valid).
  rewrite !Hv. f_equal.
  - destruct ws as [ws|]; [|done]. cbn [fmap option_fmap option_map]. f_equal. rewrite map_map. apply map_ext. exact Hv.
  - destruct e as [[c m b]|]; [|done]. cbn [fmap option_fmap option_map re_Class re_Message re_Retryable]. by rewrite !Hv.
Qed.

(** What the client reads of a daemon's response, and the host of that. *)
Lemma relayed_response resp :
  exists r, decode_response (response_text (WriteResponse resp)) = Ok r /\
    decode_response (output_text (out_response r)) = Ok (wire_response (WriteResponse resp)).
Proof.
  eexists. split.
  - rewrite <- (str_app_nil_r (response_text _)). apply response_text_decodes.
  - rewrite printed_response, <- (wire_response_twice (WriteResponse resp)).
    by destruct resp as [k id a o [ws|] e].
Qed.

(** The answer of the process itself, without a daemon's: a warning under the id of
    the request that says why the daemon was not asked. When the configuration is
    sound it is ok and says where the prompt would have gone; otherwise it says what
    is wrong with the configuration. *)
Definition inline_answer (deps : CliDeps W) (req : Request) (err : error) (w : W) (resp : Response) : Prop :=
  let socket := "socket unavailable: " +:+ Error err in
  let refused e := exists message,
    resp = mkResponse false (req_RequestID req) ActionWarn "" (Some [json_string socket])
             (Some (mkResponseError ErrorInvalidConfig (json_string message) false)) /\
    (Error e <> "" -> message = Error e) in
  match Config.Load (os_ReadFile w) (cli_configOptions deps) with
  | Err e => refused e
  | Ok cfg =>
      match Build cfg (mkRegOptions false) with
      | Err e => refused e
      | Ok reg =>
          let r := Route.Route (cli_payloadText req) reg in
          resp = mkResponse true (req_RequestID req) ActionWarn ""
            (Some [json_string socket;
                   json_string ("inline fallback: procedure=" +:+ rt_Procedure r +:+ " domain=" +:+ rt_Domain r
                     +:+ " agent=" +:+ rt_Agent r +:+ " confidence=" +:+ rt_Confidence r)]) None
      end
  end.

Lemma inlineSubmitFallback_answer deps req err (w : W) :
  valid (req_RequestID req) ->
  inline_answer deps req err w (wire_response (WriteResponse (inlineSubmitFallback req deps err w))).
Proof.
  intros Hid. unfold inline_answer, inlineSubmitFallback.
  assert (forall e, exists message,
    wire_response (WriteResponse (ErrorResponse (Some req) ActionWarn
       (Some (NewProtocolError ErrorInvalidConfig (Error e) false))
       (Some ["socket unavailable: " +:+ Error err]))) =
    mkResponse false (req_RequestID req) ActionWarn "" (Some [json_string ("socket unavailable: " +:+ Error err)])
      (Some (mkResponseError ErrorInvalidConfig (json_string message) false)) /\
    (Error e <> "" -> message = Error e)) as Hrefused.
  { intros e. exists (if Error e =s "" then "unknown protocol error" else Error e). split.
    - unfold wire_response. cbn. by rewrite Hid.
    - intros He%eqb_false. by rewrite He. }
  destruct (Config.Load _ _) as [cfg|e]; [|apply Hrefused].
  destruct (Build _ _) as [reg|e]; [|apply Hrefused].
  unfold wire_response. cbn. by rewrite Hid.
Qed.

(** What the daemon does with the request [req] in [w]: its handler gets it with the
    timeout of its event, shortened by the request. *)
Definition handled (tiers : TimeoutTiers) (handler : Handler W) (req : Request) (w : W) : W * Response :=
  handler (WithTimeout CtxRequest (timeoutFor tiers (Some req))) req w.

(** C23: what [omg on-submit] answers to a request that it can read and that is valid,
    from the bytes of its standard input to those of its output, for every outcome of
    the dial. It always exits with 0 and prints one response. The answer of a daemon
    that is reached in time is the answer of its handler for that very request under
    the request's timeout - as JSON keeps it -, or a retryable timeout when the
    handler was too slow. Without a daemon, when writing the request fails or when
    the client gives up waiting, it is the inline answer: a warning with the route of
    the prompt, or with what is wrong with the configuration. A daemon that got the
    request has handled it in all of these cases; one that got a part of it has
    handled nothing or the whole request. *)
Theorem submit_end_to_end s fuel ctx rest stdin deps req (w : W)
    (Hread : decode_request stdin = Ok req) (Hvalid : ValidateRequest (Some req) = None) :
  exists w' text err resp,
    process fuel ctx ("on-submit" :: rest) stdin (dialing s deps) w = Some (w', mkProcess text err 0) /\
    decode_response text = Ok resp /\
    match s with
    | NoServer e => w' = w /\ inline_answer deps req e w resp
    | WriteFails tiers handler _ _ e =>
        (w' = w \/ w' = (handled tiers handler req w).1) /\ inline_answer deps req e w' resp
    | Server tiers handler r answer =>
        w' = (handled tiers handler req w).1 /\
        match answer, r with
        | Some e, _ => inline_answer deps req e w' resp
        | None, HandlerFirst => resp = wire_response (WriteResponse (handled tiers handler req w).2)
        | None, TimedOut =>
            resp = mkResponse false (req_RequestID req) ActionWarn "" (Some [])
                     (Some (mkResponseError ErrorTimeout "daemon request timed out" true))
        end
    end.
Proof.
  pose proof (decoded_id stdin) as Hid. rewrite Hread in Hid. unfold process. cbn [Cli.run].
  change ("on-submit" =s "version") with false. change ("on-submit" =s "reload") with false.
  change ("on-submit" =s "on-submit") with true. cbn iota.
  unfold runOnSubmit, hook_command. rewrite Hread. cbn [ReadRequest]. rewrite Hvalid. cbn [cli_RoundTrip dialing].
  destruct (passed_on stdin req "" Hread) as (text & Et & Ht). rewrite str_app_nil_r in Ht.
  assert (forall e w', exists resp,
    decode_response (output_text (out_response (inlineSubmitFallback req deps e w'))) = Ok resp /\
    inline_answer deps req e w' resp) as Hinline.
  { intros e w'. eexists. split; [apply printed_response|]. by apply inlineSubmitFallback_answer. }
  destruct s as [e|tiers handler r n e|tiers handler r answer]; cbn [RoundTrip]; rewrite ?Et.
  - destruct (Hinline e w) as (resp & Hd & Hi). eexists _, _, _, resp. split; [reflexivity|]. by split_and!.
  - destruct (Hinline e (handleConnection tiers handler CtxRequest (decode_request (str_take n text)) r w).1)
      as (resp & Hd & Hi). eexists _, _, _, resp. split; [reflexivity|]. split; [exact Hd|]. split; [|exact Hi].
    unfold handleConnection. destruct (passed_on_part stdin req text n Hread Et) as [-> | [err ->]]; cbn [ReadRequest].
    + rewrite Hvalid. right. unfold handled. by destruct (handler _ req w), r.
    + by left.
  - rewrite Ht. unfold handleConnection. cbn [ReadRequest]. rewrite Hvalid. unfold handled.
    destruct (handler _ req w) as [w1 h]. destruct answer as [e|].
    + destruct (Hinline e w1) as (resp & Hd & Hi).
      destruct r; (eexists _, _, _, resp; split; [reflexivity|]; by split_and!).
    + destruct r.
      * destruct (relayed_response h) as (x & -> & Hx). eexists _, _, _, _. split; [reflexivity|]. by split_and!.
      * set (late := ErrorResponse _ _ _ _). destruct (relayed_response late) as (x & -> & Hx).
        eexists _, _, _, _. split; [reflexivity|]. split; [exact Hx|]. split; [done|].
        unfold late, wire_response. cbn. by rewrite Hid.
Qed.
End process.

(** ** Witnesses *)

#[local] Existing Instances world_clock world_exec world_files world_state world_entropy world_cancel
  plain_tables demo_yaml plain_floats plain_errors plain_floats_laws.

Definition demo_stdin : string := match writeRequest demo_tool with Ok text => text | Err _ => "" end.

Lemma hook_process_witness :
  exists line err resp,
    process 0 CtxRequest ["on-tool-before"] demo_stdin (dialing demo_daemon no_daemon) w0
      = Some (served demo_daemon (decode_request demo_stdin) w0, mkProcess (line +:+ nl) err 0) /\
    one_line line /\ decode_response (line +:+ nl) = Ok resp /\ fit_answer (decode_request demo_stdin) resp.
Proof.
  apply (hook_process demo_daemon 0 CtxRequest "on-tool-before" [] demo_stdin no_daemon w0).
  - right. reflexivity.
  - exists (WithCancel CtxRequest), None, no_daemon. reflexivity.
Defined.

(** A prompt, with a daemon and without one. *)
Definition demo_submit : Request := demo_request EventOnSubmit {["input" := VString "fix the build"]}.
Definition submit_stdin : string := match writeRequest demo_submit with Ok text => text | Err _ => "" end.

Lemma submit_end_to_end_witness :
  (exists w' text err resp,
    process 0 CtxRequest ["on-submit"] submit_stdin (dialing demo_daemon no_daemon) w0
      = Some (w', mkProcess text err 0) /\ decode_response text = Ok resp /\
    resp = wire_response (WriteResponse
      (handled starter_tiers (serve_handler (WithCancel CtxRequest) None no_daemon) demo_submit w0).2)) /\
  (exists text err resp,
    process 0 CtxRequest ["on-submit"] submit_stdin (dialing (NoServer (errorf "refused")) no_daemon) w0
      = Some (w0, mkProcess text err 0) /\ decode_response text = Ok resp /\
    inline_answer no_daemon demo_submit (errorf "refused") w0 resp).
Proof.
  assert (decode_request submit_stdin = Ok demo_submit) as Hread by (vm_compute; reflexivity).
  assert (ValidateRequest (Some demo_submit) = None) as Hvalid by (vm_compute; reflexivity).
  split.
  - destruct (submit_end_to_end demo_daemon 0 CtxRequest [] submit_stdin no_daemon demo_submit w0 Hread Hvalid)
      as (w' & text & err & resp & Hp & Hd & _ & Hr).
    exists w', text, err, resp. split; [exact Hp|]. split; [exact Hd|exact Hr].
  - destruct (submit_end_to_end (NoServer (errorf "refused")) 0 CtxRequest [] submit_stdin no_daemon demo_submit w0
      Hread Hvalid) as (w' & text & err & resp & Hp & Hd & Hw & Hr).
    exists text, err, resp. rewrite Hw in Hp. split; [exact Hp|]. split; [exact Hd|exact Hr].
Defined.

(** A request that is not JSON, and one that is, without a daemon. *)
Definition answer_of (stdin : string) : result Response :=
  match process 0 CtxRequest ["on-tool-before"] stdin (dialing (NoServer (errorf "refused")) no_daemon) w0 with
  | Some (_, p) => decode_response (pr_stdout p)
  | None => Err (errorf "")
  end.
Example bad_stdin :
  match answer_of "{" with
  | Ok resp => resp_Error resp = Some (mkResponseError ErrorInvalidConfig "decode request: invalid JSON" false)
  | Err _ => False
  end.
Proof. vm_compute. reflexivity. Qed.
Example good_stdin :
  match answer_of demo_stdin with
  | Ok resp => resp_OK resp = true /\ resp_Action resp = ActionWarn /\ resp_RequestID resp = req_RequestID demo_tool /\
               resp_Warnings resp = Some ["socket unavailable: refused"; "on-tool-before stub fallback"]
  | Err _ => False
  end.
Proof. vm_compute. split_and!; reflexivity. Qed.
